(** * hobby-cluster: the inventory plugin [plugins/inventory/cluster.py]

    A shallow embedding of the three allocators ([NetworkManager],
    [ValueManager], [HostTimeAssigner]) and of the reconciliation pass of
    [InventoryModule], followed by the properties of the specification.

    Conventions of the embedding.
    - Python integers are [Z]; strings are [string]; an insertion-ordered
      [dict] is an association list whose keys are pairwise distinct; a
      Python [set] is a [gset].
    - A method that may raise returns a [result]; the pass itself runs in
      a state-and-exception monad over the plugin instance, whose outcome
      keeps the instance as it was when the exception left the pass.
    - The configuration document is typed by the schema the plugin reads
      (group names carry no dot, so the dotted lookup of [_get_config]
      reaches the field it names); a key that is absent or null is [None].
    - The inventory sink is the log of the calls made on it. *)

From Stdlib Require Import ZArith Lia List Bool Ascii String.
From Stdlib Require Import DecimalString DecimalZ Sorted.
From stdpp Require Import base decidable option list sorting gmap strings.

Import ListNotations.
Local Open Scope string_scope.
Local Open Scope list_scope.
Local Open Scope Z_scope.

(* ===================================================================== *)
(** * Exceptions and results *)
(* ===================================================================== *)

(** One constructor per [raise] site of the source (the text of the
    message is what the constructor's name says). *)
Inductive msg : Type :=
  (* NetworkManager *)
  | NoAvailableIPs
  | NotAValidHostAddress (ip : string)
  | AlreadyReserved (ip : string)
  | InvalidAddress (ip : string)
  | InvalidNetwork (cidr : string)
  (* ValueManager *)
  | ItemNotFound (item : option string)
  | MinOfEmptySequence
  (* HostTimeAssigner *)
  | InvalidTimeFormat (start_str end_str : string)
  | EndNotAfterStart (start_str end_str : string)
  | NoHostsDefined
  | NotEnoughMinutes (need have : Z)
  | UnknownGroup (group : string)
  | AllSlotsAssigned (group : string)
  (* InventoryModule *)
  | NodesEmpty
  | MissingCloudToken
  | MissingUpgradeTimes
  | GroupWithoutRole (group : string)
  | GroupWithoutType (group : string)
  | GroupWithoutNum (group : string)
  | NoControlGroup
  | NoWorkerGroup
  | TwoControlPlaneNodes
  | VolumeWithoutName
  | VolumeWithoutSize
  | VolumeShrinking (name : string) (configured current : Z)
  | InvalidIntLiteral (s : string)
  | NoCloudToken
  | CloudApiFailure (detail : string)
  | NoPrimaryNetwork (server : string)
  | ReserveFailed (ip server : string) (cause : msg)
  | GroupNoServerType (group : string)
  | GroupNoImage (group : string)
  | GroupNoHosts (group : string)
  | UnsetAttribute (name : string).

(** The exception classes the source raises and catches. *)
Inductive exn : Type :=
  | AnsibleError (m : msg)
  | ValueError (m : msg)
  | RuntimeError (m : msg)
  | AttributeError (m : msg).

Inductive result (A : Type) : Type :=
  | Ok (a : A)
  | Err (e : exn).
Arguments Ok {A} a.
Arguments Err {A} e.

Definition is_ValueError (e : exn) : bool :=
  match e with ValueError _ => true | _ => false end.

(* ===================================================================== *)
(** * Strings *)
(* ===================================================================== *)

Module Str.

Definition is_digit (c : ascii) : bool :=
  let n := nat_of_ascii c in (48 <=? n)%nat && (n <=? 57)%nat.

Definition digit_val (c : ascii) : Z := Z.of_nat (nat_of_ascii c) - 48.

Fixpoint all_digits (s : string) : bool :=
  match s with
  | EmptyString => true
  | String c s' => is_digit c && all_digits s'
  end.

(** Value of a string of decimal digits, most significant first. *)
Fixpoint digits_val (acc : Z) (s : string) : Z :=
  match s with
  | EmptyString => acc
  | String c s' => digits_val (10 * acc + digit_val c) s'
  end.

(** [s.split(sep)] for a one-character separator. *)
Fixpoint split (sep : ascii) (s : string) : list string :=
  match s with
  | EmptyString => [EmptyString]
  | String c s' =>
      if Ascii.eqb c sep then EmptyString :: split sep s'
      else match split sep s' with
           | [] => [String c EmptyString]
           | h :: t => String c h :: t
           end
  end.

(** [s.replace(a, b)] for one-character [a] and [b]. *)
Fixpoint replace (a b : ascii) (s : string) : string :=
  match s with
  | EmptyString => EmptyString
  | String c s' => String (if Ascii.eqb c a then b else c) (replace a b s')
  end.

(** [s.rstrip(chars)]: drop the longest suffix made of [chars]. *)
Fixpoint rstrip (chars : list ascii) (s : string) : string :=
  match s with
  | EmptyString => EmptyString
  | String c s' =>
      match rstrip chars s' with
      | EmptyString =>
          if existsb (Ascii.eqb c) chars then EmptyString
          else String c EmptyString
      | r => String c r
      end
  end.

(** [c in s] for a character. *)
Fixpoint has_char (c : ascii) (s : string) : bool :=
  match s with
  | EmptyString => false
  | String c' s' => Ascii.eqb c' c || has_char c s'
  end.

(** [s.startswith(p)]. *)
Definition startswith (p s : string) : bool := String.prefix p s.

(** [str(n)] for an integer. *)
Definition of_Z (n : Z) : string := NilZero.string_of_int (Z.to_int n).

(** Two-digit, zero-padded rendering (the [%H] and [%M] of strftime). *)
Definition two_digits (n : Z) : string :=
  if n <? 10 then "0" +:+ of_Z n else of_Z n.

End Str.

(* ===================================================================== *)
(** * The [ipaddress] values the plugin uses *)
(* ===================================================================== *)

Module IP.

Definition ALL_ONES : Z := 4294967295.
Definition max_prefixlen : Z := 32.

(** [_parse_octet]: one to three ASCII digits, no leading zero unless
    the octet is "0", value at most 255. *)
Definition parse_octet (s : string) : option Z :=
  match s with
  | EmptyString => None
  | String c rest =>
      if negb (Str.all_digits s) then None
      else if (3 <? String.length s)%nat then None
      else if Ascii.eqb c "0" && negb (String.eqb s "0") then None
      else let v := Str.digits_val 0 s in
           if 255 <? v then None else Some v
  end.

(** [IPv4Address(s)] as the integer of the address: four octets
    separated by dots, read as one big-endian number. *)
Definition IPv4Address (s : string) : option Z :=
  match Str.split "." s with
  | [o1; o2; o3; o4] =>
      match parse_octet o1, parse_octet o2, parse_octet o3, parse_octet o4 with
      | Some a, Some b, Some c, Some d => Some (((a * 256 + b) * 256 + c) * 256 + d)
      | _, _, _, _ => None
      end
  | _ => None
  end.

(** [str(IPv4Address(a))]: the four bytes of the number, big endian,
    written in decimal and joined by dots. *)
Definition to_string (a : Z) : string :=
  Str.of_Z ((a / 16777216) mod 256) +:+ "." +:+
  Str.of_Z ((a / 65536) mod 256) +:+ "." +:+
  Str.of_Z ((a / 256) mod 256) +:+ "." +:+
  Str.of_Z (a mod 256).

Definition bit_length (x : Z) : Z := if x =? 0 then 0 else Z.log2 x + 1.

Definition _count_righthand_zero_bits (number bits : Z) : Z :=
  if number =? 0 then bits
  else Z.min bits (bit_length (Z.land (Z.lnot number) (number - 1))).

Definition _prefix_from_ip_int (ip_int : Z) : option Z :=
  let trailing_zeroes := _count_righthand_zero_bits ip_int max_prefixlen in
  let prefixlen := max_prefixlen - trailing_zeroes in
  let leading_ones := Z.shiftr ip_int trailing_zeroes in
  let all_ones := Z.shiftl 1 prefixlen - 1 in
  if leading_ones =? all_ones then Some prefixlen else None.

Definition _prefix_from_prefix_string (s : string) : option Z :=
  match s with
  | EmptyString => None
  | _ => if Str.all_digits s
         then let p := Str.digits_val 0 s in
              if p <=? max_prefixlen then Some p else None
         else None
  end.

Definition _prefix_from_ip_string (s : string) : option Z :=
  match IPv4Address s with
  | None => None
  | Some ip_int =>
      match _prefix_from_ip_int ip_int with
      | Some p => Some p
      | None => _prefix_from_ip_int (Z.lxor ip_int ALL_ONES)
      end
  end.

Definition _make_netmask (mask : string) : option Z :=
  match _prefix_from_prefix_string mask with
  | Some p => Some p
  | None => _prefix_from_ip_string mask
  end.

Record IPv4Network : Type := mkNetwork {
  network_address : Z;
  prefixlen : Z
}.

Definition netmask (n : IPv4Network) : Z :=
  Z.lxor ALL_ONES (Z.shiftr ALL_ONES (prefixlen n)).

Definition hostmask (n : IPv4Network) : Z := Z.lxor (netmask n) ALL_ONES.

Definition broadcast_address (n : IPv4Network) : Z :=
  Z.lor (network_address n) (hostmask n).

(** The network of an address and a prefix length (strict): the host
    bits of the address must be clear. *)
Definition make_network (addr : string) (plen : option Z) : option IPv4Network :=
  match IPv4Address addr, plen with
  | Some a, Some p =>
      let n := mkNetwork a p in
      if Z.land a (netmask n) =? a then Some n else None
  | _, _ => None
  end.

(** [IPv4Network(s)]: an address, optionally followed by a slash and a
    prefix length or mask. *)
Definition parse_network (s : string) : option IPv4Network :=
  match Str.split "/" s with
  | [addr] => make_network addr (Some max_prefixlen)
  | [addr; mask] => make_network addr (_make_netmask mask)
  | _ => None
  end.

(** [range(lo, hi)]. *)
Definition range (lo hi : Z) : list Z := seqZ lo (hi - lo).

(** [network.hosts()]: every address but the network and broadcast
    ones; a /31 keeps both of its addresses and a /32 its only one. *)
Definition hosts (n : IPv4Network) : list Z :=
  if prefixlen n =? max_prefixlen - 1
  then range (network_address n) (broadcast_address n + 1)
  else if prefixlen n =? max_prefixlen
  then [network_address n]
  else range (network_address n + 1) (broadcast_address n).

End IP.

(* ===================================================================== *)
(** * NetworkManager *)
(* ===================================================================== *)

Record NetworkManager : Type := mkNetworkManager {
  _network : IP.IPv4Network;
  _assigned : gset Z;
  (** The generator [_host_ip_generator]: the hosts it has not visited. *)
  _ip_iter : list Z
}.

Module NetworkManager.

(** [__init__] *)
Definition init (network : string) : result NetworkManager :=
  match IP.parse_network network with
  | None => Err (ValueError (InvalidNetwork network))
  | Some n => Ok (mkNetworkManager n ∅ (IP.hosts n))
  end.

(** The loop of [get_next_ip] over the generator: the generator skips
    the hosts found in [_assigned] when it reaches them and yields the
    first one that is not; the caller tests the yielded address against
    the same set, so it takes it.  [None] is [StopIteration]. *)
Fixpoint next_free (it : list Z) (assigned : gset Z) : option (Z * list Z) :=
  match it with
  | [] => None
  | ip :: it' =>
      if bool_decide (ip ∈ assigned) then next_free it' assigned
      else Some (ip, it')
  end.

Definition get_next_ip (nm : NetworkManager) : result (string * NetworkManager) :=
  match next_free (_ip_iter nm) (_assigned nm) with
  | None => Err (RuntimeError NoAvailableIPs)
  | Some (ip, it') =>
      Ok (IP.to_string ip,
          mkNetworkManager (_network nm) ({[ip]} ∪ _assigned nm) it')
  end.

Definition reserve_ip (ip : string) (nm : NetworkManager) : result NetworkManager :=
  match IP.IPv4Address ip with
  | None => Err (ValueError (InvalidAddress ip))
  | Some ip_addr =>
      if negb (bool_decide (ip_addr ∈ IP.hosts (_network nm)))
      then Err (ValueError (NotAValidHostAddress ip))
      else if bool_decide (ip_addr ∈ _assigned nm)
      then Err (ValueError (AlreadyReserved ip))
      else Ok (mkNetworkManager (_network nm) ({[ip_addr]} ∪ _assigned nm)
                                (_ip_iter nm))
  end.

(** The answers of [n] successive calls of [get_next_ip], up to the
    first one that raises. *)
Fixpoint take (n : nat) (nm : NetworkManager) : list string :=
  match n with
  | O => []
  | S k =>
      match get_next_ip nm with
      | Err _ => []
      | Ok (ip, nm') => ip :: take k nm'
      end
  end.

End NetworkManager.

(* ===================================================================== *)
(** * Insertion-ordered dictionaries and Python built-ins *)
(* ===================================================================== *)

Module Dict.

Definition t (V : Type) : Type := list (string * V).

Definition keys {V} (d : t V) : list string := map fst d.

(** [d.get(k)] *)
Fixpoint get {V} (k : string) (d : t V) : option V :=
  match d with
  | [] => None
  | (k', v) :: d' => if String.eqb k k' then Some v else get k d'
  end.

(** [k in d] *)
Definition mem {V} (k : string) (d : t V) : bool :=
  match get k d with Some _ => true | None => false end.

(** [d[k] = v]: an existing key keeps its position, a new one goes last. *)
Fixpoint set {V} (k : string) (v : V) (d : t V) : t V :=
  match d with
  | [] => [(k, v)]
  | (k', v') :: d' =>
      if String.eqb k k' then (k, v) :: d' else (k', v') :: set k v d'
  end.

(** [del d[k]] *)
Fixpoint del {V} (k : string) (d : t V) : t V :=
  match d with
  | [] => []
  | (k', v') :: d' =>
      if String.eqb k k' then d' else (k', v') :: del k d'
  end.

(** [{k: f(k) for k in ks}] *)
Definition comprehension {V} (f : string -> V) (ks : list string) : t V :=
  fold_left (fun d k => set k (f k) d) ks [].

End Dict.

Module Py.

(** [range(lo, hi)] *)
Definition range (lo hi : Z) : list Z := IP.range lo hi.

(** [sum(xs)] *)
Definition sum (xs : list Z) : Z := fold_left Z.add xs 0.

(** The characters [int()] strips as white space (ASCII). *)
Definition is_space (c : ascii) : bool :=
  let n := nat_of_ascii c in
  ((9 <=? n)%nat && (n <=? 13)%nat) || ((28 <=? n)%nat && (n <=? 32)%nat).

Fixpoint lstrip (s : string) : string :=
  match s with
  | String c s' => if is_space c then lstrip s' else s
  | EmptyString => EmptyString
  end.

Fixpoint rstrip (s : string) : string :=
  match s with
  | EmptyString => EmptyString
  | String c s' =>
      match rstrip s' with
      | EmptyString => if is_space c then EmptyString else String c EmptyString
      | r => String c r
      end
  end.

(** Decimal digits in which single underscores may separate digits;
    [after_digit] tells whether the previous character was a digit. *)
Fixpoint digits_with_underscores (acc : Z) (after_digit : bool) (s : string) : option Z :=
  match s with
  | EmptyString => if after_digit then Some acc else None
  | String c s' =>
      if Str.is_digit c
      then digits_with_underscores (10 * acc + Str.digit_val c) true s'
      else if Ascii.eqb c "_" && after_digit
      then digits_with_underscores acc false s'
      else None
  end.

(** The number of decimal digits of a literal. *)
Fixpoint count_digits (s : string) : Z :=
  match s with
  | EmptyString => 0
  | String c s' => (if Str.is_digit c then 1 else 0) + count_digits s'
  end.

(** [sys.get_int_max_str_digits()]: the number of digits beyond which
    CPython refuses to convert a decimal literal, as it is set by
    default. *)
Definition int_max_str_digits : Z := 4300.

(** The digits of a literal, after its sign: single underscores may
    separate them, and there are no more of them than the limit. *)
Definition int_literal (s : string) : option Z :=
  match digits_with_underscores 0 false s with
  | Some n => if int_max_str_digits <? count_digits s then None else Some n
  | None => None
  end.

(** [int(s)] for a string of ASCII characters: surrounding white space,
    an optional sign, decimal digits.  [None] is the [ValueError] that
    [int] raises, for a bad literal and for a literal of more digits
    than the limit. *)
Definition int (s : string) : option Z :=
  match lstrip (rstrip s) with
  | String "-" s' => Z.opp <$> int_literal s'
  | String "+" s' => int_literal s'
  | s' => int_literal s'
  end.

End Py.

(* ===================================================================== *)
(** * ValueManager *)
(* ===================================================================== *)

Record ValueManager : Type := mkValueManager {
  _values : list string;
  _counts : Dict.t Z
}.

Module ValueManager.

(** [__init__]: [Counter({value: 0 for value in self._values})] *)
Definition init (values : list string) : ValueManager :=
  mkValueManager values (Dict.comprehension (fun _ => 0) values).

(** [min(items, key=lambda x: x[1])]: the first item of least count,
    [best] being the least seen so far. *)
Fixpoint min_item (best : string * Z) (items : list (string * Z)) : string * Z :=
  match items with
  | [] => best
  | x :: items' => min_item (if snd x <? snd best then x else best) items'
  end.

(** [self._counts[k] += 1] on a [Counter], where a missing key counts 0. *)
Definition bump (k : string) (counts : Dict.t Z) : Dict.t Z :=
  Dict.set k (default 0 (Dict.get k counts) + 1) counts.

Definition get_next (vm : ValueManager) : result (string * ValueManager) :=
  match _counts vm with
  | [] => Err (ValueError MinOfEmptySequence)
  | x :: items =>
      let min_value := fst (min_item x items) in
      Ok (min_value, mkValueManager (_values vm) (bump min_value (_counts vm)))
  end.

(** [increment(item)]; [item] is [None] when the caller read it from a
    label that is absent. *)
Definition increment (item : option string) (vm : ValueManager) : result ValueManager :=
  match item with
  | Some i =>
      if existsb (String.eqb i) (_values vm)
      then Ok (mkValueManager (_values vm) (bump i (_counts vm)))
      else Err (ValueError (ItemNotFound item))
  | None => Err (ValueError (ItemNotFound item))
  end.

(** The answers of [n] successive calls of [get_next], with the final
    state. *)
Fixpoint take (n : nat) (vm : ValueManager) : list string * ValueManager :=
  match n with
  | O => ([], vm)
  | S k =>
      match get_next vm with
      | Err _ => ([], vm)
      | Ok (v, vm') => let '(vs, vm'') := take k vm' in (v :: vs, vm'')
      end
  end.

End ValueManager.

(* ===================================================================== *)
(** * HostTimeAssigner *)
(* ===================================================================== *)

(** A [datetime] of the plugin is the number of minutes since midnight
    of the day [strptime] gives to a time without a date. *)
Record HostTimeAssigner : Type := mkHostTimeAssigner {
  _start_time : Z;
  _end_time : Z;
  _groups : Dict.t Z;
  _total_hosts : Z;
  _group_slots : Dict.t (list Z);
  _group_slot_index : Dict.t Z
}.

Module HostTimeAssigner.

(** One field of [strptime]: one or two digits, at most [maxv].  The
    texts of this development are ASCII; the decimal digits of other
    scripts, which [strptime] and [int] read as well, have no
    counterpart in it. *)
Definition time_field (maxv : Z) (s : string) : option Z :=
  match s with
  | EmptyString => None
  | _ =>
      if Str.all_digits s && (String.length s <=? 2)%nat
      then let v := Str.digits_val 0 s in
           if v <=? maxv then Some v else None
      else None
  end.

(** [datetime.strptime(s, "%H:%M")] *)
Definition strptime (s : string) : option Z :=
  match Str.split ":" s with
  | [h; m] =>
      match time_field 23 h, time_field 59 m with
      | Some h, Some m => Some (60 * h + m)
      | _, _ => None
      end
  | _ => None
  end.

(** [t.strftime("%H:%M")] *)
Definition strftime (t : Z) : string :=
  Str.two_digits ((t / 60) mod 24) +:+ ":" +:+ Str.two_digits (t mod 60).

(** One run of the [for] loop of [_interleave_groups] over the keys the
    dictionary had when the run began. *)
Definition interleave_pass (result : list string) (group_counts : Dict.t Z)
  : list string * Dict.t Z :=
  fold_left
    (fun '(result, group_counts) group =>
       let c := default 0 (Dict.get group group_counts) - 1 in
       (result ++ [group],
        if c =? 0 then Dict.del group group_counts
        else Dict.set group c group_counts))
    (Dict.keys group_counts) (result, group_counts).

(** The [while] loop, run for at most [fuel] rounds; [None] when the
    rounds are used up with groups left. *)
Fixpoint interleave_loop (fuel : nat) (result : list string) (group_counts : Dict.t Z)
  : option (list string) :=
  match group_counts with
  | [] => Some result
  | _ =>
      match fuel with
      | O => None
      | S fuel' =>
          let '(result', group_counts') := interleave_pass result group_counts in
          interleave_loop fuel' result' group_counts'
      end
  end.

(** A number of rounds after which the loop has ended if it ever ends
    (lemma [interleave_groups_None] below): the largest count. *)
Definition interleave_rounds (group_counts : Dict.t Z) : nat :=
  Z.to_nat (fold_left Z.max (map snd group_counts) 0).

(** [_interleave_groups]; [None] when the loop never ends. *)
Definition _interleave_groups (group_counts : Dict.t Z) : option (list string) :=
  interleave_loop (interleave_rounds group_counts) [] group_counts.

(** [self._group_slots[group].append(slot)] *)
Definition append_slot (slots : Dict.t (list Z)) (sg : Z * string) : Dict.t (list Z) :=
  let '(slot, group) := sg in
  Dict.set group (default [] (Dict.get group slots) ++ [slot]) slots.

(** [zip(xs, ys)] *)
Definition zip {A B} (xs : list A) (ys : list B) : list (A * B) := combine xs ys.

(** [__init__]; the outer [None] is the constructor that never returns. *)
Definition init (groups : Dict.t Z) (start_time_str end_time_str : string)
  : option (result HostTimeAssigner) :=
  match strptime start_time_str, strptime end_time_str with
  | Some start_time, Some end_time =>
      if end_time <=? start_time
      then Some (Err (ValueError (EndNotAfterStart start_time_str end_time_str)))
      else
        let total_hosts := Py.sum (map snd groups) in
        if total_hosts =? 0 then Some (Err (ValueError NoHostsDefined))
        else
          let total_minutes := end_time - start_time in
          if total_minutes <? total_hosts
          then Some (Err (ValueError (NotEnoughMinutes total_hosts total_minutes)))
          else
            let all_slots :=
              if total_hosts <=? 1 then [start_time]
              else
                let step := total_minutes / (total_hosts - 1) in
                map (fun i => start_time + i * step) (Py.range 0 total_hosts) in
            match _interleave_groups groups with
            | None => None
            | Some round_robin =>
                let empty := Dict.comprehension (fun _ => @nil Z) (Dict.keys groups) in
                let index := Dict.comprehension (fun _ => 0) (Dict.keys groups) in
                Some (Ok (mkHostTimeAssigner start_time end_time groups total_hosts
                            (fold_left append_slot (zip all_slots round_robin) empty)
                            index))
            end
  | _, _ => Some (Err (ValueError (InvalidTimeFormat start_time_str end_time_str)))
  end.

Definition get_next_slot (group_name : string) (a : HostTimeAssigner)
  : result (string * HostTimeAssigner) :=
  match Dict.get group_name (_group_slots a) with
  | None => Err (ValueError (UnknownGroup group_name))
  | Some slots =>
      let idx := default 0 (Dict.get group_name (_group_slot_index a)) in
      match nth_error slots (Z.to_nat idx) with
      | None => Err (ValueError (AllSlotsAssigned group_name))
      | Some slot =>
          Ok (strftime slot,
              mkHostTimeAssigner (_start_time a) (_end_time a) (_groups a)
                (_total_hosts a) (_group_slots a)
                (Dict.set group_name (idx + 1) (_group_slot_index a)))
      end
  end.

Definition get_all_slots (group_name : string) (a : HostTimeAssigner)
  : result (list string) :=
  match Dict.get group_name (_group_slots a) with
  | None => Err (ValueError (UnknownGroup group_name))
  | Some slots => Ok (map strftime slots)
  end.

End HostTimeAssigner.

(* ===================================================================== *)
(** * The configuration document and the cloud snapshot *)
(* ===================================================================== *)

(** One entry of [nodes]; [None] is a key that is absent or null. *)
Record NodeGroup : Type := mkNodeGroup {
  g_type : option string;
  g_image : option string;
  g_num : option Z;
  g_is_control : option bool;
  g_is_worker : option bool;
  g_storage : option bool;
  g_locations : option (list string)
}.

(** One entry of [volumes]; an absent or null key is the empty string,
    which the structural validation rejects like the absent key. *)
Record VolumeConfig : Type := mkVolumeConfig {
  v_name : string;
  v_size : string
}.

(** The document [_read_config_data] returns.  An absent [nodes] or
    [volumes] section is the empty one. *)
Record Config : Type := mkConfig {
  nodes : Dict.t NodeGroup;
  hetzner_token_cloud : option string;
  unattended_upgrades_start_time : option string;
  unattended_upgrades_end_time : option string;
  network_private_cidr : option string;
  volumes : list VolumeConfig
}.

(** A [BoundServer].  [primary_ipv6_host] is
    [IPv6Network(public_net.primary_ipv6.ip)[1].compressed], the address
    [_get_current_ip] derives from the IPv6 block of the server. *)
Record Server : Type := mkServer {
  server_id : Z;
  server_name : string;
  server_labels : gmap string string;
  primary_ipv4 : option string;
  primary_ipv6_host : option string
}.

(** A [BoundVolume]. *)
Record Volume : Type := mkVolume {
  volume_id : Z;
  volume_name : string;
  volume_size : Z
}.

(** What the cloud client answers to the two [get_all] calls: the list,
    or the detail of an [APIException]. *)
Record CloudAPI : Type := mkCloudAPI {
  servers_get_all : string + list Server;
  volumes_get_all : string + list Volume
}.

(* ===================================================================== *)
(** * The inventory sink *)
(* ===================================================================== *)

(** An entry of the [cluster_volumes] variable of a host. *)
Record VolumePlan : Type := mkVolumePlan {
  plan_name : string;
  plan_size : string;
  plan_id : option Z;
  needs_create : bool;
  needs_resize : bool
}.

(** An entry of the [orphan_volumes] variable. *)
Record OrphanVolume : Type := mkOrphanVolume {
  orphan_id : Z;
  orphan_name : string;
  orphan_size : Z
}.

Inductive value : Type :=
  | VNone
  | VBool (b : bool)
  | VStr (s : string)
  | VVolumePlans (l : list VolumePlan)
  | VOrphanVolumes (l : list OrphanVolume).

(** The calls the plugin makes on the [InventoryData] it is given. *)
Inductive call : Type :=
  | add_group (group : string)
  | add_host (host group : string)
  | set_variable (entity varname : string) (v : value)
  | add_child (group child : string).

(* ===================================================================== *)
(** * The plugin instance and its monad *)
(* ===================================================================== *)

(** The attributes of an [InventoryModule].  [_inventory] is the log of
    the sink.  [_config] is assigned once by [parse] and only read
    afterwards: the methods take it as an argument. *)
Record Plugin : Type := mkPlugin {
  _hetzner_servers_configured : list Z;
  _hetzner_volumes_configured : list string;
  _hcloud_servers : list Server;
  _hcloud_volumes : list Volume;
  _inventory : list call;
  _host_time_assigner : option HostTimeAssigner;
  _network_manager : option NetworkManager
}.

(** [InventoryModule.__init__], on a sink that has received [inventory]. *)
Definition fresh (inventory : list call) : Plugin :=
  mkPlugin [] [] [] [] inventory None None.

(** How a method leaves: normally, by an exception, or never (the loop
    of [_interleave_groups] that does not end grows its list until the
    interpreter gives up). *)
Inductive outcome (A : Type) : Type :=
  | Done (a : A) (p : Plugin)
  | Raised (e : exn) (p : Plugin)
  | Hangs.
Arguments Done {A} a p.
Arguments Raised {A} e p.
Arguments Hangs {A}.

Definition M (A : Type) : Type := Plugin -> outcome A.

#[global] Instance M_ret : MRet M := fun A a p => Done a p.

#[global] Instance M_bind : MBind M := fun A B f m p =>
  match m p with
  | Done a p' => f a p'
  | Raised e p' => Raised e p'
  | Hangs => Hangs
  end.

#[global] Instance result_ret : MRet result := fun A a => Ok a.

#[global] Instance result_bind : MBind result := fun A B f m =>
  match m with
  | Ok a => f a
  | Err e => Err e
  end.

#[global] Instance result_fmap : FMap result := fun A B f m =>
  match m with
  | Ok a => Ok (f a)
  | Err e => Err e
  end.

Definition raise {A} (e : exn) : M A := fun p => Raised e p.

Definition get : M Plugin := fun p => Done p p.

Definition put (p : Plugin) : M unit := fun _ => Done tt p.

(** A call of a method that returns a [result].  A method of an
    allocator that raises leaves the allocator as it was before the call
    (the generator that a failing [get_next_ip] has run to its end can
    yield nothing afterwards either way). *)
Definition lift {A} (r : result A) : M A :=
  match r with
  | Ok a => mret a
  | Err e => raise e
  end.

(** [for x in xs: body(x)] *)
Fixpoint for_ {A} (xs : list A) (body : A -> M unit) : M unit :=
  match xs with
  | [] => mret tt
  | x :: xs' => body x ;; for_ xs' body
  end.

(** The same loop for a body that only raises or returns. *)
Fixpoint for_result {A} (xs : list A) (body : A -> result unit) : result unit :=
  match xs with
  | [] => Ok tt
  | x :: xs' => body x ;; for_result xs' body
  end.

(** A loop that carries local variables [s]. *)
Fixpoint fold_result {A S} (body : S -> A -> result S) (xs : list A) (s : S) : result S :=
  match xs with
  | [] => Ok s
  | x :: xs' => s' ← body s x; fold_result body xs' s'
  end.

Fixpoint fold_M {A S} (body : S -> A -> M S) (xs : list A) (s : S) : M S :=
  match xs with
  | [] => mret s
  | x :: xs' => s' ← body s x; fold_M body xs' s'
  end.

(** A call on the sink. *)
Definition emit (c : call) : M unit := fun p =>
  Done tt (mkPlugin (_hetzner_servers_configured p) (_hetzner_volumes_configured p)
             (_hcloud_servers p) (_hcloud_volumes p) (_inventory p ++ [c])
             (_host_time_assigner p) (_network_manager p)).

Definition set_hcloud_servers (l : list Server) : M unit := fun p =>
  Done tt (mkPlugin (_hetzner_servers_configured p) (_hetzner_volumes_configured p)
             l (_hcloud_volumes p) (_inventory p)
             (_host_time_assigner p) (_network_manager p)).

Definition set_hcloud_volumes (l : list Volume) : M unit := fun p =>
  Done tt (mkPlugin (_hetzner_servers_configured p) (_hetzner_volumes_configured p)
             (_hcloud_servers p) l (_inventory p)
             (_host_time_assigner p) (_network_manager p)).

Definition set_host_time_assigner (a : HostTimeAssigner) : M unit := fun p =>
  Done tt (mkPlugin (_hetzner_servers_configured p) (_hetzner_volumes_configured p)
             (_hcloud_servers p) (_hcloud_volumes p) (_inventory p)
             (Some a) (_network_manager p)).

Definition set_network_manager (nm : NetworkManager) : M unit := fun p =>
  Done tt (mkPlugin (_hetzner_servers_configured p) (_hetzner_volumes_configured p)
             (_hcloud_servers p) (_hcloud_volumes p) (_inventory p)
             (_host_time_assigner p) (Some nm)).

(** [self._hetzner_servers_configured.append(id)] *)
Definition append_server_configured (id : Z) : M unit := fun p =>
  Done tt (mkPlugin (_hetzner_servers_configured p ++ [id]) (_hetzner_volumes_configured p)
             (_hcloud_servers p) (_hcloud_volumes p) (_inventory p)
             (_host_time_assigner p) (_network_manager p)).

(** [self._hetzner_volumes_configured.append(name)] *)
Definition append_volume_configured (name : string) : M unit := fun p =>
  Done tt (mkPlugin (_hetzner_servers_configured p) (_hetzner_volumes_configured p ++ [name])
             (_hcloud_servers p) (_hcloud_volumes p) (_inventory p)
             (_host_time_assigner p) (_network_manager p)).

(* ===================================================================== *)
(** * InventoryModule *)
(* ===================================================================== *)

Module InventoryModule.

(** Truth value of a string or of a flag read from the document. *)
Definition truthy_str (o : option string) : bool :=
  match o with
  | Some s => negb (String.eqb s "")
  | None => false
  end.

Definition truthy_bool (o : option bool) : bool := default false o.

(** [self._get_group_config(group, key)] for the key [field] reads,
    for a group whose name holds no dot.  The source composes the key
    [nodes.<group>.<key>] and takes it apart at every dot
    ([RawConfig._get_group_config] below), so that a group whose name
    holds a dot is not read under its name; the statements that depend
    on the difference assume [plain_group_names]. *)
Definition _get_group_config {A} (config : Config) (group : string)
    (field : NodeGroup -> option A) : option A :=
  Dict.get group (nodes config) ≫= field.

(** [hostname = f"{group.replace('_', '-')}-{host}"] *)
Definition hostname (group : string) (host : Z) : string :=
  Str.replace "_" "-" group +:+ "-" +:+ Str.of_Z host.

(** [expected_name = f"{hostname}_{vol_name}"] *)
Definition expected_name (hostname vol_name : string) : string :=
  hostname +:+ "_" +:+ vol_name.

(** The first volume of the snapshot that bears [name]. *)
Fixpoint find_volume (name : string) (hvs : list Volume) : option Volume :=
  match hvs with
  | [] => None
  | hv :: hvs' =>
      if String.eqb (volume_name hv) name then Some hv else find_volume name hvs'
  end.

(** [int(str(vol_size).rstrip("Gg"))]; [InvalidIntLiteral] stands for
    the [ValueError] of [int]. *)
Definition config_gb (vol_size : string) : result Z :=
  let digits := Str.rstrip ["G"; "g"]%char vol_size in
  match Py.int digits with
  | Some n => Ok n
  | None => Err (ValueError (InvalidIntLiteral digits))
  end.

Definition _get_current_ip (server : Server) : result string :=
  match primary_ipv4 server with
  | Some ip => Ok ip
  | None =>
      match primary_ipv6_host server with
      | Some ip => Ok ip
      | None => Err (AnsibleError (NoPrimaryNetwork (server_name server)))
      end
  end.

Definition _load_hcloud_data (config : Config) (cloud : CloudAPI) : M unit :=
  if negb (truthy_str (hetzner_token_cloud config))
  then raise (AnsibleError NoCloudToken)
  else
    match servers_get_all cloud with
    | inl detail => raise (AnsibleError (CloudApiFailure detail))
    | inr servers =>
        set_hcloud_servers servers ;;
        match volumes_get_all cloud with
        | inl detail => raise (AnsibleError (CloudApiFailure detail))
        | inr vols => set_hcloud_volumes vols
        end
    end.

Fixpoint _search_fitting_server (servers : list Server) (name server_type image : string)
    (is_control is_worker : bool) : option Server :=
  match servers with
  | [] => None
  | server :: servers' =>
      let current_image := server_labels server !! "image" in
      let current_type := server_labels server !! "server_type" in
      let current_is_control := server_labels server !! "is_control" in
      let current_is_worker := server_labels server !! "is_worker" in
      let internal_ip := server_labels server !! "internal_ip" in
      let is_delete_control :=
        bool_decide (current_is_control = Some "true") && negb is_control in
      let is_delete_worker :=
        bool_decide (current_is_worker = Some "true") && negb is_worker in
      if String.eqb (server_name server) name
         && bool_decide (current_image = Some image)
         && bool_decide (current_type = Some server_type)
         && negb is_delete_control
         && negb is_delete_worker
         && truthy_str internal_ip
      then Some server
      else _search_fitting_server servers' name server_type image is_control is_worker
  end.

(** The body of the loop over the groups in [_validate_config_structure];
    the local variables are [(has_control, has_worker, control_count)]. *)
Definition check_group (config : Config) (vars : bool * bool * Z) (group : string)
  : result (bool * bool * Z) :=
  let '(has_control, has_worker, control_count) := vars in
  let is_control := truthy_bool (_get_group_config config group g_is_control) in
  let is_worker := truthy_bool (_get_group_config config group g_is_worker) in
  if negb (is_control || is_worker)
  then Err (AnsibleError (GroupWithoutRole group))
  else
    let has_control := if is_control then true else has_control in
    let control_count :=
      if is_control
      then match _get_group_config config group g_num with
           | Some num => control_count + num
           | None => control_count
           end
      else control_count in
    let has_worker := if is_worker then true else has_worker in
    if negb (truthy_str (_get_group_config config group g_type))
    then Err (AnsibleError (GroupWithoutType group))
    else
      match _get_group_config config group g_num with
      | None => Err (AnsibleError (GroupWithoutNum group))
      | Some _ => Ok (has_control, has_worker, control_count)
      end.

Definition check_volume (v : VolumeConfig) : result unit :=
  if String.eqb (v_name v) "" then Err (AnsibleError VolumeWithoutName)
  else if String.eqb (v_size v) "" then Err (AnsibleError VolumeWithoutSize)
  else Ok tt.

(** The part of [_validate_config_structure] that precedes the test of
    the number of control plane nodes; it answers [control_count]. *)
Definition checks_before_quorum (config : Config) : result Z :=
  match nodes config with
  | [] => Err (AnsibleError NodesEmpty)
  | _ =>
      if negb (truthy_str (hetzner_token_cloud config))
      then Err (AnsibleError MissingCloudToken)
      else if negb (truthy_str (unattended_upgrades_start_time config))
              || negb (truthy_str (unattended_upgrades_end_time config))
      then Err (AnsibleError MissingUpgradeTimes)
      else
        '(has_control, has_worker, control_count) ←
          fold_result (check_group config) (Dict.keys (nodes config)) (false, false, 0);
        if negb has_control then Err (AnsibleError NoControlGroup)
        else if negb has_worker then Err (AnsibleError NoWorkerGroup)
        else Ok control_count
  end.

Definition _validate_config_structure (config : Config) : result unit :=
  control_count ← checks_before_quorum config;
  (* etcd best practices: allow 1, 3, 5, ... control plane nodes, but never 2 *)
  if control_count =? 2 then Err (AnsibleError TwoControlPlaneNodes)
  else
    (* Validate volumes section *)
    for_result (volumes config) check_volume.

(** The body of the innermost loop of [_validate_config_logic]. *)
Definition check_shrink (hcloud_volumes : list Volume) (hostname : string)
    (v : VolumeConfig) : result unit :=
  let vol_name := v_name v in
  let vol_size := v_size v in
  let expected_name := expected_name hostname vol_name in
  match find_volume expected_name hcloud_volumes with
  | Some matched =>
      config_gb ← config_gb vol_size;
      if config_gb <? volume_size matched
      then Err (AnsibleError (VolumeShrinking expected_name config_gb (volume_size matched)))
      else Ok tt
  | None => Ok tt
  end.

Definition _validate_config_logic (config : Config) (hcloud_volumes : list Volume)
  : result unit :=
  let volumes := volumes config in
  for_result (Dict.keys (nodes config)) (fun group =>
    if truthy_bool (_get_group_config config group g_storage)
    then
      let num_hosts := default 0 (_get_group_config config group g_num) in
      for_result (Py.range 1 (num_hosts + 1)) (fun host =>
        let hostname := hostname group host in
        for_result volumes (check_shrink hcloud_volumes hostname))
    else Ok tt).

(** The dictionary [groups] of [_init_host_time_assigner]:
    [{group: num for group in nodes}]. *)
Definition host_counts (config : Config) : Dict.t Z :=
  Dict.comprehension
    (fun group => default 0 (_get_group_config config group g_num))
    (Dict.keys (nodes config)).

Definition _init_host_time_assigner (config : Config) : M unit :=
  let groups := host_counts config in
  match unattended_upgrades_start_time config, unattended_upgrades_end_time config with
  | Some start_time, Some end_time =>
      match HostTimeAssigner.init groups start_time end_time with
      | None => fun _ => Hangs
      | Some r => a ← lift r; set_host_time_assigner a
      end
  | _, _ => raise (AnsibleError MissingUpgradeTimes)
  end.

(** The loop of [_initialize_inventory] that reserves the addresses the
    observed servers record. *)
Definition reserve_existing (server : Server) : M unit :=
  match server_labels server !! "internal_ip" with
  | Some internal_ip =>
      if String.eqb internal_ip "" then mret tt
      else
        p ← get;
        match _network_manager p with
        | None => raise (AttributeError (UnsetAttribute "_network_manager"))
        | Some nm =>
            match NetworkManager.reserve_ip internal_ip nm with
            | Ok nm' => set_network_manager nm'
            | Err (ValueError m) =>
                raise (AnsibleError (ReserveFailed internal_ip (server_name server) m))
            | Err e => raise e
            end
        end
  | None => mret tt
  end.

(** One entry of [cluster_volumes], for the declared volume [v]. *)
Definition volume_plan (hostname : string) (v : VolumeConfig) : M VolumePlan :=
  let vol_name := v_name v in
  let vol_size := v_size v in
  let expected_name := expected_name hostname vol_name in
  p ← get;
  let matched := find_volume expected_name (_hcloud_volumes p) in
  append_volume_configured expected_name ;;
  match matched with
  | Some hv =>
      config_gb ← lift (config_gb vol_size);
      mret (mkVolumePlan vol_name vol_size (Some (volume_id hv)) false
              (negb (volume_size hv =? config_gb)))
  | None => mret (mkVolumePlan vol_name vol_size None true false)
  end.

Definition _add_host (config : Config) (group : string) (host : Z)
    (location_manager : ValueManager) (server_type image : string)
    (is_control is_worker : bool) : M ValueManager :=
  let hostname := hostname group host in
  p ← get;
  let found_server :=
    _search_fitting_server (_hcloud_servers p) hostname server_type image
      is_control is_worker in
  (* Assign location *)
  '(location, location_manager) ←
    match found_server with
    | Some server =>
        append_server_configured (server_id server) ;;
        let location := server_labels server !! "location" in
        lm ← lift (ValueManager.increment location location_manager);
        mret (from_option VStr VNone location, lm)
    | None =>
        '(location, lm) ← lift (ValueManager.get_next location_manager);
        mret (VStr location, lm)
    end;
  (* Assign internal_ip *)
  p ← get;
  internal_ip ←
    match found_server, _network_manager p with
    | Some server, Some nm =>
        (* the label is there: the search only returns servers that have it *)
        let internal_ip := default "" (server_labels server !! "internal_ip") in
        match NetworkManager.reserve_ip internal_ip nm with
        | Ok nm' => set_network_manager nm' ;; mret internal_ip
        | Err (ValueError _) => mret internal_ip
        | Err e => raise e
        end
    | None, Some nm =>
        '(internal_ip, nm') ← lift (NetworkManager.get_next_ip nm);
        set_network_manager nm' ;; mret internal_ip
    | _, None => raise (AttributeError (UnsetAttribute "_network_manager"))
    end;
  emit (add_host hostname group) ;;
  emit (set_variable hostname "create" (VBool (bool_decide (found_server = None)))) ;;
  emit (set_variable hostname "location" location) ;;
  emit (set_variable hostname "internal_ip" (VStr internal_ip)) ;;
  p ← get;
  upgrade_time ←
    match _host_time_assigner p with
    | Some a =>
        '(slot, a') ← lift (HostTimeAssigner.get_next_slot group a);
        set_host_time_assigner a' ;; mret slot
    | None => raise (AttributeError (UnsetAttribute "_host_time_assigner"))
    end;
  emit (set_variable hostname "upgrade_time" (VStr upgrade_time)) ;;
  match found_server with
  | Some server =>
      ip ← lift (_get_current_ip server);
      emit (set_variable hostname "ansible_host" (VStr ip))
  | None => mret tt
  end ;;
  (if is_control then emit (add_child "controlplane" hostname) else mret tt) ;;
  (if is_worker then emit (add_child "worker" hostname) else mret tt) ;;
  emit (add_child "managed" hostname) ;;
  (* Set cluster_volumes if this group is responsible for storage *)
  (if truthy_bool (_get_group_config config group g_storage)
   then
     host_volumes ←
       fold_M (fun host_volumes v =>
                 entry ← volume_plan hostname v;
                 mret (host_volumes ++ [entry]))
              (volumes config) [];
     emit (set_variable hostname "cluster_volumes" (VVolumePlans host_volumes))
   else mret tt) ;;
  mret location_manager.

Definition _prepare_group (config : Config) (group : string) : M unit :=
  emit (add_group group) ;;
  let is_control := default false (_get_group_config config group g_is_control) in
  let is_worker := default false (_get_group_config config group g_is_worker) in
  emit (set_variable group "is_control" (VBool is_control)) ;;
  emit (set_variable group "is_worker" (VBool is_worker)) ;;
  match _get_group_config config group g_type with
  | None => raise (AnsibleError (GroupNoServerType group))
  | Some server_type =>
      if String.eqb server_type "" then raise (AnsibleError (GroupNoServerType group))
      else
        emit (set_variable group "type" (VStr server_type)) ;;
        let image := default "debian-12" (_get_group_config config group g_image) in
        if String.eqb image "" then raise (AnsibleError (GroupNoImage group))
        else
          emit (set_variable group "image" (VStr image)) ;;
          match _get_group_config config group g_num with
          | None => raise (AnsibleError (GroupNoHosts group))
          | Some num_hosts =>
              let locations :=
                default ["fsn1"; "nbg1"; "hel1"]
                        (_get_group_config config group g_locations) in
              let location_manager := ValueManager.init locations in
              fold_M (fun location_manager host =>
                        _add_host config group host location_manager server_type
                                  image is_control is_worker)
                     (Py.range 1 (num_hosts + 1)) location_manager ;;
              mret tt
          end
  end.

Definition _set_orphan_volumes_for_cleanup : M unit :=
  p ← get;
  let managed_set : gset string := list_to_set (_hetzner_volumes_configured p) in
  let orphan_vols :=
    omap (fun hv =>
            if bool_decide (volume_name hv ∈ managed_set) then None
            else Some (mkOrphanVolume (volume_id hv) (volume_name hv) (volume_size hv)))
         (_hcloud_volumes p) in
  match orphan_vols with
  | [] => mret tt
  | _ => emit (set_variable "all" "orphan_volumes" (VOrphanVolumes orphan_vols))
  end.

(** The test of [_clean_hetzner_server]: the server was claimed by no
    host of the configuration. *)
Definition unmanaged (p : Plugin) (server : Server) : bool :=
  negb (bool_decide (server_id server ∈ _hetzner_servers_configured p)).

Definition _clean_hetzner_server : M unit :=
  p ← get;
  for_ (_hcloud_servers p) (fun server =>
    p ← get;
    if unmanaged p server
    then
      let new_name :=
        if negb (Str.startswith "remove-" (server_name server))
        then "remove-" +:+ server_name server
        else server_name server in
      emit (add_host new_name "unmanaged") ;;
      emit (set_variable new_name "old_name" (VStr (server_name server))) ;;
      ip ← lift (_get_current_ip server);
      emit (set_variable new_name "ansible_host" (VStr ip))
    else mret tt).

Definition _initialize_inventory (config : Config) : M unit :=
  (* Add base groups *)
  emit (add_group "controlplane") ;;
  emit (add_group "worker") ;;
  emit (add_group "managed") ;;
  emit (add_group "unmanaged") ;;
  (* Initialize time assigner *)
  _init_host_time_assigner config ;;
  (* Initialize private network manager *)
  nm ← lift (NetworkManager.init
               (default "10.0.0.0/24" (network_private_cidr config)));
  set_network_manager nm ;;
  (* Reserve all internal_ip labels from existing servers *)
  p ← get;
  for_ (_hcloud_servers p) reserve_existing ;;
  (* Process each group *)
  for_ (Dict.keys (nodes config)) (_prepare_group config) ;;
  _set_orphan_volumes_for_cleanup ;;
  _clean_hetzner_server ;;
  emit (set_variable "all" "ansible_user" (VStr "root")).

(** [parse], run on the instance whose sink is [_inventory]. *)
Definition parse (config : Config) (cloud : CloudAPI) : M unit :=
  lift (_validate_config_structure config) ;;
  _load_hcloud_data config cloud ;;
  p ← get;
  lift (_validate_config_logic config (_hcloud_volumes p)) ;;
  _initialize_inventory config.

End InventoryModule.

(* ===================================================================== *)
(** * The configuration document and its dotted lookup *)
(* ===================================================================== *)

(** A value of the YAML document that [_read_config_data] returns.  The
    keys of a mapping are strings: a key of another type is never equal
    to a key the plugin looks up.  [YNum] stands for the numbers. *)
#[local] Unset Elimination Schemes.
Inductive yaml : Type :=
  | YNull
  | YBool (b : bool)
  | YNum (n : Z)
  | YStr (s : string)
  | YList (l : list yaml)
  | YDict (d : list (string * yaml)).
#[local] Set Elimination Schemes.

Module RawConfig.

(** What a lookup answers: a value of the document, the default the
    caller gave, or the [TypeError] of a scalar that is searched or of a
    string or list that is indexed by a key. *)
Inductive answer : Type :=
  | Value (v : yaml)
  | Default
  | TypeError.

(** [sub in s] for two strings. *)
Fixpoint contains (sub s : string) : bool :=
  match s with
  | EmptyString => String.prefix sub EmptyString
  | String _ s' => String.prefix sub s || contains sub s'
  end.

(** [sep.join(parts)] *)
Fixpoint join (sep : string) (parts : list string) : string :=
  match parts with
  | [] => EmptyString
  | [p] => p
  | p :: rest => p +:+ sep +:+ join sep rest
  end.

(** [key in config]; [None] is the [TypeError] of a value that is not a
    container. *)
Definition has_key (key : string) (config : yaml) : option bool :=
  match config with
  | YDict d => Some (Dict.mem key d)
  | YStr s => Some (contains key s)
  | YList l =>
      Some (existsb (fun v => match v with YStr s => String.eqb s key | _ => false end) l)
  | YNull | YBool _ | YNum _ => None
  end.

(** [config[key]] for a key that is a string; [None] is the [TypeError]
    of a string or a list indexed by a string. *)
Definition item (key : string) (config : yaml) : option yaml :=
  match config with
  | YDict d => Dict.get key d
  | _ => None
  end.

(** [_get_config(key, default, config)] on the document [root], run for
    at most [fuel] calls; [None] when the calls are used up.  A [config]
    that is [None] stands for the document itself. *)
Fixpoint _get_config_loop (fuel : nat) (root : yaml) (key : string) (config : yaml)
  : option answer :=
  match fuel with
  | O => None
  | S fuel' =>
      let config := match config with YNull => root | _ => config end in
      let '(key, keys) :=
        if Str.has_char "." key
        then match Str.split "." key with
             | k :: ks => (k, ks)
             | [] => (key, [])
             end
        else (key, []) in
      match has_key key config with
      | None => Some TypeError
      | Some false => Some Default
      | Some true =>
          match keys with
          | _ :: _ =>
              match item key config with
              | Some child => _get_config_loop fuel' root (join "." keys) child
              | None => Some TypeError
              end
          | [] =>
              match item key config with
              | Some YNull => Some Default
              | Some v => Some (Value v)
              | None => Some TypeError
              end
          end
      end
  end.

(** [self._get_config(key, default)]: every call but the last strips one
    segment and one dot from the key, so one call more than the key has
    characters is enough. *)
Definition _get_config (root : yaml) (key : string) : option answer :=
  _get_config_loop (S (String.length key)) root key YNull.

(** [self._get_group_config(group, key, default)] *)
Definition _get_group_config (root : yaml) (group key : string) : option answer :=
  _get_config root ("nodes." +:+ group +:+ "." +:+ key).

End RawConfig.

(* ===================================================================== *)
(** * Notions used in the statements *)
(* ===================================================================== *)

(** Counters that differ by at most one. *)
Definition balanced (counts : Dict.t Z) : Prop :=
  forall x y, In x counts -> In y counts -> snd x <= snd y + 1.

(** What one run of the [for] loop leaves of the dictionary. *)
Definition decrement_all (group_counts : Dict.t Z) : Dict.t Z :=
  flat_map (fun kv => if snd kv - 1 =? 0 then [] else [(fst kv, snd kv - 1)])
           group_counts.

(** The iterator is a tail of the hosts in ascending order. *)
Definition iter_sorted (nm : NetworkManager) : Prop :=
  StronglySorted Z.lt (_ip_iter nm).

(** The aggregate control plane count: the sum of [num] over the groups
    flagged [is_control]. *)
Definition control_count (config : Config) : Z :=
  Py.sum (map (fun group =>
                 if InventoryModule.truthy_bool
                      (InventoryModule._get_group_config config group g_is_control)
                 then default 0 (InventoryModule._get_group_config config group g_num)
                 else 0)
              (Dict.keys (nodes config))).

(** The total number of desired hosts: the sum of the replica counts. *)
Definition total_hosts (config : Config) : Z :=
  Py.sum (map snd (InventoryModule.host_counts config)).

(** The exceptions that leave [_validate_config_logic]. *)
Definition logic_error (e : exn) : Prop :=
  match e with
  | AnsibleError (VolumeShrinking _ _ _) => True
  | ValueError (InvalidIntLiteral _) => True
  | _ => False
  end.

(* ===================================================================== *)
(** * Sample inputs *)
(* ===================================================================== *)

Module Sample.

Definition group (type : string) (num : Z) (is_control is_worker storage : bool) : NodeGroup :=
  mkNodeGroup (Some type) None (Some num) (Some is_control) (Some is_worker)
              (Some storage) None.

(** Every control group declares zero replicas. *)
Definition no_control_nodes : Config :=
  mkConfig [("control", group "cx21" 0 true false false);
            ("worker", group "cx31" 2 false true false)]
           (Some "token") (Some "02:00") (Some "03:00") None [].

(** One storage host whose volume is configured larger than observed. *)
Definition grow_volume : Config :=
  mkConfig [("db", group "cx21" 1 true true true)]
           (Some "token") (Some "02:00") (Some "03:00") None
           [mkVolumeConfig "data" "20G"].

Definition observed_data_volume : Volume := mkVolume 7 "db-1_data" 10.

(** Three hosts on a network that has two host addresses. *)
Definition small_network : Config :=
  mkConfig [("node", group "cx21" 3 true true false)]
           (Some "token") (Some "02:00") (Some "03:00") (Some "10.0.0.0/30") [].

(** An account without servers or volumes. *)
Definition empty_cloud : CloudAPI := mkCloudAPI (inr []) (inr []).

(** Seventy hosts in a window of sixty minutes. *)
Definition crowded_window : Config :=
  mkConfig [("control", group "cx21" 3 true false false);
            ("worker", group "cx31" 67 false true false)]
           (Some "token") (Some "02:00") (Some "03:00") None [].

(** Two groups whose names differ by an underscore and a hyphen only:
    both name their first host w-a-1. *)
Definition colliding_names : Config :=
  mkConfig [("w_a", group "cx21" 1 true true false);
            ("w-a", group "cx21" 1 false true false)]
           (Some "token") (Some "02:00") (Some "03:00") None [].

Definition server_w_a_1 : Server :=
  mkServer 1 "w-a-1"
    (list_to_map [("image", "debian-12"); ("server_type", "cx21");
                  ("is_worker", "true"); ("internal_ip", "10.0.0.5");
                  ("location", "fsn1")])
    (Some "203.0.113.7") None.

(** A control group of three and a worker group of two; the first
    control host and an unknown server are observed. *)
Definition small_cluster : Config :=
  mkConfig [("control", group "cx21" 3 true false false);
            ("worker_small", group "cx31" 2 false true false)]
           (Some "token") (Some "02:00") (Some "03:00") None [].

Definition server_control_1 : Server :=
  mkServer 11 "control-1"
    (list_to_map [("image", "debian-12"); ("server_type", "cx21");
                  ("is_control", "true"); ("internal_ip", "10.0.0.1");
                  ("location", "nbg1")])
    (Some "203.0.113.11") None.

Definition server_stray : Server :=
  mkServer 12 "stray" ∅ (Some "203.0.113.12") None.

End Sample.

(** The hosts registered on the sink, with their group, in order. *)
Definition host_records (inventory : list call) : list (string * string) :=
  omap (fun c => match c with add_host h g => Some (h, g) | _ => None end) inventory.

(** What a run shows to its caller: how it ended and the calls the sink
    has received. *)
Inductive observation : Type :=
  | Completed (inventory : list call)
  | Aborted (e : exn) (inventory : list call)
  | NoAnswer.

Definition observe {A} (o : outcome A) : observation :=
  match o with
  | Done _ p => Completed (_inventory p)
  | Raised e p => Aborted e (_inventory p)
  | Hangs => NoAnswer
  end.

(** The phase 2 rule as the specification words it: an observed volume
    smaller than the configured size stops the validation. *)
Definition growth_rejected : Prop :=
  forall config hvs group host v hv gb,
    In group (Dict.keys (nodes config)) ->
    InventoryModule.truthy_bool
      (InventoryModule._get_group_config config group g_storage) = true ->
    1 <= host <= default 0 (InventoryModule._get_group_config config group g_num) ->
    In v (volumes config) ->
    InventoryModule.find_volume
      (InventoryModule.expected_name (InventoryModule.hostname group host) (v_name v)) hvs
    = Some hv ->
    InventoryModule.config_gb (v_size v) = Ok gb ->
    volume_size hv < gb ->
    exists e, InventoryModule._validate_config_logic config hvs = Err e.

(** The groups every run registers first. *)
Definition base_groups : list call :=
  [add_group "controlplane"; add_group "worker"; add_group "managed";
   add_group "unmanaged"].

(** The address bound as the specification words it: more desired hosts
    than the network has free host addresses stop the run before any
    host is registered. *)
Definition address_pool_checked_first : Prop :=
  forall config cloud net inventory,
    IP.parse_network (default "10.0.0.0/24" (network_private_cidr config)) = Some net ->
    servers_get_all cloud = inr [] ->
    Z.of_nat (length (IP.hosts net)) < total_hosts config ->
    exists e p,
      InventoryModule.parse config cloud (fresh inventory) = Raised e p /\
      host_records (_inventory p) = host_records inventory.

(** What [InventoryModule.__init__] assigns: empty lists; the other
    attributes are not assigned before [parse]. *)
Definition is_fresh (p : Plugin) : Prop :=
  _hetzner_servers_configured p = [] /\
  _hetzner_volumes_configured p = [] /\
  _hcloud_servers p = [] /\
  _hcloud_volumes p = [].

(** Two outcomes that a caller cannot tell apart: the same ending, the
    same exception, the same calls on the sink, and the same instance
    when the run completes. *)
Definition same_outcome {A} (o1 o2 : outcome A) : Prop :=
  match o1, o2 with
  | Done a1 p1, Done a2 p2 => a1 = a2 /\ p1 = p2
  | Raised e1 p1, Raised e2 p2 => e1 = e2 /\ _inventory p1 = _inventory p2
  | Hangs, Hangs => True
  | _, _ => False
  end.

(** The desired host instances, group by group and index by index, in
    the order in which [_prepare_group] and [_add_host] visit them. *)
Definition desired_hosts (config : Config) : list (string * Z) :=
  flat_map
    (fun group =>
       map (pair group)
           (Py.range 1 (default 0 (InventoryModule._get_group_config config group g_num) + 1)))
    (Dict.keys (nodes config)).

Definition desired_hostname (h : string * Z) : string :=
  InventoryModule.hostname (fst h) (snd h).

(** The observed server [_add_host] finds for a desired host: the search
    with the arguments [_prepare_group] passes. *)
Definition claimed (config : Config) (servers : list Server) (h : string * Z)
  : option Server :=
  let group := fst h in
  InventoryModule._search_fitting_server servers (desired_hostname h)
    (default "" (InventoryModule._get_group_config config group g_type))
    (default "debian-12" (InventoryModule._get_group_config config group g_image))
    (default false (InventoryModule._get_group_config config group g_is_control))
    (default false (InventoryModule._get_group_config config group g_is_worker)).

(** The calls [_clean_hetzner_server] makes for an unmanaged server. *)
Definition unmanaged_calls (server : Server) : list call :=
  let new_name :=
    if negb (Str.startswith "remove-" (server_name server))
    then "remove-" +:+ server_name server
    else server_name server in
  [add_host new_name "unmanaged";
   set_variable new_name "old_name" (VStr (server_name server))] ++
  match InventoryModule._get_current_ip server with
  | Ok ip => [set_variable new_name "ansible_host" (VStr ip)]
  | Err _ => []
  end.

(** The servers the pass reports as unmanaged. *)
Definition unmanaged_report (p : Plugin) : list Server :=
  List.filter (InventoryModule.unmanaged p) (_hcloud_servers p).

(** A method that leaves the snapshot of servers and the list of
    claimed servers as they are. *)
Definition preserves {A} (m : M A) : Prop :=
  forall p a p',
    m p = Done a p' ->
    _hcloud_servers p' = _hcloud_servers p /\
    _hetzner_servers_configured p' = _hetzner_servers_configured p.

(** The matching invariant as the specification words it, for every
    configuration: no observed server is claimed by two desired hosts. *)
Definition claimed_at_most_once : Prop :=
  forall config cloud servers inventory p h1 h2 s,
    servers_get_all cloud = inr servers ->
    InventoryModule.parse config cloud (fresh inventory) = Done tt p ->
    In h1 (desired_hosts config) -> In h2 (desired_hosts config) ->
    claimed config servers h1 = Some s -> claimed config servers h2 = Some s ->
    h1 = h2.

(** The identifier [_add_host] appends for a desired host. *)
Definition claimed_id (found_server : option Server) : list Z :=
  match found_server with
  | Some server => [server_id server]
  | None => []
  end.

(* ===================================================================== *)
(** * Further notions used in the statements *)
(* ===================================================================== *)

(** The states a [NetworkManager] can be in: its iterator is what is
    left of the hosts of its network after the ones it has visited. *)
Definition iter_suffix (nm : NetworkManager) : Prop :=
  exists visited, IP.hosts (_network nm) = visited ++ _ip_iter nm.

(** The number of uses a [ValueManager] has counted. *)
Definition total_uses (vm : ValueManager) : Z := Py.sum (map snd (_counts vm)).

(** The slots that fall to [group] when the slots are paired with the
    interleaved groups. *)
Definition slots_of (group : string) (pairs : list (Z * string)) : list Z :=
  map fst (List.filter (fun sg => String.eqb (snd sg) group) pairs).

(** The answers of [n] successive calls of [get_next_slot] for one group,
    up to the first one that raises. *)
Fixpoint take_slots (n : nat) (group : string) (a : HostTimeAssigner) : list string :=
  match n with
  | O => []
  | S k =>
      match HostTimeAssigner.get_next_slot group a with
      | Err _ => []
      | Ok (slot, a') => slot :: take_slots k group a'
      end
  end.

(** The list [all_slots] of [HostTimeAssigner.__init__]. *)
Definition all_slots (start_time total_minutes total_hosts : Z) : list Z :=
  if total_hosts <=? 1 then [start_time]
  else
    let step := total_minutes / (total_hosts - 1) in
    map (fun i => start_time + i * step) (Py.range 0 total_hosts).

(** A group entry that [_validate_config_structure] lets pass: a role,
    a server type and a replica count. *)
Definition group_well_formed (config : Config) (group : string) : Prop :=
  (InventoryModule.truthy_bool
     (InventoryModule._get_group_config config group g_is_control) = true \/
   InventoryModule.truthy_bool
     (InventoryModule._get_group_config config group g_is_worker) = true) /\
  InventoryModule.truthy_str
    (InventoryModule._get_group_config config group g_type) = true /\
  InventoryModule._get_group_config config group g_num <> None.

(** A volume entry that [_validate_config_structure] lets pass. *)
Definition volume_well_formed (v : VolumeConfig) : Prop :=
  v_name v <> "" /\ v_size v <> "".

(** An observed server that may stand for the desired host [name]: the
    name, the image and the type agree, no role would be taken from it,
    and it records an internal address. *)
Definition fits (name server_type image : string) (is_control is_worker : bool)
    (server : Server) : Prop :=
  server_name server = name /\
  server_labels server !! "image" = Some image /\
  server_labels server !! "server_type" = Some server_type /\
  (server_labels server !! "is_control" = Some "true" -> is_control = true) /\
  (server_labels server !! "is_worker" = Some "true" -> is_worker = true) /\
  exists ip, server_labels server !! "internal_ip" = Some ip /\ ip <> "".

(** The name under which [_clean_hetzner_server] registers a server. *)
Definition unmanaged_name (server : Server) : string :=
  if negb (Str.startswith "remove-" (server_name server))
  then "remove-" +:+ server_name server
  else server_name server.

(** The hosts registered on the sink of an instance. *)
Definition registered (p : Plugin) : list (string * string) :=
  host_records (_inventory p).

(** A method that, when it returns, has left [proj] of the instance as
    it was. *)
Definition keeps {B A} (proj : Plugin -> B) (m : M A) : Prop :=
  forall p a p', m p = Done a p' -> proj p' = proj p.

(** What a method writes: started on an instance that holds the snapshot
    [hvs] of the volumes, it keeps the snapshot, every call it makes on
    the sink satisfies [Q], whether it returns or raises, and the value
    it returns satisfies [P]. *)
Definition writes (hvs : list Volume) (Q : call -> Prop) {A} (P : A -> Prop)
    (m : M A) : Prop :=
  forall p,
    _hcloud_volumes p = hvs ->
    match m p with
    | Done a p' =>
        _hcloud_volumes p' = hvs /\
        (exists l, _inventory p' = _inventory p ++ l /\ Forall Q l) /\
        P a
    | Raised _ p' =>
        _hcloud_volumes p' = hvs /\
        exists l, _inventory p' = _inventory p ++ l /\ Forall Q l
    | Hangs => True
    end.

(** An entry of [cluster_volumes] of the host [hostname] that agrees
    with the snapshot [hvs]: it names the observed volume when there is
    one and asks for its creation when there is none, and it asks for a
    resize exactly when the observed volume is smaller than configured;
    the observed volume is never larger. *)
Definition plan_sound (hvs : list Volume) (hostname : string) (plan : VolumePlan) : Prop :=
  match InventoryModule.find_volume
          (InventoryModule.expected_name hostname (plan_name plan)) hvs with
  | Some hv =>
      plan_id plan = Some (volume_id hv) /\
      needs_create plan = false /\
      exists gb,
        InventoryModule.config_gb (plan_size plan) = Ok gb /\
        volume_size hv <= gb /\
        (needs_resize plan = true <-> volume_size hv < gb)
  | None =>
      plan_id plan = None /\ needs_create plan = true /\ needs_resize plan = false
  end.

(** A call on the sink whose volume plans, if it sets any, are sound. *)
Definition plans_sound (hvs : list Volume) (c : call) : Prop :=
  forall host plans,
    c = set_variable host "cluster_volumes" (VVolumePlans plans) ->
    Forall (plan_sound hvs host) plans.

(** A call that does not set [orphan_volumes]. *)
Definition not_orphan_volumes (c : call) : Prop :=
  forall entity v, c = set_variable entity "orphan_volumes" v -> False.

(** The names of the volumes the desired hosts of the storage groups
    expect, host by host, in the order of the configured volumes. *)
Definition managed_volume_names (config : Config) : list string :=
  flat_map
    (fun h =>
       if InventoryModule.truthy_bool
            (InventoryModule._get_group_config config (fst h) g_storage)
       then map (fun v => InventoryModule.expected_name (desired_hostname h) (v_name v))
                (volumes config)
       else [])
    (desired_hosts config).

(** The observed volumes no desired host expects, in observed order. *)
Definition orphans (config : Config) (hvs : list Volume) : list OrphanVolume :=
  map (fun hv => mkOrphanVolume (volume_id hv) (volume_name hv) (volume_size hv))
      (List.filter
         (fun hv => negb (bool_decide (volume_name hv ∈ managed_volume_names config)))
         hvs).

(** The values the sink has received for the variable [orphan_volumes],
    with the entity they were set on. *)
Definition orphan_reports (inventory : list call) : list (string * value) :=
  omap (fun c =>
          match c with
          | set_variable entity varname v =>
              if String.eqb varname "orphan_volumes" then Some (entity, v) else None
          | _ => None
          end) inventory.

Definition reported (p : Plugin) : list (string * value) :=
  orphan_reports (_inventory p).

(** A method that, when it returns, has appended [out] to the list
    [proj] of the instance. *)
Definition appends {B A} (proj : Plugin -> list B) (out : list B) (m : M A) : Prop :=
  forall p a p', m p = Done a p' -> proj p' = proj p ++ out.

(** The answers of successive calls of [get_next_slot], one for each
    group of [groups_asked] in turn; a call that raises answers nothing
    and leaves the assigner as it was. *)
Fixpoint ask_slots (groups_asked : list string) (a : HostTimeAssigner) : list string :=
  match groups_asked with
  | [] => []
  | g :: rest =>
      match HostTimeAssigner.get_next_slot g a with
      | Ok (slot, a') => slot :: ask_slots rest a'
      | Err _ => ask_slots rest a
      end
  end.

(** The internal address an observed server records, if it records one. *)
Definition recorded_address (server : Server) : option string :=
  match server_labels server !! "internal_ip" with
  | Some ip => if String.eqb ip "" then None else Some ip
  | None => None
  end.

(** The internal address [_add_host] reads off a server it has found. *)
Definition found_address (server : Server) : string :=
  default "" (server_labels server !! "internal_ip").

(** The values the sink has received for the variable [varname], with
    the entity they were set on, in order. *)
Definition variable_settings (varname : string) (inventory : list call)
  : list (string * value) :=
  omap (fun c =>
          match c with
          | set_variable entity name v =>
              if String.eqb name varname then Some (entity, v) else None
          | _ => None
          end) inventory.

(** The address allocator of an instance and the internal addresses it
    has set. *)
Definition addressing (p : Plugin) : option NetworkManager * list (string * value) :=
  (_network_manager p, variable_settings "internal_ip" (_inventory p)).

(** The internal addresses of the desired hosts: a host that has found a
    server takes the address the server records, a host that has not
    takes the first free address that is left. *)
Fixpoint assign_addresses (found : list (string * option Server)) (free : list Z)
  : list (string * value) :=
  match found with
  | [] => []
  | (host, Some server) :: rest =>
      (host, VStr (found_address server)) :: assign_addresses rest free
  | (host, None) :: rest =>
      match free with
      | [] => assign_addresses rest []
      | a :: free' => (host, VStr (IP.to_string a)) :: assign_addresses rest free'
      end
  end.

(** The free addresses that are left after [assign_addresses]. *)
Fixpoint left_free (found : list (string * option Server)) (free : list Z) : list Z :=
  match found with
  | [] => free
  | (_, Some _) :: rest => left_free rest free
  | (_, None) :: rest => left_free rest (tl free)
  end.

(** The desired hosts with the server each of them finds. *)
Definition found_hosts (config : Config) (servers : list Server)
  : list (string * option Server) :=
  map (fun h => (desired_hostname h, claimed config servers h)) (desired_hosts config).

(** The maintenance scheduler of an instance and the upgrade times it
    has set. *)
Definition scheduling (p : Plugin) : option HostTimeAssigner * list (string * value) :=
  (_host_time_assigner p, variable_settings "upgrade_time" (_inventory p)).

(** The exceptions that can leave a pass: an [AnsibleError] other than
    those of three checks that the validation has made redundant, a
    [ValueError], or the [RuntimeError] of an exhausted address pool;
    never the [AttributeError] of an attribute read before it is
    assigned. *)
Definition pass_error (e : exn) : Prop :=
  match e with
  | AnsibleError NoCloudToken => False
  | AnsibleError (GroupNoServerType _) => False
  | AnsibleError (GroupNoHosts _) => False
  | AnsibleError _ => True
  | ValueError _ => True
  | RuntimeError m => m = NoAvailableIPs
  | AttributeError _ => False
  end.

(** Both allocators of the instance are assigned. *)
Definition ready (p : Plugin) : Prop :=
  _network_manager p <> None /\ _host_time_assigner p <> None.

(** A method that, started with both allocators assigned, leaves them
    assigned when it returns a value that satisfies [P], and raises
    nothing but a [pass_error]. *)
Definition guarded {A} (P : A -> Prop) (m : M A) : Prop :=
  forall p,
    ready p ->
    match m p with
    | Done a p' => ready p' /\ P a
    | Raised e _ => pass_error e
    | Hangs => True
    end.

(** The walk along the segments of a key: at every segment but the last
    the value found becomes the container, and a value that is null makes
    the walk go on from the document. *)
Fixpoint walk (root : yaml) (path : list string) (config : yaml) : RawConfig.answer :=
  match path with
  | [] => RawConfig.Default
  | k :: rest =>
      let config := match config with YNull => root | _ => config end in
      match RawConfig.has_key k config with
      | None => RawConfig.TypeError
      | Some false => RawConfig.Default
      | Some true =>
          match RawConfig.item k config with
          | None => RawConfig.TypeError
          | Some v =>
              match rest with
              | [] => match v with YNull => RawConfig.Default | _ => RawConfig.Value v end
              | _ :: _ => walk root rest v
              end
          end
      end
  end.

(** An entry of a mapping of the document for a field that is set; a
    field that is [None] is left out. *)
Definition entry {A} (key : string) (f : A -> yaml) (o : option A)
  : list (string * yaml) :=
  match o with
  | Some a => [(key, f a)]
  | None => []
  end.

(** The document a [NodeGroup] stands for. *)
Definition yaml_of_group (g : NodeGroup) : yaml :=
  YDict (entry "type" YStr (g_type g) ++
         entry "image" YStr (g_image g) ++
         entry "num" YNum (g_num g) ++
         entry "is_control" YBool (g_is_control g) ++
         entry "is_worker" YBool (g_is_worker g) ++
         entry "storage" YBool (g_storage g) ++
         entry "locations" (fun l => YList (map YStr l)) (g_locations g)).

(** The document a [Config] stands for. *)
Definition yaml_of_config (c : Config) : yaml :=
  YDict ([("nodes", YDict (map (fun kv => (fst kv, yaml_of_group (snd kv))) (nodes c)))] ++
         entry "hetzner" (fun t => YDict [("token", YDict [("cloud", YStr t)])])
               (hetzner_token_cloud c) ++
         [("unattended_upgrades",
           YDict (entry "start_time" YStr (unattended_upgrades_start_time c) ++
                  entry "end_time" YStr (unattended_upgrades_end_time c)))] ++
         entry "network" (fun n => YDict [("private_cidr", YStr n)])
               (network_private_cidr c)).

(** What the dotted lookup answers for a field of the record. *)
Definition typed_answer {A} (f : A -> yaml) (o : option A) : RawConfig.answer :=
  match o with
  | Some a => RawConfig.Value (f a)
  | None => RawConfig.Default
  end.


(** The locations [_add_host] sets for the successive hosts of one
    group, [found] being the server each of them has found: a host that
    has found a server keeps the location the server records, and the
    location is counted; a host that has not is given the least used
    location.  The list ends at the first host whose call raises. *)
Fixpoint place (found : list (option Server)) (lm : ValueManager) : list value :=
  match found with
  | [] => []
  | Some server :: rest =>
      let location := server_labels server !! "location" in
      match ValueManager.increment location lm with
      | Ok lm' => from_option VStr VNone location :: place rest lm'
      | Err _ => []
      end
  | None :: rest =>
      match ValueManager.get_next lm with
      | Ok (location, lm') => VStr location :: place rest lm'
      | Err _ => []
      end
  end.

(** The desired hosts of one group, in the order of [_prepare_group]. *)
Definition group_hosts (config : Config) (group : string) : list (string * Z) :=
  map (pair group)
      (Py.range 1 (default 0 (InventoryModule._get_group_config config group g_num) + 1)).

(** The locations [_prepare_group] builds the location manager of a
    group on. *)
Definition group_locations (config : Config) (group : string) : list string :=
  default ["fsn1"; "nbg1"; "hel1"]
          (InventoryModule._get_group_config config group g_locations).

(** The locations of the hosts of one group: every group starts with a
    manager of its own. *)
Definition group_placements (config : Config) (servers : list Server) (group : string)
  : list (string * value) :=
  combine (map desired_hostname (group_hosts config group))
          (place (map (claimed config servers) (group_hosts config group))
                 (ValueManager.init (group_locations config group))).

Definition placements (config : Config) (servers : list Server) : list (string * value) :=
  flat_map (group_placements config servers) (Dict.keys (nodes config)).

(** The snapshot of the servers of an instance and the locations it has
    set. *)
Definition placing (p : Plugin) : list Server * list (string * value) :=
  (_hcloud_servers p, variable_settings "location" (_inventory p)).


(** The setting of [ansible_host] for an observed server registered
    under [name]: the address [_get_current_ip] answers. *)
Definition reached (name : string) (server : Server) : list (string * value) :=
  match InventoryModule._get_current_ip server with
  | Ok ip => [(name, VStr ip)]
  | Err _ => []
  end.

(** The [create] flag of a desired host: it has found no server. *)
Definition create_flag (config : Config) (servers : list Server) (h : string * Z)
  : string * value :=
  (desired_hostname h, VBool (bool_decide (claimed config servers h = None))).

(** The setting of [ansible_host] for a desired host: only a host that
    has found a server has one. *)
Definition host_connection (config : Config) (servers : list Server) (h : string * Z)
  : list (string * value) :=
  match claimed config servers h with
  | Some server => reached (desired_hostname h) server
  | None => []
  end.

(** The snapshot of the servers of an instance, the [create] flags and
    the connection addresses it has set. *)
Definition connecting (p : Plugin)
  : list Server * list (string * value) * list (string * value) :=
  (_hcloud_servers p,
   variable_settings "create" (_inventory p),
   variable_settings "ansible_host" (_inventory p)).

(** The configurations the typed reads are faithful on: no group name
    holds a dot.  [_get_group_config] composes the key
    [nodes.<group>.<key>] and [_get_config] takes it apart at every dot,
    so that a group whose name holds a dot is not read under its name. *)
Definition plain_group_names (config : Config) : Prop :=
  Forall (fun group => Str.has_char "." group = false) (Dict.keys (nodes config)).

(* ===================================================================== *)
(** * Properties *)
(* ===================================================================== *)
(* ===================================================================== *)
(** * Properties of the dictionaries *)
(* ===================================================================== *)

Section DictFacts.
Context {V : Type}.
Implicit Types (d : Dict.t V) (k : string) (v : V).

Lemma dict_get_app_notin k d1 d2 :
  ~ In k (Dict.keys d1) -> Dict.get k (d1 ++ d2) = Dict.get k d2.
Proof.
  induction d1 as [|[k' v'] d1 IH]; simpl; intros Hk; [reflexivity|].
  destruct (String.eqb_spec k k') as [->|Hne]; [tauto|].
  apply IH. tauto.
Qed.

Lemma dict_get_head k v d : Dict.get k ((k, v) :: d) = Some v.
Proof. simpl. now rewrite String.eqb_refl. Qed.

Lemma dict_set_app_notin k v d1 d2 :
  ~ In k (Dict.keys d1) -> Dict.set k v (d1 ++ d2) = d1 ++ Dict.set k v d2.
Proof.
  induction d1 as [|[k' v'] d1 IH]; simpl; intros Hk; [reflexivity|].
  destruct (String.eqb_spec k k') as [->|Hne]; [tauto|].
  f_equal. apply IH. tauto.
Qed.

Lemma dict_set_head k v v' d : Dict.set k v ((k, v') :: d) = (k, v) :: d.
Proof. simpl. now rewrite String.eqb_refl. Qed.

Lemma dict_del_app_notin k d1 d2 :
  ~ In k (Dict.keys d1) -> Dict.del k (d1 ++ d2) = d1 ++ Dict.del k d2.
Proof.
  induction d1 as [|[k' v'] d1 IH]; simpl; intros Hk; [reflexivity|].
  destruct (String.eqb_spec k k') as [->|Hne]; [tauto|].
  f_equal. apply IH. tauto.
Qed.

Lemma dict_del_head k v d : Dict.del k ((k, v) :: d) = d.
Proof. simpl. now rewrite String.eqb_refl. Qed.

Lemma dict_keys_set k v d :
  Dict.keys (Dict.set k v d) =
  if Dict.mem k d then Dict.keys d else Dict.keys d ++ [k].
Proof.
  unfold Dict.mem.
  induction d as [|[k' v'] d IH]; simpl; [reflexivity|].
  destruct (String.eqb_spec k k') as [->|Hne]; simpl; [reflexivity|].
  rewrite IH. now destruct (Dict.get k d).
Qed.

Lemma dict_mem_In k d : Dict.mem k d = true <-> In k (Dict.keys d).
Proof.
  unfold Dict.mem.
  induction d as [|[k' v'] d IH]; simpl; [intuition discriminate|].
  destruct (String.eqb_spec k k') as [->|Hne]; [intuition|].
  rewrite IH. intuition congruence.
Qed.

Lemma dict_set_NoDup k v d :
  NoDup (Dict.keys d) -> NoDup (Dict.keys (Dict.set k v d)).
Proof.
  intros Hd. rewrite dict_keys_set.
  destruct (Dict.mem k d) eqn:Hm; [assumption|].
  apply NoDup_app. repeat split; [assumption| |apply NoDup_singleton].
  intros x Hx [->|[]]%list_elem_of_In.
  apply list_elem_of_In, dict_mem_In in Hx. congruence.
Qed.

Lemma dict_comprehension_NoDup (f : string -> V) ks :
  NoDup (Dict.keys (Dict.comprehension f ks)).
Proof.
  unfold Dict.comprehension.
  assert (H : forall d0, NoDup (Dict.keys d0) ->
            NoDup (Dict.keys (fold_left (fun d k => Dict.set k (f k) d) ks d0))).
  { induction ks as [|k ks IH]; simpl; intros d0 H0; [assumption|].
    apply IH, dict_set_NoDup, H0. }
  apply H. constructor.
Qed.

End DictFacts.

(* ===================================================================== *)
(** * ValueManager: least-used value and fairness *)
(* ===================================================================== *)

Section ValueManagerFacts.
Import ValueManager.

Lemma min_item_snoc best items x :
  min_item best (items ++ [x]) =
  let m := min_item best items in if snd x <? snd m then x else m.
Proof.
  revert best. induction items as [|y items IH]; simpl; intros best; [reflexivity|].
  apply IH.
Qed.

(** [min_item] picks the first item of least count. *)
Lemma min_item_split best items :
  exists before v c after,
    best :: items = before ++ (v, c) :: after /\
    min_item best items = (v, c) /\
    Forall (fun kv => c < snd kv) before /\
    Forall (fun kv => c <= snd kv) after.
Proof.
  induction items as [|x items IH] using rev_ind.
  - exists [], (fst best), (snd best), []. simpl.
    destruct best; repeat split; constructor.
  - destruct IH as (before & v & c & after & Heq & Hmin & Hb & Ha).
    rewrite min_item_snoc, Hmin. simpl.
    destruct (Z.ltb_spec (snd x) c) as [Hlt|Hge].
    + exists (best :: items), (fst x), (snd x), [].
      repeat split.
      * destruct x; reflexivity.
      * destruct x; reflexivity.
      * rewrite Heq. apply Forall_app. split.
        -- eapply Forall_impl; [exact Hb|]. simpl. intros; lia.
        -- constructor; [simpl; lia|].
           eapply Forall_impl; [exact Ha|]. simpl. intros; lia.
      * constructor.
    + exists before, v, c, (after ++ [x]).
      repeat split; [|assumption|].
      * change (best :: items ++ [x]) with ((best :: items) ++ [x]).
        rewrite Heq, <- app_assoc. reflexivity.
      * apply Forall_app. split; [assumption|]. constructor; [lia|constructor].
Qed.

Lemma keys_app_cons (before after : Dict.t Z) v (c : Z) :
  NoDup (Dict.keys (before ++ (v, c) :: after)) -> ~ In v (Dict.keys before).
Proof.
  unfold Dict.keys. rewrite map_app. simpl.
  intros H%NoDup_app. destruct H as (_ & H & _).
  intros Hin. apply (H v); [now apply list_elem_of_In|]. left.
Qed.

(** What [get_next] does on a manager whose counters are not empty. *)
Lemma get_next_split vm :
  NoDup (Dict.keys (_counts vm)) ->
  _counts vm <> [] ->
  exists before v c after,
    _counts vm = before ++ (v, c) :: after /\
    Forall (fun kv => c < snd kv) before /\
    Forall (fun kv => c <= snd kv) after /\
    get_next vm = Ok (v, mkValueManager (_values vm) (before ++ (v, c + 1) :: after)).
Proof.
  intros Hnd Hne. unfold get_next.
  destruct (_counts vm) as [|x items] eqn:Hc; [congruence|].
  destruct (min_item_split x items) as (before & v & c & after & Heq & Hmin & Hb & Ha).
  exists before, v, c, after. rewrite Hmin. simpl fst.
  repeat split; try assumption.
  rewrite Heq in Hnd |- *. pose proof (keys_app_cons _ _ _ _ Hnd) as Hnotin.
  unfold bump.
  rewrite dict_get_app_notin, dict_get_head by assumption. simpl.
  rewrite dict_set_app_notin, dict_set_head by assumption. reflexivity.
Qed.

(** The counters of a fresh manager: the candidates, each at zero. *)
Lemma init_counts_zero values :
  Forall (fun kv => snd kv = 0) (_counts (init values)).
Proof.
  unfold init, Dict.comprehension. simpl.
  assert (H : forall d0 : Dict.t Z, Forall (fun kv => snd kv = 0) d0 ->
            Forall (fun kv => snd kv = 0)
                   (fold_left (fun d k => Dict.set k 0 d) values d0)).
  { induction values as [|k ks IH]; simpl; intros d0 H0; [assumption|].
    apply IH. clear IH. induction d0 as [|[k' v'] d0 IHd]; simpl.
    - repeat constructor.
    - inversion H0; subst. destruct (String.eqb k k'); constructor; auto. }
  apply H. constructor.
Qed.

Lemma init_counts_nonempty values : values <> [] -> _counts (init values) <> [].
Proof.
  unfold init, Dict.comprehension. simpl. destruct values as [|k ks]; [congruence|].
  intros _. simpl.
  assert (H : forall (l : list string) (d0 : Dict.t Z), d0 <> [] ->
            fold_left (fun d k => Dict.set k 0 d) l d0 <> []).
  { induction l as [|k' l IH]; simpl; intros d0 H0; [assumption|].
    apply IH. destruct d0 as [|[k0 v0] d0]; simpl; [congruence|].
    destruct (String.eqb k' k0); congruence. }
  apply H. congruence.
Qed.

Lemma get_next_balanced vm :
  NoDup (Dict.keys (_counts vm)) -> _counts vm <> [] -> balanced (_counts vm) ->
  exists v vm', get_next vm = Ok (v, vm') /\
    NoDup (Dict.keys (_counts vm')) /\ _counts vm' <> [] /\ balanced (_counts vm').
Proof.
  intros Hnd Hne Hbal.
  destruct (get_next_split vm Hnd Hne) as (before & v & c & after & Heq & Hb & Ha & Hget).
  eexists _, _. split; [exact Hget|]. simpl.
  assert (Hkeys : Dict.keys (before ++ (v, c + 1) :: after) = Dict.keys (_counts vm)).
  { rewrite Heq. unfold Dict.keys. rewrite !map_app. reflexivity. }
  split; [now rewrite Hkeys|]. split; [now destruct before|].
  assert (Hmin : forall z, In z (_counts vm) -> c <= snd z <= c + 1).
  { intros z Hz. split.
    - rewrite Heq in Hz. apply in_app_or in Hz. destruct Hz as [Hz|[<-|Hz]].
      + rewrite Forall_forall in Hb. apply list_elem_of_In, Hb in Hz. lia.
      + simpl; lia.
      + rewrite Forall_forall in Ha. apply list_elem_of_In, Ha in Hz. lia.
    - apply (Hbal z (v, c)); [assumption|]. rewrite Heq. apply in_or_app. right. left. reflexivity. }
  assert (Hnew : forall z, In z (before ++ (v, c + 1) :: after) -> c <= snd z <= c + 1).
  { intros z Hz. apply in_app_or in Hz. destruct Hz as [Hz|[<-|Hz]].
    - apply Hmin. rewrite Heq. apply in_or_app. now left.
    - simpl; lia.
    - apply Hmin. rewrite Heq. apply in_or_app. right. now right. }
  intros x y Hx Hy. apply Hnew in Hx, Hy. lia.
Qed.

Lemma take_balanced n : forall vm,
  NoDup (Dict.keys (_counts vm)) -> _counts vm <> [] -> balanced (_counts vm) ->
  length (fst (take n vm)) = n /\ balanced (_counts (snd (take n vm))).
Proof.
  induction n as [|n IH]; intros vm Hnd Hne Hbal; simpl; [auto|].
  destruct (get_next_balanced vm Hnd Hne Hbal) as (v & vm' & Hget & Hnd' & Hne' & Hbal').
  rewrite Hget. specialize (IH vm' Hnd' Hne' Hbal').
  destruct (take n vm') as [vs vm'']. simpl in *. destruct IH. split; [lia|assumption].
Qed.

(** The keys of the counters are the candidates in declaration order. *)
Lemma init_keys values :
  NoDup values -> Dict.keys (_counts (init values)) = values.
Proof.
  unfold init, Dict.comprehension. cbn [_counts].
  assert (H : forall (ks : list string) (d0 : Dict.t Z),
            NoDup (Dict.keys d0 ++ ks) ->
            Dict.keys (fold_left (fun d k => Dict.set k 0 d) ks d0) = Dict.keys d0 ++ ks).
  { induction ks as [|k ks IH]; cbn [fold_left]; intros d0 Hnd.
    - now rewrite app_nil_r.
    - rewrite IH.
      + rewrite dict_keys_set. destruct (Dict.mem k d0) eqn:Hm.
        * exfalso. apply dict_mem_In in Hm. apply NoDup_app in Hnd.
          destruct Hnd as (_ & Hd & _).
          apply (Hd k); [now apply list_elem_of_In|left].
        * rewrite <- app_assoc. reflexivity.
      + rewrite dict_keys_set. destruct (Dict.mem k d0) eqn:Hm.
        * exfalso. apply dict_mem_In in Hm. apply NoDup_app in Hnd.
          destruct Hnd as (_ & Hd & _).
          apply (Hd k); [now apply list_elem_of_In|left].
        * rewrite <- app_assoc. exact Hnd. }
  intros Hnd. apply (H values []). exact Hnd.
Qed.

(** The counters keep distinct keys whatever the calls. *)
Lemma get_next_NoDup vm v vm' :
  NoDup (Dict.keys (_counts vm)) -> get_next vm = Ok (v, vm') ->
  NoDup (Dict.keys (_counts vm')).
Proof.
  unfold get_next. destruct (_counts vm) as [|x items] eqn:Hc; [discriminate|].
  intros Hnd [= _ <-]. cbn [_counts]. unfold bump. now apply dict_set_NoDup.
Qed.

Lemma increment_NoDup vm item vm' :
  NoDup (Dict.keys (_counts vm)) -> increment item vm = Ok vm' ->
  NoDup (Dict.keys (_counts vm')).
Proof.
  unfold increment. destruct item as [i|]; [|discriminate].
  destruct (existsb _ _); [|discriminate].
  intros Hnd [= <-]. cbn [_counts]. unfold bump. now apply dict_set_NoDup.
Qed.

End ValueManagerFacts.

(** C8 — [ValueManager.get_next] returns the candidate whose usage counter
    is smallest, the first such candidate in declaration order on a tie
    (every counter declared before it is strictly larger, every later one
    at least as large), and increments that counter and no other.  On a
    fresh manager over a, b, c four calls answer a, b, c, a; after one
    [increment] of a on a fresh manager, the next call answers b. *)
Theorem C8_get_next_least_used (vm : ValueManager) :
  NoDup (Dict.keys (_counts vm)) ->
  _counts vm <> [] ->
  (exists before v c after,
     _counts vm = before ++ (v, c) :: after /\
     Forall (fun kv => c < snd kv) before /\
     Forall (fun kv => c <= snd kv) after /\
     ValueManager.get_next vm
     = Ok (v, mkValueManager (_values vm) (before ++ (v, c + 1) :: after)))
  /\ fst (ValueManager.take 4 (ValueManager.init ["a"; "b"; "c"])) = ["a"; "b"; "c"; "a"]
  /\ (fst <$> (ValueManager.increment (Some "a") (ValueManager.init ["a"; "b"; "c"])
               ≫= ValueManager.get_next)) = Ok "b".
Proof.
  intros Hnd Hne. split; [now apply get_next_split|].
  split; vm_compute; reflexivity.
Qed.

Lemma C8_get_next_least_used_witness :
  let vm := mkValueManager ["fsn1"; "nbg1"; "hel1"]
                           [("fsn1", 2); ("nbg1", 1); ("hel1", 1)] in
  NoDup (Dict.keys (_counts vm)) /\ _counts vm <> [] /\
  exists before v c after,
    _counts vm = before ++ (v, c) :: after /\
    Forall (fun kv => c < snd kv) before /\
    Forall (fun kv => c <= snd kv) after /\
    ValueManager.get_next vm
    = Ok (v, mkValueManager (_values vm) (before ++ (v, c + 1) :: after)).
Proof.
  intros vm.
  assert (Hnd : NoDup (Dict.keys (_counts vm))).
  { refine (bool_decide_unpack _ _). vm_compute. exact I. }
  assert (Hne : _counts vm <> []) by discriminate.
  split; [exact Hnd|]. split; [exact Hne|].
  exact (proj1 (C8_get_next_least_used vm Hnd Hne)).
Defined.

(** C9 — starting from a fresh [ValueManager] over a non-empty list of
    candidates, any number [n] of [get_next] calls alone all answer, and
    afterwards any two usage counters differ by at most one (so do the
    counters of the most-used and of the least-used candidate). *)
Theorem C9_get_next_fair (values : list string) (n : nat) :
  values <> [] ->
  length (fst (ValueManager.take n (ValueManager.init values))) = n /\
  forall x y,
    In x (_counts (snd (ValueManager.take n (ValueManager.init values)))) ->
    In y (_counts (snd (ValueManager.take n (ValueManager.init values)))) ->
    snd x <= snd y + 1.
Proof.
  intros Hne. apply take_balanced.
  - apply dict_comprehension_NoDup.
  - now apply init_counts_nonempty.
  - intros x y Hx Hy.
    pose proof (init_counts_zero values) as Hz. rewrite Forall_forall in Hz.
    rewrite (Hz x), (Hz y) by now apply list_elem_of_In. lia.
Qed.

Lemma C9_get_next_fair_witness :
  ["fsn1"; "nbg1"; "hel1"] <> [] /\
  length (fst (ValueManager.take 7 (ValueManager.init ["fsn1"; "nbg1"; "hel1"]))) = 7%nat /\
  forall x y,
    In x (_counts (snd (ValueManager.take 7 (ValueManager.init ["fsn1"; "nbg1"; "hel1"])))) ->
    In y (_counts (snd (ValueManager.take 7 (ValueManager.init ["fsn1"; "nbg1"; "hel1"])))) ->
    snd x <= snd y + 1.
Proof.
  split; [discriminate|].
  apply (C9_get_next_fair ["fsn1"; "nbg1"; "hel1"] 7). discriminate.
Defined.

(* ===================================================================== *)
(** * HostTimeAssigner: the interleaving loop *)
(* ===================================================================== *)

Section InterleaveFacts.
Import HostTimeAssigner.

Lemma decrement_all_app d1 d2 :
  decrement_all (d1 ++ d2) = decrement_all d1 ++ decrement_all d2.
Proof. unfold decrement_all. apply flat_map_app. Qed.

Lemma decrement_all_keys d k :
  In k (Dict.keys (decrement_all d)) -> In k (Dict.keys d).
Proof.
  induction d as [|[k' c] d IH]; simpl; [tauto|].
  unfold decrement_all in *. simpl.
  destruct (c - 1 =? 0); simpl; intuition.
Qed.

Lemma decrement_all_NoDup d :
  NoDup (Dict.keys d) -> NoDup (Dict.keys (decrement_all d)).
Proof.
  induction d as [|[k c] d IH]; simpl; intros H; [constructor|].
  inversion H as [|? ? Hnotin Hd]; subst.
  unfold decrement_all in *. simpl. destruct (c - 1 =? 0); simpl; [auto|].
  constructor; [|auto].
  intros Hin%list_elem_of_In. apply Hnotin, list_elem_of_In.
  now apply decrement_all_keys.
Qed.

Lemma interleave_pass_fold rem : forall done result,
  NoDup (Dict.keys (done ++ rem)) ->
  fold_left
    (fun '(result, group_counts) group =>
       let c := default 0 (Dict.get group group_counts) - 1 in
       (result ++ [group],
        if c =? 0 then Dict.del group group_counts
        else Dict.set group c group_counts))
    (Dict.keys rem) (result, decrement_all done ++ rem)
  = (result ++ Dict.keys rem, decrement_all done ++ decrement_all rem).
Proof.
  induction rem as [|[k c] rem IH]; intros done result Hnd; simpl.
  - now rewrite !app_nil_r.
  - assert (Hk : ~ In k (Dict.keys (decrement_all done))).
    { intros Hin%decrement_all_keys.
      unfold Dict.keys in Hnd. rewrite map_app in Hnd. simpl in Hnd.
      apply NoDup_app in Hnd. destruct Hnd as (_ & Hnd & _).
      apply (Hnd k); [now apply list_elem_of_In|left]. }
    rewrite dict_get_app_notin, dict_get_head by assumption. simpl.
    rewrite dict_del_app_notin, dict_del_head by assumption.
    rewrite dict_set_app_notin, dict_set_head by assumption.
    specialize (IH (done ++ [(k, c)]) (result ++ [k])).
    rewrite <- app_assoc in IH. specialize (IH Hnd).
    rewrite decrement_all_app in IH.
    change (decrement_all ((k, c) :: rem))
      with ((if c - 1 =? 0 then [] else [(k, c - 1)]) ++ decrement_all rem).
    change (decrement_all [(k, c)])
      with ((if c - 1 =? 0 then [] else [(k, c - 1)]) ++ []) in IH.
    destruct (c - 1 =? 0); simpl in *;
      rewrite ?app_nil_r, <- ?app_assoc in IH; simpl in IH.
    all: exact IH.
Qed.

(** One run of the [for] loop names every group once, in order, and
    leaves the counts lowered by one, without the groups that reached 0. *)
Lemma interleave_pass_spec result d :
  NoDup (Dict.keys d) ->
  interleave_pass result d = (result ++ Dict.keys d, decrement_all d).
Proof.
  intros Hnd. unfold interleave_pass.
  apply (interleave_pass_fold d [] result). exact Hnd.
Qed.

Lemma fold_max_le (l : list Z) : forall a b,
  fold_left Z.max l a <= b <-> a <= b /\ Forall (fun c => c <= b) l.
Proof.
  induction l as [|x l IH]; simpl; intros a b.
  - split; [intros; split; [assumption|constructor]|tauto].
  - rewrite IH. split.
    + intros [H1 H2]. split; [lia|]. constructor; [lia|assumption].
    + intros [H1 H2]. inversion H2; subst. split; [lia|assumption].
Qed.

(** A count that is not positive is never deleted: the loop goes on. *)
Lemma interleave_loop_diverges fuel : forall result d,
  NoDup (Dict.keys d) ->
  Exists (fun kv => snd kv <= 0) d ->
  interleave_loop fuel result d = None.
Proof.
  induction fuel as [|fuel IH]; intros result d Hnd Hex.
  - destruct d; [inversion Hex|reflexivity].
  - destruct d as [|kv d]; [inversion Hex|].
    cbn [interleave_loop]. rewrite interleave_pass_spec by assumption.
    apply IH; [now apply decrement_all_NoDup|].
    apply Exists_exists in Hex. destruct Hex as ([k c] & Hin & Hc). simpl in Hc.
    apply Exists_exists. exists (k, c - 1). split; [|simpl; lia].
    unfold decrement_all. apply list_elem_of_In, in_flat_map.
    exists (k, c). split; [now apply list_elem_of_In|]. simpl.
    destruct (Z.eqb_spec (c - 1) 0); [lia|now left].
Qed.

(** With positive counts the loop ends within as many rounds as the
    largest count. *)
Lemma interleave_loop_terminates fuel : forall result d,
  NoDup (Dict.keys d) ->
  Forall (fun kv => 0 < snd kv) d ->
  (interleave_rounds d <= fuel)%nat ->
  exists l, interleave_loop fuel result d = Some l.
Proof.
  induction fuel as [|fuel IH]; intros result d Hnd Hpos Hfuel.
  - destruct d as [|[k c] d]; [eexists; reflexivity|].
    exfalso. unfold interleave_rounds in Hfuel.
    assert (H : fold_left Z.max (map snd ((k, c) :: d)) 0 <= 0) by lia.
    apply fold_max_le in H. destruct H as [_ H]. inversion H; subst.
    inversion Hpos; subst. simpl in *. lia.
  - destruct d as [|kv d]; [eexists; reflexivity|].
    cbn [interleave_loop]. rewrite interleave_pass_spec by assumption.
    apply IH; [now apply decrement_all_NoDup| |].
    + unfold decrement_all. apply Forall_forall. intros [k c] Hin.
      apply list_elem_of_In, in_flat_map in Hin. destruct Hin as ([k' c'] & Hin & Hx).
      simpl in Hx. rewrite Forall_forall in Hpos.
      apply list_elem_of_In, Hpos in Hin. simpl in Hin.
      destruct (Z.eqb_spec (c' - 1) 0); [contradiction|].
      destruct Hx as [[= <- <-]|[]]. simpl. lia.
    + unfold interleave_rounds in *.
      set (m := fold_left Z.max (map snd (kv :: d)) 0) in *.
      assert (Hm : m <= m) by lia. apply fold_max_le in Hm. destruct Hm as [_ Hm].
      assert (H1 : 1 <= m).
      { inversion Hm; subst. inversion Hpos; subst. simpl in *. lia. }
      assert (H : fold_left Z.max (map snd (decrement_all (kv :: d))) 0 <= m - 1).
      { apply fold_max_le. split; [lia|].
        apply Forall_forall. intros c Hin.
        apply list_elem_of_In, in_map_iff in Hin. destruct Hin as ([k c'] & <- & Hin).
        unfold decrement_all in Hin. apply in_flat_map in Hin.
        destruct Hin as ([k0 c0] & Hin0 & Hx). simpl in Hx.
        destruct (Z.eqb_spec (c0 - 1) 0); [contradiction|].
        destruct Hx as [[= <- <-]|[]]. simpl.
        rewrite Forall_forall in Hm.
        assert (c0 <= m); [|lia].
        apply Hm, list_elem_of_In, in_map_iff. exists (k0, c0). auto. }
      lia.
Qed.

(** When [_interleave_groups] answers [None], the loop of the source
    does not end, however many rounds it is given. *)
Lemma interleave_groups_None d :
  NoDup (Dict.keys d) ->
  _interleave_groups d = None ->
  forall fuel result, interleave_loop fuel result d = None.
Proof.
  intros Hnd Hnone fuel result.
  destruct (decide (Forall (fun kv : string * Z => 0 < snd kv) d)) as [Hpos|Hex].
  - destruct (interleave_loop_terminates (interleave_rounds d) [] d Hnd Hpos) as [l Hl];
      [lia|]. unfold _interleave_groups in Hnone. congruence.
  - apply interleave_loop_diverges; [assumption|].
    apply not_Forall_Exists in Hex; [|intros kv; apply Z_lt_dec].
    eapply Exists_impl; [exact Hex|]. simpl. intros; lia.
Qed.

(** With positive counts [_interleave_groups] answers. *)
Lemma interleave_groups_Some d :
  NoDup (Dict.keys d) ->
  Forall (fun kv => 0 < snd kv) d ->
  exists l, _interleave_groups d = Some l.
Proof.
  intros Hnd Hpos. apply interleave_loop_terminates; auto.
Qed.

End InterleaveFacts.

(** C7 — the assigner built from control: 3, worker_small: 2,
    worker_big: 1 and the window 02:00 to 03:00 interleaves the groups in
    declared order and gives control the slots 02:00, 02:36, 03:00,
    worker_small 02:12, 02:48 and worker_big 02:24 (steps of 12 minutes). *)
Theorem C7_maintenance_slots_example :
  let groups := [("control", 3); ("worker_small", 2); ("worker_big", 1)] in
  HostTimeAssigner._interleave_groups groups
  = Some ["control"; "worker_small"; "worker_big"; "control"; "worker_small"; "control"]
  /\ exists a,
      HostTimeAssigner.init groups "02:00" "03:00" = Some (Ok a) /\
      _group_slots a = [("control", [120; 156; 180]);
                        ("worker_small", [132; 168]);
                        ("worker_big", [144])] /\
      HostTimeAssigner.get_all_slots "control" a = Ok ["02:00"; "02:36"; "03:00"] /\
      HostTimeAssigner.get_all_slots "worker_small" a = Ok ["02:12"; "02:48"] /\
      HostTimeAssigner.get_all_slots "worker_big" a = Ok ["02:24"].
Proof.
  split; [vm_compute; reflexivity|].
  eexists. split; [vm_compute; reflexivity|].
  repeat split; vm_compute; reflexivity.
Qed.

(* ===================================================================== *)
(** * NetworkManager: order and exclusivity of the addresses *)
(* ===================================================================== *)

Section NetworkManagerFacts.
Import NetworkManager.

Lemma seqZ_StronglySorted m n : StronglySorted Z.lt (seqZ m n).
Proof.
  remember (Z.to_nat n) as k eqn:Hk. revert m n Hk.
  induction k as [|k IH]; intros m n Hk.
  - rewrite seqZ_nil by lia. constructor.
  - rewrite seqZ_cons by lia. apply StronglySorted_cons. split.
    + apply Forall_forall. intros x Hx%elem_of_seqZ. lia.
    + apply IH. lia.
Qed.

(** The hosts of a network whose prefix is shorter than 31 bits. *)
Lemma hosts_short_prefix net :
  IP.prefixlen net <> 31 -> IP.prefixlen net <> 32 ->
  IP.hosts net
  = seqZ (IP.network_address net + 1)
         (IP.broadcast_address net - (IP.network_address net + 1)).
Proof.
  intros H31 H32. unfold IP.hosts, IP.max_prefixlen, IP.range.
  destruct (Z.eqb_spec (IP.prefixlen net) (32 - 1)); [lia|].
  destruct (Z.eqb_spec (IP.prefixlen net) 32); [lia|]. reflexivity.
Qed.

Lemma elem_of_hosts_short_prefix net x :
  IP.prefixlen net <> 31 -> IP.prefixlen net <> 32 ->
  x ∈ IP.hosts net <->
  IP.network_address net < x < IP.broadcast_address net.
Proof.
  intros H31 H32. rewrite hosts_short_prefix, elem_of_seqZ by assumption. lia.
Qed.

Lemma next_free_Some it assigned ip it' :
  next_free it assigned = Some (ip, it') ->
  exists skipped, it = skipped ++ ip :: it' /\ ip ∉ assigned.
Proof.
  induction it as [|x it IH]; simpl; [discriminate|].
  destruct (bool_decide_reflect (x ∈ assigned)) as [Hin|Hnotin].
  - intros H. destruct (IH H) as (skipped & -> & Hip). now exists (x :: skipped).
  - intros [= <- <-]. now exists [].
Qed.

(** [n] calls of [get_next_ip] answer ascending addresses that the
    iterator still had and that were not assigned before. *)
Lemma take_addresses n : forall nm,
  iter_sorted nm ->
  exists addrs,
    take n nm = map IP.to_string addrs /\
    StronglySorted Z.lt addrs /\
    Forall (fun a => a ∈ _ip_iter nm) addrs /\
    Forall (fun a => a ∉ _assigned nm) addrs.
Proof.
  induction n as [|n IH]; intros nm Hs; simpl.
  - exists []. repeat split; constructor.
  - unfold get_next_ip.
    destruct (next_free (_ip_iter nm) (_assigned nm)) as [[ip it']|] eqn:Hnext.
    + destruct (next_free_Some _ _ _ _ Hnext) as (skipped & Hit & Hip).
      unfold iter_sorted in Hs. rewrite Hit in Hs.
      apply StronglySorted_app_1_r in Hs.
      apply StronglySorted_cons in Hs. destruct Hs as [Hlt Hs'].
      destruct (IH (mkNetworkManager (_network nm) ({[ip]} ∪ _assigned nm) it') Hs')
        as (addrs & Htake & Hsorted & Hin & Hnot).
      simpl in *. exists (ip :: addrs). rewrite Htake. repeat split.
      * apply StronglySorted_cons. split; [|assumption].
        rewrite Forall_forall in Hin, Hlt |- *. intros x Hx. apply Hlt, Hin, Hx.
      * constructor; [rewrite Hit; set_solver|].
        eapply Forall_impl; [exact Hin|]. simpl. intros x Hx. rewrite Hit. set_solver.
      * constructor; [assumption|].
        eapply Forall_impl; [exact Hnot|]. simpl. intros x Hx. set_solver.
    + exists []. repeat split; constructor.
Qed.

End NetworkManagerFacts.

(* ===================================================================== *)
(** * Addresses and their text *)
(* ===================================================================== *)

Section AddressText.

Lemma split_app sep s1 rest :
  Str.has_char sep s1 = false ->
  Str.split sep (s1 +:+ String sep rest) = s1 :: Str.split sep rest.
Proof.
  induction s1 as [|c s1 IH]; simpl; intros H.
  - now rewrite Ascii.eqb_refl.
  - apply orb_false_iff in H. destruct H as [Hc Hs]. rewrite Hc, IH by assumption.
    reflexivity.
Qed.

Lemma split_no_sep sep s :
  Str.has_char sep s = false -> Str.split sep s = [s].
Proof.
  induction s as [|c s IH]; simpl; intros H; [reflexivity|].
  apply orb_false_iff in H. destruct H as [Hc Hs]. rewrite Hc, IH by assumption.
  reflexivity.
Qed.

(** Every byte is written without a dot and read back as itself. *)
Lemma octet_text b :
  0 <= b < 256 ->
  Str.has_char "." (Str.of_Z b) = false /\ IP.parse_octet (Str.of_Z b) = Some b.
Proof.
  intros Hb.
  assert (Hall : Forall (fun b => Str.has_char "." (Str.of_Z b) = false /\
                                  IP.parse_octet (Str.of_Z b) = Some b) (seqZ 0 256)).
  { apply Forall_forall. intros x Hx.
    assert (Hcheck : forallb (fun b => negb (Str.has_char "." (Str.of_Z b)) &&
                                 bool_decide (IP.parse_octet (Str.of_Z b) = Some b))
                       (seqZ 0 256) = true) by (vm_compute; reflexivity).
    rewrite forallb_forall in Hcheck. apply list_elem_of_In, Hcheck in Hx.
    apply andb_true_iff in Hx. destruct Hx as [H1 H2].
    apply negb_true_iff in H1. apply bool_decide_eq_true in H2. auto. }
  rewrite Forall_forall in Hall. apply Hall, elem_of_seqZ. lia.
Qed.

(** Reading the text of an address gives the address back. *)
Lemma IPv4Address_to_string a :
  0 <= a < 4294967296 -> IP.IPv4Address (IP.to_string a) = Some a.
Proof.
  intros Ha. unfold IP.IPv4Address, IP.to_string.
  destruct (octet_text ((a / 16777216) mod 256)) as [D1 P1]; [apply Z.mod_pos_bound; lia|].
  destruct (octet_text ((a / 65536) mod 256)) as [D2 P2]; [apply Z.mod_pos_bound; lia|].
  destruct (octet_text ((a / 256) mod 256)) as [D3 P3]; [apply Z.mod_pos_bound; lia|].
  destruct (octet_text (a mod 256)) as [D4 P4]; [apply Z.mod_pos_bound; lia|].
  assert (Hdot : forall r, "." +:+ r = String "." r) by reflexivity.
  rewrite !Hdot, !split_app, split_no_sep by assumption.
  rewrite P1, P2, P3, P4. f_equal.
  Z.div_mod_to_equations. lia.
Qed.

Lemma digits_val_nonneg s : forall acc,
  0 <= acc -> Str.all_digits s = true -> 0 <= Str.digits_val acc s.
Proof.
  induction s as [|c s IH]; simpl; intros acc Hacc Hd; [assumption|].
  apply andb_true_iff in Hd. destruct Hd as [Hc Hd]. apply IH; [|assumption].
  unfold Str.is_digit, Str.digit_val in *. apply andb_true_iff in Hc.
  destruct Hc as [Hc _]. apply Nat.leb_le in Hc. lia.
Qed.

Lemma parse_octet_bound s v : IP.parse_octet s = Some v -> 0 <= v < 256.
Proof.
  unfold IP.parse_octet. destruct s as [|c rest]; [discriminate|].
  destruct (Str.all_digits (String c rest)) eqn:Hd; [|discriminate].
  cbn [negb]. destruct (_ <? _)%nat; [discriminate|].
  destruct (_ && _); [discriminate|].
  pose proof (digits_val_nonneg (String c rest) 0 (Z.le_refl 0) Hd) as H0.
  destruct (Z.ltb_spec 255 (Str.digits_val 0 (String c rest))); [discriminate|].
  intros Heq.
  assert (Hv : v = Str.digits_val 0 (String c rest)) by congruence. lia.
Qed.

Lemma IPv4Address_bound s a : IP.IPv4Address s = Some a -> 0 <= a < 4294967296.
Proof.
  unfold IP.IPv4Address.
  destruct (Str.split "." s) as [|o1 [|o2 [|o3 [|o4 [|? ?]]]]]; try discriminate.
  destruct (IP.parse_octet o1) as [v1|] eqn:E1; [|discriminate].
  destruct (IP.parse_octet o2) as [v2|] eqn:E2; [|discriminate].
  destruct (IP.parse_octet o3) as [v3|] eqn:E3; [|discriminate].
  destruct (IP.parse_octet o4) as [v4|] eqn:E4; [|discriminate].
  apply parse_octet_bound in E1, E2, E3, E4. intros [= <-]. lia.
Qed.

End AddressText.

Section Slash24.
Import NetworkManager.

Lemma parse_network_inv s net :
  IP.parse_network s = Some net ->
  0 <= IP.network_address net < 4294967296 /\
  Z.land (IP.network_address net) (IP.netmask net) = IP.network_address net.
Proof.
  unfold IP.parse_network.
  assert (Hbuild : forall addr plen,
    IP.make_network addr plen = Some net ->
    0 <= IP.network_address net < 4294967296 /\
    Z.land (IP.network_address net) (IP.netmask net) = IP.network_address net).
  { intros addr plen. unfold IP.make_network.
    destruct (IP.IPv4Address addr) as [a|] eqn:Ha; [|discriminate].
    destruct plen as [p|]; [|discriminate]. cbv zeta.
    destruct (Z.eqb_spec (Z.land a (IP.netmask (IP.mkNetwork a p))) a); [|discriminate].
    intros [= <-]. simpl. split; [|assumption]. eapply IPv4Address_bound, Ha. }
  destruct (Str.split "/" s) as [|addr [|mask [|? ?]]]; try discriminate; apply Hbuild.
Qed.

(** A /24 network: 254 hosts between the network address and the
    broadcast address, all of them 32-bit numbers. *)
Lemma slash24 s net :
  IP.parse_network s = Some net -> IP.prefixlen net = 24 ->
  IP.broadcast_address net = IP.network_address net + 255 /\
  IP.hosts net = seqZ (IP.network_address net + 1) 254 /\
  0 <= IP.network_address net /\ IP.network_address net + 255 < 4294967296.
Proof.
  intros Hparse H24. destruct (parse_network_inv _ _ Hparse) as [Hrange Hmask].
  destruct net as [a p]. simpl in *. subst p.
  change (IP.netmask (IP.mkNetwork a 24)) with 4294967040 in Hmask.
  assert (Hlow : Z.land a 255 = 0).
  { rewrite <- Hmask, <- Z.land_assoc. change (Z.land 4294967040 255) with 0.
    apply Z.land_0_r. }
  assert (Hb : IP.broadcast_address (IP.mkNetwork a 24) = a + 255).
  { unfold IP.broadcast_address. simpl.
    change (IP.hostmask (IP.mkNetwork a 24)) with 255.
    rewrite <- Z.lxor_lor by assumption. symmetry. now apply Z.add_nocarry_lxor. }
  assert (Hmod : a mod 256 = 0).
  { change 255 with (Z.ones 8) in Hlow. rewrite Z.land_ones in Hlow by lia. exact Hlow. }
  split; [exact Hb|]. split.
  - rewrite hosts_short_prefix by (simpl; lia). rewrite Hb. simpl. f_equal. lia.
  - split; [lia|]. Z.div_mod_to_equations. lia.
Qed.

(** On a manager whose remaining hosts are all free, the calls answer
    the remaining hosts in order. *)
Lemma take_free n : forall nm,
  NoDup (_ip_iter nm) ->
  Forall (fun a => a ∉ _assigned nm) (_ip_iter nm) ->
  take n nm = map IP.to_string (firstn n (_ip_iter nm)).
Proof.
  induction n as [|n IH]; intros nm Hnd Hfree; simpl; [reflexivity|].
  unfold get_next_ip. destruct (_ip_iter nm) as [|x it] eqn:Hit; simpl; [reflexivity|].
  inversion Hfree as [|? ? Hx Hfree']; subst.
  inversion Hnd as [|? ? Hnotin Hnd']; subst.
  rewrite bool_decide_eq_false_2 by assumption. simpl.
  rewrite IH; simpl; [reflexivity|assumption|].
  apply Forall_forall. intros y Hy.
  rewrite Forall_forall in Hfree'. specialize (Hfree' y Hy).
  intros [Hyx%elem_of_singleton|Hya]%elem_of_union; [|contradiction].
  subst y. contradiction.
Qed.

Lemma get_next_ip_inv nm ip nm1 :
  get_next_ip nm = Ok (ip, nm1) ->
  exists a, ip = IP.to_string a /\ (a ∈ _ip_iter nm) /\ (a ∈ _assigned nm1) /\
            _network nm1 = _network nm.
Proof.
  unfold get_next_ip.
  destruct (next_free (_ip_iter nm) (_assigned nm)) as [[a it']|] eqn:Hnext; [|discriminate].
  intros [= <- <-]. destruct (next_free_Some _ _ _ _ Hnext) as (skipped & Hit & _).
  exists a. simpl. rewrite Hit. repeat split; set_solver.
Qed.

Lemma reserve_ip_inv ip nm nm1 :
  reserve_ip ip nm = Ok nm1 ->
  exists a, IP.IPv4Address ip = Some a /\ (a ∈ IP.hosts (_network nm)) /\
            (a ∉ _assigned nm) /\
            nm1 = mkNetworkManager (_network nm) ({[a]} ∪ _assigned nm) (_ip_iter nm).
Proof.
  unfold reserve_ip. destruct (IP.IPv4Address ip) as [a|]; [|discriminate].
  destruct (bool_decide_reflect (a ∈ IP.hosts (_network nm))); simpl; [|discriminate].
  destruct (bool_decide_reflect (a ∈ _assigned nm)); [discriminate|].
  intros [= <-]. exists a. auto.
Qed.

Lemma reserve_ip_assigned ip nm a :
  IP.IPv4Address ip = Some a -> a ∈ IP.hosts (_network nm) -> a ∈ _assigned nm ->
  reserve_ip ip nm = Err (ValueError (AlreadyReserved ip)).
Proof.
  intros Hip Hhost Has. unfold reserve_ip. rewrite Hip.
  rewrite (bool_decide_eq_true_2 _ Hhost). simpl.
  now rewrite (bool_decide_eq_true_2 _ Has).
Qed.

End Slash24.

(** C6 — a [NetworkManager] built on a /24 network. (i) Successive calls
    of [get_next_ip] answer the text of addresses that are strictly
    ascending and lie strictly between the network address and the
    broadcast address; on the fresh manager they are the hosts of the
    network in order. (ii) [reserve_ip] succeeds on every address in
    range, and after it has succeeded on an address, no sequence of
    [get_next_ip] calls ever answers that address. (iii) [reserve_ip]
    raises on an address that is not a host of the network (and on text
    that is no address), and raises on an address that is already
    reserved, be it by [reserve_ip] or by [get_next_ip]. *)
Theorem C6_address_allocator (cidr : string) (nm : NetworkManager) :
  NetworkManager.init cidr = Ok nm ->
  IP.prefixlen (_network nm) = 24 ->
  let net := _network nm in
  (forall n, exists addrs,
      NetworkManager.take n nm = map IP.to_string addrs /\
      addrs = firstn n (IP.hosts net) /\
      StronglySorted Z.lt addrs /\
      Forall (fun a => IP.network_address net < a < IP.broadcast_address net) addrs)
  /\ (forall a,
      IP.network_address net < a < IP.broadcast_address net ->
      exists nm1, NetworkManager.reserve_ip (IP.to_string a) nm = Ok nm1)
  /\ (forall ip nm1 n,
      NetworkManager.reserve_ip ip nm = Ok nm1 ->
      ~ In ip (NetworkManager.take n nm1))
  /\ (forall ip,
      match IP.IPv4Address ip with
      | Some a => ~ (IP.network_address net < a < IP.broadcast_address net)
      | None => True
      end ->
      exists m, NetworkManager.reserve_ip ip nm = Err (ValueError m))
  /\ (forall ip nm1,
      NetworkManager.reserve_ip ip nm = Ok nm1 ->
      NetworkManager.reserve_ip ip nm1 = Err (ValueError (AlreadyReserved ip)))
  /\ (forall ip nm1,
      NetworkManager.get_next_ip nm = Ok (ip, nm1) ->
      NetworkManager.reserve_ip ip nm1 = Err (ValueError (AlreadyReserved ip))).
Proof.
  intros Hinit H24 net. unfold NetworkManager.init in Hinit.
  destruct (IP.parse_network cidr) as [net0|] eqn:Hparse; [|discriminate].
  injection Hinit as <-. simpl in H24, net. subst net.
  destruct (slash24 _ _ Hparse H24) as (Hb & Hhosts & Hlo & Hhi).
  assert (Hrange : forall x, x ∈ IP.hosts net0 <->
            IP.network_address net0 < x < IP.broadcast_address net0).
  { intros x. apply elem_of_hosts_short_prefix; lia. }
  assert (Hsorted : StronglySorted Z.lt (IP.hosts net0)).
  { rewrite Hhosts. apply seqZ_StronglySorted. }
  assert (Hnd : NoDup (IP.hosts net0)).
  { rewrite Hhosts. apply NoDup_seqZ. }
  repeat split.
  - (* (i) *)
    intros n. exists (firstn n (IP.hosts net0)). repeat split.
    + apply take_free; simpl; [assumption|].
      apply Forall_forall. intros x _. set_solver.
    + rewrite <- (firstn_skipn n (IP.hosts net0)) in Hsorted.
      now apply StronglySorted_app_1_l in Hsorted.
    + apply Forall_forall. intros x Hx. apply Hrange.
      now apply (subseteq_take n (IP.hosts net0)).
  - (* (ii) an address in range can be reserved *)
    intros a Ha. unfold NetworkManager.reserve_ip.
    rewrite IPv4Address_to_string by lia. simpl.
    rewrite bool_decide_eq_true_2 by now apply Hrange.
    simpl. rewrite bool_decide_eq_false_2 by apply not_elem_of_empty.
    eexists. reflexivity.
  - (* (ii) *)
    intros ip nm1 n Hres Hin.
    destruct (reserve_ip_inv _ _ _ Hres) as (a & Hip & Hhost & _ & ->). simpl in *.
    destruct (take_addresses n
                (mkNetworkManager net0 ({[a]} ∪ ∅) (IP.hosts net0)) Hsorted)
      as (addrs & Htake & _ & Hiter & Hfree).
    rewrite Htake in Hin. apply in_map_iff in Hin. destruct Hin as (a' & Hstr & Ha').
    rewrite Forall_forall in Hiter, Hfree. apply list_elem_of_In in Ha'.
    specialize (Hiter a' Ha'). specialize (Hfree a' Ha'). simpl in *.
    apply Hrange in Hiter.
    assert (Hrt : IP.IPv4Address (IP.to_string a') = Some a')
      by (apply IPv4Address_to_string; lia).
    rewrite Hstr, Hip in Hrt. injection Hrt as ->.
    apply Hfree, elem_of_union_l, elem_of_singleton. reflexivity.
  - (* (iii) not a host *)
    intros ip Hout. unfold NetworkManager.reserve_ip.
    destruct (IP.IPv4Address ip) as [a|]; [|eexists; reflexivity].
    simpl. rewrite bool_decide_eq_false_2; [eexists; reflexivity|].
    now rewrite Hrange.
  - (* (iii) reserved twice *)
    intros ip nm1 Hres.
    destruct (reserve_ip_inv _ _ _ Hres) as (a & Hip & Hhost & _ & ->).
    eapply reserve_ip_assigned; [exact Hip|exact Hhost|simpl].
    apply elem_of_union_l, elem_of_singleton. reflexivity.
  - (* (iii) reserved after it was handed out *)
    intros ip nm1 Hnext.
    destruct (get_next_ip_inv _ _ _ Hnext) as (a & -> & Hiter & Has & Hnet).
    simpl in Hiter. eapply reserve_ip_assigned; [|rewrite Hnet; exact Hiter|exact Has].
    apply IPv4Address_to_string. apply Hrange in Hiter. lia.
Qed.

Lemma C6_address_allocator_witness :
  exists nm,
    NetworkManager.init "10.0.0.0/24" = Ok nm /\
    IP.prefixlen (_network nm) = 24 /\
    (forall ip nm1 n,
        NetworkManager.reserve_ip ip nm = Ok nm1 ->
        ~ In ip (NetworkManager.take n nm1)) /\
    NetworkManager.take 3 nm = ["10.0.0.1"; "10.0.0.2"; "10.0.0.3"].
Proof.
  eexists. split; [vm_compute; reflexivity|]. split; [reflexivity|].
  split; [|vm_compute; reflexivity].
  eapply (C6_address_allocator "10.0.0.0/24"); [vm_compute|]; reflexivity.
Defined.

(* ===================================================================== *)
(** * Validation of the configuration *)
(* ===================================================================== *)

Section ValidationFacts.
Import InventoryModule.

Lemma sum_acc (xs : list Z) : forall a, fold_left Z.add xs a = a + Py.sum xs.
Proof.
  unfold Py.sum. induction xs as [|x xs IH]; cbn [fold_left]; intros a; [lia|].
  rewrite (IH (a + x)), (IH (0 + x)). lia.
Qed.

Lemma sum_cons x xs : Py.sum (x :: xs) = x + Py.sum xs.
Proof. unfold Py.sum at 1. simpl. apply sum_acc. Qed.

(** The loop over the groups adds up [num] over the control groups. *)
Lemma check_groups_count config groups : forall hc hw cc hc' hw' cc',
  fold_result (check_group config) groups (hc, hw, cc) = Ok (hc', hw', cc') ->
  cc' = cc + Py.sum (map (fun group =>
                            if truthy_bool (_get_group_config config group g_is_control)
                            then default 0 (_get_group_config config group g_num)
                            else 0) groups).
Proof.
  induction groups as [|g groups IH]; cbn [fold_result map];
    intros hc hw cc hc' hw' cc' H.
  - assert (cc' = cc) by congruence. unfold Py.sum. simpl. lia.
  - rewrite sum_cons.
    destruct (check_group config (hc, hw, cc) g) as [[[hc1 hw1] cc1]|e] eqn:Hg;
      [|discriminate].
    change (fold_result (check_group config) groups (hc1, hw1, cc1) = Ok (hc', hw', cc')) in H.
    apply IH in H. subst cc'.
    unfold check_group in Hg.
    destruct (truthy_bool (_get_group_config config g g_is_control)) eqn:Hc;
      destruct (truthy_bool (_get_group_config config g g_is_worker)) eqn:Hw;
      simpl in Hg; try discriminate;
      destruct (negb (truthy_str (_get_group_config config g g_type))); try discriminate;
      destruct (_get_group_config config g g_num) as [num|]; try discriminate;
      (assert (cc1 = cc + num) by congruence) || (assert (cc1 = cc) by congruence);
      simpl; lia.
Qed.

Lemma checks_before_quorum_count config cc :
  checks_before_quorum config = Ok cc -> cc = control_count config.
Proof.
  unfold checks_before_quorum, control_count.
  destruct (nodes config) as [|kv rest] eqn:Hn; [discriminate|]. rewrite <- Hn.
  destruct (negb _); [discriminate|]. destruct (_ || _); [discriminate|].
  destruct (fold_result _ _ _) as [[[hc hw] c]|e] eqn:Hf; [|discriminate].
  cbn. destruct (negb hc); [discriminate|]. destruct (negb hw); [discriminate|].
  intros [= <-]. apply check_groups_count in Hf. lia.
Qed.

Lemma for_result_Err {A} (body : A -> result unit) xs e :
  for_result xs body = Err e -> exists x, In x xs /\ body x = Err e.
Proof.
  induction xs as [|x xs IH]; simpl; [discriminate|].
  destruct (body x) as [[]|e'] eqn:Hx; cbn.
  - intros H. destruct (IH H) as (y & Hy & Hb). exists y. auto.
  - intros [= <-]. exists x. auto.
Qed.

Lemma for_result_In_Err {A} (body : A -> result unit) xs x e :
  In x xs -> body x = Err e -> exists e', for_result xs body = Err e'.
Proof.
  induction xs as [|y xs IH]; simpl; [tauto|].
  intros [->|Hin] Hx.
  - rewrite Hx. eexists. reflexivity.
  - destruct (body y) as [[]|e']; cbn; [auto|eexists; reflexivity].
Qed.

Lemma check_shrink_error hvs hostname v e :
  check_shrink hvs hostname v = Err e -> logic_error e.
Proof.
  unfold check_shrink, config_gb.
  destruct (find_volume _ hvs) as [hv|]; [|discriminate].
  destruct (Py.int _) as [n|]; cbn; [|intros [= <-]; exact I].
  destruct (n <? volume_size hv); [|discriminate]. intros [= <-]. exact I.
Qed.

(** Whatever leaves the logic validation is a refusal to shrink, or the
    [ValueError] of a size that is no number. *)
Lemma validate_config_logic_error config hvs e :
  _validate_config_logic config hvs = Err e -> logic_error e.
Proof.
  unfold _validate_config_logic. intros H.
  apply for_result_Err in H. destruct H as (group & _ & H).
  destruct (truthy_bool _); [|discriminate].
  apply for_result_Err in H. destruct H as (host & _ & H).
  apply for_result_Err in H. destruct H as (v & _ & H).
  eapply check_shrink_error, H.
Qed.

(** A declared volume of a storage group that is configured smaller than
    the observed volume of its name stops the logic validation. *)
Lemma validate_config_logic_shrink config hvs group host v hv gb :
  In group (Dict.keys (nodes config)) ->
  truthy_bool (_get_group_config config group g_storage) = true ->
  1 <= host <= default 0 (_get_group_config config group g_num) ->
  In v (volumes config) ->
  find_volume (expected_name (hostname group host) (v_name v)) hvs = Some hv ->
  config_gb (v_size v) = Ok gb ->
  gb < volume_size hv ->
  exists e, _validate_config_logic config hvs = Err e /\ logic_error e.
Proof.
  intros Hg Hst Hhost Hv Hfind Hgb Hlt.
  assert (Hshrink : check_shrink hvs (hostname group host) v
            = Err (AnsibleError (VolumeShrinking
                     (expected_name (hostname group host) (v_name v)) gb (volume_size hv)))).
  { unfold check_shrink. rewrite Hfind, Hgb. cbn.
    destruct (Z.ltb_spec gb (volume_size hv)); [reflexivity|lia]. }
  destruct (for_result_In_Err _ _ _ _ Hv Hshrink) as [e1 H1].
  assert (Hin : In host (Py.range 1 (default 0 (_get_group_config config group g_num) + 1))).
  { apply list_elem_of_In, elem_of_seqZ. lia. }
  destruct (for_result_In_Err
              (fun host => for_result (volumes config) (check_shrink hvs (hostname group host)))
              _ _ _ Hin H1) as [e2 H2].
  assert (H3 : exists e3, _validate_config_logic config hvs = Err e3).
  { unfold _validate_config_logic.
    eapply for_result_In_Err; [exact Hg|]. cbv beta. rewrite Hst. exact H2. }
  destruct H3 as [e3 H3]. exists e3. split; [exact H3|].
  eapply validate_config_logic_error, H3.
Qed.

Lemma for_result_Ok_iff {A} (body : A -> result unit) xs :
  for_result xs body = Ok tt <-> forall x, In x xs -> body x = Ok tt.
Proof.
  induction xs as [|y xs IH]; cbn [for_result]; [split; [intros _ x []|reflexivity]|].
  change (body y ;; for_result xs body) with (body y ≫= fun _ => for_result xs body).
  destruct (body y) as [[]|e] eqn:Hy; cbn [mbind result_bind].
  - rewrite IH. split.
    + intros H x [<-|Hin]; auto.
    + intros H x Hin. apply H. now right.
  - split; [discriminate|]. intros H. specialize (H y (or_introl eq_refl)). congruence.
Qed.

Lemma check_shrink_Ok_iff hvs hostname v :
  check_shrink hvs hostname v = Ok tt <->
  forall hv,
    find_volume (expected_name hostname (v_name v)) hvs = Some hv ->
    exists gb, config_gb (v_size v) = Ok gb /\ volume_size hv <= gb.
Proof.
  unfold check_shrink. cbv zeta.
  destruct (find_volume (expected_name hostname (v_name v)) hvs) as [hv|].
  - destruct (config_gb (v_size v)) as [gb|e]; cbn [mbind result_bind].
    + destruct (Z.ltb_spec gb (volume_size hv)) as [Hlt|Hle].
      * split; [discriminate|]. intros H. destruct (H hv eq_refl) as (gb' & [= <-] & Hle). lia.
      * split; [|reflexivity]. intros _ hv' [= <-]. eauto.
    + split; [discriminate|]. intros H. destruct (H hv eq_refl) as (gb' & Hgb & _).
      discriminate.
  - split; [discriminate|reflexivity].
Qed.

(** The logic validation returns exactly when no declared volume of a
    host of a storage group is configured smaller than the observed
    volume of its name, and the size of every such volume is a number. *)
Lemma validate_config_logic_Ok_iff config hvs :
  _validate_config_logic config hvs = Ok tt <->
  forall group host v hv,
    In group (Dict.keys (nodes config)) ->
    truthy_bool (_get_group_config config group g_storage) = true ->
    1 <= host <= default 0 (_get_group_config config group g_num) ->
    In v (volumes config) ->
    find_volume (expected_name (hostname group host) (v_name v)) hvs = Some hv ->
    exists gb, config_gb (v_size v) = Ok gb /\ volume_size hv <= gb.
Proof.
  unfold _validate_config_logic. cbv zeta. rewrite for_result_Ok_iff. split.
  - intros H group host v hv Hg Hst Hhost Hv Hfind.
    specialize (H group Hg). cbv beta in H. rewrite Hst in H.
    rewrite for_result_Ok_iff in H.
    assert (Hin : In host (Py.range 1 (default 0 (_get_group_config config group g_num) + 1))).
    { apply list_elem_of_In, elem_of_seqZ. lia. }
    specialize (H host Hin). cbv beta in H. rewrite for_result_Ok_iff in H.
    specialize (H v Hv). exact (proj1 (check_shrink_Ok_iff _ _ _) H hv Hfind).
  - intros H group Hg.
    destruct (truthy_bool (_get_group_config config group g_storage)) eqn:Hst;
      [|reflexivity].
    apply for_result_Ok_iff. intros host Hin.
    apply list_elem_of_In, elem_of_seqZ in Hin.
    apply for_result_Ok_iff. intros v Hv.
    apply check_shrink_Ok_iff. intros hv Hfind.
    apply (H group host v hv); auto. lia.
Qed.

End ValidationFacts.

Section QuorumFacts.
Import InventoryModule.

Lemma check_groups_not_quorum config groups : forall vars e,
  fold_result (check_group config) groups vars = Err e ->
  e <> AnsibleError TwoControlPlaneNodes.
Proof.
  induction groups as [|g groups IH]; cbn [fold_result]; intros vars e H; [discriminate|].
  destruct (check_group config vars g) as [vars'|e'] eqn:Hg.
  - eapply IH. exact H.
  - assert (e = e') by (cbn in H; congruence). subst e'. clear H.
    unfold check_group in Hg. destruct vars as [[hc hw] cc].
    destruct (negb _); [intros ->; discriminate|].
    destruct (negb _); [intros ->; discriminate|].
    destruct (_get_group_config config g g_num); [discriminate|intros ->; discriminate].
Qed.

Lemma checks_before_quorum_not_quorum config e :
  checks_before_quorum config = Err e -> e <> AnsibleError TwoControlPlaneNodes.
Proof.
  unfold checks_before_quorum.
  destruct (nodes config) as [|kv rest] eqn:Hn; [intros [= <-]; discriminate|].
  rewrite <- Hn.
  destruct (negb _); [intros [= <-]; discriminate|].
  destruct (_ || _); [intros [= <-]; discriminate|].
  destruct (fold_result _ _ _) as [[[hc hw] c]|e'] eqn:Hf.
  - cbn. destruct (negb hc); [intros [= <-]; discriminate|].
    destruct (negb hw); [intros [= <-]; discriminate|]. discriminate.
  - cbn. intros [= <-]. eapply check_groups_not_quorum, Hf.
Qed.

Lemma check_volumes_not_quorum vs e :
  for_result vs check_volume = Err e -> e <> AnsibleError TwoControlPlaneNodes.
Proof.
  intros H. apply for_result_Err in H. destruct H as (v & _ & H).
  unfold check_volume in H.
  destruct (String.eqb (v_name v) ""); [injection H as <-; discriminate|].
  destruct (String.eqb (v_size v) ""); [injection H as <-; discriminate|discriminate].
Qed.

End QuorumFacts.

(** C10 — the structural validation rejects a configuration on the quorum
    rule exactly when the checks that precede the rule pass and the
    aggregate control plane count (the sum of [num] over the groups
    flagged [is_control]) is 2; a count of 2 is never accepted; with a
    count of 0 the rule does not fire and only the volume entries decide:
    a configuration whose control group declares zero replicas passes. *)
Theorem C10_quorum_rule (config : Config) :
  (InventoryModule._validate_config_structure config
     = Err (AnsibleError TwoControlPlaneNodes)
   <-> (exists cc, InventoryModule.checks_before_quorum config = Ok cc)
       /\ control_count config = 2)
  /\ (control_count config = 2 ->
      InventoryModule._validate_config_structure config <> Ok tt)
  /\ ((exists cc, InventoryModule.checks_before_quorum config = Ok cc) ->
      control_count config <> 2 ->
      InventoryModule._validate_config_structure config
      = for_result (volumes config) InventoryModule.check_volume)
  /\ (control_count Sample.no_control_nodes = 0 /\
      InventoryModule._validate_config_structure Sample.no_control_nodes = Ok tt).
Proof.
  split; [|split; [|split]].
  - unfold InventoryModule._validate_config_structure.
    destruct (InventoryModule.checks_before_quorum config) as [cc|e] eqn:Hcbq; cbn.
    + pose proof (checks_before_quorum_count _ _ Hcbq) as Hcc. subst cc.
      destruct (Z.eqb_spec (control_count config) 2) as [H2|H2].
      * split; [intros _; split; [eauto|exact H2]|reflexivity].
      * split; [|tauto]. intros H. exfalso.
        eapply check_volumes_not_quorum; [exact H|reflexivity].
    + split.
      * intros H. exfalso.
        eapply checks_before_quorum_not_quorum; [exact Hcbq|congruence].
      * intros [[cc Hcc] _]. discriminate.
  - intros H2. unfold InventoryModule._validate_config_structure.
    destruct (InventoryModule.checks_before_quorum config) as [cc|e] eqn:Hcbq; cbn;
      [|discriminate].
    pose proof (checks_before_quorum_count _ _ Hcbq) as Hcc. subst cc.
    rewrite H2. discriminate.
  - intros [cc Hcbq] H2. unfold InventoryModule._validate_config_structure.
    rewrite Hcbq. cbn.
    pose proof (checks_before_quorum_count _ _ Hcbq) as Hcc. subst cc.
    destruct (Z.eqb_spec (control_count config) 2); [contradiction|reflexivity].
  - split; vm_compute; reflexivity.
Qed.

Lemma C10_quorum_rule_witness :
  let config :=
    mkConfig [("control", Sample.group "cx21" 2 true false false);
              ("worker", Sample.group "cx31" 2 false true false)]
             (Some "token") (Some "02:00") (Some "03:00") None [] in
  control_count config = 2 /\
  InventoryModule._validate_config_structure config <> Ok tt.
Proof.
  intros config. split; [reflexivity|].
  apply (C10_quorum_rule config). reflexivity.
Defined.

(* ===================================================================== *)
(** * The pass: stepping through the monad *)
(* ===================================================================== *)

Section MonadFacts.
Context {A B : Type}.
Implicit Types (m : M A) (f : A -> M B) (p : Plugin).

Lemma bind_Done m f p a p1 : m p = Done a p1 -> (m ≫= f) p = f a p1.
Proof. intros H. unfold mbind, M_bind. now rewrite H. Qed.

Lemma bind_Raised m f p e p1 : m p = Raised e p1 -> (m ≫= f) p = Raised e p1.
Proof. intros H. unfold mbind, M_bind. now rewrite H. Qed.

Lemma bind_Hangs m f p : m p = Hangs -> (m ≫= f) p = Hangs.
Proof. intros H. unfold mbind, M_bind. now rewrite H. Qed.

Lemma bind_Done_inv m f p b p' :
  (m ≫= f) p = Done b p' -> exists a p1, m p = Done a p1 /\ f a p1 = Done b p'.
Proof.
  unfold mbind, M_bind. destruct (m p) as [a p1|e p1|]; try discriminate. eauto.
Qed.

End MonadFacts.

(** Run the plumbing of the monad on a known instance. *)
Ltac run :=
  cbv beta iota zeta delta
      [mbind mret M_bind M_ret raise lift get put emit
       set_hcloud_servers set_hcloud_volumes set_host_time_assigner
       set_network_manager append_server_configured append_volume_configured
       _hetzner_servers_configured _hetzner_volumes_configured _hcloud_servers
       _hcloud_volumes _inventory _host_time_assigner _network_manager negb] in *.

Lemma lift_Ok {A} (r : result A) a p : r = Ok a -> lift r p = Done a p.
Proof. now intros ->. Qed.

Lemma lift_Err {A} (r : result A) e p : r = Err e -> lift r p = Raised e p.
Proof. now intros ->. Qed.

(** C3 — as amended: during the logic validation, for a storage group, a
    host index of that group and a declared volume, if the snapshot has a
    volume under the composed name and the configured size is smaller
    than the size of that observed volume, the validation raises (the
    refusal to shrink, unless the size of a volume checked before is no
    number).  When no group name holds a dot (a group whose name holds
    one is not read under its name), the validation returns exactly when
    every observed volume that bears a composed name is no larger than
    the configured size, and that size reads as a number: an observed
    volume smaller than the configured size, growth, is accepted; and
    whatever the validation raises is the refusal to shrink or the
    [ValueError] of a size that is no number. *)
Theorem C3_shrink_rejected config hvs :
  (forall group host v hv gb,
     In group (Dict.keys (nodes config)) ->
     InventoryModule.truthy_bool
       (InventoryModule._get_group_config config group g_storage) = true ->
     1 <= host <= default 0 (InventoryModule._get_group_config config group g_num) ->
     In v (volumes config) ->
     InventoryModule.find_volume
       (InventoryModule.expected_name (InventoryModule.hostname group host) (v_name v)) hvs
     = Some hv ->
     InventoryModule.config_gb (v_size v) = Ok gb ->
     gb < volume_size hv ->
     exists e, InventoryModule._validate_config_logic config hvs = Err e /\ logic_error e) /\
  (plain_group_names config ->
   (InventoryModule._validate_config_logic config hvs = Ok tt <->
    forall group host v hv,
      In group (Dict.keys (nodes config)) ->
      InventoryModule.truthy_bool
        (InventoryModule._get_group_config config group g_storage) = true ->
      1 <= host <= default 0 (InventoryModule._get_group_config config group g_num) ->
      In v (volumes config) ->
      InventoryModule.find_volume
        (InventoryModule.expected_name (InventoryModule.hostname group host) (v_name v)) hvs
      = Some hv ->
      exists gb, InventoryModule.config_gb (v_size v) = Ok gb /\ volume_size hv <= gb) /\
   (forall e, InventoryModule._validate_config_logic config hvs = Err e -> logic_error e)).
Proof.
  split; [|intros _; split].
  - intros group host v hv gb. apply validate_config_logic_shrink.
  - apply validate_config_logic_Ok_iff.
  - intros e. apply validate_config_logic_error.
Qed.

Lemma C3_shrink_rejected_witness :
  (exists e,
     InventoryModule._validate_config_logic Sample.grow_volume [mkVolume 7 "db-1_data" 50]
     = Err e /\ logic_error e) /\
  InventoryModule._validate_config_logic Sample.grow_volume [mkVolume 7 "db-1_data" 10]
  = Ok tt.
Proof.
  split.
  - apply (proj1 (C3_shrink_rejected Sample.grow_volume [mkVolume 7 "db-1_data" 50])
             "db" 1 (mkVolumeConfig "data" "20G") (mkVolume 7 "db-1_data" 50) 20).
    + simpl. left. reflexivity.
    + reflexivity.
    + vm_compute. split; discriminate.
    + simpl. left. reflexivity.
    + reflexivity.
    + reflexivity.
    + simpl. lia.
  - assert (Hplain : plain_group_names Sample.grow_volume) by (repeat constructor).
    apply (proj2 (proj1 (proj2 (C3_shrink_rejected Sample.grow_volume
                                  [mkVolume 7 "db-1_data" 10]) Hplain))).
    intros group host v hv [<-|[]] _ Hhost [<-|[]] Hfind.
    change (1 <= host <= 1) in Hhost. assert (host = 1) by lia. subst host.
    injection Hfind as <-. exists 20. split; [reflexivity|simpl; lia].
Defined.

(** An observed volume of 10 GB under a configured size of 20G, growth,
    passes the logic validation: the rule as worded does not hold. *)
Lemma C3_growth_accepted : ~ growth_rejected.
Proof.
  intros H.
  destruct (H Sample.grow_volume [Sample.observed_data_volume] "db" 1
              (mkVolumeConfig "data" "20G") Sample.observed_data_volume 20)
    as [e He].
  - simpl. left. reflexivity.
  - reflexivity.
  - vm_compute. split; discriminate.
  - simpl. left. reflexivity.
  - reflexivity.
  - reflexivity.
  - simpl. lia.
  - vm_compute in He. discriminate.
Qed.

Section ParseFacts.
Import InventoryModule.

(** The instance after [_load_hcloud_data] has stored the snapshot. *)
Lemma load_hcloud_data_Done config cloud servers hvs inventory :
  truthy_str (hetzner_token_cloud config) = true ->
  servers_get_all cloud = inr servers ->
  volumes_get_all cloud = inr hvs ->
  _load_hcloud_data config cloud (fresh inventory)
  = Done tt (mkPlugin [] [] servers hvs inventory None None).
Proof.
  intros Htok Hs Hv. unfold _load_hcloud_data. rewrite Htok, Hs, Hv. reflexivity.
Qed.

Lemma validate_structure_token config :
  _validate_config_structure config = Ok tt ->
  truthy_str (hetzner_token_cloud config) = true.
Proof.
  unfold _validate_config_structure, checks_before_quorum.
  destruct (nodes config); [discriminate|].
  destruct (truthy_str (hetzner_token_cloud config)); [reflexivity|discriminate].
Qed.

End ParseFacts.

(** C1 — when the snapshot has a volume under the composed name of a
    declared volume of a host of a storage group, and the configured size
    is strictly smaller than the size of that observed volume, [parse]
    raises and leaves the sink as it found it, with no host registered,
    no allocator built and no server or volume claimed; if the structural
    validation passes, the exception is the one of the logic validation. *)
Theorem C1_shrink_aborts_before_emission
    config cloud servers hvs inventory group host v hv gb :
  servers_get_all cloud = inr servers ->
  volumes_get_all cloud = inr hvs ->
  In group (Dict.keys (nodes config)) ->
  InventoryModule.truthy_bool
    (InventoryModule._get_group_config config group g_storage) = true ->
  1 <= host <= default 0 (InventoryModule._get_group_config config group g_num) ->
  In v (volumes config) ->
  InventoryModule.find_volume
    (InventoryModule.expected_name (InventoryModule.hostname group host) (v_name v)) hvs
  = Some hv ->
  InventoryModule.config_gb (v_size v) = Ok gb ->
  gb < volume_size hv ->
  exists e p,
    InventoryModule.parse config cloud (fresh inventory) = Raised e p /\
    _inventory p = inventory /\
    _host_time_assigner p = None /\
    _network_manager p = None /\
    _hetzner_servers_configured p = [] /\
    _hetzner_volumes_configured p = [] /\
    (InventoryModule._validate_config_structure config = Ok tt ->
     InventoryModule._validate_config_logic config hvs = Err e /\ logic_error e).
Proof.
  intros Hs Hv Hg Hst Hhost Hin Hfind Hgb Hlt.
  destruct (validate_config_logic_shrink _ _ _ _ _ _ _ Hg Hst Hhost Hin Hfind Hgb Hlt)
    as (e & Hlogic & Hle).
  unfold InventoryModule.parse.
  destruct (InventoryModule._validate_config_structure config) as [[]|e0] eqn:Hstruct.
  - pose proof (validate_structure_token _ Hstruct) as Htok.
    exists e, (mkPlugin [] [] servers hvs inventory None None).
    split; [|simpl; auto 10].
    erewrite bind_Done by (apply lift_Ok; reflexivity).
    erewrite bind_Done by (apply load_hcloud_data_Done; eassumption).
    erewrite bind_Done by reflexivity.
    erewrite bind_Raised; [reflexivity|]. apply lift_Err. exact Hlogic.
  - exists e0, (fresh inventory).
    split; [|simpl; repeat split; discriminate].
    erewrite bind_Raised; [reflexivity|]. apply lift_Err. reflexivity.
Qed.

Lemma C1_shrink_aborts_before_emission_witness :
  exists e p,
    InventoryModule.parse Sample.grow_volume
      (mkCloudAPI (inr []) (inr [mkVolume 7 "db-1_data" 50])) (fresh [])
    = Raised e p /\
    _inventory p = [] /\
    _host_time_assigner p = None /\
    _network_manager p = None /\
    _hetzner_servers_configured p = [] /\
    _hetzner_volumes_configured p = [] /\
    (InventoryModule._validate_config_structure Sample.grow_volume = Ok tt ->
     InventoryModule._validate_config_logic Sample.grow_volume [mkVolume 7 "db-1_data" 50]
     = Err e /\ logic_error e).
Proof.
  apply (C1_shrink_aborts_before_emission Sample.grow_volume _ [] [mkVolume 7 "db-1_data" 50]
           [] "db" 1 (mkVolumeConfig "data" "20G") (mkVolume 7 "db-1_data" 50) 20).
  - reflexivity.
  - reflexivity.
  - simpl. left. reflexivity.
  - reflexivity.
  - vm_compute. split; discriminate.
  - simpl. left. reflexivity.
  - reflexivity.
  - reflexivity.
  - simpl. lia.
Defined.

Section SlotPoolFacts.
Import InventoryModule.

(** The constructor of the assigner refuses more hosts than the window
    has minutes, before it distributes anything. *)
Lemma init_not_enough_minutes groups start_str end_str start_time end_time :
  HostTimeAssigner.strptime start_str = Some start_time ->
  HostTimeAssigner.strptime end_str = Some end_time ->
  start_time < end_time ->
  end_time - start_time < Py.sum (map snd groups) ->
  HostTimeAssigner.init groups start_str end_str
  = Some (Err (ValueError (NotEnoughMinutes (Py.sum (map snd groups))
                                            (end_time - start_time)))).
Proof.
  intros Hs He Hlt Hpool. unfold HostTimeAssigner.init. rewrite Hs, He.
  destruct (Z.leb_spec end_time start_time); [lia|].
  destruct (Z.eqb_spec (Py.sum (map snd groups)) 0); [lia|].
  destruct (Z.ltb_spec (end_time - start_time) (Py.sum (map snd groups))); [reflexivity|lia].
Qed.

Lemma initialize_inventory_not_enough_minutes
    config p start_str end_str start_time end_time :
  unattended_upgrades_start_time config = Some start_str ->
  unattended_upgrades_end_time config = Some end_str ->
  HostTimeAssigner.strptime start_str = Some start_time ->
  HostTimeAssigner.strptime end_str = Some end_time ->
  start_time < end_time ->
  end_time - start_time < total_hosts config ->
  _initialize_inventory config p
  = Raised (ValueError (NotEnoughMinutes (total_hosts config) (end_time - start_time)))
           (mkPlugin (_hetzner_servers_configured p) (_hetzner_volumes_configured p)
                     (_hcloud_servers p) (_hcloud_volumes p)
                     (_inventory p ++ base_groups)
                     (_host_time_assigner p) (_network_manager p)).
Proof.
  intros Hs He Hps Hpe Hlt Hpool. unfold _initialize_inventory.
  do 4 (erewrite bind_Done by reflexivity).
  erewrite bind_Raised; [reflexivity|].
  unfold _init_host_time_assigner. rewrite Hs, He.
  unfold total_hosts in *.
  rewrite (init_not_enough_minutes _ _ _ _ _ Hps Hpe Hlt Hpool).
  cbn. unfold raise. cbn. rewrite <- !app_assoc. reflexivity.
Qed.

Lemma host_records_app l1 l2 : host_records (l1 ++ l2) = host_records l1 ++ host_records l2.
Proof. unfold host_records. apply omap_app. Qed.

End SlotPoolFacts.

(** C4 — as amended: the pass checks that the total number of desired
    hosts does not exceed the minutes of the maintenance window when it
    builds the slot assigner, before any address or slot is handed to a
    host: a configuration beyond that bound makes [parse] raise with no
    host registered, no slot assigner kept, no network manager built and
    no server claimed; when both validations pass the exception is the
    one of the slot assigner and the sink has received the four base
    groups only. *)
Theorem C4_slot_pool_checked_first
    config cloud inventory start_str end_str start_time end_time :
  unattended_upgrades_start_time config = Some start_str ->
  unattended_upgrades_end_time config = Some end_str ->
  HostTimeAssigner.strptime start_str = Some start_time ->
  HostTimeAssigner.strptime end_str = Some end_time ->
  start_time < end_time ->
  end_time - start_time < total_hosts config ->
  exists e p,
    InventoryModule.parse config cloud (fresh inventory) = Raised e p /\
    host_records (_inventory p) = host_records inventory /\
    _host_time_assigner p = None /\
    _network_manager p = None /\
    _hetzner_servers_configured p = [] /\
    (forall servers hvs,
       InventoryModule._validate_config_structure config = Ok tt ->
       servers_get_all cloud = inr servers ->
       volumes_get_all cloud = inr hvs ->
       InventoryModule._validate_config_logic config hvs = Ok tt ->
       e = ValueError (NotEnoughMinutes (total_hosts config) (end_time - start_time)) /\
       _inventory p = inventory ++ base_groups).
Proof.
  intros Hs He Hps Hpe Hlt Hpool. unfold InventoryModule.parse.
  destruct (InventoryModule._validate_config_structure config) as [[]|e0] eqn:Hstruct.
  2:{ exists e0, (fresh inventory). split.
      - erewrite bind_Raised; [reflexivity|]. now apply lift_Err.
      - simpl. repeat split; try reflexivity; discriminate. }
  erewrite bind_Done by (now apply lift_Ok).
  pose proof (validate_structure_token _ Hstruct) as Htok.
  unfold InventoryModule._load_hcloud_data. rewrite Htok. cbn [negb].
  destruct (servers_get_all cloud) as [d|servers] eqn:Hservers.
  { eexists _, _. split; [reflexivity|]. simpl.
    repeat split; try reflexivity; discriminate. }
  destruct (volumes_get_all cloud) as [d|hvs] eqn:Hvolumes.
  { eexists _, _. split; [reflexivity|]. simpl.
    repeat split; try reflexivity; discriminate. }
  erewrite bind_Done by reflexivity.
  erewrite bind_Done by reflexivity.
  cbn [_hcloud_volumes].
  destruct (InventoryModule._validate_config_logic config hvs) as [[]|e1] eqn:Hlogic.
  2:{ eexists _, _. split; [reflexivity|]. simpl.
      repeat split; try reflexivity; congruence. }
  erewrite bind_Done by reflexivity.
  rewrite (initialize_inventory_not_enough_minutes _ _ _ _ _ _ Hs He Hps Hpe Hlt Hpool).
  eexists _, _. split; [reflexivity|]. simpl.
  rewrite host_records_app, app_nil_r. repeat split; reflexivity.
Qed.

Lemma C4_slot_pool_checked_first_witness :
  exists e p,
    InventoryModule.parse Sample.crowded_window Sample.empty_cloud (fresh []) = Raised e p /\
    host_records (_inventory p) = host_records [] /\
    _host_time_assigner p = None /\
    _network_manager p = None /\
    _hetzner_servers_configured p = [] /\
    (forall servers hvs,
       InventoryModule._validate_config_structure Sample.crowded_window = Ok tt ->
       servers_get_all Sample.empty_cloud = inr servers ->
       volumes_get_all Sample.empty_cloud = inr hvs ->
       InventoryModule._validate_config_logic Sample.crowded_window hvs = Ok tt ->
       e = ValueError (NotEnoughMinutes (total_hosts Sample.crowded_window) (180 - 120)) /\
       _inventory p = [] ++ base_groups).
Proof.
  apply (C4_slot_pool_checked_first Sample.crowded_window Sample.empty_cloud []
           "02:00" "03:00" 120 180); try reflexivity.
Defined.

(** Three desired hosts on a network of two host addresses: the run
    registers two hosts and raises when the third asks for an address;
    no check of the address pool precedes the allocation. *)
Lemma C4_address_pool_exhausted_midway : ~ address_pool_checked_first.
Proof.
  intros H.
  destruct (H Sample.small_network Sample.empty_cloud
              (IP.mkNetwork 167772160 30) []) as (e & p & Hrun & Hrec).
  - vm_compute. reflexivity.
  - reflexivity.
  - vm_compute. reflexivity.
  - vm_compute in Hrun. injection Hrun as <- <-. vm_compute in Hrec. discriminate.
Qed.

(** What the run of that configuration shows. *)
Example small_network_run :
  match InventoryModule.parse Sample.small_network Sample.empty_cloud (fresh []) with
  | Raised e p => Some (e, host_records (_inventory p))
  | _ => None
  end
  = Some (RuntimeError NoAvailableIPs, [("node-1", "node"); ("node-2", "node")]).
Proof. vm_compute. reflexivity. Qed.

Section Determinism.
Import InventoryModule.

Lemma same_outcome_refl {A} (o : outcome A) : same_outcome o o.
Proof. destruct o; simpl; auto. Qed.

Lemma same_outcome_observe {A} (o1 o2 : outcome A) :
  same_outcome o1 o2 -> observe o1 = observe o2.
Proof.
  destruct o1, o2; simpl; try tauto.
  - intros [_ ->]. reflexivity.
  - intros [-> ->]. reflexivity.
Qed.

(** [parse] reads nothing of the instance but the two lists of claimed
    resources and the sink: the snapshot and the allocators it finds are
    replaced before they are used. *)
Lemma parse_reads_lists_and_sink config cloud p1 p2 :
  _hetzner_servers_configured p1 = _hetzner_servers_configured p2 ->
  _hetzner_volumes_configured p1 = _hetzner_volumes_configured p2 ->
  _inventory p1 = _inventory p2 ->
  same_outcome (parse config cloud p1) (parse config cloud p2).
Proof.
  destruct p1 as [sc1 vc1 hs1 hv1 inv1 a1 nm1], p2 as [sc2 vc2 hs2 hv2 inv2 a2 nm2].
  simpl. intros <- <- <-. unfold parse.
  destruct (_validate_config_structure config) as [[]|e0]; run; [|simpl; auto].
  unfold _load_hcloud_data.
  destruct (negb _); run; [simpl; auto|].
  destruct (servers_get_all cloud) as [d|servers]; run; [simpl; auto|].
  destruct (volumes_get_all cloud) as [d|hvs]; run; [simpl; auto|].
  destruct (_validate_config_logic config hvs) as [[]|e1]; run; [|simpl; auto].
  unfold _initialize_inventory. run.
  unfold _init_host_time_assigner.
  destruct (unattended_upgrades_start_time config); run; [|simpl; auto].
  destruct (unattended_upgrades_end_time config); run; [|simpl; auto].
  destruct (HostTimeAssigner.init _ _ _) as [[a|e2]|]; run; [|simpl; auto|simpl; auto].
  destruct (NetworkManager.init _) as [nm|e3]; run; [|simpl; auto].
  apply same_outcome_refl.
Qed.

End Determinism.

(** C2 — two runs of [parse] on fresh instances, with the same
    configuration, the same answers of the cloud and sinks that have
    received the same calls, end the same way: both complete, both raise
    the same exception, or neither returns, and the sink has received the
    same groups, hosts and variables in the same order. *)
Theorem C2_two_runs_agree config cloud p1 p2 :
  is_fresh p1 -> is_fresh p2 -> _inventory p1 = _inventory p2 ->
  observe (InventoryModule.parse config cloud p1)
  = observe (InventoryModule.parse config cloud p2).
Proof.
  intros (Hs1 & Hv1 & _) (Hs2 & Hv2 & _) Hinv.
  apply same_outcome_observe, parse_reads_lists_and_sink; congruence.
Qed.

Lemma C2_two_runs_agree_witness :
  observe (InventoryModule.parse Sample.grow_volume
             (mkCloudAPI (inr []) (inr [Sample.observed_data_volume])) (fresh []))
  = observe (InventoryModule.parse Sample.grow_volume
               (mkCloudAPI (inr []) (inr [Sample.observed_data_volume]))
               (mkPlugin [] [] [] [] [] None
                  (Some (mkNetworkManager (IP.mkNetwork 0 32) ∅ [])))).
Proof.
  apply C2_two_runs_agree; [repeat split..|reflexivity].
Defined.

(* ===================================================================== *)
(** * Matching: which servers the pass claims *)
(* ===================================================================== *)

Section Preservation.

Lemma preserves_ret {A} (a : A) : preserves (mret a).
Proof. intros p a' p' [= <- <-]. auto. Qed.

Lemma preserves_raise {A} e : preserves (@raise A e).
Proof. intros p a p' H. discriminate. Qed.

Lemma preserves_hangs {A} : preserves (fun _ : Plugin => @Hangs A).
Proof. intros p a p' H. discriminate. Qed.

Lemma preserves_lift {A} (r : result A) : preserves (lift r).
Proof. destruct r; [apply preserves_ret|apply preserves_raise]. Qed.

Lemma preserves_get : preserves get.
Proof. intros p a p' [= <- <-]. auto. Qed.

Lemma preserves_emit c : preserves (emit c).
Proof. intros p a p' [= _ <-]. simpl. auto. Qed.

Lemma preserves_set_hcloud_volumes l : preserves (set_hcloud_volumes l).
Proof. intros p a p' [= _ <-]. simpl. auto. Qed.

Lemma preserves_set_host_time_assigner a : preserves (set_host_time_assigner a).
Proof. intros p x p' [= _ <-]. simpl. auto. Qed.

Lemma preserves_set_network_manager nm : preserves (set_network_manager nm).
Proof. intros p x p' [= _ <-]. simpl. auto. Qed.

Lemma preserves_append_volume_configured n : preserves (append_volume_configured n).
Proof. intros p x p' [= _ <-]. simpl. auto. Qed.

Lemma preserves_bind {A B} (m : M A) (f : A -> M B) :
  preserves m -> (forall a, preserves (f a)) -> preserves (m ≫= f).
Proof.
  intros Hm Hf p b p' H. apply bind_Done_inv in H. destruct H as (a & p1 & H1 & H2).
  apply Hm in H1. apply Hf in H2. destruct H1, H2. split; congruence.
Qed.

Lemma preserves_for {A} (xs : list A) (body : A -> M unit) :
  (forall x, preserves (body x)) -> preserves (for_ xs body).
Proof.
  intros Hb. induction xs as [|x xs IH]; cbn [for_].
  - apply preserves_ret.
  - apply preserves_bind; [apply Hb|intros _; exact IH].
Qed.

Lemma preserves_fold_M {A S} (body : S -> A -> M S) (xs : list A) :
  (forall s x, preserves (body s x)) -> forall s, preserves (fold_M body xs s).
Proof.
  intros Hb. induction xs as [|x xs IH]; cbn [fold_M]; intros s.
  - apply preserves_ret.
  - apply preserves_bind; [apply Hb|intros s'; apply IH].
Qed.

End Preservation.

Create HintDb preserves.

(** Decompose a goal [preserves m] along the structure of [m]. *)
Ltac preserving :=
  repeat (lazy beta;
    match goal with
    | |- preserves (mbind _ _) => apply preserves_bind; [|intros ?]
    | |- preserves (mret _) => apply preserves_ret
    | |- preserves (raise _) => apply preserves_raise
    | |- preserves (lift _) => apply preserves_lift
    | |- preserves get => apply preserves_get
    | |- preserves (emit _) => apply preserves_emit
    | |- preserves (set_hcloud_volumes _) => apply preserves_set_hcloud_volumes
    | |- preserves (set_host_time_assigner _) => apply preserves_set_host_time_assigner
    | |- preserves (set_network_manager _) => apply preserves_set_network_manager
    | |- preserves (append_volume_configured _) => apply preserves_append_volume_configured
    | |- preserves (for_ _ _) => apply preserves_for; intros ?
    | |- preserves (fold_M _ _ _) => apply preserves_fold_M; intros ? ?
    | |- preserves (fun _ => Hangs) => apply preserves_hangs
    | |- preserves (match ?x with _ => _ end) => destruct x
    | |- preserves _ => solve [auto with preserves]
    end).

Section Matching.
Import InventoryModule.

Lemma preserves_volume_plan hostname v : preserves (volume_plan hostname v).
Proof. unfold volume_plan. preserving. Qed.

Lemma preserves_reserve_existing server : preserves (reserve_existing server).
Proof. unfold reserve_existing. preserving. Qed.

Lemma preserves_init_host_time_assigner config :
  preserves (_init_host_time_assigner config).
Proof. unfold _init_host_time_assigner. preserving. Qed.

Lemma preserves_set_orphan_volumes : preserves _set_orphan_volumes_for_cleanup.
Proof. unfold _set_orphan_volumes_for_cleanup. preserving. Qed.

Lemma preserves_clean_hetzner_server : preserves _clean_hetzner_server.
Proof. unfold _clean_hetzner_server. preserving. Qed.

End Matching.

#[global] Hint Resolve preserves_volume_plan : preserves.

Section Claims.
Import InventoryModule.

Lemma append_server_configured_Done id p a p' :
  append_server_configured id p = Done a p' ->
  _hcloud_servers p' = _hcloud_servers p /\
  _hetzner_servers_configured p' = _hetzner_servers_configured p ++ [id].
Proof. intros [= _ <-]. simpl. auto. Qed.

(** [_add_host] keeps the snapshot and appends the identifier of the
    server it found, if any. *)
Lemma add_host_claims config group host lm server_type image is_control is_worker
    p lm' p' :
  _add_host config group host lm server_type image is_control is_worker p = Done lm' p' ->
  _hcloud_servers p' = _hcloud_servers p /\
  _hetzner_servers_configured p'
  = _hetzner_servers_configured p ++
    claimed_id (_search_fitting_server (_hcloud_servers p) (hostname group host)
                  server_type image is_control is_worker).
Proof.
  unfold _add_host. intros H.
  apply bind_Done_inv in H. destruct H as (p0 & p1 & Hget & H).
  injection Hget as <- <-.
  apply bind_Done_inv in H. destruct H as (x & p2 & Hblock & Hrest).
  match type of Hrest with
  | ?m _ = _ => assert (Hp : preserves m)
  end.
  { preserving. }
  apply Hp in Hrest. clear Hp. destruct Hrest as [Hs2 Hc2].
  destruct (_search_fitting_server (_hcloud_servers p) (hostname group host)
              server_type image is_control is_worker) as [server|]; cbn [claimed_id].
  - apply bind_Done_inv in Hblock. destruct Hblock as ([] & p3 & Happ & Hblock).
    apply append_server_configured_Done in Happ. destruct Happ as [Hs3 Hc3].
    match type of Hblock with
    | ?m _ = _ => assert (Hp : preserves m) by preserving
    end.
    apply Hp in Hblock. destruct Hblock as [Hs Hc]. split; congruence.
  - match type of Hblock with
    | ?m _ = _ => assert (Hp : preserves m) by preserving
    end.
    apply Hp in Hblock. destruct Hblock as [Hs Hc].
    rewrite app_nil_r. split; congruence.
Qed.

End Claims.

Section PassClaims.
Import InventoryModule.

Ltac step_preserved H lem :=
  let Hs := fresh "Hs" in
  let Hc := fresh "Hc" in
  let Hm := fresh "Hm" in
  apply bind_Done_inv in H; destruct H as (? & ? & Hm & H);
  apply lem in Hm; destruct Hm as [Hs Hc].

Lemma add_hosts_claims config group server_type image is_control is_worker hosts :
  forall lm p lm' p',
  fold_M (fun location_manager host =>
            _add_host config group host location_manager server_type image
                      is_control is_worker) hosts lm p = Done lm' p' ->
  _hcloud_servers p' = _hcloud_servers p /\
  _hetzner_servers_configured p'
  = _hetzner_servers_configured p ++
    flat_map (fun host =>
                claimed_id (_search_fitting_server (_hcloud_servers p)
                              (hostname group host) server_type image
                              is_control is_worker)) hosts.
Proof.
  induction hosts as [|host hosts IH]; cbn [fold_M flat_map]; intros lm p lm' p' H.
  - injection H as _ <-. rewrite app_nil_r. auto.
  - apply bind_Done_inv in H. destruct H as (lm1 & p1 & Hadd & H).
    apply add_host_claims in Hadd. destruct Hadd as [Hs1 Hc1].
    apply IH in H. destruct H as [Hs Hc]. rewrite Hs1 in Hs, Hc.
    split; [exact Hs|]. rewrite Hc, Hc1, <- app_assoc. reflexivity.
Qed.

(** [_prepare_group] appends the servers found for the hosts of the
    group, index by index. *)
Lemma prepare_group_claims config group p p' :
  _prepare_group config group p = Done tt p' ->
  _hcloud_servers p' = _hcloud_servers p /\
  _hetzner_servers_configured p'
  = _hetzner_servers_configured p ++
    flat_map (fun h => claimed_id (claimed config (_hcloud_servers p) h))
      (map (pair group)
           (Py.range 1 (default 0 (_get_group_config config group g_num) + 1))).
Proof.
  unfold _prepare_group. intros H.
  do 3 step_preserved H preserves_emit.
  destruct (_get_group_config config group g_type) as [server_type|] eqn:Htype;
    [|discriminate].
  destruct (String.eqb server_type ""); [discriminate|].
  step_preserved H preserves_emit.
  destruct (String.eqb (default "debian-12" (_get_group_config config group g_image)) "");
    [discriminate|].
  step_preserved H preserves_emit.
  destruct (_get_group_config config group g_num) as [num_hosts|] eqn:Hnum;
    [|discriminate].
  apply bind_Done_inv in H. destruct H as (lm & p6 & Hfold & H).
  injection H as <-. apply add_hosts_claims in Hfold. destruct Hfold as [Hsf Hcf].
  match type of Hcf with
  | _ = _hetzner_servers_configured ?q ++ _ =>
      assert (E1 : _hcloud_servers q = _hcloud_servers p) by congruence;
      assert (E2 : _hetzner_servers_configured q = _hetzner_servers_configured p)
        by congruence;
      rewrite E1 in Hsf, Hcf; rewrite E2 in Hcf
  end.
  split; [exact Hsf|].
  rewrite Hcf. cbn [default].
  f_equal. rewrite (flat_map_concat_map _ (map _ _)), map_map, <- flat_map_concat_map.
  apply flat_map_ext. intros host. unfold claimed, desired_hostname. cbn [fst snd].
  rewrite Htype. cbn [default]. reflexivity.
Qed.

Lemma prepare_groups_claims config groups : forall p p',
  for_ groups (_prepare_group config) p = Done tt p' ->
  _hcloud_servers p' = _hcloud_servers p /\
  _hetzner_servers_configured p'
  = _hetzner_servers_configured p ++
    flat_map (fun h => claimed_id (claimed config (_hcloud_servers p) h))
      (flat_map
         (fun group =>
            map (pair group)
                (Py.range 1 (default 0 (_get_group_config config group g_num) + 1)))
         groups).
Proof.
  induction groups as [|group groups IH]; cbn [for_ flat_map]; intros p p' H.
  - injection H as <-. rewrite app_nil_r. auto.
  - apply bind_Done_inv in H. destruct H as ([] & p1 & Hgroup & H).
    apply prepare_group_claims in Hgroup. destruct Hgroup as [Hs1 Hc1].
    apply IH in H. destruct H as [Hs Hc]. rewrite Hs1 in Hs, Hc.
    split; [exact Hs|]. rewrite Hc, Hc1, flat_map_app, <- app_assoc. reflexivity.
Qed.

End PassClaims.

Section PassReport.
Import InventoryModule.

Ltac step_preserved H lem :=
  let Hs := fresh "Hs" in
  let Hc := fresh "Hc" in
  let Hm := fresh "Hm" in
  apply bind_Done_inv in H; destruct H as (? & ? & Hm & H);
  apply lem in Hm; destruct Hm as [Hs Hc].

(** A server the search answers is a server of the snapshot that bears
    the name that was searched. *)
Lemma search_fitting_server_Some servers name server_type image is_control is_worker s :
  _search_fitting_server servers name server_type image is_control is_worker = Some s ->
  In s servers /\ server_name s = name.
Proof.
  induction servers as [|server servers IH]; cbn [_search_fitting_server]; [discriminate|].
  destruct (String.eqb_spec (server_name server) name) as [Hname|Hname];
    cbn [andb]; [|intros H; destruct (IH H); split; [now right|assumption]].
  destruct (_ && _).
  - intros [= <-]. split; [now left|assumption].
  - intros H. destruct (IH H). split; [now right|assumption].
Qed.

Lemma emit_Done c p a p' :
  emit c p = Done a p' ->
  _hetzner_servers_configured p' = _hetzner_servers_configured p /\
  _inventory p' = _inventory p ++ [c].
Proof. intros [= _ <-]. simpl. auto. Qed.

Lemma unmanaged_same_claims p q server :
  _hetzner_servers_configured q = _hetzner_servers_configured p ->
  unmanaged q server = unmanaged p server.
Proof. unfold unmanaged. now intros ->. Qed.

Lemma unmanaged_report_same p q :
  _hcloud_servers q = _hcloud_servers p ->
  _hetzner_servers_configured q = _hetzner_servers_configured p ->
  unmanaged_report q = unmanaged_report p.
Proof.
  intros Hs Hc. unfold unmanaged_report. rewrite Hs.
  apply filter_ext. intros s. now apply unmanaged_same_claims.
Qed.

(** The loop of [_clean_hetzner_server] makes the calls of the report,
    server by server. *)
Lemma clean_loop_calls servers : forall p p',
  for_ servers (fun server =>
    p ← get;
    if unmanaged p server
    then
      let new_name :=
        if negb (Str.startswith "remove-" (server_name server))
        then "remove-" +:+ server_name server
        else server_name server in
      emit (add_host new_name "unmanaged") ;;
      emit (set_variable new_name "old_name" (VStr (server_name server))) ;;
      ip ← lift (_get_current_ip server);
      emit (set_variable new_name "ansible_host" (VStr ip))
    else mret tt) p = Done tt p' ->
  _hetzner_servers_configured p' = _hetzner_servers_configured p /\
  _inventory p' = _inventory p ++ flat_map unmanaged_calls (List.filter (unmanaged p) servers).
Proof.
  induction servers as [|server servers IH]; cbn [for_ List.filter flat_map]; intros p p' H.
  - injection H as <-. rewrite app_nil_r. auto.
  - apply bind_Done_inv in H. destruct H as ([] & p1 & Hbody & H).
    apply IH in H. destruct H as [Hc Hi].
    apply bind_Done_inv in Hbody. destruct Hbody as (p0 & p0' & Hget & Hbody).
    injection Hget as <- <-.
    destruct (unmanaged p server) eqn:Hun.
    + cbv zeta in Hbody.
      apply bind_Done_inv in Hbody. destruct Hbody as ([] & q1 & E1 & Hbody).
      apply bind_Done_inv in Hbody. destruct Hbody as ([] & q2 & E2 & Hbody).
      apply bind_Done_inv in Hbody. destruct Hbody as (ip & q3 & E3 & Hbody).
      apply emit_Done in E1, E2, Hbody.
      destruct E1 as [C1 I1], E2 as [C2 I2], Hbody as [C3 I3].
      cbn [flat_map]. unfold unmanaged_calls at 1.
      destruct (_get_current_ip server) as [ip'|e]; [|discriminate].
      injection E3 as <- <-.
      assert (Ec : _hetzner_servers_configured p1 = _hetzner_servers_configured p)
        by congruence.
      rewrite (filter_ext _ _ (fun s => unmanaged_same_claims p p1 s Ec)) in Hi.
      split; [congruence|].
      rewrite Hi, I3, I2, I1, <- !app_assoc. reflexivity.
    + injection Hbody as <-. split; [exact Hc|exact Hi].
Qed.

Lemma clean_hetzner_server_calls p p' :
  _clean_hetzner_server p = Done tt p' ->
  _inventory p' = _inventory p ++ flat_map unmanaged_calls (unmanaged_report p).
Proof.
  unfold _clean_hetzner_server. intros H.
  apply bind_Done_inv in H. destruct H as (p0 & p0' & Hget & H).
  injection Hget as <- <-. apply clean_loop_calls in H. apply H.
Qed.

(** The claims and the report of a complete [_initialize_inventory]. *)
Lemma initialize_inventory_claims config p p' :
  _initialize_inventory config p = Done tt p' ->
  _hcloud_servers p' = _hcloud_servers p /\
  _hetzner_servers_configured p'
  = _hetzner_servers_configured p ++
    flat_map (fun h => claimed_id (claimed config (_hcloud_servers p) h))
             (desired_hosts config) /\
  exists before,
    _inventory p'
    = before ++ flat_map unmanaged_calls (unmanaged_report p') ++
      [set_variable "all" "ansible_user" (VStr "root")].
Proof.
  unfold _initialize_inventory. intros H.
  do 4 step_preserved H preserves_emit.
  step_preserved H preserves_init_host_time_assigner.
  step_preserved H (@preserves_lift NetworkManager).
  step_preserved H preserves_set_network_manager.
  step_preserved H preserves_get.
  apply bind_Done_inv in H. destruct H as ([] & qr & Hres & H).
  apply (preserves_for _ _ preserves_reserve_existing) in Hres.
  destruct Hres as [Hsr Hcr].
  apply bind_Done_inv in H. destruct H as ([] & q1 & Hgroups & H).
  apply prepare_groups_claims in Hgroups. destruct Hgroups as [Hsg Hcg].
  apply bind_Done_inv in H. destruct H as ([] & q2 & Horphan & H).
  apply preserves_set_orphan_volumes in Horphan. destruct Horphan as [Hso Hco].
  apply bind_Done_inv in H. destruct H as ([] & q3 & Hclean & H).
  pose proof (preserves_clean_hetzner_server _ _ _ Hclean) as [Hsq Hcq].
  apply clean_hetzner_server_calls in Hclean.
  pose proof (preserves_emit _ _ _ _ H) as [Hsf _].
  apply emit_Done in H. destruct H as [Hcf Hif].
  match type of Hcg with
  | _ = _hetzner_servers_configured ?q ++ _ =>
      assert (E1 : _hcloud_servers q = _hcloud_servers p) by congruence;
      assert (E2 : _hetzner_servers_configured q = _hetzner_servers_configured p)
        by congruence;
      rewrite E1 in Hsg, Hcg; rewrite E2 in Hcg
  end.
  split; [congruence|]. split; [unfold desired_hosts; congruence|].
  exists (_inventory q2).
  rewrite Hif, Hclean, <- app_assoc.
  rewrite (unmanaged_report_same q2 p') by congruence. reflexivity.
Qed.

End PassReport.

Section ClaimsOfThePass.
Import InventoryModule.

Lemma NoDup_map_inj {A B} (f : A -> B) (l : list A) x y :
  NoDup (map f l) -> In x l -> In y l -> f x = f y -> x = y.
Proof.
  induction l as [|a l IH]; cbn [map]; [intros _ []|].
  intros Hnd. apply NoDup_cons in Hnd. destruct Hnd as [Hnotin Hnd].
  intros [->|Hx] [->|Hy] Hf; auto.
  - exfalso. apply Hnotin. rewrite Hf. apply list_elem_of_In, in_map, Hy.
  - exfalso. apply Hnotin. rewrite <- Hf. apply list_elem_of_In, in_map, Hx.
Qed.

Lemma claimed_Some config servers h s :
  claimed config servers h = Some s -> In s servers /\ server_name s = desired_hostname h.
Proof. unfold claimed. apply search_fitting_server_Some. Qed.

(** A complete [parse] has loaded the servers the cloud answered and run
    [_initialize_inventory] on the instance that holds them. *)
Lemma parse_Done_inv config cloud servers inventory p :
  servers_get_all cloud = inr servers ->
  parse config cloud (fresh inventory) = Done tt p ->
  exists hvs,
    _initialize_inventory config (mkPlugin [] [] servers hvs inventory None None)
    = Done tt p.
Proof.
  intros Hservers H. unfold parse in H.
  apply bind_Done_inv in H. destruct H as ([] & p1 & Hstruct & H).
  destruct (_validate_config_structure config) as [[]|e]; [|discriminate].
  injection Hstruct as <-.
  apply bind_Done_inv in H. destruct H as ([] & p2 & Hload & H).
  unfold _load_hcloud_data in Hload. rewrite Hservers in Hload.
  destruct (negb _); [discriminate|].
  destruct (volumes_get_all cloud) as [d|hvs]; [discriminate|].
  injection Hload as <-.
  apply bind_Done_inv in H. destruct H as (p0 & p3 & Hget & H).
  injection Hget as <- <-.
  apply bind_Done_inv in H. destruct H as ([] & p4 & Hlogic & H).
  destruct (_validate_config_logic _ _) as [[]|e]; [|discriminate].
  injection Hlogic as <-. exists hvs. exact H.
Qed.

Lemma uint_no_dash d : Str.has_char "-" (NilEmpty.string_of_uint d) = false.
Proof. induction d; simpl; auto. Qed.

(** [str(n)] of a number that is not negative is the text of its
    decimal digits. *)
Lemma of_Z_digits n :
  0 <= n ->
  exists u, Z.to_int n = Decimal.Pos u /\ Str.of_Z n = NilEmpty.string_of_uint u.
Proof.
  intros Hn. unfold Str.of_Z. destruct n as [|p|p]; [| |lia].
  - exists (Decimal.D0 Decimal.Nil). split; reflexivity.
  - exists (Pos.to_uint p). split; [reflexivity|].
    cbn [Z.to_int NilZero.string_of_int].
    pose proof (DecimalPos.Unsigned.to_uint_nonnil p) as Hnil.
    destruct (Pos.to_uint p); [congruence|reflexivity..].
Qed.

Lemma of_Z_no_dash n : 0 <= n -> Str.has_char "-" (Str.of_Z n) = false.
Proof.
  intros Hn. destruct (of_Z_digits n Hn) as (u & _ & ->). apply uint_no_dash.
Qed.

Lemma of_Z_inj a b : 0 <= a -> 0 <= b -> Str.of_Z a = Str.of_Z b -> a = b.
Proof.
  intros Ha Hb H.
  destruct (of_Z_digits a Ha) as (ua & Ea & Sa), (of_Z_digits b Hb) as (ub & Eb & Sb).
  rewrite Sa, Sb in H. apply (f_equal NilEmpty.uint_of_string) in H.
  rewrite !NilEmpty.usu in H. injection H as ->.
  apply DecimalZ.to_int_inj. congruence.
Qed.

Lemma has_char_append c s t :
  Str.has_char c (s +:+ t) = Str.has_char c s || Str.has_char c t.
Proof.
  induction s as [|x s IH]; [reflexivity|].
  simpl. rewrite IH. apply orb_assoc.
Qed.

Lemma append_cons c a x : String c a +:+ x = String c (a +:+ x).
Proof. reflexivity. Qed.

Lemma append_nil x : "" +:+ x = x.
Proof. reflexivity. Qed.

(** A name ends in one way only with a hyphen and a text without
    hyphen. *)
Lemma dash_suffix_inj a : forall b x y,
  Str.has_char "-" x = false -> Str.has_char "-" y = false ->
  a +:+ "-" +:+ x = b +:+ "-" +:+ y -> a = b /\ x = y.
Proof.
  induction a as [|c a IH]; intros [|c' b] x y Hx Hy E;
    change ("-" +:+ x) with (String "-" x) in *;
    change ("-" +:+ y) with (String "-" y) in *;
    rewrite ?append_cons, ?append_nil in E; injection E; clear E.
  - auto.
  - intros -> _. rewrite has_char_append in Hx.
    apply orb_false_iff in Hx. destruct Hx as [_ Hx]. discriminate Hx.
  - intros <- _. rewrite has_char_append in Hy.
    apply orb_false_iff in Hy. destruct Hy as [_ Hy]. discriminate Hy.
  - intros E ->. destruct (IH _ _ _ Hx Hy E) as [-> ->]. auto.
Qed.

(** Two host names are the same only for the same index and group names
    that coincide once underscores are hyphens. *)
Lemma hostname_inj g1 i1 g2 i2 :
  0 <= i1 -> 0 <= i2 ->
  hostname g1 i1 = hostname g2 i2 ->
  Str.replace "_" "-" g1 = Str.replace "_" "-" g2 /\ i1 = i2.
Proof.
  intros H1 H2 E. unfold hostname in E.
  apply dash_suffix_inj in E; [|now apply of_Z_no_dash..].
  destruct E as [Eg Ei]. split; [exact Eg|now apply of_Z_inj].
Qed.

Lemma desired_hosts_In config h :
  In h (desired_hosts config) -> In (fst h) (Dict.keys (nodes config)) /\ 1 <= snd h.
Proof.
  unfold desired_hosts. rewrite in_flat_map. intros (group & Hg & Hin).
  apply in_map_iff in Hin. destruct Hin as (i & <- & Hi).
  apply list_elem_of_In, elem_of_seqZ in Hi. cbn [fst snd]. split; [exact Hg|lia].
Qed.

End ClaimsOfThePass.

(** C5 — as amended: on every configuration and every snapshot on which
    the pass completes, the servers the pass claims are those the search
    finds for the desired hosts, in order; two desired hosts claim the
    same observed server only if they have the same index and their
    group names coincide once underscores are replaced by hyphens, so
    that no observed server is claimed by two desired hosts when no two
    group names coincide in this way; a server claimed by a desired host
    is a server of the snapshot and is not in the unmanaged report,
    whose calls end the inventory. *)
Theorem C5_claims_exclusive config cloud servers inventory p :
  servers_get_all cloud = inr servers ->
  InventoryModule.parse config cloud (fresh inventory) = Done tt p ->
  _hcloud_servers p = servers /\
  _hetzner_servers_configured p
  = flat_map (fun h => claimed_id (claimed config servers h)) (desired_hosts config) /\
  (forall h1 h2 s,
     In h1 (desired_hosts config) -> In h2 (desired_hosts config) ->
     claimed config servers h1 = Some s -> claimed config servers h2 = Some s ->
     Str.replace "_" "-" (fst h1) = Str.replace "_" "-" (fst h2) /\
     snd h1 = snd h2 /\
     (NoDup (map (Str.replace "_" "-") (Dict.keys (nodes config))) -> h1 = h2)) /\
  (forall h s,
     In h (desired_hosts config) -> claimed config servers h = Some s ->
     In s servers /\ ~ In s (unmanaged_report p)) /\
  exists before,
    _inventory p
    = before ++ flat_map unmanaged_calls (unmanaged_report p) ++
      [set_variable "all" "ansible_user" (VStr "root")].
Proof.
  intros Hservers Hrun.
  destruct (parse_Done_inv _ _ _ _ _ Hservers Hrun) as [hvs Hinit].
  apply initialize_inventory_claims in Hinit.
  cbn [_hcloud_servers _hetzner_servers_configured app] in Hinit.
  destruct Hinit as (Hs & Hc & Hreport).
  split; [exact Hs|]. split; [exact Hc|]. split; [|split; [|exact Hreport]].
  - intros [g1 i1] [g2 i2] s H1 H2 C1 C2.
    apply claimed_Some in C1, C2. destruct C1 as [_ N1], C2 as [_ N2].
    apply desired_hosts_In in H1, H2. cbn [fst snd] in *.
    destruct H1 as [K1 P1], H2 as [K2 P2].
    assert (E : InventoryModule.hostname g1 i1 = InventoryModule.hostname g2 i2).
    { unfold desired_hostname in N1, N2. cbn [fst snd] in N1, N2. congruence. }
    apply hostname_inj in E; [|lia..]. destruct E as [Eg ->].
    split; [exact Eg|]. split; [reflexivity|].
    intros Hnd. f_equal. eapply NoDup_map_inj; eassumption.
  - intros h s Hh Hclaim. split; [eapply claimed_Some, Hclaim|].
    unfold unmanaged_report. rewrite filter_In. intros [_ Hun].
    unfold InventoryModule.unmanaged in Hun. apply negb_true_iff in Hun.
    apply bool_decide_eq_false in Hun. apply Hun. rewrite Hc.
    apply list_elem_of_In, in_flat_map. exists h. split; [assumption|].
    cbv beta. rewrite Hclaim. simpl. auto.
Qed.

Lemma C5_claims_exclusive_witness :
  exists p,
    InventoryModule.parse Sample.small_cluster
      (mkCloudAPI (inr [Sample.server_control_1; Sample.server_stray]) (inr []))
      (fresh []) = Done tt p /\
    _hetzner_servers_configured p = [11] /\
    unmanaged_report p = [Sample.server_stray] /\
    (forall h s,
       In h (desired_hosts Sample.small_cluster) ->
       claimed Sample.small_cluster [Sample.server_control_1; Sample.server_stray] h
       = Some s ->
       In s [Sample.server_control_1; Sample.server_stray] /\
       ~ In s (unmanaged_report p)).
Proof.
  eexists. split; [vm_compute; reflexivity|].
  split; [vm_compute; reflexivity|]. split; [vm_compute; reflexivity|].
  eapply (C5_claims_exclusive Sample.small_cluster
            (mkCloudAPI (inr [Sample.server_control_1; Sample.server_stray]) (inr []))
            [Sample.server_control_1; Sample.server_stray] []).
  - reflexivity.
  - vm_compute. reflexivity.
Defined.

(** Two groups named w_a and w-a both name their first host w-a-1: the
    pass completes and both desired hosts claim the one observed server
    of that name. *)
Lemma C5_server_claimed_twice : ~ claimed_at_most_once.
Proof.
  intros H.
  assert (Hrun : exists p,
    InventoryModule.parse Sample.colliding_names
      (mkCloudAPI (inr [Sample.server_w_a_1]) (inr [])) (fresh []) = Done tt p).
  { eexists. vm_compute. reflexivity. }
  destruct Hrun as [p Hrun].
  specialize (H Sample.colliding_names
                (mkCloudAPI (inr [Sample.server_w_a_1]) (inr []))
                [Sample.server_w_a_1] [] p
                ("w_a", 1) ("w-a", 1) Sample.server_w_a_1 eq_refl Hrun).
  assert (Hne : ("w_a", 1) <> ("w-a", 1)) by discriminate.
  apply Hne, H.
  - vm_compute. auto.
  - vm_compute. auto.
  - vm_compute. reflexivity.
  - vm_compute. reflexivity.
Qed.

(** What the run of that configuration claims. *)
Example colliding_names_run :
  match InventoryModule.parse Sample.colliding_names
          (mkCloudAPI (inr [Sample.server_w_a_1]) (inr [])) (fresh []) with
  | Done _ p => Some (_hetzner_servers_configured p, host_records (_inventory p))
  | _ => None
  end
  = Some ([1; 1], [("w-a-1", "w_a"); ("w-a-1", "w-a")]).
Proof. vm_compute. reflexivity. Qed.

(* ===================================================================== *)
(** * The examples of the docstrings *)
(* ===================================================================== *)

Section Docstrings.

(** [ValueManager.get_next]: fsn1, nbg1, hel1, and back to fsn1. *)
Example docstring_get_next :
  fst (ValueManager.take 4 (ValueManager.init ["fsn1"; "nbg1"; "hel1"]))
  = ["fsn1"; "nbg1"; "hel1"; "fsn1"].
Proof. vm_compute. reflexivity. Qed.

(** [ValueManager.increment]: a known value is counted, an unknown one
    raises. *)
Example docstring_increment :
  (_counts <$> ValueManager.increment (Some "fsn1") (ValueManager.init ["fsn1"; "nbg1"]))
  = Ok [("fsn1", 1); ("nbg1", 0)]
  /\ ValueManager.increment (Some "unknown") (ValueManager.init ["fsn1"; "nbg1"])
     = Err (ValueError (ItemNotFound (Some "unknown"))).
Proof. split; vm_compute; reflexivity. Qed.

(** [HostTimeAssigner.get_next_slot]: the six calls of the docstring. *)
Example docstring_get_next_slot :
  (a0 ← match HostTimeAssigner.init
                [("control", 3); ("worker_small", 2); ("worker_big", 1)]
                "02:00" "03:00" with
         | Some r => r
         | None => Err (ValueError NoHostsDefined)
         end;
   '(s1, a1) ← HostTimeAssigner.get_next_slot "control" a0;
   '(s2, a2) ← HostTimeAssigner.get_next_slot "worker_small" a1;
   '(s3, a3) ← HostTimeAssigner.get_next_slot "worker_big" a2;
   '(s4, a4) ← HostTimeAssigner.get_next_slot "control" a3;
   '(s5, a5) ← HostTimeAssigner.get_next_slot "worker_small" a4;
   '(s6, a6) ← HostTimeAssigner.get_next_slot "control" a5;
   '(_, _) ← match HostTimeAssigner.get_next_slot "control" a6 with
             | Err (ValueError (AllSlotsAssigned _)) => Ok (tt, tt)
             | _ => Err (ValueError NoHostsDefined)
             end;
   Ok [s1; s2; s3; s4; s5; s6])
  = Ok ["02:00"; "02:12"; "02:24"; "02:36"; "02:48"; "03:00"].
Proof. vm_compute. reflexivity. Qed.

(** A group that declares no replica is never deleted from the counts of
    [_interleave_groups]: the loop does not end, and neither does the
    pass, although the structural validation accepts the configuration. *)
Example zero_replicas_never_return :
  HostTimeAssigner._interleave_groups [("control", 0); ("worker", 2)] = None
  /\ (forall fuel result,
        HostTimeAssigner.interleave_loop fuel result [("control", 0); ("worker", 2)]
        = None)
  /\ InventoryModule._validate_config_structure Sample.no_control_nodes = Ok tt
  /\ InventoryModule.parse Sample.no_control_nodes Sample.empty_cloud (fresh []) = Hangs.
Proof.
  split; [vm_compute; reflexivity|]. split; [|split; vm_compute; reflexivity].
  apply interleave_groups_None; [|vm_compute; reflexivity].
  refine (bool_decide_unpack _ _). vm_compute. exact I.
Qed.

End Docstrings.

(* ===================================================================== *)
(** * NetworkManager on any network *)
(* ===================================================================== *)

Section NetworkManagerGeneral.
Import NetworkManager.

Lemma hosts_NoDup net : NoDup (IP.hosts net).
Proof.
  unfold IP.hosts, IP.range.
  destruct (_ =? _); [apply NoDup_seqZ|].
  destruct (_ =? _); [apply NoDup_singleton|apply NoDup_seqZ].
Qed.

Lemma iter_suffix_NoDup nm : iter_suffix nm -> NoDup (_ip_iter nm).
Proof.
  intros [visited H]. pose proof (hosts_NoDup (_network nm)) as Hnd.
  rewrite H in Hnd. apply NoDup_app in Hnd. tauto.
Qed.

Lemma filter_ext_elem {A} (P Q : A -> Prop) `{forall x, Decision (P x)}
    `{forall x, Decision (Q x)} (l : list A) :
  (forall x, x ∈ l -> P x <-> Q x) -> filter P l = filter Q l.
Proof.
  induction l as [|x l IH]; intros Hl; [reflexivity|].
  assert (Hx : P x <-> Q x) by (apply Hl; left).
  assert (IH' : filter P l = filter Q l) by (apply IH; intros y Hy; apply Hl; now right).
  destruct (decide (P x)) as [HP|HP].
  - rewrite !filter_cons_True by tauto. now rewrite IH'.
  - rewrite !filter_cons_False by tauto. exact IH'.
Qed.

Lemma filter_ext_elem_all {A} (P : A -> Prop) `{forall x, Decision (P x)} (l : list A) :
  (forall x, x ∈ l -> P x) -> l = filter P l.
Proof.
  induction l as [|x l IH]; intros Hl; [reflexivity|].
  rewrite filter_cons_True by (apply Hl; left). f_equal. apply IH.
  intros y Hy. apply Hl. now right.
Qed.

Lemma next_free_filter it assigned :
  NoDup it ->
  match next_free it assigned with
  | None => filter (fun a => a ∉ assigned) it = []
  | Some (a, it') =>
      (exists skipped, it = skipped ++ a :: it') /\
      (a ∉ assigned) /\
      filter (fun a => a ∉ assigned) it
      = a :: filter (fun b => b ∉ {[a]} ∪ assigned) it'
  end.
Proof.
  induction it as [|x it IH]; cbn [next_free]; intros Hnd; [reflexivity|].
  apply NoDup_cons in Hnd. destruct Hnd as [Hx Hnd].
  destruct (bool_decide_reflect (x ∈ assigned)) as [Hin|Hnotin].
  - specialize (IH Hnd). destruct (next_free it assigned) as [[a it']|].
    + destruct IH as ([skipped ->] & Ha & Hf). repeat split.
      * now exists (x :: skipped).
      * exact Ha.
      * rewrite filter_cons_False by tauto. exact Hf.
    + rewrite filter_cons_False by tauto. exact IH.
  - repeat split.
    + now exists [].
    + exact Hnotin.
    + rewrite filter_cons_True by exact Hnotin. f_equal.
      apply filter_ext_elem. intros y Hy.
      rewrite elem_of_union, elem_of_singleton. split; [|tauto].
      intros Hya [->|Hya']; contradiction.
Qed.

End NetworkManagerGeneral.

Section NetworkManagerSteps.
Import NetworkManager.

Lemma init_iter_suffix cidr nm : init cidr = Ok nm -> iter_suffix nm.
Proof.
  unfold init. destruct (IP.parse_network cidr) as [net|]; [|discriminate].
  intros [= <-]. now exists [].
Qed.

Lemma reserve_ip_iter_suffix ip nm nm' :
  iter_suffix nm -> reserve_ip ip nm = Ok nm' -> iter_suffix nm'.
Proof.
  intros Hsuf H. apply reserve_ip_inv in H. destruct H as (a & _ & _ & _ & ->).
  exact Hsuf.
Qed.

Lemma take_enumerates n : forall nm,
  NoDup (_ip_iter nm) ->
  take n nm
  = map IP.to_string (firstn n (filter (fun a => a ∉ _assigned nm) (_ip_iter nm))).
Proof.
  induction n as [|n IH]; intros nm Hnd; cbn [take]; [reflexivity|].
  unfold get_next_ip.
  pose proof (next_free_filter (_ip_iter nm) (_assigned nm) Hnd) as Hnext.
  destruct (next_free (_ip_iter nm) (_assigned nm)) as [[a it']|].
  - destruct Hnext as ([skipped Hit] & Ha & Hf). rewrite Hf. cbn [firstn map].
    f_equal. rewrite IH; [reflexivity|]. cbn [_ip_iter].
    rewrite Hit in Hnd. apply NoDup_app in Hnd. destruct Hnd as (_ & _ & Hnd).
    now apply NoDup_cons in Hnd.
  - rewrite Hnext. reflexivity.
Qed.

End NetworkManagerSteps.

(** X1 — in every state a manager can reach, a successful [get_next_ip]
    answers the text of a host of the network that was not assigned
    before, marks that address assigned and no other, and leaves a state
    a manager can reach. *)
Theorem X1_get_next_ip_grants_free_host nm ip nm' :
  iter_suffix nm ->
  NetworkManager.get_next_ip nm = Ok (ip, nm') ->
  exists a,
    ip = IP.to_string a /\
    (a ∈ IP.hosts (_network nm)) /\
    (a ∉ _assigned nm) /\
    _assigned nm' = {[a]} ∪ _assigned nm /\
    _network nm' = _network nm /\
    iter_suffix nm'.
Proof.
  intros [visited Hsuf] H. unfold NetworkManager.get_next_ip in H.
  destruct (NetworkManager.next_free (_ip_iter nm) (_assigned nm)) as [[a it']|] eqn:Hnext;
    [|discriminate].
  injection H as <- <-.
  destruct (next_free_Some _ _ _ _ Hnext) as (skipped & Hit & Ha).
  exists a. cbn. repeat split; try assumption; try reflexivity.
  - rewrite Hsuf, Hit. set_solver.
  - exists (visited ++ skipped ++ [a]). cbn.
    rewrite Hsuf, Hit, <- !app_assoc. reflexivity.
Qed.

Lemma X1_get_next_ip_grants_free_host_witness :
  exists nm ip nm',
    NetworkManager.init "192.168.7.0/30" = Ok nm /\
    iter_suffix nm /\
    NetworkManager.get_next_ip nm = Ok (ip, nm') /\
    exists a,
      ip = IP.to_string a /\
      (a ∈ IP.hosts (_network nm)) /\
      (a ∉ _assigned nm) /\
      _assigned nm' = {[a]} ∪ _assigned nm /\
      _network nm' = _network nm /\
      iter_suffix nm'.
Proof.
  eexists _, _, _. split; [vm_compute; reflexivity|].
  assert (Hsuf : iter_suffix
            (mkNetworkManager (IP.mkNetwork 3232237312 30) ∅ [3232237313; 3232237314])).
  { exists []. reflexivity. }
  split; [exact Hsuf|]. split; [reflexivity|].
  exact (X1_get_next_ip_grants_free_host _ _ _ Hsuf eq_refl).
Defined.

(** X2 — successive calls of [get_next_ip] answer, in the order of the
    iterator, exactly the hosts that are left and not assigned: the
    reserved ones are skipped, nothing else is. *)
Theorem X2_get_next_ip_enumerates_free_hosts nm n :
  iter_suffix nm ->
  NetworkManager.take n nm
  = map IP.to_string
        (firstn n (filter (fun a => a ∉ _assigned nm) (_ip_iter nm))).
Proof. intros Hsuf. apply take_enumerates, iter_suffix_NoDup, Hsuf. Qed.

Lemma X2_get_next_ip_enumerates_free_hosts_witness :
  exists nm0 nm1,
    NetworkManager.init "10.0.0.0/29" = Ok nm0 /\
    NetworkManager.reserve_ip "10.0.0.2" nm0 = Ok nm1 /\
    iter_suffix nm1 /\
    NetworkManager.take 9 nm1
    = map IP.to_string
          (firstn 9 (filter (fun a => a ∉ _assigned nm1) (_ip_iter nm1))) /\
    NetworkManager.take 9 nm1
    = ["10.0.0.1"; "10.0.0.3"; "10.0.0.4"; "10.0.0.5"; "10.0.0.6"].
Proof.
  eexists _, _. split; [vm_compute; reflexivity|]. split; [vm_compute; reflexivity|].
  match goal with
  | |- iter_suffix ?nm /\ _ => assert (Hsuf : iter_suffix nm) by (exists []; reflexivity)
  end.
  split; [exact Hsuf|]. split; [|vm_compute; reflexivity].
  exact (X2_get_next_ip_enumerates_free_hosts _ 9 Hsuf).
Defined.

(** X3 — [get_next_ip] raises exactly when every host left in the
    iterator is assigned, and then it is the [RuntimeError] of the
    exhausted pool; on a fresh manager the calls that answer are as many
    as the network has hosts. *)
Theorem X3_get_next_ip_exhaustion nm :
  iter_suffix nm ->
  ((exists e, NetworkManager.get_next_ip nm = Err e)
   <-> Forall (fun a => a ∈ _assigned nm) (_ip_iter nm)) /\
  (forall e, NetworkManager.get_next_ip nm = Err e -> e = RuntimeError NoAvailableIPs) /\
  (_assigned nm = ∅ ->
   forall n, length (NetworkManager.take n nm) = Nat.min n (length (_ip_iter nm))).
Proof.
  intros Hsuf. pose proof (iter_suffix_NoDup nm Hsuf) as Hnd.
  pose proof (next_free_filter (_ip_iter nm) (_assigned nm) Hnd) as Hnext.
  unfold NetworkManager.get_next_ip.
  split; [|split].
  - destruct (NetworkManager.next_free (_ip_iter nm) (_assigned nm)) as [[a it']|].
    + destruct Hnext as ([skipped Hit] & Ha & _). split.
      * intros [e He]. discriminate.
      * intros Hall. exfalso. apply Ha. rewrite Forall_forall in Hall.
        apply Hall. rewrite Hit. set_solver.
    + split; [|intros _; eexists; reflexivity].
      intros _. apply Forall_forall. intros a Ha.
      destruct (decide (a ∈ _assigned nm)) as [Hin|Hnotin]; [exact Hin|].
      assert (Hf : a ∈ filter (fun a => a ∉ _assigned nm) (_ip_iter nm))
        by (apply list_elem_of_filter; auto).
      rewrite Hnext in Hf. inversion Hf.
  - intros e. destruct (NetworkManager.next_free _ _) as [[a it']|]; [discriminate|].
    now intros [= <-].
  - intros Hempty n. rewrite take_enumerates by exact Hnd.
    rewrite length_map, length_firstn. f_equal.
    f_equal. symmetry. apply filter_ext_elem_all. intros a _. rewrite Hempty. set_solver.
Qed.

Lemma X3_get_next_ip_exhaustion_witness :
  let nm := mkNetworkManager (IP.mkNetwork 3232237312 30)
                             {[3232237313; 3232237314]} [3232237313; 3232237314] in
  iter_suffix nm /\
  NetworkManager.get_next_ip nm = Err (RuntimeError NoAvailableIPs) /\
  ((exists e, NetworkManager.get_next_ip nm = Err e)
   <-> Forall (fun a => a ∈ _assigned nm) (_ip_iter nm)).
Proof.
  intros nm.
  assert (Hsuf : iter_suffix nm) by (exists []; reflexivity).
  split; [exact Hsuf|]. split; [vm_compute; reflexivity|].
  exact (proj1 (X3_get_next_ip_exhaustion nm Hsuf)).
Defined.

(** X4 — [reserve_ip] raises nothing but [ValueError] (so the handler of
    [_add_host] swallows every failure of it), and when it raises the
    manager is unchanged; it succeeds exactly on the text of a host of
    the network that is not assigned, and then assigns that host alone
    and leaves the iterator where it was. *)
Theorem X4_reserve_ip_outcomes ip nm :
  (forall e, NetworkManager.reserve_ip ip nm = Err e -> is_ValueError e = true) /\
  (forall nm',
     NetworkManager.reserve_ip ip nm = Ok nm' <->
     exists a,
       IP.IPv4Address ip = Some a /\
       (a ∈ IP.hosts (_network nm)) /\
       (a ∉ _assigned nm) /\
       nm' = mkNetworkManager (_network nm) ({[a]} ∪ _assigned nm) (_ip_iter nm)).
Proof.
  split.
  - unfold NetworkManager.reserve_ip. intros e.
    destruct (IP.IPv4Address ip) as [a|]; [|now intros [= <-]].
    destruct (negb _); [now intros [= <-]|].
    destruct (bool_decide _); [now intros [= <-]|discriminate].
  - intros nm'. split; [apply reserve_ip_inv|].
    intros (a & Hip & Hhost & Hfree & ->). unfold NetworkManager.reserve_ip.
    rewrite Hip, (bool_decide_eq_true_2 _ Hhost). cbn [negb].
    now rewrite (bool_decide_eq_false_2 _ Hfree).
Qed.

(* ===================================================================== *)
(** * ValueManager: counting *)
(* ===================================================================== *)

Section DictUpdates.
Context {V : Type}.
Implicit Types (d : Dict.t V) (k : string) (v : V).

Lemma dict_get_set k k' v d :
  Dict.get k (Dict.set k' v d) = if String.eqb k k' then Some v else Dict.get k d.
Proof.
  induction d as [|[k0 v0] d IH]; cbn [Dict.set Dict.get].
  - destruct (String.eqb k k'); reflexivity.
  - destruct (String.eqb_spec k' k0) as [->|Hne]; cbn [Dict.get].
    + destruct (String.eqb k k0); reflexivity.
    + rewrite IH. destruct (String.eqb_spec k k0) as [->|Hne'];
        [|reflexivity].
      destruct (String.eqb_spec k0 k'); [congruence|reflexivity].
Qed.

Lemma dict_get_Some_In k d v : Dict.get k d = Some v -> In k (Dict.keys d).
Proof.
  intros H. apply dict_mem_In. unfold Dict.mem. now rewrite H.
Qed.

Lemma dict_In_get k d : In k (Dict.keys d) -> exists v, Dict.get k d = Some v.
Proof.
  intros H. apply dict_mem_In in H. unfold Dict.mem in H.
  destruct (Dict.get k d) as [v|]; [eauto|discriminate].
Qed.

End DictUpdates.

Section Counting.
Import ValueManager.

Lemma sum_app xs ys : Py.sum (xs ++ ys) = Py.sum xs + Py.sum ys.
Proof.
  induction xs as [|x xs IH]; cbn [app]; [unfold Py.sum at 2; simpl; lia|].
  rewrite !sum_cons, IH. lia.
Qed.

Lemma sum_set_present k (c : Z) (d : Dict.t Z) c0 :
  Dict.get k d = Some c0 ->
  Py.sum (map snd (Dict.set k c d)) = Py.sum (map snd d) - c0 + c.
Proof.
  induction d as [|[k' v'] d IH]; cbn [Dict.get Dict.set]; [discriminate|].
  destruct (String.eqb k k').
  - intros [= ->]. cbn [map snd]. rewrite !sum_cons. lia.
  - intros H. cbn [map snd]. rewrite !sum_cons, (IH H). lia.
Qed.

Lemma bump_total k (d : Dict.t Z) :
  In k (Dict.keys d) ->
  Py.sum (map snd (bump k d)) = Py.sum (map snd d) + 1.
Proof.
  intros Hk. destruct (dict_In_get _ _ Hk) as [c Hc]. unfold bump.
  rewrite (sum_set_present _ _ _ _ Hc), Hc. simpl. lia.
Qed.

Lemma min_item_In best items : In (min_item best items) (best :: items).
Proof.
  destruct (min_item_split best items) as (before & v & c & after & Heq & -> & _).
  rewrite Heq. apply in_or_app. right. now left.
Qed.

Lemma get_next_total vm v vm' :
  get_next vm = Ok (v, vm') -> total_uses vm' = total_uses vm + 1.
Proof.
  unfold get_next, total_uses. destruct (_counts vm) as [|x items] eqn:Hc; [discriminate|].
  intros [= _ <-]. cbn [_counts]. apply bump_total.
  unfold Dict.keys. apply in_map. apply min_item_In.
Qed.

Lemma get_next_keys vm v vm' :
  get_next vm = Ok (v, vm') ->
  Dict.keys (_counts vm') = Dict.keys (_counts vm) /\ _values vm' = _values vm /\
  In v (Dict.keys (_counts vm)).
Proof.
  unfold get_next. destruct (_counts vm) as [|x items] eqn:Hc; [discriminate|].
  intros [= <- <-]. cbn [_counts _values].
  assert (Hin : In (fst (min_item x items)) (Dict.keys (x :: items))).
  { unfold Dict.keys. apply in_map, min_item_In. }
  unfold bump. rewrite dict_keys_set.
  apply dict_mem_In in Hin. rewrite Hin. apply dict_mem_In in Hin. auto.
Qed.

End Counting.

(** X5 — [increment] raises [ValueError] exactly when the item is not one
    of the managed values (an absent label, [None], is not), and then
    nothing is counted; on a managed value that has a counter it adds one
    to that counter, leaves every other counter and the order of the
    candidates as they were. *)
Theorem X5_increment_outcomes item vm :
  (forall e, ValueManager.increment item vm = Err e ->
             e = ValueError (ItemNotFound item)) /\
  ((exists e, ValueManager.increment item vm = Err e)
   <-> (forall i, item = Some i -> ~ In i (_values vm))) /\
  (forall i vm',
     item = Some i ->
     In i (Dict.keys (_counts vm)) ->
     ValueManager.increment item vm = Ok vm' ->
     _values vm' = _values vm /\
     Dict.keys (_counts vm') = Dict.keys (_counts vm) /\
     forall k,
       Dict.get k (_counts vm')
       = if String.eqb k i
         then Some (default 0 (Dict.get i (_counts vm)) + 1)
         else Dict.get k (_counts vm)).
Proof.
  assert (Hmem : forall i, existsb (String.eqb i) (_values vm) = true <-> In i (_values vm)).
  { intros i. rewrite existsb_exists. split.
    - intros (x & Hx & Heq). apply String.eqb_eq in Heq. now subst.
    - intros Hi. exists i. split; [assumption|apply String.eqb_refl]. }
  unfold ValueManager.increment. split; [|split].
  - intros e. destruct item as [i|]; [|now intros [= <-]].
    destruct (existsb _ _); [discriminate|now intros [= <-]].
  - destruct item as [i|].
    + destruct (existsb (String.eqb i) (_values vm)) eqn:Hex.
      * split; [intros [e He]; discriminate|].
        intros H. exfalso. apply (H i eq_refl). now apply Hmem.
      * split; [|intros _; eexists; reflexivity].
        intros _ i' [= <-] Hin. apply Hmem in Hin. congruence.
    + split; [intros _ i Hi; discriminate|intros _; eexists; reflexivity].
  - intros i vm' -> Hkey. destruct (existsb _ _); [|discriminate].
    intros [= <-]. cbn [_values _counts]. split; [reflexivity|].
    unfold ValueManager.bump. split.
    + rewrite dict_keys_set. apply dict_mem_In in Hkey. now rewrite Hkey.
    + intros k. apply dict_get_set.
Qed.

Lemma X5_increment_outcomes_witness :
  let vm := ValueManager.init ["fsn1"; "nbg1"] in
  exists vm',
    ValueManager.increment (Some "nbg1") vm = Ok vm' /\
    _values vm' = _values vm /\
    Dict.keys (_counts vm') = Dict.keys (_counts vm) /\
    forall k,
      Dict.get k (_counts vm')
      = if String.eqb k "nbg1"
        then Some (default 0 (Dict.get "nbg1" (_counts vm)) + 1)
        else Dict.get k (_counts vm).
Proof.
  intros vm. eexists. split; [reflexivity|].
  refine (proj2 (proj2 (X5_increment_outcomes (Some "nbg1") vm)) "nbg1" _ eq_refl _ eq_refl).
  vm_compute. auto.
Defined.

(** X6 — every successful call, [get_next] or [increment] of a value that
    has a counter, adds exactly one use: after [n] calls of [get_next] on
    a fresh manager over some candidates the counters sum to [n]. *)
Theorem X6_uses_are_counted_once (values : list string) (n : nat) :
  values <> [] ->
  total_uses (snd (ValueManager.take n (ValueManager.init values))) = Z.of_nat n /\
  (forall vm v vm',
     ValueManager.get_next vm = Ok (v, vm') -> total_uses vm' = total_uses vm + 1) /\
  (forall vm i vm',
     In i (Dict.keys (_counts vm)) ->
     ValueManager.increment (Some i) vm = Ok vm' -> total_uses vm' = total_uses vm + 1).
Proof.
  intros Hne. split; [|split].
  - assert (H0 : total_uses (ValueManager.init values) = 0).
    { unfold total_uses. pose proof (init_counts_zero values) as Hz.
      induction (_counts (ValueManager.init values)) as [|x l IH]; [reflexivity|].
      inversion Hz; subst. cbn [map]. rewrite sum_cons, IH by assumption. lia. }
    assert (Hlen : length (fst (ValueManager.take n (ValueManager.init values))) = n).
    { apply take_balanced.
      - apply dict_comprehension_NoDup.
      - now apply init_counts_nonempty.
      - intros x y Hx Hy.
        pose proof (init_counts_zero values) as Hz. rewrite Forall_forall in Hz.
        rewrite (Hz x), (Hz y) by now apply list_elem_of_In. lia. }
    rewrite <- (Z.add_0_l (Z.of_nat n)), <- H0.
    revert Hlen. clear H0. generalize (ValueManager.init values).
    induction n as [|n IH]; intros vm Hlen; cbn [ValueManager.take] in *.
    + cbn. lia.
    + destruct (ValueManager.get_next vm) as [[v vm1]|e] eqn:Hget; [|discriminate].
      specialize (IH vm1). destruct (ValueManager.take n vm1) as [vs vm2] eqn:Htake.
      cbn [fst snd length] in *. apply get_next_total in Hget.
      rewrite IH by lia. lia.
  - apply get_next_total.
  - intros vm i vm' Hkey. unfold ValueManager.increment, total_uses.
    destruct (existsb _ _); [|discriminate]. intros [= <-]. cbn [_counts].
    now apply bump_total.
Qed.

Lemma X6_uses_are_counted_once_witness :
  ["fsn1"; "nbg1"; "hel1"] <> [] /\
  total_uses (snd (ValueManager.take 5 (ValueManager.init ["fsn1"; "nbg1"; "hel1"])))
  = Z.of_nat 5.
Proof.
  split; [discriminate|].
  apply (X6_uses_are_counted_once ["fsn1"; "nbg1"; "hel1"] 5). discriminate.
Defined.

(* ===================================================================== *)
(** * HostTimeAssigner: what the interleaving gives each group *)
(* ===================================================================== *)

Section InterleaveCounts.
Import HostTimeAssigner.

Lemma get_decrement_all g d :
  NoDup (Dict.keys d) ->
  Dict.get g (decrement_all d)
  = match Dict.get g d with
    | Some c => if c - 1 =? 0 then None else Some (c - 1)
    | None => None
    end.
Proof.
  induction d as [|[k c] d IH]; cbn [Dict.get]; intros Hnd; [reflexivity|].
  apply NoDup_cons in Hnd. destruct Hnd as [Hk Hnd].
  change (decrement_all ((k, c) :: d))
    with ((if c - 1 =? 0 then [] else [(k, c - 1)]) ++ decrement_all d).
  destruct (String.eqb_spec g k) as [->|Hne].
  - destruct (c - 1 =? 0); cbn [app Dict.get].
    + destruct (Dict.get k (decrement_all d)) as [c'|] eqn:Hget; [|reflexivity].
      exfalso. apply Hk, list_elem_of_In, decrement_all_keys.
      eapply dict_get_Some_In, Hget.
    + now rewrite String.eqb_refl.
  - destruct (c - 1 =? 0); cbn [app Dict.get].
    + now apply IH.
    + destruct (String.eqb_spec g k); [congruence|]. now apply IH.
Qed.

Lemma count_occ_keys g (d : Dict.t Z) :
  NoDup (Dict.keys d) ->
  count_occ string_dec (Dict.keys d) g
  = match Dict.get g d with Some _ => 1%nat | None => 0%nat end.
Proof.
  induction d as [|[k c] d IH]; cbn [Dict.keys map fst Dict.get count_occ];
    intros Hnd; [reflexivity|].
  apply NoDup_cons in Hnd. destruct Hnd as [Hk Hnd]. fold (Dict.keys d) in *.
  destruct (string_dec k g) as [->|Hne].
  - rewrite String.eqb_refl. rewrite IH by assumption.
    destruct (Dict.get g d) as [c'|] eqn:Hget; [|reflexivity].
    exfalso. apply Hk, list_elem_of_In. eapply dict_get_Some_In, Hget.
  - destruct (String.eqb_spec g k); [congruence|]. now apply IH.
Qed.

Lemma decrement_all_positive d :
  Forall (fun kv => 0 < snd kv) d -> Forall (fun kv => 0 < snd kv) (decrement_all d).
Proof.
  intros Hpos. unfold decrement_all. apply Forall_forall. intros [k c] Hin.
  apply list_elem_of_In, in_flat_map in Hin. destruct Hin as ([k' c'] & Hin & Hx).
  cbn [fst snd] in Hx. rewrite Forall_forall in Hpos.
  apply list_elem_of_In, Hpos in Hin. cbn [snd] in Hin.
  destruct (Z.eqb_spec (c' - 1) 0); [contradiction|].
  destruct Hx as [[= <- <-]|[]]. cbn [snd]. lia.
Qed.

Lemma get_positive g (d : Dict.t Z) c :
  Forall (fun kv => 0 < snd kv) d -> Dict.get g d = Some c -> 0 < c.
Proof.
  induction d as [|[k c'] d IH]; cbn [Dict.get]; [discriminate|].
  intros Hpos. inversion Hpos; subst. destruct (String.eqb g k).
  - intros [= <-]. assumption.
  - now apply IH.
Qed.

(** Each group is named as many times as it counts hosts. *)
Lemma interleave_loop_counts fuel : forall result d l,
  NoDup (Dict.keys d) ->
  Forall (fun kv => 0 < snd kv) d ->
  interleave_loop fuel result d = Some l ->
  forall g,
    Z.of_nat (count_occ string_dec l g)
    = Z.of_nat (count_occ string_dec result g) + default 0 (Dict.get g d).
Proof.
  induction fuel as [|fuel IH]; intros result d l Hnd Hpos H g.
  - destruct d; [|discriminate]. injection H as <-. cbn. lia.
  - destruct d as [|kv d]; [injection H as <-; cbn; lia|].
    cbn [interleave_loop] in H. rewrite interleave_pass_spec in H by assumption.
    rewrite (IH _ _ _ (decrement_all_NoDup _ Hnd) (decrement_all_positive _ Hpos) H g).
    rewrite count_occ_app, count_occ_keys, get_decrement_all by assumption.
    destruct (Dict.get g (kv :: d)) as [c|] eqn:Hget; [|cbn; lia].
    pose proof (get_positive _ _ _ Hpos Hget) as Hc.
    destruct (Z.eqb_spec (c - 1) 0); cbn; lia.
Qed.

Lemma sum_decrement_all (d : Dict.t Z) :
  Py.sum (map snd (decrement_all d)) + Z.of_nat (length d) = Py.sum (map snd d).
Proof.
  induction d as [|[k c] d IH]; [reflexivity|].
  change (decrement_all ((k, c) :: d))
    with ((if c - 1 =? 0 then [] else [(k, c - 1)]) ++ decrement_all d).
  cbn [map snd length]. rewrite sum_cons.
  destruct (Z.eqb_spec (c - 1) 0); cbn [app map snd]; rewrite ?sum_cons; lia.
Qed.

Lemma interleave_loop_length fuel : forall result d l,
  NoDup (Dict.keys d) ->
  interleave_loop fuel result d = Some l ->
  Z.of_nat (length l) = Z.of_nat (length result) + Py.sum (map snd d).
Proof.
  induction fuel as [|fuel IH]; intros result d l Hnd H.
  - destruct d; [|discriminate]. injection H as <-. cbn. lia.
  - destruct d as [|kv d]; [injection H as <-; cbn; lia|].
    cbn [interleave_loop] in H. rewrite interleave_pass_spec in H by assumption.
    rewrite (IH _ _ _ (decrement_all_NoDup _ Hnd) H).
    rewrite length_app. unfold Dict.keys. rewrite length_map.
    pose proof (sum_decrement_all (kv :: d)). lia.
Qed.

End InterleaveCounts.

Section InterleaveOrder.
Import HostTimeAssigner.

Lemma interleave_loop_extends fuel : forall result d l,
  NoDup (Dict.keys d) ->
  interleave_loop fuel result d = Some l ->
  exists rest, l = result ++ rest.
Proof.
  induction fuel as [|fuel IH]; intros result d l Hnd H.
  - destruct d; [|discriminate]. injection H as <-. exists []. now rewrite app_nil_r.
  - destruct d as [|kv d]; [injection H as <-; exists []; now rewrite app_nil_r|].
    cbn [interleave_loop] in H. rewrite interleave_pass_spec in H by assumption.
    apply IH in H; [|now apply decrement_all_NoDup].
    destruct H as [rest ->]. rewrite <- app_assoc. eauto.
Qed.

Lemma interleave_groups_first_round d l :
  NoDup (Dict.keys d) ->
  _interleave_groups d = Some l ->
  exists rest, l = Dict.keys d ++ rest.
Proof.
  intros Hnd. unfold _interleave_groups.
  destruct (interleave_rounds d) as [|fuel]; destruct d as [|kv d];
    cbn [interleave_loop]; try discriminate.
  - intros [= <-]. now exists [].
  - intros [= <-]. now exists [].
  - rewrite interleave_pass_spec by assumption. intros H.
    apply interleave_loop_extends in H; [|now apply decrement_all_NoDup].
    exact H.
Qed.

End InterleaveOrder.

Lemma interleave_groups_facts (group_counts : Dict.t Z) :
  NoDup (Dict.keys group_counts) ->
  Forall (fun kv => 0 < snd kv) group_counts ->
  forall l,
    HostTimeAssigner._interleave_groups group_counts = Some l ->
    (forall g, Z.of_nat (count_occ string_dec l g)
               = default 0 (Dict.get g group_counts)) /\
    Z.of_nat (length l) = Py.sum (map snd group_counts) /\
    exists rest, l = Dict.keys group_counts ++ rest.
Proof.
  intros Hnd Hpos l Hl. split; [|split].
  - intros g. unfold HostTimeAssigner._interleave_groups in Hl.
    rewrite (interleave_loop_counts _ _ _ _ Hnd Hpos Hl g). cbn. lia.
  - unfold HostTimeAssigner._interleave_groups in Hl.
    rewrite (interleave_loop_length _ _ _ _ Hnd Hl). cbn. lia.
  - now apply interleave_groups_first_round.
Qed.

(** X7 — on group counts that are all positive, [_interleave_groups]
    returns; its list names each group exactly as many times as the group
    counts hosts (and no other name), is as long as the sum of the
    counts, and begins with all the groups in declared order. *)
Theorem X7_interleave_groups_counts (group_counts : Dict.t Z) :
  NoDup (Dict.keys group_counts) ->
  Forall (fun kv => 0 < snd kv) group_counts ->
  exists l,
    HostTimeAssigner._interleave_groups group_counts = Some l /\
    (forall g, Z.of_nat (count_occ string_dec l g)
               = default 0 (Dict.get g group_counts)) /\
    Z.of_nat (length l) = Py.sum (map snd group_counts) /\
    exists rest, l = Dict.keys group_counts ++ rest.
Proof.
  intros Hnd Hpos.
  destruct (interleave_groups_Some _ Hnd Hpos) as [l Hl].
  exists l. split; [exact Hl|]. split; [|split].
  - intros g. unfold HostTimeAssigner._interleave_groups in Hl.
    rewrite (interleave_loop_counts _ _ _ _ Hnd Hpos Hl g). cbn. lia.
  - unfold HostTimeAssigner._interleave_groups in Hl.
    rewrite (interleave_loop_length _ _ _ _ Hnd Hl). cbn. lia.
  - now apply interleave_groups_first_round.
Qed.

Lemma X7_interleave_groups_counts_witness :
  let group_counts := [("control", 3); ("worker_small", 2); ("worker_big", 1)] in
  NoDup (Dict.keys group_counts) /\
  Forall (fun kv => 0 < snd kv) group_counts /\
  exists l,
    HostTimeAssigner._interleave_groups group_counts = Some l /\
    (forall g, Z.of_nat (count_occ string_dec l g)
               = default 0 (Dict.get g group_counts)) /\
    Z.of_nat (length l) = Py.sum (map snd group_counts) /\
    exists rest, l = Dict.keys group_counts ++ rest.
Proof.
  intros group_counts.
  assert (Hnd : NoDup (Dict.keys group_counts)).
  { refine (bool_decide_unpack _ _). vm_compute. exact I. }
  assert (Hpos : Forall (fun kv => 0 < snd kv) group_counts).
  { repeat constructor. }
  split; [exact Hnd|]. split; [exact Hpos|].
  exact (X7_interleave_groups_counts group_counts Hnd Hpos).
Defined.

(** X8 — the counterpart: as soon as one group counts zero or fewer
    hosts, [_interleave_groups] never returns, whatever the other counts:
    the loop deletes a group only when its count reaches exactly zero
    after a decrement. *)
Theorem X8_interleave_groups_diverges (group_counts : Dict.t Z) :
  NoDup (Dict.keys group_counts) ->
  Exists (fun kv => snd kv <= 0) group_counts ->
  HostTimeAssigner._interleave_groups group_counts = None /\
  forall fuel result,
    HostTimeAssigner.interleave_loop fuel result group_counts = None.
Proof.
  intros Hnd Hex. split; [|intros fuel result]; now apply interleave_loop_diverges.
Qed.

Lemma X8_interleave_groups_diverges_witness :
  let group_counts := [("control", 1); ("worker", 0)] in
  NoDup (Dict.keys group_counts) /\
  Exists (fun kv => snd kv <= 0) group_counts /\
  HostTimeAssigner._interleave_groups group_counts = None /\
  forall fuel result,
    HostTimeAssigner.interleave_loop fuel result group_counts = None.
Proof.
  intros group_counts.
  assert (Hnd : NoDup (Dict.keys group_counts)).
  { refine (bool_decide_unpack _ _). vm_compute. exact I. }
  assert (Hex : Exists (fun kv => snd kv <= 0) group_counts).
  { apply Exists_cons_tl, Exists_cons_hd. simpl. lia. }
  split; [exact Hnd|]. split; [exact Hex|].
  exact (X8_interleave_groups_diverges group_counts Hnd Hex).
Defined.

(* ===================================================================== *)
(** * HostTimeAssigner: the queues of slots *)
(* ===================================================================== *)

Section SlotQueues.
Import HostTimeAssigner.

Lemma dict_get_fold_set {V} (f : string -> V) ks : forall (d0 : Dict.t V) g,
  Dict.get g (fold_left (fun d k => Dict.set k (f k) d) ks d0)
  = if bool_decide (g ∈ ks) then Some (f g) else Dict.get g d0.
Proof.
  induction ks as [|k ks IH]; intros d0 g; cbn [fold_left].
  - rewrite bool_decide_eq_false_2 by apply not_elem_of_nil. reflexivity.
  - rewrite IH. destruct (bool_decide_reflect (g ∈ ks)) as [Hin|Hnotin].
    + rewrite bool_decide_eq_true_2 by now right. reflexivity.
    + rewrite dict_get_set. destruct (String.eqb_spec g k) as [->|Hne].
      * rewrite bool_decide_eq_true_2 by left. reflexivity.
      * rewrite bool_decide_eq_false_2; [reflexivity|].
        intros [Heq|Hin]%elem_of_cons; congruence.
Qed.

Lemma dict_get_comprehension {V} (f : string -> V) ks g :
  Dict.get g (Dict.comprehension f ks)
  = if bool_decide (g ∈ ks) then Some (f g) else None.
Proof. unfold Dict.comprehension. now rewrite dict_get_fold_set. Qed.

(** The queue of a group after the slots were dealt: what it had, then
    the slots paired with the group, in order. *)
Lemma fold_append_slot_get pairs : forall (d : Dict.t (list Z)) g l,
  Dict.get g d = Some l ->
  Dict.get g (fold_left append_slot pairs d) = Some (l ++ slots_of g pairs).
Proof.
  induction pairs as [|[slot grp] pairs IH]; intros d g l Hget; cbn [fold_left].
  - unfold slots_of. cbn. now rewrite app_nil_r.
  - unfold slots_of. cbn [List.filter snd].
    destruct (String.eqb_spec grp g) as [->|Hne].
    + rewrite (IH _ g (l ++ [slot])).
      * cbn [map fst]. unfold slots_of. rewrite <- app_assoc. reflexivity.
      * cbn [append_slot]. rewrite dict_get_set, String.eqb_refl, Hget. reflexivity.
    + rewrite (IH _ g l); [reflexivity|].
      cbn [append_slot]. rewrite dict_get_set.
      destruct (String.eqb_spec g grp); [congruence|exact Hget].
Qed.

Lemma slots_of_length g xs : forall ys,
  length xs = length ys ->
  length (slots_of g (zip xs ys)) = count_occ string_dec ys g.
Proof.
  unfold slots_of, zip.
  induction xs as [|x xs IH]; intros [|y ys] Hlen; try discriminate; [reflexivity|].
  cbn [combine List.filter snd count_occ].
  destruct (string_dec y g) as [->|Hne].
  - rewrite String.eqb_refl. cbn [map length]. f_equal. apply IH. now injection Hlen.
  - destruct (String.eqb_spec y g); [congruence|]. apply IH. now injection Hlen.
Qed.

Lemma slots_of_In g pairs t : In t (slots_of g pairs) <-> In (t, g) pairs.
Proof.
  unfold slots_of. rewrite in_map_iff. split.
  - intros ([t' g'] & <- & Hin). apply filter_In in Hin. destruct Hin as [Hin Heq].
    cbn [snd fst] in *. apply String.eqb_eq in Heq. now subst.
  - intros Hin. exists (t, g). split; [reflexivity|]. apply filter_In.
    split; [assumption|]. cbn. apply String.eqb_refl.
Qed.

Lemma slots_of_sorted g pairs :
  StronglySorted Z.lt (map fst pairs) -> StronglySorted Z.lt (slots_of g pairs).
Proof.
  unfold slots_of. induction pairs as [|[t grp] pairs IH]; cbn [map fst List.filter snd];
    intros Hs; [constructor|].
  apply StronglySorted_cons in Hs. destruct Hs as [Hlt Hs].
  destruct (String.eqb grp g); [|now apply IH].
  cbn [map fst]. apply StronglySorted_cons. split; [|now apply IH].
  apply Forall_forall. intros x Hx. rewrite Forall_forall in Hlt. apply Hlt.
  apply list_elem_of_In in Hx. apply list_elem_of_In.
  apply in_map_iff in Hx. destruct Hx as (p & <- & Hp). apply filter_In in Hp.
  apply in_map. tauto.
Qed.

Lemma map_fst_zip {A B} (xs : list A) : forall ys : list B,
  length xs = length ys -> map fst (zip xs ys) = xs.
Proof.
  unfold zip. induction xs as [|x xs IH]; intros [|y ys] Hlen; try discriminate;
    [reflexivity|].
  cbn. f_equal. apply IH. now injection Hlen.
Qed.

Lemma map_StronglySorted (f : Z -> Z) l :
  (forall x y, x < y -> f x < f y) ->
  StronglySorted Z.lt l -> StronglySorted Z.lt (map f l).
Proof.
  intros Hf. induction l as [|x l IH]; cbn [map]; intros Hs; [constructor|].
  apply StronglySorted_cons in Hs. destruct Hs as [Hlt Hs].
  apply StronglySorted_cons. split; [|now apply IH].
  apply Forall_forall. intros y Hy. apply list_elem_of_In, in_map_iff in Hy.
  destruct Hy as (z & <- & Hz). apply Hf. rewrite Forall_forall in Hlt.
  now apply Hlt, list_elem_of_In.
Qed.

Lemma StronglySorted_lt_NoDup l : StronglySorted Z.lt l -> NoDup l.
Proof.
  induction l as [|x l IH]; intros Hs; [constructor|].
  apply StronglySorted_cons in Hs. destruct Hs as [Hlt Hs].
  apply NoDup_cons. split; [|now apply IH].
  intros Hx. rewrite Forall_forall in Hlt. specialize (Hlt x Hx). lia.
Qed.

Lemma all_slots_facts start_time total_minutes total_hosts :
  1 <= total_hosts <= total_minutes ->
  let slots := all_slots start_time total_minutes total_hosts in
  Z.of_nat (length slots) = total_hosts /\
  StronglySorted Z.lt slots /\
  Forall (fun t => start_time <= t <= start_time + total_minutes) slots /\
  exists rest, slots = start_time :: rest.
Proof.
  intros Hrange. unfold all_slots.
  destruct (Z.leb_spec total_hosts 1) as [Hle|Hgt].
  - cbn. repeat split; try lia.
    + repeat constructor.
    + repeat constructor; lia.
    + now exists [].
  - cbv zeta. set (step := total_minutes / (total_hosts - 1)).
    assert (Hstep : 1 <= step).
    { unfold step. apply Z.div_le_lower_bound; lia. }
    assert (Hmax : (total_hosts - 1) * step <= total_minutes).
    { unfold step. apply Z.mul_div_le. lia. }
    unfold Py.range, IP.range. repeat split.
    + rewrite length_map, length_seqZ. lia.
    + apply map_StronglySorted; [intros x y Hxy; nia|apply seqZ_StronglySorted].
    + apply Forall_forall. intros t Ht. apply list_elem_of_In, in_map_iff in Ht.
      destruct Ht as (i & <- & Hi). apply list_elem_of_In, elem_of_seqZ in Hi. nia.
    + rewrite seqZ_cons by lia. cbn [map]. eexists. f_equal. lia.
Qed.

(** What a successful [__init__] has built. *)
Lemma init_Ok_inv groups start_str end_str a :
  init groups start_str end_str = Some (Ok a) ->
  exists start_time end_time round_robin,
    strptime start_str = Some start_time /\
    strptime end_str = Some end_time /\
    start_time < end_time /\
    Py.sum (map snd groups) <> 0 /\
    Py.sum (map snd groups) <= end_time - start_time /\
    _interleave_groups groups = Some round_robin /\
    a = mkHostTimeAssigner start_time end_time groups (Py.sum (map snd groups))
          (fold_left append_slot
             (zip (all_slots start_time (end_time - start_time) (Py.sum (map snd groups)))
                  round_robin)
             (Dict.comprehension (fun _ => []) (Dict.keys groups)))
          (Dict.comprehension (fun _ => 0) (Dict.keys groups)).
Proof.
  unfold init.
  destruct (strptime start_str) as [st|]; [|discriminate].
  destruct (strptime end_str) as [en|]; [|discriminate].
  destruct (Z.leb_spec en st); [discriminate|].
  destruct (Z.eqb_spec (Py.sum (map snd groups)) 0); [discriminate|].
  destruct (Z.ltb_spec (en - st) (Py.sum (map snd groups))); [discriminate|].
  destruct (_interleave_groups groups) as [rr|] eqn:Hrr; [|discriminate].
  intros [= <-]. exists st, en, rr. repeat split; try assumption; try lia.
Qed.

End SlotQueues.

(** X9 — on group counts that are all positive, [HostTimeAssigner]
    is built exactly when both times are well formed, the end is after
    the start, there is at least one group, and the window has at least
    as many minutes as there are hosts; it never fails to return. *)
Theorem X9_assigner_built_iff groups start_str end_str :
  NoDup (Dict.keys groups) ->
  Forall (fun kv => 0 < snd kv) groups ->
  (HostTimeAssigner.init groups start_str end_str <> None) /\
  ((exists a, HostTimeAssigner.init groups start_str end_str = Some (Ok a))
   <-> exists start_time end_time,
         HostTimeAssigner.strptime start_str = Some start_time /\
         HostTimeAssigner.strptime end_str = Some end_time /\
         start_time < end_time /\
         groups <> [] /\
         Py.sum (map snd groups) <= end_time - start_time).
Proof.
  intros Hnd Hpos.
  destruct (interleave_groups_Some _ Hnd Hpos) as [rr Hrr].
  assert (Hsum : groups <> [] -> 0 < Py.sum (map snd groups)).
  { destruct groups as [|[k c] groups]; [congruence|]. intros _.
    inversion Hpos as [|? ? Hc Hrest]; subst. cbn [map snd] in *. rewrite sum_cons.
    clear -Hc Hrest. induction groups as [|[k' c'] groups IH]; [unfold Py.sum; simpl; lia|].
    inversion Hrest; subst. cbn [map snd] in *. rewrite sum_cons. specialize (IH ltac:(assumption)).
    lia. }
  split.
  - unfold HostTimeAssigner.init.
    destruct (HostTimeAssigner.strptime start_str); [|discriminate].
    destruct (HostTimeAssigner.strptime end_str); [|discriminate].
    destruct (_ <=? _); [discriminate|]. destruct (_ =? _); [discriminate|].
    destruct (_ <? _); [discriminate|]. rewrite Hrr. discriminate.
  - split.
    + intros [a Ha]. apply init_Ok_inv in Ha.
      destruct Ha as (st & en & rr' & Hs & He & Hlt & Hne & Hle & _).
      exists st, en. repeat split; try assumption.
      intros ->. apply Hne. reflexivity.
    + intros (st & en & Hs & He & Hlt & Hne & Hle).
      unfold HostTimeAssigner.init. rewrite Hs, He.
      destruct (Z.leb_spec en st); [lia|].
      destruct (Z.eqb_spec (Py.sum (map snd groups)) 0); [specialize (Hsum Hne); lia|].
      destruct (Z.ltb_spec (en - st) (Py.sum (map snd groups))); [lia|].
      rewrite Hrr. eexists. reflexivity.
Qed.

Lemma X9_assigner_built_iff_witness :
  let groups := [("control", 3); ("worker_small", 2); ("worker_big", 1)] in
  NoDup (Dict.keys groups) /\
  Forall (fun kv => 0 < snd kv) groups /\
  HostTimeAssigner.init groups "02:00" "02:05" <> None /\
  HostTimeAssigner.init groups "02:00" "02:05"
  = Some (Err (ValueError (NotEnoughMinutes 6 5))).
Proof.
  intros groups.
  assert (Hnd : NoDup (Dict.keys groups)).
  { refine (bool_decide_unpack _ _). vm_compute. exact I. }
  assert (Hpos : Forall (fun kv => 0 < snd kv) groups) by repeat constructor.
  split; [exact Hnd|]. split; [exact Hpos|].
  split; [|vm_compute; reflexivity].
  exact (proj1 (X9_assigner_built_iff groups "02:00" "02:05" Hnd Hpos)).
Defined.

(** The queues of an assigner built on positive counts. *)
Lemma init_slot_queues groups start_str end_str a :
  NoDup (Dict.keys groups) ->
  Forall (fun kv => 0 < snd kv) groups ->
  HostTimeAssigner.init groups start_str end_str = Some (Ok a) ->
  (forall g c,
     Dict.get g groups = Some c ->
     exists q,
       Dict.get g (_group_slots a) = Some q /\
       Dict.get g (_group_slot_index a) = Some 0 /\
       Z.of_nat (length q) = c /\
       StronglySorted Z.lt q /\
       Forall (fun t => _start_time a <= t <= _end_time a) q) /\
  (forall g1 g2 q1 q2 t,
     Dict.get g1 groups <> None -> Dict.get g2 groups <> None ->
     Dict.get g1 (_group_slots a) = Some q1 ->
     Dict.get g2 (_group_slots a) = Some q2 ->
     In t q1 -> In t q2 -> g1 = g2) /\
  (forall g c rest, groups = (g, c) :: rest ->
     exists q, Dict.get g (_group_slots a) = Some (_start_time a :: q)).
Proof.
  intros Hnd Hpos Hinit. apply init_Ok_inv in Hinit.
  destruct Hinit as (st & en & rr & Hs & He & Hlt & Hne & Hle & Hrr & ->).
  cbn [_group_slots _group_slot_index _start_time _end_time].
  destruct (interleave_groups_facts _ Hnd Hpos rr Hrr) as (Hcount & Hlen & Hfirst).
  set (total := Py.sum (map snd groups)) in *.
  assert (Htotal : 1 <= total <= en - st).
  { split; [|exact Hle]. pose proof (Nat2Z.is_nonneg (length rr)). lia. }
  destruct (all_slots_facts st (en - st) total Htotal) as (Hslen & Hssorted & Hsbound & Hsfirst).
  set (slots := all_slots st (en - st) total) in *.
  assert (Hlens : length slots = length rr) by lia.
  assert (Hkey : forall g, Dict.get g groups <> None ->
            Dict.get g (fold_left HostTimeAssigner.append_slot (HostTimeAssigner.zip slots rr)
                          (Dict.comprehension (fun _ => []) (Dict.keys groups)))
            = Some (slots_of g (HostTimeAssigner.zip slots rr))).
  { intros g Hg. rewrite (fold_append_slot_get _ _ g []); [reflexivity|].
    rewrite dict_get_comprehension, bool_decide_eq_true_2; [reflexivity|].
    apply list_elem_of_In. destruct (Dict.get g groups) as [c|] eqn:Hget; [|congruence].
    eapply dict_get_Some_In, Hget. }
  split; [|split].
  - intros g c Hget. exists (slots_of g (HostTimeAssigner.zip slots rr)).
    assert (Hg : Dict.get g groups <> None) by congruence.
    split; [now apply Hkey|]. split.
    { rewrite dict_get_comprehension, bool_decide_eq_true_2; [reflexivity|].
      apply list_elem_of_In. eapply dict_get_Some_In, Hget. }
    split; [|split].
    + rewrite slots_of_length by exact Hlens. rewrite Hcount, Hget. reflexivity.
    + apply slots_of_sorted. now rewrite map_fst_zip.
    + apply Forall_forall. intros t Ht. apply list_elem_of_In, slots_of_In in Ht.
      assert (Hin : In t (map fst (HostTimeAssigner.zip slots rr))).
      { apply in_map_iff. exists (t, g). auto. }
      rewrite map_fst_zip in Hin by exact Hlens.
      rewrite Forall_forall in Hsbound. apply list_elem_of_In, Hsbound in Hin. lia.
  - intros g1 g2 q1 q2 t Hg1 Hg2 Hq1 Hq2 Ht1 Ht2.
    rewrite Hkey in Hq1, Hq2 by assumption.
    injection Hq1 as <-. injection Hq2 as <-.
    apply slots_of_In in Ht1, Ht2.
    assert (Hnds : NoDup (map fst (HostTimeAssigner.zip slots rr))).
    { rewrite map_fst_zip by exact Hlens. now apply StronglySorted_lt_NoDup. }
    assert (Heq : (t, g1) = (t, g2)).
    { eapply NoDup_map_inj; [exact Hnds|exact Ht1|exact Ht2|reflexivity]. }
    congruence.
  - intros g c rest Hgroups.
    assert (Hg : Dict.get g groups <> None).
    { rewrite Hgroups. cbn. rewrite String.eqb_refl. discriminate. }
    rewrite Hkey by exact Hg.
    destruct Hfirst as [rr' Hrr']. destruct Hsfirst as [slots' Hslots'].
    rewrite Hrr', Hslots', Hgroups. cbn. rewrite String.eqb_refl. cbn. eauto.
Qed.

(** X10 — in an assigner built on positive group counts every group has
    a queue of exactly as many slots as it counts hosts; the slots of a
    queue are strictly ascending minutes of the window, start and end
    included; no minute is in the queues of two groups; the first group
    is given the start of the window. *)
Theorem X10_slot_queues groups start_str end_str a :
  NoDup (Dict.keys groups) ->
  Forall (fun kv => 0 < snd kv) groups ->
  HostTimeAssigner.init groups start_str end_str = Some (Ok a) ->
  (forall g c,
     Dict.get g groups = Some c ->
     exists q,
       Dict.get g (_group_slots a) = Some q /\
       Dict.get g (_group_slot_index a) = Some 0 /\
       Z.of_nat (length q) = c /\
       StronglySorted Z.lt q /\
       Forall (fun t => _start_time a <= t <= _end_time a) q) /\
  (forall g1 g2 q1 q2 t,
     Dict.get g1 groups <> None -> Dict.get g2 groups <> None ->
     Dict.get g1 (_group_slots a) = Some q1 ->
     Dict.get g2 (_group_slots a) = Some q2 ->
     In t q1 -> In t q2 -> g1 = g2) /\
  (forall g c rest, groups = (g, c) :: rest ->
     exists q, Dict.get g (_group_slots a) = Some (_start_time a :: q)).
Proof.
  intros Hnd Hpos Hinit.
  exact (init_slot_queues groups start_str end_str a Hnd Hpos Hinit).
Qed.

Lemma X10_slot_queues_witness :
  let groups := [("control", 3); ("worker_small", 2); ("worker_big", 1)] in
  exists a,
    HostTimeAssigner.init groups "02:00" "03:00" = Some (Ok a) /\
    forall g c,
      Dict.get g groups = Some c ->
      exists q,
        Dict.get g (_group_slots a) = Some q /\
        Dict.get g (_group_slot_index a) = Some 0 /\
        Z.of_nat (length q) = c /\
        StronglySorted Z.lt q /\
        Forall (fun t => _start_time a <= t <= _end_time a) q.
Proof.
  intros groups.
  assert (Hnd : NoDup (Dict.keys groups)).
  { refine (bool_decide_unpack _ _). vm_compute. exact I. }
  assert (Hpos : Forall (fun kv => 0 < snd kv) groups) by repeat constructor.
  eexists. split; [vm_compute; reflexivity|].
  refine (proj1 (X10_slot_queues groups "02:00" "03:00" _ Hnd Hpos _)).
  vm_compute. reflexivity.
Defined.

Section SlotCalls.
Import HostTimeAssigner.

Lemma skipn_nth_error {A} (l : list A) : forall i,
  skipn i l = match nth_error l i with
              | Some x => x :: skipn (S i) l
              | None => []
              end.
Proof.
  induction l as [|x l IH]; intros [|i]; cbn [skipn nth_error]; try reflexivity.
  rewrite IH. destruct (nth_error l i); reflexivity.
Qed.

Lemma take_slots_queue n : forall a g q i,
  Dict.get g (_group_slots a) = Some q ->
  Dict.get g (_group_slot_index a) = Some (Z.of_nat i) ->
  take_slots n g a = map strftime (firstn n (skipn i q)).
Proof.
  induction n as [|n IH]; intros a g q i Hq Hi; cbn [take_slots]; [reflexivity|].
  unfold get_next_slot. rewrite Hq, Hi. cbn [default from_option id].
  rewrite Nat2Z.id, (skipn_nth_error q i).
  destruct (nth_error q i) as [slot|]; [|reflexivity].
  cbn [firstn map]. f_equal.
  apply IH; cbn [_group_slots _group_slot_index]; [exact Hq|].
  rewrite dict_get_set, String.eqb_refl. f_equal. lia.
Qed.

End SlotCalls.

(** X11 — [get_next_slot] walks the queue of its group: successive calls
    answer the slots of the queue in order, from the index of the group
    on, and the call after the last slot raises; a group without a queue
    raises [ValueError]; a call leaves the queues and the indexes of the
    other groups as they were. *)
Theorem X11_get_next_slot_walks_queue a g q i n :
  Dict.get g (_group_slots a) = Some q ->
  Dict.get g (_group_slot_index a) = Some (Z.of_nat i) ->
  take_slots n g a = map HostTimeAssigner.strftime (firstn n (skipn i q)) /\
  ((exists e, HostTimeAssigner.get_next_slot g a = Err e) <-> (length q <= i)%nat) /\
  (forall e, HostTimeAssigner.get_next_slot g a = Err e ->
             e = ValueError (AllSlotsAssigned g)) /\
  (forall g', Dict.get g' (_group_slots a) = None ->
              HostTimeAssigner.get_next_slot g' a = Err (ValueError (UnknownGroup g'))) /\
  (forall slot a',
     HostTimeAssigner.get_next_slot g a = Ok (slot, a') ->
     _group_slots a' = _group_slots a /\
     Dict.get g (_group_slot_index a') = Some (Z.of_nat (S i)) /\
     forall g', g' <> g ->
       Dict.get g' (_group_slot_index a') = Dict.get g' (_group_slot_index a)).
Proof.
  intros Hq Hi. split; [now apply take_slots_queue|].
  unfold HostTimeAssigner.get_next_slot. rewrite Hq, Hi.
  cbn [default from_option id]. rewrite Nat2Z.id.
  split; [|split; [|split]].
  - destruct (nth_error q i) as [slot|] eqn:Hnth.
    + split; [intros [e He]; discriminate|].
      intros Hlen. apply nth_error_None in Hlen. congruence.
    + split; [|intros _; eexists; reflexivity].
      intros _. now apply nth_error_None.
  - intros e. destruct (nth_error q i); [discriminate|now intros [= <-]].
  - intros g' Hg'. now rewrite Hg'.
  - intros slot a'. destruct (nth_error q i) as [s|]; [|discriminate].
    intros [= _ <-]. cbn [_group_slots _group_slot_index]. split; [reflexivity|].
    split.
    + rewrite dict_get_set, String.eqb_refl. f_equal. lia.
    + intros g' Hne. rewrite dict_get_set.
      destruct (String.eqb_spec g' g); [congruence|reflexivity].
Qed.

Lemma X11_get_next_slot_walks_queue_witness :
  exists a,
    HostTimeAssigner.init [("control", 3); ("worker_small", 2)] "02:00" "03:00"
    = Some (Ok a) /\
    take_slots 4 "control" a
    = map HostTimeAssigner.strftime (firstn 4 (skipn 0 [120; 150; 180])) /\
    take_slots 4 "control" a = ["02:00"; "02:30"; "03:00"].
Proof.
  eexists. split; [vm_compute; reflexivity|].
  split; [|vm_compute; reflexivity].
  refine (proj1 (X11_get_next_slot_walks_queue _ "control" [120; 150; 180] 0 4 _ _));
    vm_compute; reflexivity.
Defined.

Section TimeText.
Import HostTimeAssigner.

Lemma two_digits_text v :
  0 <= v < 60 ->
  Str.has_char ":" (Str.two_digits v) = false /\
  time_field 59 (Str.two_digits v) = Some v /\
  (v < 24 -> time_field 23 (Str.two_digits v) = Some v).
Proof.
  intros Hv.
  assert (Hcheck : forallb (fun v =>
             negb (Str.has_char ":" (Str.two_digits v)) &&
             bool_decide (time_field 59 (Str.two_digits v) = Some v) &&
             ((23 <? v) || bool_decide (time_field 23 (Str.two_digits v) = Some v)))
           (seqZ 0 60) = true) by (vm_compute; reflexivity).
  rewrite forallb_forall in Hcheck.
  assert (Hin : In v (seqZ 0 60)) by (apply list_elem_of_In, elem_of_seqZ; lia).
  apply Hcheck in Hin. apply andb_true_iff in Hin. destruct Hin as [Hin H3].
  apply andb_true_iff in Hin. destruct Hin as [H1 H2].
  apply negb_true_iff in H1. apply bool_decide_eq_true in H2.
  split; [exact H1|]. split; [exact H2|]. intros Hlt.
  apply orb_true_iff in H3. destruct H3 as [H3|H3].
  - apply Z.ltb_lt in H3. lia.
  - now apply bool_decide_eq_true in H3.
Qed.

End TimeText.

(** The time format reads back what it has written. *)
Lemma strptime_strftime t :
  0 <= t < 1440 ->
  HostTimeAssigner.strptime (HostTimeAssigner.strftime t) = Some t.
Proof.
  intros Ht. unfold HostTimeAssigner.strptime, HostTimeAssigner.strftime.
  assert (Hh : (t / 60) mod 24 = t / 60).
  { apply Z.mod_small. split; [apply Z.div_pos; lia|].
    apply Z.div_lt_upper_bound; lia. }
  rewrite Hh.
  assert (Hhr : 0 <= t / 60 < 24).
  { split; [apply Z.div_pos; lia|apply Z.div_lt_upper_bound; lia]. }
  destruct (two_digits_text (t / 60)) as (D1 & _ & P1); [lia|].
  destruct (two_digits_text (t mod 60)) as (D2 & P2 & _); [apply Z.mod_pos_bound; lia|].
  assert (Hcolon : forall r, ":" +:+ r = String ":" r) by reflexivity.
  rewrite Hcolon, split_app, split_no_sep by assumption.
  rewrite P1, P2 by lia. f_equal.
  pose proof (Z.div_mod t 60). lia.
Qed.

(** X12 — the text [get_next_slot] and [get_all_slots] give for a minute
    of the day is read back by the time format of [__init__] as that
    minute: every slot an assigner answers is a valid start or end time. *)
Theorem X12_slot_text_reads_back t :
  0 <= t < 1440 ->
  HostTimeAssigner.strptime (HostTimeAssigner.strftime t) = Some t.
Proof. intros Ht. exact (strptime_strftime t Ht). Qed.

Lemma X12_slot_text_reads_back_witness :
  0 <= 156 < 1440 /\
  HostTimeAssigner.strftime 156 = "02:36" /\
  HostTimeAssigner.strptime (HostTimeAssigner.strftime 156) = Some 156.
Proof.
  split; [lia|]. split; [reflexivity|].
  apply X12_slot_text_reads_back. lia.
Defined.

Section StructureFacts.
Import InventoryModule.

Lemma check_group_Ok_inv config hc hw cc group vars :
  check_group config (hc, hw, cc) group = Ok vars ->
  group_well_formed config group /\
  exists cc',
    vars = (hc || truthy_bool (_get_group_config config group g_is_control),
            hw || truthy_bool (_get_group_config config group g_is_worker), cc').
Proof.
  unfold check_group, group_well_formed.
  destruct (truthy_bool (_get_group_config config group g_is_control)) eqn:Hc;
    destruct (truthy_bool (_get_group_config config group g_is_worker)) eqn:Hw;
    cbn [orb negb]; try discriminate;
    destruct (truthy_str (_get_group_config config group g_type)); cbn [negb];
    try discriminate;
    destruct (_get_group_config config group g_num); try discriminate;
    intros [= <-]; rewrite ?orb_true_r, ?orb_false_r;
    (split; [split; [auto|split; [reflexivity|discriminate]]|eexists; reflexivity]).
Qed.

Lemma check_group_Ok config hc hw cc group :
  group_well_formed config group ->
  exists cc',
    check_group config (hc, hw, cc) group
    = Ok (hc || truthy_bool (_get_group_config config group g_is_control),
          hw || truthy_bool (_get_group_config config group g_is_worker), cc').
Proof.
  unfold check_group, group_well_formed. intros (Hrole & Htype & Hnum).
  rewrite Htype. cbn [negb].
  destruct (_get_group_config config group g_num) as [num|]; [|congruence].
  destruct (truthy_bool (_get_group_config config group g_is_control)) eqn:Hc;
    destruct (truthy_bool (_get_group_config config group g_is_worker)) eqn:Hw;
    cbn [orb negb]; rewrite ?orb_true_r, ?orb_false_r;
    try (eexists; reflexivity).
  destruct Hrole; discriminate.
Qed.

Lemma check_group_Err config vars group e :
  check_group config vars group = Err e -> exists m, e = AnsibleError m.
Proof.
  destruct vars as [[hc hw] cc]. unfold check_group.
  repeat match goal with
         | |- context [if ?b then _ else _] => destruct b
         | |- context [match ?o with Some _ => _ | None => _ end] => destruct o
         end; intros [= <-] || discriminate; eexists; reflexivity.
Qed.

Lemma check_groups_Ok_inv config groups : forall hc hw cc hc' hw' cc',
  fold_result (check_group config) groups (hc, hw, cc) = Ok (hc', hw', cc') ->
  Forall (group_well_formed config) groups /\
  hc' = hc || existsb (fun g => truthy_bool (_get_group_config config g g_is_control)) groups /\
  hw' = hw || existsb (fun g => truthy_bool (_get_group_config config g g_is_worker)) groups.
Proof.
  induction groups as [|group groups IH]; cbn [fold_result existsb];
    intros hc hw cc hc' hw' cc' H.
  - injection H as <- <- <-. rewrite !orb_false_r. auto.
  - change (fold_result (check_group config) (group :: groups) (hc, hw, cc))
      with (check_group config (hc, hw, cc) group ≫=
            fold_result (check_group config) groups) in H.
    destruct (check_group config (hc, hw, cc) group) as [vars|e] eqn:Hg; [|discriminate].
    apply check_group_Ok_inv in Hg. destruct Hg as (Hwf & cc1 & ->).
    cbn [mbind result_bind] in H. apply IH in H. destruct H as (Hall & -> & ->).
    split; [now constructor|]. rewrite !orb_assoc. auto.
Qed.

Lemma check_groups_Ok config groups : forall hc hw cc,
  Forall (group_well_formed config) groups ->
  exists cc',
    fold_result (check_group config) groups (hc, hw, cc)
    = Ok (hc || existsb (fun g => truthy_bool (_get_group_config config g g_is_control)) groups,
          hw || existsb (fun g => truthy_bool (_get_group_config config g g_is_worker)) groups,
          cc').
Proof.
  induction groups as [|group groups IH]; intros hc hw cc Hall.
  - exists cc. cbn [fold_result existsb]. now rewrite !orb_false_r.
  - apply Forall_cons in Hall. destruct Hall as [Hwf Hall].
    destruct (check_group_Ok config hc hw cc group Hwf) as [cc1 Hg].
    change (fold_result (check_group config) (group :: groups) (hc, hw, cc))
      with (check_group config (hc, hw, cc) group ≫=
            fold_result (check_group config) groups).
    rewrite Hg. cbn [mbind result_bind existsb].
    destruct (IH (hc || truthy_bool (_get_group_config config group g_is_control))
                 (hw || truthy_bool (_get_group_config config group g_is_worker))
                 cc1 Hall) as [cc' ->].
    exists cc'. now rewrite !orb_assoc.
Qed.

Lemma check_groups_Err config groups : forall vars e,
  fold_result (check_group config) groups vars = Err e -> exists m, e = AnsibleError m.
Proof.
  induction groups as [|group groups IH]; intros vars e; [discriminate|].
  change (fold_result (check_group config) (group :: groups) vars)
    with (check_group config vars group ≫= fold_result (check_group config) groups).
  destruct (check_group config vars group) as [vars'|e'] eqn:Hg.
  - cbn [mbind result_bind]. apply IH.
  - cbn [mbind result_bind]. intros [= <-]. eapply check_group_Err, Hg.
Qed.

Lemma check_volume_Ok v : check_volume v = Ok tt <-> volume_well_formed v.
Proof.
  unfold check_volume, volume_well_formed.
  destruct (String.eqb_spec (v_name v) ""), (String.eqb_spec (v_size v) "");
    split; try discriminate; try tauto; intros []; congruence.
Qed.

Lemma check_volumes_Ok vs :
  for_result vs check_volume = Ok tt <-> Forall volume_well_formed vs.
Proof.
  induction vs as [|v vs IH]; cbn [for_result]; [split; auto|].
  change (check_volume v ;; for_result vs check_volume)
    with (check_volume v ≫= fun _ => for_result vs check_volume).
  rewrite Forall_cons, <- IH, <- check_volume_Ok.
  destruct (check_volume v) as [[]|e]; cbn [mbind result_bind]; split; auto.
  - intros [_ H]. exact H.
  - discriminate.
  - intros [H _]. discriminate.
Qed.

Lemma check_volumes_Err vs e :
  for_result vs check_volume = Err e -> exists m, e = AnsibleError m.
Proof.
  intros H. apply for_result_Err in H. destruct H as (v & _ & H).
  unfold check_volume in H.
  destruct (String.eqb (v_name v) ""); [injection H as <-; eexists; reflexivity|].
  destruct (String.eqb (v_size v) ""); [injection H as <-; eexists; reflexivity|].
  discriminate.
Qed.

Lemma existsb_Exists {A} (f : A -> bool) l :
  existsb f l = true <-> Exists (fun x => f x = true) l.
Proof.
  rewrite existsb_exists, Exists_exists. split; intros (x & Hin & Hx); exists x.
  - split; [now apply list_elem_of_In|assumption].
  - split; [now apply list_elem_of_In|assumption].
Qed.

End StructureFacts.

(** What the typed [_validate_config_structure] lets pass, and what it
    raises. *)
Lemma structure_accepted config :
  (InventoryModule._validate_config_structure config = Ok tt <->
   nodes config <> [] /\
   InventoryModule.truthy_str (hetzner_token_cloud config) = true /\
   InventoryModule.truthy_str (unattended_upgrades_start_time config) = true /\
   InventoryModule.truthy_str (unattended_upgrades_end_time config) = true /\
   Forall (group_well_formed config) (Dict.keys (nodes config)) /\
   Exists (fun g => InventoryModule.truthy_bool
                      (InventoryModule._get_group_config config g g_is_control) = true)
          (Dict.keys (nodes config)) /\
   Exists (fun g => InventoryModule.truthy_bool
                      (InventoryModule._get_group_config config g g_is_worker) = true)
          (Dict.keys (nodes config)) /\
   control_count config <> 2 /\
   Forall volume_well_formed (volumes config)) /\
  (forall e, InventoryModule._validate_config_structure config = Err e ->
             exists m, e = AnsibleError m).
Proof.
  split.
  - split.
    + intros H. unfold InventoryModule._validate_config_structure in H.
      destruct (InventoryModule.checks_before_quorum config) as [cc|e] eqn:Hq;
        [|discriminate].
      pose proof (checks_before_quorum_count _ _ Hq) as ->.
      cbn [mbind result_bind] in H.
      destruct (Z.eqb_spec (control_count config) 2) as [|Hne]; [discriminate|].
      apply check_volumes_Ok in H.
      unfold InventoryModule.checks_before_quorum in Hq.
      destruct (nodes config) as [|kv rest] eqn:Hnodes; [discriminate|].
      rewrite <- Hnodes in *.
      destruct (InventoryModule.truthy_str (hetzner_token_cloud config));
        [|discriminate].
      destruct (InventoryModule.truthy_str (unattended_upgrades_start_time config));
        [|discriminate].
      destruct (InventoryModule.truthy_str (unattended_upgrades_end_time config));
        [|discriminate].
      cbn [negb orb] in Hq.
      destruct (fold_result _ _ _) as [[[hc hw] cc]|e] eqn:Hfold; [|discriminate].
      apply check_groups_Ok_inv in Hfold. destruct Hfold as (Hall & Hc & Hw).
      cbn [mbind result_bind] in Hq.
      destruct hc; [|discriminate]. destruct hw; [|discriminate].
      cbn [orb] in Hc, Hw. symmetry in Hc, Hw.
      apply existsb_Exists in Hc, Hw.
      repeat split; try assumption. rewrite Hnodes. discriminate.
    + intros (Hnodes & Htok & Hs & He & Hall & Hc & Hw & Hcount & Hvols).
      apply existsb_Exists in Hc, Hw.
      destruct (check_groups_Ok config _ false false 0 Hall) as [cc Hfold].
      rewrite Hc, Hw in Hfold. cbn [orb] in Hfold.
      assert (Hq : InventoryModule.checks_before_quorum config = Ok cc).
      { unfold InventoryModule.checks_before_quorum.
        destruct (nodes config) as [|kv rest] eqn:E; [congruence|].
        rewrite Htok, Hs, He. cbn [negb orb]. rewrite Hfold. reflexivity. }
      unfold InventoryModule._validate_config_structure. rewrite Hq.
      apply checks_before_quorum_count in Hq. subst cc.
      cbn [mbind result_bind].
      destruct (Z.eqb_spec (control_count config) 2); [congruence|].
      now apply check_volumes_Ok.
  - intros e H. unfold InventoryModule._validate_config_structure in H.
    destruct (InventoryModule.checks_before_quorum config) as [cc|e'] eqn:Hq.
    + cbn [mbind result_bind] in H.
      destruct (cc =? 2); [injection H as <-; eexists; reflexivity|].
      eapply check_volumes_Err, H.
    + cbn [mbind result_bind] in H. injection H as <-.
      unfold InventoryModule.checks_before_quorum in Hq.
      destruct (nodes config); [injection Hq as <-; eexists; reflexivity|].
      destruct (negb _); [injection Hq as <-; eexists; reflexivity|].
      destruct (_ || _); [injection Hq as <-; eexists; reflexivity|].
      destruct (fold_result _ _ _) as [[[hc hw] cc]|e1] eqn:Hfold.
      * cbn [mbind result_bind] in Hq.
        destruct hc; cbn [negb] in Hq; [|injection Hq as <-; eexists; reflexivity].
        destruct hw; cbn [negb] in Hq; [discriminate|].
        injection Hq as <-; eexists; reflexivity.
      * cbn [mbind result_bind] in Hq. injection Hq as <-.
        eapply check_groups_Err, Hfold.
Qed.

Section SearchFacts.
Import InventoryModule.

Lemma search_cons server servers name server_type image is_control is_worker :
  (fits name server_type image is_control is_worker server /\
   _search_fitting_server (server :: servers) name server_type image is_control is_worker
   = Some server) \/
  (~ fits name server_type image is_control is_worker server /\
   _search_fitting_server (server :: servers) name server_type image is_control is_worker
   = _search_fitting_server servers name server_type image is_control is_worker).
Proof.
  cbn [_search_fitting_server]. unfold fits.
  destruct (String.eqb_spec (server_name server) name) as [Hn|Hn];
    [|right; split; [tauto|reflexivity]].
  destruct (decide (server_labels server !! "image" = Some image)) as [Hi|Hi];
    [rewrite (bool_decide_eq_true_2 _ Hi)
    |rewrite (bool_decide_eq_false_2 _ Hi); right; split; [tauto|reflexivity]].
  destruct (decide (server_labels server !! "server_type" = Some server_type)) as [Ht|Ht];
    [rewrite (bool_decide_eq_true_2 _ Ht)
    |rewrite (bool_decide_eq_false_2 _ Ht); right; split; [tauto|reflexivity]].
  cbn [andb].
  destruct (decide (server_labels server !! "is_control" = Some "true")) as [Hc|Hc];
    [rewrite (bool_decide_eq_true_2 _ Hc)|rewrite (bool_decide_eq_false_2 _ Hc)];
    (destruct is_control; cbn [andb negb];
     [|try (right; split; [intros (_&_&_&H&_); specialize (H Hc); discriminate
                          |reflexivity])]);
    (destruct (decide (server_labels server !! "is_worker" = Some "true")) as [Hw|Hw];
     [rewrite (bool_decide_eq_true_2 _ Hw)|rewrite (bool_decide_eq_false_2 _ Hw)];
     (destruct is_worker; cbn [andb negb];
      [|try (right; split; [intros (_&_&_&_&H&_); specialize (H Hw); discriminate
                           |reflexivity])]));
    (destruct (server_labels server !! "internal_ip") as [ip|] eqn:Hip; cbn [truthy_str];
     [destruct (String.eqb_spec ip "") as [->|Hne]; cbn [negb];
      [right; split; [intros (_&_&_&_&_&ip'&[= <-]&H); now apply H|reflexivity]
      |left; split; [|reflexivity];
       repeat split; try assumption; try reflexivity; try congruence;
       exists ip; split; [reflexivity|assumption]]
     |right; split; [intros (_&_&_&_&_&ip'&[=]&_)|reflexivity]]).
Qed.

Lemma search_first_fit servers name server_type image is_control is_worker :
  match _search_fitting_server servers name server_type image is_control is_worker with
  | Some s =>
      exists before after,
        servers = before ++ s :: after /\
        Forall (fun s' => ~ fits name server_type image is_control is_worker s') before /\
        fits name server_type image is_control is_worker s
  | None =>
      Forall (fun s' => ~ fits name server_type image is_control is_worker s') servers
  end.
Proof.
  induction servers as [|server servers IH]; [constructor|].
  destruct (search_cons server servers name server_type image is_control is_worker)
    as [[Hfit ->]|[Hfit ->]].
  - exists [], servers. auto.
  - destruct (_search_fitting_server servers _ _ _ _ _) as [s|].
    + destruct IH as (before & after & -> & Hb & Hs).
      exists (server :: before), after. auto.
    + now constructor.
Qed.

End SearchFacts.

(** X14 — [_search_fitting_server] answers the first server of the
    snapshot that fits: it bears the name, its image and type labels are
    the ones asked for, it is not labelled with a role the group does not
    have, and its [internal_ip] label is not empty.  It answers [None]
    exactly when no server of the snapshot fits. *)
Theorem X14_search_first_fit servers name server_type image is_control is_worker :
  (forall s,
     InventoryModule._search_fitting_server servers name server_type image
       is_control is_worker = Some s <->
     exists before after,
       servers = before ++ s :: after /\
       Forall (fun s' => ~ fits name server_type image is_control is_worker s') before /\
       fits name server_type image is_control is_worker s) /\
  (InventoryModule._search_fitting_server servers name server_type image
     is_control is_worker = None <->
   Forall (fun s' => ~ fits name server_type image is_control is_worker s') servers).
Proof.
  pose proof (search_first_fit servers name server_type image is_control is_worker) as H.
  assert (Hfirst : forall s1 s2 b1 a1 b2 a2,
             b1 ++ s1 :: a1 = b2 ++ s2 :: (a2 : list Server) ->
             Forall (fun s' => ~ fits name server_type image is_control is_worker s') b1 ->
             Forall (fun s' => ~ fits name server_type image is_control is_worker s') b2 ->
             fits name server_type image is_control is_worker s1 ->
             fits name server_type image is_control is_worker s2 -> s1 = s2).
  { intros s1 s2 b1. induction b1 as [|x b1 IH]; intros a1 b2 a2 E F1 F2 H1 H2.
    - destruct b2 as [|y b2]; [now injection E|].
      injection E as <- _. apply Forall_cons in F2. tauto.
    - destruct b2 as [|y b2].
      + injection E as -> _. apply Forall_cons in F1. tauto.
      + injection E as _ E. apply Forall_cons in F1, F2.
        eapply IH; [exact E|tauto|tauto|assumption|assumption]. }
  split.
  - intros s. split.
    + intros E. rewrite E in H. exact H.
    + intros (b & a & E & Hb & Hs).
      destruct (InventoryModule._search_fitting_server servers _ _ _ _ _) as [s0|].
      * destruct H as (b0 & a0 & E0 & Hb0 & Hs0). f_equal.
        rewrite E in E0. symmetry. eapply Hfirst; eassumption.
      * exfalso. rewrite E in H. apply Forall_app in H. destruct H as [_ H].
        apply Forall_cons in H. tauto.
  - split.
    + intros E. now rewrite E in H.
    + intros Hall.
      destruct (InventoryModule._search_fitting_server servers _ _ _ _ _) as [s0|];
        [|reflexivity].
      destruct H as (b0 & a0 & -> & _ & Hs0).
      apply Forall_app in Hall. destruct Hall as [_ Hall].
      apply Forall_cons in Hall. tauto.
Qed.


Section Keeping.
Context {B : Type} (proj : Plugin -> B).

Lemma keeps_ret {A} (a : A) : keeps proj (mret a).
Proof. intros p a' p' [= _ <-]. reflexivity. Qed.

Lemma keeps_raise {A} e : keeps proj (@raise A e).
Proof. intros p a p' [=]. Qed.

Lemma keeps_hangs {A} : keeps proj (fun _ : Plugin => @Hangs A).
Proof. intros p a p' [=]. Qed.

Lemma keeps_lift {A} (r : result A) : keeps proj (lift r).
Proof. destruct r; [apply keeps_ret|apply keeps_raise]. Qed.

Lemma keeps_get : keeps proj get.
Proof. intros p a p' [= _ <-]. reflexivity. Qed.

Lemma keeps_bind {A C} (m : M A) (f : A -> M C) :
  keeps proj m -> (forall a, keeps proj (f a)) -> keeps proj (m ≫= f).
Proof.
  intros Hm Hf p b p' H. apply bind_Done_inv in H. destruct H as (a & p1 & H1 & H2).
  rewrite (Hf _ _ _ _ H2). eapply Hm, H1.
Qed.

Lemma keeps_for {A} (xs : list A) (body : A -> M unit) :
  (forall x, keeps proj (body x)) -> keeps proj (for_ xs body).
Proof.
  intros Hbody. induction xs as [|x xs IH]; cbn [for_]; [apply keeps_ret|].
  apply keeps_bind; [apply Hbody|intros _; exact IH].
Qed.

Lemma keeps_fold_M {A S} (body : S -> A -> M S) (xs : list A) :
  (forall s x, keeps proj (body s x)) -> forall s, keeps proj (fold_M body xs s).
Proof.
  intros Hbody. induction xs as [|x xs IH]; intros s; cbn [fold_M]; [apply keeps_ret|].
  apply keeps_bind; [apply Hbody|intros s'; apply IH].
Qed.

End Keeping.

Create HintDb keeps.

(** A primitive keeps what it does not assign. *)
Ltac keeps_primitive :=
  unfold keeps, registered; intros ? ? ? [= _ <-];
  cbn [_hetzner_servers_configured _hetzner_volumes_configured _hcloud_servers
       _hcloud_volumes _inventory _host_time_assigner _network_manager];
  rewrite ?host_records_app; simpl; rewrite ?app_nil_r; reflexivity.

#[global] Hint Extern 1 (keeps _ (emit _)) => keeps_primitive : keeps.
#[global] Hint Extern 1 (keeps _ (set_host_time_assigner _)) => keeps_primitive : keeps.
#[global] Hint Extern 1 (keeps _ (set_network_manager _)) => keeps_primitive : keeps.
#[global] Hint Extern 1 (keeps _ (append_server_configured _)) => keeps_primitive : keeps.
#[global] Hint Extern 1 (keeps _ (append_volume_configured _)) => keeps_primitive : keeps.

Ltac keeping :=
  repeat (lazy beta;
    match goal with
    | |- keeps _ (mbind _ _) => apply keeps_bind; [|intros ?]
    | |- keeps _ (mret _) => apply keeps_ret
    | |- keeps _ (raise _) => apply keeps_raise
    | |- keeps _ (lift _) => apply keeps_lift
    | |- keeps _ get => apply keeps_get
    | |- keeps _ (for_ _ _) => apply keeps_for; intros ?
    | |- keeps _ (fold_M _ _ _) => apply keeps_fold_M; intros ? ?
    | |- keeps _ (fun _ => Hangs) => apply keeps_hangs
    | |- keeps _ (match ?x with _ => _ end) => destruct x
    | |- keeps _ _ => solve [auto with keeps]
    end).

Section Registered.
Import InventoryModule.

Lemma keeps_registered_volume_plan hostname v : keeps registered (volume_plan hostname v).
Proof. unfold volume_plan. keeping. Qed.

Lemma keeps_registered_reserve_existing server :
  keeps registered (reserve_existing server).
Proof. unfold reserve_existing. keeping. Qed.

Lemma keeps_registered_init_host_time_assigner config :
  keeps registered (_init_host_time_assigner config).
Proof. unfold _init_host_time_assigner. keeping. Qed.

Lemma keeps_registered_set_orphan_volumes :
  keeps registered _set_orphan_volumes_for_cleanup.
Proof. unfold _set_orphan_volumes_for_cleanup. keeping. Qed.

End Registered.

#[global] Hint Resolve keeps_registered_volume_plan : keeps.

Section RegisteredHosts.
Import InventoryModule.

Lemma emit_registered c p a p' :
  emit c p = Done a p' -> registered p' = registered p ++ host_records [c].
Proof. intros [= _ <-]. unfold registered. simpl. apply host_records_app. Qed.

Ltac step_emit H :=
  let Hm := fresh "Hm" in
  apply bind_Done_inv in H; destruct H as ([] & ? & Hm & H);
  apply emit_registered in Hm; cbn in Hm; rewrite app_nil_r in Hm.

(** [_add_host] registers its host, once. *)
Lemma add_host_registered config group host lm server_type image is_control is_worker
    p lm' p' :
  _add_host config group host lm server_type image is_control is_worker p = Done lm' p' ->
  registered p' = registered p ++ [(hostname group host, group)].
Proof.
  unfold _add_host. intros H.
  apply bind_Done_inv in H. destruct H as (p0 & p1 & Hget & H).
  injection Hget as <- <-.
  apply bind_Done_inv in H. destruct H as ([location lm1] & p2 & Hblock & H).
  match type of Hblock with ?m _ = _ => assert (Hk : keeps registered m) by keeping end.
  apply Hk in Hblock. clear Hk.
  apply bind_Done_inv in H. destruct H as (p3 & p3' & Hget & H).
  injection Hget as <- <-.
  apply bind_Done_inv in H. destruct H as (internal_ip & p4 & Hip & H).
  match type of Hip with ?m _ = _ => assert (Hk : keeps registered m) by keeping end.
  apply Hk in Hip. clear Hk.
  apply bind_Done_inv in H. destruct H as ([] & p5 & Hadd & H).
  apply emit_registered in Hadd. cbn in Hadd.
  match type of H with ?m _ = _ => assert (Hk : keeps registered m) by keeping end.
  apply Hk in H. congruence.
Qed.

Lemma add_hosts_registered config group server_type image is_control is_worker hosts :
  forall lm p lm' p',
  fold_M (fun location_manager host =>
            _add_host config group host location_manager server_type image
                      is_control is_worker) hosts lm p = Done lm' p' ->
  registered p' = registered p ++ map (fun host => (hostname group host, group)) hosts.
Proof.
  induction hosts as [|host hosts IH]; cbn [fold_M map]; intros lm p lm' p' H.
  - injection H as _ <-. now rewrite app_nil_r.
  - apply bind_Done_inv in H. destruct H as (lm1 & p1 & Hadd & H).
    apply add_host_registered in Hadd. apply IH in H.
    rewrite H, Hadd, <- app_assoc. reflexivity.
Qed.

Lemma prepare_group_registered config group p p' :
  _prepare_group config group p = Done tt p' ->
  registered p' = registered p ++
    map (fun h => (desired_hostname h, fst h))
        (map (pair group)
             (Py.range 1 (default 0 (_get_group_config config group g_num) + 1))).
Proof.
  unfold _prepare_group. intros H.
  do 3 step_emit H.
  destruct (_get_group_config config group g_type) as [server_type|]; [|discriminate].
  destruct (String.eqb server_type ""); [discriminate|].
  step_emit H.
  destruct (String.eqb (default "debian-12" (_get_group_config config group g_image)) "");
    [discriminate|].
  step_emit H.
  destruct (_get_group_config config group g_num) as [num_hosts|]; [|discriminate].
  apply bind_Done_inv in H. destruct H as (lm & p6 & Hfold & H).
  injection H as <-. apply add_hosts_registered in Hfold.
  rewrite Hfold, map_map. cbn [default]. unfold desired_hostname. cbn [fst snd].
  f_equal. congruence.
Qed.

Lemma prepare_groups_registered config groups : forall p p',
  for_ groups (_prepare_group config) p = Done tt p' ->
  registered p' = registered p ++
    map (fun h => (desired_hostname h, fst h))
        (flat_map
           (fun group =>
              map (pair group)
                  (Py.range 1 (default 0 (_get_group_config config group g_num) + 1)))
           groups).
Proof.
  induction groups as [|group groups IH]; cbn [for_ flat_map]; intros p p' H.
  - injection H as <-. now rewrite app_nil_r.
  - apply bind_Done_inv in H. destruct H as ([] & p1 & Hgroup & H).
    apply prepare_group_registered in Hgroup. apply IH in H.
    rewrite H, Hgroup, map_app, <- app_assoc. reflexivity.
Qed.

Lemma unmanaged_calls_records servers :
  host_records (flat_map unmanaged_calls servers)
  = map (fun s => (unmanaged_name s, "unmanaged")) servers.
Proof.
  induction servers as [|s servers IH]; [reflexivity|].
  cbn [flat_map map]. rewrite host_records_app, IH. f_equal.
  unfold unmanaged_calls, unmanaged_name.
  destruct (_get_current_ip s); reflexivity.
Qed.

Lemma prefix_append s t : String.prefix s (s +:+ t) = true.
Proof.
  induction s as [|a s IH]; [destruct t; reflexivity|].
  simpl. destruct (ascii_dec a a); [exact IH|congruence].
Qed.

Lemma unmanaged_name_prefix server :
  Str.startswith "remove-" (unmanaged_name server) = true.
Proof.
  unfold unmanaged_name.
  destruct (Str.startswith "remove-" (server_name server)) eqn:E; cbn [negb];
    [exact E|].
  apply prefix_append.
Qed.

(** The hosts a complete [_initialize_inventory] has registered. *)
Lemma initialize_inventory_registered config p p' :
  _initialize_inventory config p = Done tt p' ->
  registered p'
  = registered p ++
    map (fun h => (desired_hostname h, fst h)) (desired_hosts config) ++
    map (fun s => (unmanaged_name s, "unmanaged")) (unmanaged_report p').
Proof.
  intros H. pose proof (initialize_inventory_claims _ _ _ H) as (Hs & Hc & _).
  unfold _initialize_inventory in H.
  do 4 step_emit H.
  apply bind_Done_inv in H; destruct H as ([] & ? & Ha & H).
  apply keeps_registered_init_host_time_assigner in Ha.
  apply bind_Done_inv in H; destruct H as (nm & ? & Hn & H).
  apply (keeps_lift registered) in Hn.
  apply bind_Done_inv in H; destruct H as ([] & ? & Hsn & H).
  assert (Hk : keeps registered (set_network_manager nm)) by auto with keeps.
  apply Hk in Hsn. clear Hk.
  apply bind_Done_inv in H. destruct H as (p0 & p0' & Hget & H).
  injection Hget as <- <-.
  apply bind_Done_inv in H. destruct H as ([] & qr & Hres & H).
  apply (keeps_for registered _ _ keeps_registered_reserve_existing) in Hres.
  apply bind_Done_inv in H. destruct H as ([] & q1 & Hgroups & H).
  apply prepare_groups_registered in Hgroups.
  apply bind_Done_inv in H. destruct H as ([] & q2 & Horphan & H).
  pose proof (preserves_set_orphan_volumes _ _ _ Horphan) as [Hso Hco].
  apply keeps_registered_set_orphan_volumes in Horphan.
  apply bind_Done_inv in H. destruct H as ([] & q3 & Hclean & H).
  pose proof (preserves_clean_hetzner_server _ _ _ Hclean) as [Hsq Hcq].
  apply clean_hetzner_server_calls in Hclean.
  pose proof (preserves_emit _ _ _ _ H) as [Hsf Hcf].
  apply emit_registered in H. cbn in H. rewrite app_nil_r in H.
  rewrite H. unfold registered at 1. rewrite Hclean, host_records_app.
  rewrite unmanaged_calls_records.
  rewrite (unmanaged_report_same q2 p') by congruence.
  fold (registered q2). rewrite Horphan, Hgroups, <- app_assoc.
  unfold desired_hosts. f_equal. congruence.
Qed.

End RegisteredHosts.

(** X15 — a pass that completes has registered every desired host once,
    under its hostname and in its group, group by group and index by
    index, and after them every observed server no desired host has
    claimed, in the group [unmanaged] and under a name that begins with
    [remove-]; it has registered no other host. *)
Theorem X15_registered_hosts config cloud servers inventory p :
  servers_get_all cloud = inr servers ->
  InventoryModule.parse config cloud (fresh inventory) = Done tt p ->
  host_records (_inventory p)
  = host_records inventory ++
    map (fun h => (desired_hostname h, fst h)) (desired_hosts config) ++
    map (fun s => (unmanaged_name s, "unmanaged")) (unmanaged_report p) /\
  unmanaged_report p
  = List.filter
      (fun s => negb (bool_decide
                        (server_id s ∈
                         flat_map (fun h => claimed_id (claimed config servers h))
                                  (desired_hosts config))))
      servers /\
  Forall (fun s => Str.startswith "remove-" (unmanaged_name s) = true) servers.
Proof.
  intros Hservers H.
  destruct (parse_Done_inv _ _ _ _ _ Hservers H) as [hvs Hinit].
  pose proof (initialize_inventory_claims _ _ _ Hinit) as (Hs & Hc & _).
  apply initialize_inventory_registered in Hinit.
  cbn [_hcloud_servers _hetzner_servers_configured app] in Hs, Hc.
  split; [exact Hinit|]. split.
  - unfold unmanaged_report, InventoryModule.unmanaged. rewrite Hs, Hc. reflexivity.
  - apply Forall_forall. intros s _. apply unmanaged_name_prefix.
Qed.

Lemma X15_registered_hosts_witness :
  exists p,
    InventoryModule.parse Sample.small_cluster
      (mkCloudAPI (inr [Sample.server_control_1; Sample.server_stray]) (inr []))
      (fresh []) = Done tt p /\
    host_records (_inventory p)
    = [("control-1", "control"); ("control-2", "control"); ("control-3", "control");
       ("worker-small-1", "worker_small"); ("worker-small-2", "worker_small");
       ("remove-stray", "unmanaged")] /\
    host_records (_inventory p)
    = host_records [] ++
      map (fun h => (desired_hostname h, fst h)) (desired_hosts Sample.small_cluster) ++
      map (fun s => (unmanaged_name s, "unmanaged")) (unmanaged_report p).
Proof.
  eexists. split; [vm_compute; reflexivity|].
  split; [vm_compute; reflexivity|].
  refine (proj1 (X15_registered_hosts Sample.small_cluster
            (mkCloudAPI (inr [Sample.server_control_1; Sample.server_stray]) (inr []))
            [Sample.server_control_1; Sample.server_stray] [] _ _ _)).
  - reflexivity.
  - vm_compute. reflexivity.
Defined.


Section Writing.
Context (hvs : list Volume) (Q : call -> Prop).

Lemma writes_ret {A} (P : A -> Prop) (a : A) : P a -> writes hvs Q P (mret a).
Proof.
  intros Ha p Hp. cbn. split; [exact Hp|]. split; [|exact Ha].
  exists []. now rewrite app_nil_r.
Qed.

Lemma writes_raise {A} (P : A -> Prop) e : writes hvs Q P (@raise A e).
Proof. intros p Hp. cbn. split; [exact Hp|]. exists []. now rewrite app_nil_r. Qed.

Lemma writes_hangs {A} (P : A -> Prop) : writes hvs Q P (fun _ : Plugin => @Hangs A).
Proof. intros p Hp. exact I. Qed.

Lemma writes_lift {A} (r : result A) : writes hvs Q (fun a => r = Ok a) (lift r).
Proof. destruct r; [now apply writes_ret|apply writes_raise]. Qed.

Lemma writes_get : writes hvs Q (fun p => _hcloud_volumes p = hvs) get.
Proof.
  intros p Hp. cbn. split; [exact Hp|]. split; [|exact Hp].
  exists []. now rewrite app_nil_r.
Qed.

Lemma writes_emit c : Q c -> writes hvs Q (fun _ => True) (emit c).
Proof.
  intros Hc p Hp. cbn. split; [exact Hp|]. split; [|exact I].
  exists [c]. split; [reflexivity|]. now constructor.
Qed.

Lemma writes_weaken {A} (P P' : A -> Prop) (m : M A) :
  writes hvs Q P m -> (forall a, P a -> P' a) -> writes hvs Q P' m.
Proof.
  intros Hm HP p Hp. specialize (Hm p Hp).
  destruct (m p) as [a p'|e p'|]; [|exact Hm|exact I].
  destruct Hm as (H1 & H2 & H3). auto.
Qed.

Lemma writes_bind {A C} (P : A -> Prop) (P' : C -> Prop) (m : M A) (f : A -> M C) :
  writes hvs Q P m -> (forall a, P a -> writes hvs Q P' (f a)) ->
  writes hvs Q P' (m ≫= f).
Proof.
  intros Hm Hf p Hp. specialize (Hm p Hp). unfold mbind, M_bind.
  destruct (m p) as [a p1|e p1|]; [|exact Hm|exact I].
  destruct Hm as (H1 & (l1 & E1 & F1) & Ha).
  specialize (Hf a Ha p1 H1).
  destruct (f a p1) as [b p2|e p2|]; [| |exact I].
  - destruct Hf as (H2 & (l2 & E2 & F2) & Hb).
    split; [exact H2|]. split; [|exact Hb].
    exists (l1 ++ l2). rewrite E2, E1, app_assoc. split; [reflexivity|].
    apply Forall_app. auto.
  - destruct Hf as (H2 & l2 & E2 & F2).
    split; [exact H2|].
    exists (l1 ++ l2). rewrite E2, E1, app_assoc. split; [reflexivity|].
    apply Forall_app. auto.
Qed.

Lemma writes_for {A} (xs : list A) (body : A -> M unit) :
  (forall x, In x xs -> writes hvs Q (fun _ => True) (body x)) ->
  writes hvs Q (fun _ => True) (for_ xs body).
Proof.
  induction xs as [|x xs IH]; intros Hbody; cbn [for_]; [now apply writes_ret|].
  eapply writes_bind; [apply Hbody; now left|].
  intros _ _. apply IH. intros y Hy. apply Hbody. now right.
Qed.

Lemma writes_fold_M {A S} (Inv : S -> Prop) (body : S -> A -> M S) (xs : list A) :
  (forall s x, In x xs -> Inv s -> writes hvs Q Inv (body s x)) ->
  forall s, Inv s -> writes hvs Q Inv (fold_M body xs s).
Proof.
  induction xs as [|x xs IH]; intros Hbody s Hs; cbn [fold_M]; [now apply writes_ret|].
  eapply writes_bind; [apply Hbody; [now left|exact Hs]|].
  intros s' Hs'. apply IH; [|exact Hs']. intros s0 y Hy. apply Hbody. now right.
Qed.

Lemma writes_state {A} (P : A -> Prop) (m : M A) :
  (forall p, exists a, m p = Done a p /\ P a) -> writes hvs Q P m.
Proof.
  intros Hm p Hp. destruct (Hm p) as (a & -> & Ha).
  split; [exact Hp|]. split; [|exact Ha]. exists []. now rewrite app_nil_r.
Qed.

(** What a run that returns has written. *)
Lemma writes_Done {A} (P : A -> Prop) (m : M A) p a p' :
  writes hvs Q P m -> _hcloud_volumes p = hvs -> m p = Done a p' ->
  _hcloud_volumes p' = hvs /\
  (exists l, _inventory p' = _inventory p ++ l /\ Forall Q l) /\ P a.
Proof. intros Hm Hp E. specialize (Hm p Hp). now rewrite E in Hm. Qed.

End Writing.

Section WritingPrimitives.
Context (hvs : list Volume) (Q : call -> Prop).

Ltac primitive :=
  intros p Hp; cbn; split; [exact Hp|]; split; [|exact I];
  exists []; now rewrite app_nil_r.

Lemma writes_set_host_time_assigner a :
  writes hvs Q (fun _ => True) (set_host_time_assigner a).
Proof. primitive. Qed.

Lemma writes_set_network_manager nm :
  writes hvs Q (fun _ => True) (set_network_manager nm).
Proof. primitive. Qed.

Lemma writes_append_server_configured id :
  writes hvs Q (fun _ => True) (append_server_configured id).
Proof. primitive. Qed.

Lemma writes_append_volume_configured name :
  writes hvs Q (fun _ => True) (append_volume_configured name).
Proof. primitive. Qed.

End WritingPrimitives.

(** The calls that cannot be the one a statement singles out. *)
Ltac other_call :=
  unfold plans_sound, not_orphan_volumes;
  let E := fresh "E" in intros ? ? E; discriminate E.

Ltac writing_with special :=
  repeat (lazy beta zeta;
    first [special|
    match goal with
    | |- writes _ _ _ (mbind _ get) =>
        eapply writes_bind; [apply writes_get|intros ? ?]
    | |- writes _ _ _ (mbind _ (lift _)) =>
        eapply writes_bind; [apply writes_lift|intros ? ?]
    | |- writes _ _ _ (mbind _ _) =>
        apply (writes_bind _ _ (fun _ => True)); [|intros ? _]
    | |- writes _ _ (fun _ => True) (mret _) => apply writes_ret; exact I
    | |- writes _ _ _ (raise _) => apply writes_raise
    | |- writes _ _ (fun _ => True) (lift _) =>
        eapply writes_weaken; [apply writes_lift|intros ? _; exact I]
    | |- writes _ _ (fun _ => True) (emit _) => apply writes_emit; other_call
    | |- writes _ _ (fun _ => True) (set_host_time_assigner _) =>
        apply writes_set_host_time_assigner
    | |- writes _ _ (fun _ => True) (set_network_manager _) =>
        apply writes_set_network_manager
    | |- writes _ _ (fun _ => True) (append_server_configured _) =>
        apply writes_append_server_configured
    | |- writes _ _ (fun _ => True) (append_volume_configured _) =>
        apply writes_append_volume_configured
    | |- writes _ _ (fun _ => True) (for_ _ _) => apply writes_for; intros ? ?
    | |- writes _ _ (fun _ => True) (fold_M _ _ _) =>
        apply (writes_fold_M _ _ (fun _ => True)); [intros ? ? ? _|exact I]
    | |- writes _ _ _ (fun _ => Hangs) => apply writes_hangs
    | |- writes _ _ _ (match ?x with _ => _ end) => destruct x eqn:?
    end]).

Ltac writing := writing_with fail.

Section SoundPlans.
Import InventoryModule.
Context (hvs : list Volume).

Lemma for_result_Ok_inv {A} (body : A -> result unit) xs x :
  for_result xs body = Ok tt -> In x xs -> body x = Ok tt.
Proof.
  induction xs as [|y xs IH]; [intros _ []|].
  cbn [for_result].
  change (body y ;; for_result xs body) with (body y ≫= fun _ => for_result xs body).
  destruct (body y) as [[]|e] eqn:Hy; [|discriminate].
  cbn [mbind result_bind]. intros H [<-|Hin]; auto.
Qed.

Lemma validate_config_logic_Ok_inv config group host v :
  _validate_config_logic config hvs = Ok tt ->
  In group (Dict.keys (nodes config)) ->
  truthy_bool (_get_group_config config group g_storage) = true ->
  In host (Py.range 1 (default 0 (_get_group_config config group g_num) + 1)) ->
  In v (volumes config) ->
  check_shrink hvs (hostname group host) v = Ok tt.
Proof.
  unfold _validate_config_logic. intros H Hg Hs Hh Hv. lazy zeta in H.
  apply (for_result_Ok_inv _ _ group) in H; [|exact Hg].
  lazy beta in H. rewrite Hs in H.
  apply (for_result_Ok_inv _ _ host) in H; [|exact Hh].
  lazy beta zeta in H.
  apply (for_result_Ok_inv _ _ v) in H; [exact H|exact Hv].
Qed.

Lemma writes_volume_plan Q hostname v :
  check_shrink hvs hostname v = Ok tt ->
  writes hvs Q (plan_sound hvs hostname) (volume_plan hostname v).
Proof.
  intros Hcheck. unfold volume_plan.
  eapply writes_bind; [apply writes_get|]. intros p Hp. lazy beta zeta.
  apply (writes_bind _ _ (fun _ => True)); [apply writes_append_volume_configured|].
  intros [] _. rewrite Hp. unfold check_shrink in Hcheck. lazy zeta in Hcheck.
  destruct (find_volume (expected_name hostname (v_name v)) hvs) as [hv|] eqn:Hfind.
  - destruct (config_gb (v_size v)) as [gb|e] eqn:Hgb; [|discriminate].
    cbn [mbind result_bind] in Hcheck.
    destruct (Z.ltb_spec gb (volume_size hv)) as [|Hle]; [discriminate|].
    eapply writes_bind; [apply writes_lift|]. intros gb' [= <-].
    apply writes_ret. unfold plan_sound. cbn [plan_name plan_size plan_id
      needs_create needs_resize]. rewrite Hfind.
    split; [reflexivity|]. split; [reflexivity|].
    exists gb. split; [exact Hgb|]. split; [exact Hle|].
    rewrite negb_true_iff, Z.eqb_neq. lia.
  - apply writes_ret. unfold plan_sound. cbn [plan_name plan_id needs_create needs_resize].
    rewrite Hfind. auto.
Qed.

Lemma writes_cluster_volumes hostname vs :
  (forall v, In v vs -> check_shrink hvs hostname v = Ok tt) ->
  writes hvs (plans_sound hvs) (fun _ => True)
    (host_volumes ←
       fold_M (fun host_volumes v =>
                 entry ← volume_plan hostname v;
                 mret (host_volumes ++ [entry]))
              vs [];
     emit (set_variable hostname "cluster_volumes" (VVolumePlans host_volumes))).
Proof.
  intros Hvs.
  apply (writes_bind _ _ (Forall (plan_sound hvs hostname))).
  - apply writes_fold_M; [|constructor].
    intros plans v Hv Hplans.
    eapply writes_bind; [apply writes_volume_plan, Hvs, Hv|].
    intros plan Hplan. apply writes_ret. apply Forall_app. auto.
  - intros plans Hplans. apply writes_emit.
    intros host plans' [= <- <-]. exact Hplans.
Qed.

Lemma writes_add_host config group host lm server_type image is_control is_worker :
  (truthy_bool (_get_group_config config group g_storage) = true ->
   forall v, In v (volumes config) -> check_shrink hvs (hostname group host) v = Ok tt) ->
  writes hvs (plans_sound hvs) (fun _ => True)
    (_add_host config group host lm server_type image is_control is_worker).
Proof.
  intros Hvalid. unfold _add_host.
  writing_with ltac:(apply writes_cluster_volumes; now auto).
Qed.

Lemma writes_prepare_group config group :
  _validate_config_logic config hvs = Ok tt ->
  In group (Dict.keys (nodes config)) ->
  writes hvs (plans_sound hvs) (fun _ => True) (_prepare_group config group).
Proof.
  intros Hvalid Hgroup. unfold _prepare_group. writing.
  apply writes_add_host. intros Hstorage v Hv.
  eapply validate_config_logic_Ok_inv; try eassumption.
  match goal with
  | E : _get_group_config config group g_num = Some _ |- _ => rewrite E
  end.
  assumption.
Qed.

Lemma writes_initialize_inventory config :
  _validate_config_logic config hvs = Ok tt ->
  writes hvs (plans_sound hvs) (fun _ => True) (_initialize_inventory config).
Proof.
  intros Hvalid.
  unfold _initialize_inventory, _init_host_time_assigner, reserve_existing,
    _set_orphan_volumes_for_cleanup, _clean_hetzner_server.
  writing. now apply writes_prepare_group.
Qed.

End SoundPlans.

(** X16 — whatever a pass writes on the sink, whether it completes or
    raises, every [cluster_volumes] it sets agrees with the snapshot of
    the volumes: an entry names the observed volume of its expected name
    and asks for no creation, or asks for a creation when there is none;
    it asks for a resize exactly when the observed volume is smaller than
    the configured size, and the observed volume is never larger. *)
Theorem X16_volume_plans_sound config cloud hvs inventory :
  volumes_get_all cloud = inr hvs ->
  match InventoryModule.parse config cloud (fresh inventory) with
  | Done _ p | Raised _ p =>
      exists l, _inventory p = inventory ++ l /\ Forall (plans_sound hvs) l
  | Hangs => True
  end.
Proof.
  intros Hvols.
  assert (Hnil : forall p : Plugin, _inventory p = inventory ->
            exists l, _inventory p = inventory ++ l /\ Forall (plans_sound hvs) l).
  { intros p ->. exists []. now rewrite app_nil_r. }
  unfold InventoryModule.parse.
  destruct (InventoryModule._validate_config_structure config) as [[]|e];
    [|apply Hnil; reflexivity].
  unfold InventoryModule._load_hcloud_data.
  destruct (negb _); [apply Hnil; reflexivity|].
  destruct (servers_get_all cloud) as [d|servers]; [apply Hnil; reflexivity|].
  rewrite Hvols. run.
  destruct (InventoryModule._validate_config_logic config hvs) as [[]|e] eqn:Hlogic;
    [|apply Hnil; reflexivity].
  pose proof (writes_initialize_inventory hvs config Hlogic
                (mkPlugin [] [] servers hvs inventory None None) eq_refl) as H.
  destruct (InventoryModule._initialize_inventory config _) as [[] p|e p|];
    [|exact (proj2 H)|exact I].
  exact (proj1 (proj2 H)).
Qed.

Lemma X16_volume_plans_sound_witness :
  exists p,
    InventoryModule.parse Sample.grow_volume
      (mkCloudAPI (inr []) (inr [Sample.observed_data_volume])) (fresh []) = Done tt p /\
    In (set_variable "db-1" "cluster_volumes"
          (VVolumePlans [mkVolumePlan "data" "20G" (Some 7) false true]))
       (_inventory p) /\
    exists l, _inventory p = [] ++ l /\ Forall (plans_sound [Sample.observed_data_volume]) l.
Proof.
  eexists. split; [vm_compute; reflexivity|].
  split; [vm_compute; tauto|].
  exact (X16_volume_plans_sound Sample.grow_volume
           (mkCloudAPI (inr []) (inr [Sample.observed_data_volume]))
           [Sample.observed_data_volume] [] eq_refl).
Defined.


Section Appending.
Context {B : Type} (proj : Plugin -> list B).

Lemma appends_keeps {A} (m : M A) : keeps proj m -> appends proj [] m.
Proof. intros Hm p a p' H. rewrite app_nil_r. eapply Hm, H. Qed.

Lemma appends_raise {A} out e : appends proj out (@raise A e).
Proof. intros p a p' [=]. Qed.

Lemma appends_bind_l {A C} out (m : M A) (f : A -> M C) :
  appends proj out m -> (forall a, keeps proj (f a)) -> appends proj out (m ≫= f).
Proof.
  intros Hm Hf p b p' H. apply bind_Done_inv in H. destruct H as (a & p1 & H1 & H2).
  rewrite (Hf _ _ _ _ H2). eapply Hm, H1.
Qed.

Lemma appends_bind_r {A C} out (m : M A) (f : A -> M C) :
  keeps proj m -> (forall a, appends proj out (f a)) -> appends proj out (m ≫= f).
Proof.
  intros Hm Hf p b p' H. apply bind_Done_inv in H. destruct H as (a & p1 & H1 & H2).
  rewrite (Hf _ _ _ _ H2). f_equal. eapply Hm, H1.
Qed.

Lemma appends_for {A} (out : A -> list B) (xs : list A) (body : A -> M unit) :
  (forall x, appends proj (out x) (body x)) ->
  appends proj (flat_map out xs) (for_ xs body).
Proof.
  intros Hbody. induction xs as [|x xs IH]; cbn [for_ flat_map].
  - apply appends_keeps, keeps_ret.
  - intros p b p' H. apply bind_Done_inv in H. destruct H as (a & p1 & H1 & H2).
    rewrite (IH _ _ _ H2), (Hbody _ _ _ _ H1), app_assoc. reflexivity.
Qed.

Lemma appends_fold_M {A S} (out : A -> list B) (body : S -> A -> M S) (xs : list A) :
  (forall s x, appends proj (out x) (body s x)) ->
  forall s, appends proj (flat_map out xs) (fold_M body xs s).
Proof.
  intros Hbody. induction xs as [|x xs IH]; intros s; cbn [fold_M flat_map].
  - apply appends_keeps, keeps_ret.
  - intros p b p' H. apply bind_Done_inv in H. destruct H as (a & p1 & H1 & H2).
    rewrite (IH _ _ _ _ H2), (Hbody _ _ _ _ _ H1), app_assoc. reflexivity.
Qed.

End Appending.

Lemma orphan_reports_app l1 l2 :
  orphan_reports (l1 ++ l2) = orphan_reports l1 ++ orphan_reports l2.
Proof. unfold orphan_reports. apply omap_app. Qed.

Ltac keeps_reported :=
  unfold keeps, reported; intros ? ? ? [= _ <-];
  cbn [_inventory]; rewrite ?orphan_reports_app; simpl; rewrite ?app_nil_r; reflexivity.

#[global] Hint Extern 2 (keeps reported (emit _)) => keeps_reported : keeps.

(** Steps over the methods that keep the projection. *)
Ltac skip_kept :=
  repeat (lazy beta zeta;
          try match goal with
              | |- appends _ _ (match ?x with _ => _ end) => destruct x
              end;
          apply appends_bind_r; [solve [keeping]|intros ?]).

Section ManagedVolumes.
Import InventoryModule.

Lemma flat_map_singleton {A C} (f : A -> C) l : flat_map (fun x => [f x]) l = map f l.
Proof. induction l as [|x l IH]; cbn [flat_map map app]; congruence. Qed.

Lemma flat_map_flat_map {A C D} (f : C -> list D) (g : A -> list C) l :
  flat_map f (flat_map g l) = flat_map (fun x => flat_map f (g x)) l.
Proof.
  induction l as [|x l IH]; cbn [flat_map]; [reflexivity|].
  now rewrite flat_map_app, IH.
Qed.

Lemma appends_volume_plan hostname v :
  appends _hetzner_volumes_configured [expected_name hostname (v_name v)]
          (volume_plan hostname v).
Proof.
  unfold volume_plan. skip_kept. apply appends_bind_l.
  - intros q x q' [= _ <-]. reflexivity.
  - intros []. keeping.
Qed.

Lemma appends_add_host config group host lm server_type image is_control is_worker :
  appends _hetzner_volumes_configured
    (if truthy_bool (_get_group_config config group g_storage)
     then map (fun v => expected_name (hostname group host) (v_name v)) (volumes config)
     else [])
    (_add_host config group host lm server_type image is_control is_worker).
Proof.
  unfold _add_host. skip_kept. apply appends_bind_l; [|intros; keeping].
  destruct (truthy_bool (_get_group_config config group g_storage));
    [|apply appends_keeps, keeps_ret].
  apply appends_bind_l; [|intros; keeping].
  rewrite <- flat_map_singleton. apply appends_fold_M. intros plans vol.
  apply appends_bind_l; [apply appends_volume_plan|intros; keeping].
Qed.

Lemma appends_prepare_group config group :
  appends _hetzner_volumes_configured
    (flat_map
       (fun h =>
          if truthy_bool (_get_group_config config (fst h) g_storage)
          then map (fun v => expected_name (desired_hostname h) (v_name v)) (volumes config)
          else [])
       (map (pair group)
            (Py.range 1 (default 0 (_get_group_config config group g_num) + 1))))
    (_prepare_group config group).
Proof.
  unfold _prepare_group. skip_kept.
  destruct (_get_group_config config group g_type) as [server_type|];
    [|apply appends_raise].
  destruct (String.eqb server_type ""); [apply appends_raise|]. skip_kept.
  destruct (String.eqb (default "debian-12" (_get_group_config config group g_image)) "");
    [apply appends_raise|]. skip_kept.
  destruct (_get_group_config config group g_num) as [num_hosts|];
    [|apply appends_raise].
  apply appends_bind_l; [|intros; keeping]. cbn [default].
  rewrite (flat_map_concat_map _ (map _ _)), map_map, <- flat_map_concat_map.
  apply appends_fold_M. intros lm host. apply appends_add_host.
Qed.

Lemma appends_prepare_groups config :
  appends _hetzner_volumes_configured (managed_volume_names config)
          (for_ (Dict.keys (nodes config)) (_prepare_group config)).
Proof.
  unfold managed_volume_names, desired_hosts. rewrite flat_map_flat_map.
  apply appends_for. intros group. apply appends_prepare_group.
Qed.

Lemma keeps_reported_add_host config group host lm server_type image is_control is_worker :
  keeps reported (_add_host config group host lm server_type image is_control is_worker).
Proof. unfold _add_host, volume_plan. keeping. Qed.

Lemma keeps_reported_prepare_group config group :
  keeps reported (_prepare_group config group).
Proof. unfold _prepare_group. keeping. apply keeps_reported_add_host. Qed.

Lemma keeps_volumes_add_host config group host lm server_type image is_control is_worker :
  keeps _hcloud_volumes
        (_add_host config group host lm server_type image is_control is_worker).
Proof. unfold _add_host, volume_plan. keeping. Qed.

Lemma keeps_volumes_prepare_group config group :
  keeps _hcloud_volumes (_prepare_group config group).
Proof. unfold _prepare_group. keeping. apply keeps_volumes_add_host. Qed.

Lemma orphan_list managed hvs :
  omap (fun hv =>
          if bool_decide (volume_name hv ∈ (list_to_set managed : gset string)) then None
          else Some (mkOrphanVolume (volume_id hv) (volume_name hv) (volume_size hv)))
       hvs
  = map (fun hv => mkOrphanVolume (volume_id hv) (volume_name hv) (volume_size hv))
        (List.filter (fun hv => negb (bool_decide (volume_name hv ∈ managed))) hvs).
Proof.
  induction hvs as [|hv hvs IH]; [reflexivity|].
  cbn [omap list_omap List.filter].
  rewrite (bool_decide_ext (volume_name hv ∈ (list_to_set managed : gset string))
                           (volume_name hv ∈ managed)) by apply elem_of_list_to_set.
  destruct (bool_decide (volume_name hv ∈ managed)); cbn [negb map]; rewrite <- IH;
    reflexivity.
Qed.

(** The report of [_set_orphan_volumes_for_cleanup]. *)
Lemma set_orphan_volumes_reported p p' :
  _set_orphan_volumes_for_cleanup p = Done tt p' ->
  reported p'
  = reported p ++
    match omap (fun hv =>
                  if bool_decide (volume_name hv ∈
                                  (list_to_set (_hetzner_volumes_configured p) : gset string))
                  then None
                  else Some (mkOrphanVolume (volume_id hv) (volume_name hv)
                                            (volume_size hv)))
               (_hcloud_volumes p) with
    | [] => []
    | o => [("all", VOrphanVolumes o)]
    end.
Proof.
  unfold _set_orphan_volumes_for_cleanup. intros H.
  apply bind_Done_inv in H. destruct H as (p0 & p1 & Hget & H).
  injection Hget as <- <-. lazy zeta in H.
  destruct (omap _ (_hcloud_volumes p)) as [|o os].
  - injection H as <-. now rewrite app_nil_r.
  - injection H as <-. unfold reported. cbn [_inventory].
    now rewrite orphan_reports_app.
Qed.

Lemma initialize_inventory_orphans config p p' :
  _initialize_inventory config p = Done tt p' ->
  _hetzner_volumes_configured p'
  = _hetzner_volumes_configured p ++ managed_volume_names config /\
  _hcloud_volumes p' = _hcloud_volumes p /\
  reported p'
  = reported p ++
    match omap (fun hv =>
                  if bool_decide (volume_name hv ∈
                                  (list_to_set (_hetzner_volumes_configured p')
                                   : gset string))
                  then None
                  else Some (mkOrphanVolume (volume_id hv) (volume_name hv)
                                            (volume_size hv)))
               (_hcloud_volumes p) with
    | [] => []
    | o => [("all", VOrphanVolumes o)]
    end.
Proof.
  unfold _initialize_inventory. intros H.
  assert (Hstep : forall {A C} (m : M A) (f : A -> M C) q r q',
            (m ≫= f) q = Done r q' ->
            keeps _hetzner_volumes_configured m -> keeps _hcloud_volumes m ->
            keeps reported m ->
            exists a q1, f a q1 = Done r q' /\
              _hetzner_volumes_configured q1 = _hetzner_volumes_configured q /\
              _hcloud_volumes q1 = _hcloud_volumes q /\ reported q1 = reported q).
  { intros A C m f q r q' Hb K1 K2 K3.
    apply bind_Done_inv in Hb. destruct Hb as (a & q1 & Hm & Hf).
    exists a, q1. split; [exact Hf|].
    split; [exact (K1 _ _ _ Hm)|]. split; [exact (K2 _ _ _ Hm)|exact (K3 _ _ _ Hm)]. }
  apply Hstep in H; [|keeping..]. destruct H as ([] & q1 & H & C1 & V1 & R1).
  apply Hstep in H; [|keeping..]. destruct H as ([] & q2 & H & C2 & V2 & R2).
  apply Hstep in H; [|keeping..]. destruct H as ([] & q3 & H & C3 & V3 & R3).
  apply Hstep in H; [|keeping..]. destruct H as ([] & q4 & H & C4 & V4 & R4).
  apply Hstep in H; [|unfold _init_host_time_assigner; keeping..].
  destruct H as ([] & q5 & H & C5 & V5 & R5).
  apply Hstep in H; [|keeping..]. destruct H as (nm & q6 & H & C6 & V6 & R6).
  apply Hstep in H; [|keeping..]. destruct H as ([] & q7 & H & C7 & V7 & R7).
  apply Hstep in H; [|keeping..]. destruct H as (p0 & q8 & H & C8 & V8 & R8).
  apply Hstep in H; [|unfold reserve_existing; keeping..].
  destruct H as ([] & q9 & H & C9 & V9 & R9).
  apply bind_Done_inv in H. destruct H as ([] & q10 & Hgroups & H).
  pose proof (appends_prepare_groups config _ _ _ Hgroups) as C10.
  pose proof (keeps_for _hcloud_volumes _ _ (keeps_volumes_prepare_group config)
                _ _ _ Hgroups) as V10.
  pose proof (keeps_for reported _ _ (keeps_reported_prepare_group config)
                _ _ _ Hgroups) as R10.
  apply bind_Done_inv in H. destruct H as ([] & q11 & Horphan & H).
  assert (C11 : _hetzner_volumes_configured q11 = _hetzner_volumes_configured q10).
  { revert Horphan. generalize q10 tt q11.
    change (keeps _hetzner_volumes_configured _set_orphan_volumes_for_cleanup).
    unfold _set_orphan_volumes_for_cleanup. keeping. }
  assert (V11 : _hcloud_volumes q11 = _hcloud_volumes q10).
  { revert Horphan. generalize q10 tt q11.
    change (keeps _hcloud_volumes _set_orphan_volumes_for_cleanup).
    unfold _set_orphan_volumes_for_cleanup. keeping. }
  apply set_orphan_volumes_reported in Horphan.
  assert (Hrest : _hetzner_volumes_configured p' = _hetzner_volumes_configured q11 /\
                  _hcloud_volumes p' = _hcloud_volumes q11 /\
                  reported p' = reported q11).
  { apply Hstep in H; [|unfold _clean_hetzner_server; keeping..].
    destruct H as ([] & q12 & H & C12 & V12 & R12).
    assert (K1 : keeps _hetzner_volumes_configured
                   (emit (set_variable "all" "ansible_user" (VStr "root")))) by keeping.
    assert (K2 : keeps _hcloud_volumes
                   (emit (set_variable "all" "ansible_user" (VStr "root")))) by keeping.
    assert (K3 : keeps reported
                   (emit (set_variable "all" "ansible_user" (VStr "root")))) by keeping.
    rewrite (K1 _ _ _ H), (K2 _ _ _ H), (K3 _ _ _ H). auto. }
  destruct Hrest as (C13 & V13 & R13).
  assert (Cq : _hetzner_volumes_configured q9 = _hetzner_volumes_configured p) by congruence.
  assert (Vq : _hcloud_volumes q10 = _hcloud_volumes p) by congruence.
  assert (Rq : reported q10 = reported p) by congruence.
  split; [congruence|]. split; [congruence|].
  assert (Cx : _hetzner_volumes_configured q10 = _hetzner_volumes_configured p')
    by congruence.
  rewrite R13, Horphan, Rq, Vq, Cx. reflexivity.
Qed.

End ManagedVolumes.

(** X17 — a pass that completes has recorded, as managed, the volume
    names the desired hosts of the storage groups expect; it sets
    [orphan_volumes] at most once, on [all], exactly when some observed
    volume bears none of these names, and then to the list of those
    volumes in observed order. *)
Theorem X17_orphan_volumes config cloud hvs inventory p :
  volumes_get_all cloud = inr hvs ->
  InventoryModule.parse config cloud (fresh inventory) = Done tt p ->
  _hetzner_volumes_configured p = managed_volume_names config /\
  orphan_reports (_inventory p)
  = orphan_reports inventory ++
    match orphans config hvs with
    | [] => []
    | o => [("all", VOrphanVolumes o)]
    end.
Proof.
  intros Hvols H. unfold InventoryModule.parse in H.
  apply bind_Done_inv in H. destruct H as ([] & p1 & Hstruct & H).
  destruct (InventoryModule._validate_config_structure config) as [[]|e]; [|discriminate].
  injection Hstruct as <-.
  apply bind_Done_inv in H. destruct H as ([] & p2 & Hload & H).
  unfold InventoryModule._load_hcloud_data in Hload. rewrite Hvols in Hload.
  destruct (negb _); [discriminate|].
  destruct (servers_get_all cloud) as [d|servers]; [discriminate|].
  injection Hload as <-.
  apply bind_Done_inv in H. destruct H as (p0 & p3 & Hget & H).
  injection Hget as <- <-.
  apply bind_Done_inv in H. destruct H as ([] & p4 & Hlogic & H).
  destruct (InventoryModule._validate_config_logic _ _) as [[]|e]; [|discriminate].
  injection Hlogic as <-.
  apply initialize_inventory_orphans in H. destruct H as (Hc & Hv & Hr).
  cbn [_hetzner_volumes_configured _hcloud_volumes app] in Hc, Hr.
  split; [exact Hc|].
  unfold reported in Hr. cbn [_inventory] in Hr.
  rewrite Hr, Hc, orphan_list. reflexivity.
Qed.

Lemma X17_orphan_volumes_witness :
  let hvs := [Sample.observed_data_volume; mkVolume 8 "old-1_data" 10] in
  exists p,
    InventoryModule.parse Sample.grow_volume (mkCloudAPI (inr []) (inr hvs)) (fresh [])
    = Done tt p /\
    orphans Sample.grow_volume hvs = [mkOrphanVolume 8 "old-1_data" 10] /\
    (_hetzner_volumes_configured p = managed_volume_names Sample.grow_volume /\
     orphan_reports (_inventory p)
     = orphan_reports [] ++
       match orphans Sample.grow_volume hvs with
       | [] => []
       | o => [("all", VOrphanVolumes o)]
       end).
Proof.
  intros hvs. eexists. split; [vm_compute; reflexivity|].
  split; [vm_compute; reflexivity|].
  apply (X17_orphan_volumes Sample.grow_volume (mkCloudAPI (inr []) (inr hvs)) hvs []).
  - reflexivity.
  - vm_compute. reflexivity.
Defined.


Section SlotAnswers.
Import HostTimeAssigner.

Lemma time_field_bound maxv s v : time_field maxv s = Some v -> 0 <= v <= maxv.
Proof.
  unfold time_field. destruct s as [|c s]; [discriminate|].
  destruct (Str.all_digits (String c s)) eqn:Hd; [|discriminate].
  destruct (_ <=? _)%nat; [|discriminate]. cbn [andb].
  pose proof (digits_val_nonneg (String c s) 0 (Z.le_refl 0) Hd) as Hnn.
  cbv zeta.
  destruct (Z.leb_spec (Str.digits_val 0 (String c s)) maxv) as [Hle|]; [|discriminate].
  intros Hv. assert (v = Str.digits_val 0 (String c s)) by congruence. lia.
Qed.

Lemma strptime_bound s t : strptime s = Some t -> 0 <= t < 1440.
Proof.
  unfold strptime. destruct (Str.split ":" s) as [|h [|m [|x l]]]; try discriminate.
  destruct (time_field 23 h) as [hv|] eqn:Hh; [|discriminate].
  destruct (time_field 59 m) as [mv|] eqn:Hm; [|discriminate].
  apply time_field_bound in Hh, Hm. intros [= <-]. lia.
Qed.

Lemma strftime_inj t1 t2 :
  0 <= t1 < 1440 -> 0 <= t2 < 1440 -> strftime t1 = strftime t2 -> t1 = t2.
Proof.
  intros H1 H2 E. apply strptime_strftime in H1, H2. congruence.
Qed.

Lemma fold_append_slot_other pairs g : forall (d : Dict.t (list Z)),
  ~ In g (map snd pairs) ->
  Dict.get g (fold_left append_slot pairs d) = Dict.get g d.
Proof.
  induction pairs as [|[slot grp] pairs IH]; intros d Hnot; cbn [fold_left]; [reflexivity|].
  cbn [map snd] in Hnot. rewrite IH by (intros H; apply Hnot; now right).
  unfold append_slot. rewrite dict_get_set.
  destruct (String.eqb_spec g grp) as [->|Hne]; [|reflexivity].
  exfalso. apply Hnot. now left.
Qed.

(** Only the groups of the configuration have a queue. *)
Lemma init_queue_keys groups start_str end_str a g q :
  NoDup (Dict.keys groups) ->
  Forall (fun kv => 0 < snd kv) groups ->
  init groups start_str end_str = Some (Ok a) ->
  Dict.get g (_group_slots a) = Some q -> Dict.get g groups <> None.
Proof.
  intros Hnd Hpos Hinit Hq Hnone. apply init_Ok_inv in Hinit.
  destruct Hinit as (st & en & rr & _ & _ & _ & _ & _ & Hrr & ->).
  cbn [_group_slots] in Hq.
  destruct (interleave_groups_facts _ Hnd Hpos rr Hrr) as (Hcount & _ & _).
  specialize (Hcount g). rewrite Hnone in Hcount. cbn in Hcount.
  assert (Hnot : ~ In g rr).
  { apply (count_occ_not_In string_dec). lia. }
  rewrite fold_append_slot_other in Hq.
  - rewrite dict_get_comprehension in Hq.
    destruct (bool_decide_reflect (g ∈ Dict.keys groups)) as [Hk|]; [|discriminate].
    apply list_elem_of_In, dict_mem_In in Hk.
    unfold Dict.mem in Hk. rewrite Hnone in Hk. discriminate.
  - intros Hin. apply in_map_iff in Hin. destruct Hin as ([t g'] & Hg & Hin).
    cbn [snd] in Hg. subst g'. apply in_combine_r in Hin. contradiction.
Qed.

Lemma NoDup_nth_error_inj {A} (l : list A) : forall i j x,
  NoDup l -> nth_error l i = Some x -> nth_error l j = Some x -> i = j.
Proof.
  induction l as [|a l IH]; intros [|i] [|j] x Hnd Hi Hj; cbn [nth_error] in *;
    try discriminate; [reflexivity| | |].
  - apply NoDup_cons in Hnd. destruct Hnd as [Hnot _]. injection Hi as ->.
    exfalso. apply Hnot, list_elem_of_In. eapply nth_error_In, Hj.
  - apply NoDup_cons in Hnd. destruct Hnd as [Hnot _]. injection Hj as ->.
    exfalso. apply Hnot, list_elem_of_In. eapply nth_error_In, Hi.
  - apply NoDup_cons in Hnd. destruct Hnd as [_ Hnd]. f_equal. eapply IH; eassumption.
Qed.

(** Calls that follow one another never answer the same slot: an answer
    is a slot of a queue at or after the index of its group. *)
Lemma ask_slots_pending (Q : Dict.t (list Z)) :
  (forall g q, Dict.get g Q = Some q -> NoDup q) ->
  (forall g q t, Dict.get g Q = Some q -> In t q -> 0 <= t < 1440) ->
  (forall g1 g2 q1 q2 t,
     Dict.get g1 Q = Some q1 -> Dict.get g2 Q = Some q2 ->
     In t q1 -> In t q2 -> g1 = g2) ->
  forall gs a,
    _group_slots a = Q ->
    (forall g, 0 <= default 0 (Dict.get g (_group_slot_index a))) ->
    NoDup (ask_slots gs a) /\
    Forall (fun s => exists g q j t,
              Dict.get g Q = Some q /\ nth_error q j = Some t /\ s = strftime t /\
              (Z.to_nat (default 0%Z (Dict.get g (_group_slot_index a))) <= j)%nat)
           (ask_slots gs a).
Proof.
  intros Q_NoDup Q_range Q_disjoint.
  induction gs as [|g gs IH]; intros a HQ Hidx; cbn [ask_slots].
  { split; constructor. }
  destruct (get_next_slot g a) as [[s a']|e] eqn:E; [|now apply IH].
  unfold get_next_slot in E. rewrite HQ in E.
  destruct (Dict.get g Q) as [q|] eqn:Hq; [|discriminate]. cbv zeta in E.
  set (idx := default 0 (Dict.get g (_group_slot_index a))) in *.
  destruct (nth_error q (Z.to_nat idx)) as [slot|] eqn:Hnth; [|discriminate].
  injection E as <- <-.
  match goal with
  | |- context [ask_slots gs ?x] => set (a' := x)
  end.
  assert (Hidx' : forall g', default 0 (Dict.get g' (_group_slot_index a))
                             <= default 0 (Dict.get g' (_group_slot_index a'))).
  { intros g'. subst a'. cbn [_group_slot_index]. rewrite dict_get_set.
    destruct (String.eqb_spec g' g) as [->|]; [|reflexivity].
    fold idx. simpl. lia. }
  destruct (IH a') as [Hnd Hall]; [reflexivity| |].
  { intros g'. specialize (Hidx g'). specialize (Hidx' g'). lia. }
  split.
  - apply NoDup_cons. split; [|exact Hnd].
    intros Hin. rewrite Forall_forall in Hall. apply Hall in Hin.
    destruct Hin as (g' & q' & j & t & Hq' & Hj & Es & Hge).
    pose proof (nth_error_In _ _ Hnth) as Hin1.
    pose proof (nth_error_In _ _ Hj) as Hin2.
    assert (t = slot).
    { symmetry. apply strftime_inj;
        [exact (Q_range _ _ _ Hq Hin1)|exact (Q_range _ _ _ Hq' Hin2)|exact Es]. }
    subst t.
    assert (g = g') by exact (Q_disjoint _ _ _ _ _ Hq Hq' Hin1 Hin2). subst g'.
    assert (q' = q) by congruence. subst q'.
    assert (Hij : Z.to_nat idx = j).
    { eapply NoDup_nth_error_inj; [eapply Q_NoDup, Hq|exact Hnth|exact Hj]. }
    subst a'. cbn [_group_slot_index] in Hge.
    rewrite dict_get_set, String.eqb_refl in Hge.
    change (Z.to_nat (idx + 1) <= j)%nat in Hge.
    specialize (Hidx g). fold idx in Hidx. lia.
  - constructor.
    + exists g, q, (Z.to_nat idx), slot. repeat split; try assumption. lia.
    + eapply Forall_impl; [exact Hall|]. cbn beta.
      intros s (g' & q' & j & t & Hq' & Hj & Es & Hge).
      exists g', q', j, t. repeat split; try assumption.
      specialize (Hidx' g'). specialize (Hidx g'). lia.
Qed.

End SlotAnswers.

(** The answers of an assigner built on positive counts. *)
Lemma ask_slots_distinct groups start_str end_str a groups_asked :
  NoDup (Dict.keys groups) ->
  Forall (fun kv => 0 < snd kv) groups ->
  HostTimeAssigner.init groups start_str end_str = Some (Ok a) ->
  NoDup (ask_slots groups_asked a) /\
  Forall (fun s => exists t,
            HostTimeAssigner.strptime s = Some t /\ _start_time a <= t <= _end_time a)
         (ask_slots groups_asked a).
Proof.
  intros Hnd Hpos Hinit.
  destruct (init_slot_queues _ _ _ _ Hnd Hpos Hinit) as (Hqueues & Hdisj & _).
  assert (Hwindow : 0 <= _start_time a /\ _end_time a < 1440).
  { destruct (init_Ok_inv _ _ _ _ Hinit) as (st & en & rr & Hs & He & _ & _ & _ & _ & ->).
    apply strptime_bound in Hs, He. cbn. lia. }
  assert (Hqueue : forall g q, Dict.get g (_group_slots a) = Some q ->
            StronglySorted Z.lt q /\
            Forall (fun t => _start_time a <= t <= _end_time a) q).
  { intros g q Hq.
    pose proof (init_queue_keys _ _ _ _ _ _ Hnd Hpos Hinit Hq) as Hg.
    destruct (Dict.get g groups) as [c|] eqn:Hc; [|congruence].
    destruct (Hqueues g c Hc) as (q' & Hq' & _ & _ & Hs & Hb).
    assert (q' = q) by congruence. subst q'. auto. }
  destruct (ask_slots_pending (_group_slots a)) with (gs := groups_asked) (a := a)
    as [Hnodup Hall].
  - intros g q Hq. apply StronglySorted_lt_NoDup. now apply (Hqueue g).
  - intros g q t Hq Ht. destruct (Hqueue g q Hq) as [_ Hb].
    rewrite Forall_forall in Hb. apply list_elem_of_In, Hb in Ht. lia.
  - intros g1 g2 q1 q2 t Hq1 Hq2 Ht1 Ht2.
    eapply Hdisj; try eassumption;
      eapply init_queue_keys; eassumption.
  - reflexivity.
  - intros g. apply init_Ok_inv in Hinit.
    destruct Hinit as (st & en & rr & _ & _ & _ & _ & _ & _ & ->).
    cbn [_group_slot_index]. rewrite dict_get_comprehension.
    destruct (bool_decide _); cbn; lia.
  - split; [exact Hnodup|].
    eapply Forall_impl; [exact Hall|]. cbn beta.
    intros s (g & q & j & t & Hq & Hj & -> & _).
    destruct (Hqueue g q Hq) as [_ Hb]. rewrite Forall_forall in Hb.
    apply nth_error_In, list_elem_of_In, Hb in Hj.
    exists t. split; [apply strptime_strftime; lia|exact Hj].
Qed.

(** X18 — an assigner built on positive group counts never answers the
    same slot twice, whatever the groups asked and in whatever order,
    failed calls included; every answer reads back as a minute of the
    window. *)
Theorem X18_slots_never_repeat groups start_str end_str a groups_asked :
  NoDup (Dict.keys groups) ->
  Forall (fun kv => 0 < snd kv) groups ->
  HostTimeAssigner.init groups start_str end_str = Some (Ok a) ->
  NoDup (ask_slots groups_asked a) /\
  Forall (fun s => exists t,
            HostTimeAssigner.strptime s = Some t /\ _start_time a <= t <= _end_time a)
         (ask_slots groups_asked a).
Proof.
  intros Hnd Hpos Hinit.
  exact (ask_slots_distinct groups start_str end_str a groups_asked Hnd Hpos Hinit).
Qed.

Lemma X18_slots_never_repeat_witness :
  let groups := [("control", 3); ("worker_small", 2); ("worker_big", 1)] in
  let asked := ["control"; "worker_small"; "worker_big"; "worker_big"; "control";
                "nobody"; "worker_small"; "control"; "control"] in
  exists a,
    HostTimeAssigner.init groups "02:00" "03:00" = Some (Ok a) /\
    ask_slots asked a = ["02:00"; "02:12"; "02:24"; "02:36"; "02:48"; "03:00"] /\
    NoDup (ask_slots asked a).
Proof.
  intros groups asked.
  assert (Hnd : NoDup (Dict.keys groups)).
  { refine (bool_decide_unpack _ _). vm_compute. exact I. }
  assert (Hpos : Forall (fun kv => 0 < snd kv) groups) by repeat constructor.
  eexists. split; [vm_compute; reflexivity|].
  split; [vm_compute; reflexivity|].
  refine (proj1 (X18_slots_never_repeat groups "02:00" "03:00" _ asked Hnd Hpos _)).
  vm_compute. reflexivity.
Defined.

(** X19 — on an assigner built on positive group counts [get_all_slots]
    answers, for a group of the configuration, what as many calls of
    [get_next_slot] as the group counts hosts answer one after the other,
    and further calls answer nothing more; for any other group both
    methods raise [ValueError]. *)
Theorem X19_get_all_slots_agrees groups start_str end_str a :
  NoDup (Dict.keys groups) ->
  Forall (fun kv => 0 < snd kv) groups ->
  HostTimeAssigner.init groups start_str end_str = Some (Ok a) ->
  (forall g c,
     Dict.get g groups = Some c ->
     HostTimeAssigner.get_all_slots g a = Ok (take_slots (Z.to_nat c) g a) /\
     length (take_slots (Z.to_nat c) g a) = Z.to_nat c /\
     forall n, (Z.to_nat c <= n)%nat -> take_slots n g a = take_slots (Z.to_nat c) g a) /\
  (forall g,
     Dict.get g groups = None ->
     HostTimeAssigner.get_all_slots g a = Err (ValueError (UnknownGroup g)) /\
     HostTimeAssigner.get_next_slot g a = Err (ValueError (UnknownGroup g))).
Proof.
  intros Hnd Hpos Hinit.
  destruct (init_slot_queues _ _ _ _ Hnd Hpos Hinit) as (Hqueues & _ & _).
  split.
  - intros g c Hc. destruct (Hqueues g c Hc) as (q & Hq & Hi & Hlen & _ & _).
    assert (Hc' : Z.to_nat c = length q) by lia.
    assert (Htake : forall n, take_slots n g a
                              = map HostTimeAssigner.strftime (firstn n q)).
    { intros n. now rewrite (take_slots_queue n a g q 0 Hq Hi). }
    unfold HostTimeAssigner.get_all_slots. rewrite Hq, !Htake, Hc', firstn_all.
    split; [reflexivity|]. split; [apply length_map|].
    intros n Hn. rewrite Htake, firstn_all2 by exact Hn. reflexivity.
  - intros g Hg.
    assert (Hq : Dict.get g (_group_slots a) = None).
    { destruct (Dict.get g (_group_slots a)) as [q|] eqn:Hq; [|reflexivity].
      exfalso. eapply init_queue_keys; eassumption. }
    unfold HostTimeAssigner.get_all_slots, HostTimeAssigner.get_next_slot.
    now rewrite Hq.
Qed.

Lemma X19_get_all_slots_agrees_witness :
  let groups := [("control", 3); ("worker_small", 2); ("worker_big", 1)] in
  exists a,
    HostTimeAssigner.init groups "02:00" "03:00" = Some (Ok a) /\
    HostTimeAssigner.get_all_slots "control" a = Ok ["02:00"; "02:36"; "03:00"] /\
    HostTimeAssigner.get_all_slots "control" a = Ok (take_slots (Z.to_nat 3) "control" a).
Proof.
  intros groups.
  assert (Hnd : NoDup (Dict.keys groups)).
  { refine (bool_decide_unpack _ _). vm_compute. exact I. }
  assert (Hpos : Forall (fun kv => 0 < snd kv) groups) by repeat constructor.
  eexists. split; [vm_compute; reflexivity|].
  split; [vm_compute; reflexivity|].
  refine (proj1 (proj1 (X19_get_all_slots_agrees groups "02:00" "03:00" _ Hnd Hpos _)
                   "control" 3 eq_refl)).
  vm_compute. reflexivity.
Defined.


Section HostBounds.

Lemma lor_bound a b n : 0 <= n -> 0 <= a < 2 ^ n -> 0 <= b < 2 ^ n -> 0 <= Z.lor a b < 2 ^ n.
Proof.
  intros Hn Ha Hb. split; [apply Z.lor_nonneg; lia|].
  destruct (Z.eq_dec (Z.lor a b) 0) as [->|Hne]; [apply Z.pow_pos_nonneg; lia|].
  assert (Hpos : 0 < Z.lor a b).
  { assert (0 <= Z.lor a b) by (apply Z.lor_nonneg; lia). lia. }
  apply Z.log2_lt_pow2; [exact Hpos|].
  rewrite Z.log2_lor by lia.
  destruct (Z.eq_dec a 0) as [->|Ha0], (Z.eq_dec b 0) as [->|Hb0].
  - exfalso. apply Hne. reflexivity.
  - rewrite Z.max_r by (cbn; apply Z.log2_nonneg). apply Z.log2_lt_pow2; lia.
  - rewrite Z.max_l by (cbn; apply Z.log2_nonneg). apply Z.log2_lt_pow2; lia.
  - apply Z.max_lub_lt; apply Z.log2_lt_pow2; lia.
Qed.

Lemma hostmask_shiftr net : IP.hostmask net = Z.shiftr IP.ALL_ONES (IP.prefixlen net).
Proof.
  unfold IP.hostmask, IP.netmask.
  rewrite (Z.lxor_comm IP.ALL_ONES (Z.shiftr _ _)), Z.lxor_assoc.
  now rewrite Z.lxor_nilpotent, Z.lxor_0_r.
Qed.

Lemma broadcast_bound net :
  0 <= IP.network_address net < 4294967296 -> 0 <= IP.prefixlen net ->
  IP.broadcast_address net < 4294967296.
Proof.
  intros Ha Hp. unfold IP.broadcast_address. rewrite hostmask_shiftr.
  assert (Hm : 0 <= Z.shiftr IP.ALL_ONES (IP.prefixlen net) < 2 ^ 32).
  { rewrite Z.shiftr_div_pow2 by exact Hp. unfold IP.ALL_ONES.
    assert (0 < 2 ^ IP.prefixlen net) by (apply Z.pow_pos_nonneg; lia).
    split; [apply Z.div_pos; lia|].
    apply Z.div_lt_upper_bound; [lia|]. change (2 ^ 32) with 4294967296. nia. }
  change 4294967296 with (2 ^ 32). apply lor_bound; [lia| |exact Hm].
  change (2 ^ 32) with 4294967296. lia.
Qed.

Lemma hosts_bound net a :
  0 <= IP.network_address net < 4294967296 -> 0 <= IP.prefixlen net ->
  a ∈ IP.hosts net -> 0 <= a < 4294967296.
Proof.
  intros Ha Hp. pose proof (broadcast_bound net Ha Hp) as Hb.
  unfold IP.hosts, IP.range.
  destruct (_ =? _); [rewrite elem_of_seqZ; lia|].
  destruct (_ =? _); [rewrite list_elem_of_singleton; lia|].
  rewrite elem_of_seqZ. lia.
Qed.

End HostBounds.

Section ParsedNetwork.

Lemma prefix_from_ip_int_nonneg x p : IP._prefix_from_ip_int x = Some p -> 0 <= p.
Proof.
  unfold IP._prefix_from_ip_int. cbv zeta.
  destruct (_ =? _); [|discriminate]. intros [= <-].
  unfold IP._count_righthand_zero_bits, IP.max_prefixlen.
  destruct (x =? 0); lia.
Qed.

Lemma make_netmask_nonneg mask p : IP._make_netmask mask = Some p -> 0 <= p.
Proof.
  unfold IP._make_netmask.
  destruct (IP._prefix_from_prefix_string mask) as [q|] eqn:Hq.
  - intros [= <-]. unfold IP._prefix_from_prefix_string in Hq.
    destruct mask as [|c m]; [discriminate|].
    destruct (Str.all_digits (String c m)) eqn:Hd; [|discriminate].
    cbv zeta in Hq. destruct (_ <=? _); [|discriminate].
    injection Hq as <-. apply (digits_val_nonneg (String c m) 0); [lia|exact Hd].
  - unfold IP._prefix_from_ip_string.
    destruct (IP.IPv4Address mask) as [x|]; [|discriminate].
    destruct (IP._prefix_from_ip_int x) as [q|] eqn:E.
    + intros [= <-]. eapply prefix_from_ip_int_nonneg, E.
    + apply prefix_from_ip_int_nonneg.
Qed.

Lemma parse_network_prefix s net : IP.parse_network s = Some net -> 0 <= IP.prefixlen net.
Proof.
  unfold IP.parse_network.
  assert (Hmake : forall addr plen,
            IP.make_network addr plen = Some net ->
            (forall p, plen = Some p -> 0 <= p) -> 0 <= IP.prefixlen net).
  { intros addr plen. unfold IP.make_network.
    destruct (IP.IPv4Address addr) as [a|]; [|discriminate].
    destruct plen as [p|]; [|discriminate]. cbv zeta.
    destruct (_ =? _); [|discriminate]. intros [= <-] Hp. cbn. now apply Hp. }
  destruct (Str.split "/" s) as [|addr [|mask [|x l]]]; try discriminate.
  - intros H. apply (Hmake _ _ H). intros p [= <-]. unfold IP.max_prefixlen. lia.
  - intros H. apply (Hmake _ _ H). intros p Hp. eapply make_netmask_nonneg, Hp.
Qed.

(** The hosts of a network that was read from a text are 32-bit
    addresses: their text reads back. *)
Lemma parsed_hosts_read_back s net a :
  IP.parse_network s = Some net -> a ∈ IP.hosts net ->
  IP.IPv4Address (IP.to_string a) = Some a.
Proof.
  intros Hparse Ha. apply IPv4Address_to_string.
  destruct (parse_network_inv _ _ Hparse) as [Hrange _].
  eapply hosts_bound; [exact Hrange|eapply parse_network_prefix, Hparse|exact Ha].
Qed.

End ParsedNetwork.

Section ReservedAddresses.
Import InventoryModule.

(** What the loop over the observed servers reserves. *)
Lemma reserve_existing_Done server p p' nm :
  _network_manager p = Some nm ->
  reserve_existing server p = Done tt p' ->
  addressing p' = (_network_manager p', snd (addressing p)) /\
  match recorded_address server with
  | Some ip =>
      exists a,
        IP.IPv4Address ip = Some a /\ (a ∈ IP.hosts (_network nm)) /\
        (a ∉ _assigned nm) /\
        _network_manager p'
        = Some (mkNetworkManager (_network nm) ({[a]} ∪ _assigned nm) (_ip_iter nm))
  | None => _network_manager p' = Some nm
  end.
Proof.
  intros Hnm. unfold reserve_existing, recorded_address.
  destruct (server_labels server !! "internal_ip") as [ip|];
    [|intros [= <-]; split; [reflexivity|exact Hnm]].
  destruct (String.eqb ip ""); [intros [= <-]; split; [reflexivity|exact Hnm]|].
  intros H. apply bind_Done_inv in H. destruct H as (p0 & p1 & Hget & H).
  injection Hget as <- <-. rewrite Hnm in H.
  destruct (NetworkManager.reserve_ip ip nm) as [nm'|e] eqn:Hres;
    [|destruct e; discriminate].
  injection H as <-. split; [reflexivity|].
  apply reserve_ip_inv in Hres. destruct Hres as (a & Ha & Hh & Hf & ->).
  exists a. cbn. auto.
Qed.

Lemma reserve_loop_Done servers : forall p p' nm,
  _network_manager p = Some nm ->
  for_ servers reserve_existing p = Done tt p' ->
  exists addrs,
    Forall2 (fun l a => IP.IPv4Address l = Some a) (omap recorded_address servers) addrs /\
    NoDup addrs /\
    Forall (fun a => (a ∈ IP.hosts (_network nm)) /\ (a ∉ _assigned nm)) addrs /\
    addressing p'
    = (Some (mkNetworkManager (_network nm) (list_to_set addrs ∪ _assigned nm)
                              (_ip_iter nm)),
       snd (addressing p)).
Proof.
  induction servers as [|server servers IH]; intros p p' nm Hnm H; cbn [for_] in H.
  - injection H as <-. exists []. cbn [omap list_omap].
    split; [constructor|]. split; [constructor|]. split; [constructor|].
    unfold addressing. rewrite Hnm. cbn. f_equal. f_equal.
    destruct nm as [n a i]. cbn. f_equal. now rewrite (left_id_L ∅ (∪) a).
  - apply bind_Done_inv in H. destruct H as ([] & p1 & Hone & H).
    destruct (reserve_existing_Done _ _ _ _ Hnm Hone) as [Hadr Hser].
    cbn [omap list_omap]. fold (omap recorded_address servers).
    destruct (recorded_address server) as [ip|].
    + destruct Hser as (a & Ha & Hh & Hf & Hnm1).
      destruct (IH _ _ _ Hnm1 H) as (addrs & Hall & Hnd & Hval & Hadr').
      cbn [_network _assigned _ip_iter] in Hval, Hadr'.
      exists (a :: addrs). split; [now constructor|].
      assert (Hnot : a ∉ addrs).
      { intros Hin. rewrite Forall_forall in Hval. apply Hval in Hin.
        destruct Hin as [_ Hin]. apply Hin, elem_of_union_l, elem_of_singleton.
        reflexivity. }
      split; [apply NoDup_cons; auto|]. split.
      * constructor; [auto|]. eapply Forall_impl; [exact Hval|]. cbn beta.
        intros x [H1 H2]. split; [exact H1|]. intros H3. apply H2, elem_of_union_r, H3.
      * rewrite Hadr', Hadr. cbn [snd]. f_equal. f_equal. f_equal.
        cbn [list_to_set].
        rewrite (comm_L (∪) {[a]} (list_to_set addrs)), <- (assoc_L (∪)). reflexivity.
    + destruct (IH _ _ _ Hser H) as (addrs & Hall & Hnd & Hval & Hadr').
      exists addrs. rewrite Hadr', Hadr. auto.
Qed.

End ReservedAddresses.


Lemma variable_settings_app varname l1 l2 :
  variable_settings varname (l1 ++ l2)
  = variable_settings varname l1 ++ variable_settings varname l2.
Proof. unfold variable_settings. apply omap_app. Qed.

Ltac keeps_addressing :=
  unfold keeps, addressing; intros ? ? ? [= _ <-];
  cbn [_network_manager _inventory]; rewrite ?variable_settings_app; simpl;
  rewrite ?app_nil_r; reflexivity.

#[global] Hint Extern 2 (keeps addressing (emit _)) => keeps_addressing : keeps.
#[global] Hint Extern 2 (keeps addressing (set_host_time_assigner _)) =>
  keeps_addressing : keeps.
#[global] Hint Extern 2 (keeps addressing (append_server_configured _)) =>
  keeps_addressing : keeps.
#[global] Hint Extern 2 (keeps addressing (append_volume_configured _)) =>
  keeps_addressing : keeps.

Section AssignedAddresses.
Import InventoryModule.

Lemma assign_addresses_app l1 : forall l2 free,
  assign_addresses (l1 ++ l2) free
  = assign_addresses l1 free ++ assign_addresses l2 (left_free l1 free).
Proof.
  induction l1 as [|[host [server|]] l1 IH]; intros l2 free;
    cbn [app assign_addresses left_free]; [reflexivity|now rewrite IH|].
  destruct free as [|a free]; cbn [tl]; rewrite IH; reflexivity.
Qed.

Lemma left_free_app l1 : forall l2 free,
  left_free (l1 ++ l2) free = left_free l2 (left_free l1 free).
Proof.
  induction l1 as [|[host [server|]] l1 IH]; intros l2 free;
    cbn [app left_free]; [reflexivity|apply IH|apply IH].
Qed.

(** A server the search answers records the address [_add_host] reads
    off it. *)
Lemma search_recorded servers name server_type image is_control is_worker s :
  _search_fitting_server servers name server_type image is_control is_worker = Some s ->
  In s servers /\ recorded_address s = Some (found_address s).
Proof.
  intros H.
  pose proof (search_first_fit servers name server_type image is_control is_worker) as Hfit.
  rewrite H in Hfit. destruct Hfit as (before & after & -> & _ & Hs).
  split; [apply in_elt|].
  destruct Hs as (_ & _ & _ & _ & _ & ip & Hip & Hne).
  unfold recorded_address, found_address. rewrite Hip. cbn.
  destruct (String.eqb_spec ip ""); [contradiction|reflexivity].
Qed.

(** What [_add_host] does to the allocator and to the addresses set. *)
Lemma add_host_addressing config group host lm server_type image is_control is_worker
    p lm' p' nm :
  _network_manager p = Some nm ->
  _add_host config group host lm server_type image is_control is_worker p = Done lm' p' ->
  exists ip nm',
    addressing p'
    = (Some nm', snd (addressing p) ++ [(hostname group host, VStr ip)]) /\
    match _search_fitting_server (_hcloud_servers p) (hostname group host)
            server_type image is_control is_worker with
    | Some server =>
        ip = found_address server /\
        (nm' = nm \/ NetworkManager.reserve_ip ip nm = Ok nm')
    | None => NetworkManager.get_next_ip nm = Ok (ip, nm')
    end.
Proof.
  intros Hnm. unfold _add_host, volume_plan. intros H.
  apply bind_Done_inv in H. destruct H as (p0 & p1 & Hget & H).
  injection Hget as <- <-. lazy zeta in H.
  apply bind_Done_inv in H. destruct H as ([location lm1] & p2 & Hblock & H).
  match type of Hblock with ?m _ = _ => assert (Hk : keeps addressing m) by keeping end.
  apply Hk in Hblock. clear Hk.
  apply bind_Done_inv in H. destruct H as (p3 & p3' & Hget & H).
  injection Hget as <- <-.
  assert (Hnm2 : _network_manager p2 = Some nm).
  { unfold addressing in Hblock. congruence. }
  apply bind_Done_inv in H. destruct H as (internal_ip & p4 & Hip & H).
  rewrite Hnm2 in Hip.
  assert (Hstep : exists nm',
            addressing p4 = (Some nm', snd (addressing p2)) /\
            match _search_fitting_server (_hcloud_servers p) (hostname group host)
                    server_type image is_control is_worker with
            | Some server =>
                internal_ip = found_address server /\
                (nm' = nm \/ NetworkManager.reserve_ip internal_ip nm = Ok nm')
            | None => NetworkManager.get_next_ip nm = Ok (internal_ip, nm')
            end).
  { destruct (_search_fitting_server (_hcloud_servers p) (hostname group host)
                server_type image is_control is_worker) as [server|].
    - fold (found_address server) in Hip.
      destruct (NetworkManager.reserve_ip (found_address server) nm) as [nm'|e] eqn:Hres.
      + apply bind_Done_inv in Hip. destruct Hip as ([] & q & Hset & Hret).
        injection Hset as <-. injection Hret as <- <-.
        exists nm'. split; [reflexivity|]. auto.
      + destruct e; try discriminate. injection Hip as <- <-.
        exists nm. split; [unfold addressing; now rewrite Hnm2|]. auto.
    - apply bind_Done_inv in Hip. destruct Hip as ([ip nm'] & q & Hnext & Hip).
      destruct (NetworkManager.get_next_ip nm) as [[ip0 nm0]|e]; [|discriminate].
      injection Hnext as <- <- <-.
      apply bind_Done_inv in Hip. destruct Hip as ([] & q & Hset & Hret).
      injection Hset as <-. injection Hret as <- <-.
      exists nm0. split; [reflexivity|reflexivity]. }
  destruct Hstep as (nm' & Hadr4 & Hfound).
  exists internal_ip, nm'. split; [|exact Hfound].
  apply bind_Done_inv in H. destruct H as ([] & p5 & H5 & H).
  assert (K5 : keeps addressing (emit (add_host (hostname group host) group))) by keeping.
  apply K5 in H5.
  apply bind_Done_inv in H. destruct H as ([] & p6 & H6 & H).
  match type of H6 with ?m _ = _ => assert (K6 : keeps addressing m) by keeping end.
  apply K6 in H6.
  apply bind_Done_inv in H. destruct H as ([] & p7 & H7 & H).
  match type of H7 with ?m _ = _ => assert (K7 : keeps addressing m) by keeping end.
  apply K7 in H7.
  apply bind_Done_inv in H. destruct H as ([] & p8 & H8 & H).
  assert (Hadr8 : addressing p8
                  = (fst (addressing p7),
                     snd (addressing p7) ++ [(hostname group host, VStr internal_ip)])).
  { injection H8 as <-. unfold addressing. cbn [_network_manager _inventory fst snd].
    now rewrite variable_settings_app. }
  match type of H with ?m _ = _ => assert (K9 : keeps addressing m) by keeping end.
  apply K9 in H. rewrite H, Hadr8, H7, H6, H5, Hadr4, Hblock. reflexivity.
Qed.

(** The allocator between two hosts: its generator has no repeats, the
    addresses it can still give are [free], and it holds every address
    an observed server records. *)
Lemma host_step servers nm free host found ip nm' :
  NoDup (_ip_iter nm) ->
  filter (fun a => a ∉ _assigned nm) (_ip_iter nm) = free ->
  (forall s l a, In s servers -> recorded_address s = Some l ->
                 IP.IPv4Address l = Some a -> a ∈ _assigned nm) ->
  (forall s, found = Some s -> In s servers /\ recorded_address s = Some (found_address s)) ->
  match found with
  | Some server =>
      ip = found_address server /\
      (nm' = nm \/ NetworkManager.reserve_ip ip nm = Ok nm')
  | None => NetworkManager.get_next_ip nm = Ok (ip, nm')
  end ->
  [(host, VStr ip)] = assign_addresses [(host, found)] free /\
  NoDup (_ip_iter nm') /\
  filter (fun a => a ∉ _assigned nm') (_ip_iter nm') = left_free [(host, found)] free /\
  (forall s l a, In s servers -> recorded_address s = Some l ->
                 IP.IPv4Address l = Some a -> a ∈ _assigned nm').
Proof.
  intros Hnd Hfree Hcov Hfound Hstep. destruct found as [server|].
  - destruct Hstep as [-> Hnm].
    destruct (Hfound server eq_refl) as [Hin Hrec].
    assert (nm' = nm) as ->.
    { destruct Hnm as [->|Hres]; [reflexivity|].
      apply reserve_ip_inv in Hres. destruct Hres as (a & Ha & _ & Hf & _).
      exfalso. apply Hf. eapply Hcov; eassumption. }
    cbn [assign_addresses left_free]. auto.
  - unfold NetworkManager.get_next_ip in Hstep.
    pose proof (next_free_filter (_ip_iter nm) (_assigned nm) Hnd) as Hnext.
    destruct (NetworkManager.next_free (_ip_iter nm) (_assigned nm)) as [[a it']|];
      [|discriminate].
    injection Hstep as <- <-. destruct Hnext as ([skipped Hit] & Ha & Hf).
    rewrite Hf in Hfree. subst free. cbn [assign_addresses left_free tl _ip_iter _assigned].
    split; [reflexivity|]. split.
    + rewrite Hit in Hnd. apply NoDup_app in Hnd. destruct Hnd as (_ & _ & Hnd).
      apply NoDup_cons in Hnd. apply Hnd.
    + split; [reflexivity|]. intros s l b Hs Hl Hb.
      apply elem_of_union_r. eapply Hcov; eassumption.
Qed.

Lemma add_hosts_addressing config group server_type image is_control is_worker hosts :
  forall lm p lm' p' nm free,
  _network_manager p = Some nm ->
  NoDup (_ip_iter nm) ->
  filter (fun a => a ∉ _assigned nm) (_ip_iter nm) = free ->
  (forall s l a, In s (_hcloud_servers p) -> recorded_address s = Some l ->
                 IP.IPv4Address l = Some a -> a ∈ _assigned nm) ->
  fold_M (fun location_manager host =>
            _add_host config group host location_manager server_type image
                      is_control is_worker) hosts lm p = Done lm' p' ->
  let found :=
    map (fun host =>
           (hostname group host,
            _search_fitting_server (_hcloud_servers p) (hostname group host)
              server_type image is_control is_worker)) hosts in
  exists nm',
    addressing p' = (Some nm', snd (addressing p) ++ assign_addresses found free) /\
    map fst (assign_addresses found free) = map fst found /\
    _hcloud_servers p' = _hcloud_servers p /\
    NoDup (_ip_iter nm') /\
    filter (fun a => a ∉ _assigned nm') (_ip_iter nm') = left_free found free /\
    (forall s l a, In s (_hcloud_servers p) -> recorded_address s = Some l ->
                   IP.IPv4Address l = Some a -> a ∈ _assigned nm').
Proof.
  induction hosts as [|host hosts IH]; intros lm p lm' p' nm free Hnm Hnd Hfree Hcov H;
    cbn [fold_M map] in *.
  - injection H as _ <-. exists nm. cbn [assign_addresses left_free map].
    rewrite app_nil_r. unfold addressing. rewrite Hnm. auto 10.
  - apply bind_Done_inv in H. destruct H as (lm1 & p1 & Hadd & H).
    pose proof (add_host_claims _ _ _ _ _ _ _ _ _ _ _ Hadd) as [Hs1 _].
    destruct (add_host_addressing _ _ _ _ _ _ _ _ _ _ _ _ Hnm Hadd)
      as (ip & nm1 & Hadr1 & Hstep).
    destruct (host_step (_hcloud_servers p) nm free (hostname group host)
                (_search_fitting_server (_hcloud_servers p) (hostname group host)
                   server_type image is_control is_worker) ip nm1
                Hnd Hfree Hcov) as (Hout & Hnd1 & Hfree1 & Hcov1).
    { intros s Hs. eapply search_recorded, Hs. }
    { exact Hstep. }
    assert (Hnm1 : _network_manager p1 = Some nm1).
    { unfold addressing in Hadr1. congruence. }
    rewrite <- Hs1 in Hcov1.
    destruct (IH _ _ _ _ _ _ Hnm1 Hnd1 Hfree1 Hcov1 H)
      as (nm' & Hadr & Hfst & Hs & Hnd' & Hfree' & Hcov').
    rewrite Hs1 in Hadr, Hfst, Hs, Hfree', Hcov'.
    exists nm'.
    change ((hostname group host, ?f) :: ?rest) with ([(hostname group host, f)] ++ rest).
    rewrite assign_addresses_app, left_free_app.
    rewrite Hadr, Hadr1. cbn [snd]. rewrite <- app_assoc, Hout.
    rewrite !map_app, Hfst, <- Hout. auto 10.
Qed.

Lemma keeps_addressing_emits c :
  variable_settings "internal_ip" [c] = [] -> keeps addressing (emit c).
Proof.
  intros Hc p a p' [= _ <-]. unfold addressing. cbn [_network_manager _inventory].
  now rewrite variable_settings_app, Hc, app_nil_r.
Qed.

Lemma prepare_group_addressing config group p p' nm free :
  _network_manager p = Some nm ->
  NoDup (_ip_iter nm) ->
  filter (fun a => a ∉ _assigned nm) (_ip_iter nm) = free ->
  (forall s l a, In s (_hcloud_servers p) -> recorded_address s = Some l ->
                 IP.IPv4Address l = Some a -> a ∈ _assigned nm) ->
  _prepare_group config group p = Done tt p' ->
  let found :=
    map (fun h => (desired_hostname h, claimed config (_hcloud_servers p) h))
        (map (pair group)
             (Py.range 1 (default 0 (_get_group_config config group g_num) + 1))) in
  exists nm',
    addressing p' = (Some nm', snd (addressing p) ++ assign_addresses found free) /\
    map fst (assign_addresses found free) = map fst found /\
    _hcloud_servers p' = _hcloud_servers p /\
    NoDup (_ip_iter nm') /\
    filter (fun a => a ∉ _assigned nm') (_ip_iter nm') = left_free found free /\
    (forall s l a, In s (_hcloud_servers p) -> recorded_address s = Some l ->
                   IP.IPv4Address l = Some a -> a ∈ _assigned nm').
Proof.
  intros Hnm Hnd Hfree Hcov H. unfold _prepare_group in H.
  assert (Hstep : forall {C} c (f : unit -> M C) q r q',
            (emit c ≫= f) q = Done r q' ->
            variable_settings "internal_ip" [c] = [] ->
            exists q1, f tt q1 = Done r q' /\
              addressing q1 = addressing q /\ _hcloud_servers q1 = _hcloud_servers q).
  { intros C c f q r q' Hb Hc.
    apply bind_Done_inv in Hb. destruct Hb as ([] & q1 & Hm & Hf).
    exists q1. split; [exact Hf|]. split.
    - eapply keeps_addressing_emits; eassumption.
    - eapply preserves_emit, Hm. }
  apply Hstep in H; [|reflexivity]. destruct H as (q1 & H & A1 & S1).
  apply Hstep in H; [|reflexivity]. destruct H as (q2 & H & A2 & S2).
  apply Hstep in H; [|reflexivity]. destruct H as (q3 & H & A3 & S3).
  destruct (_get_group_config config group g_type) as [server_type|] eqn:Htype;
    [|discriminate].
  destruct (String.eqb server_type ""); [discriminate|].
  apply Hstep in H; [|reflexivity]. destruct H as (q4 & H & A4 & S4).
  destruct (String.eqb (default "debian-12" (_get_group_config config group g_image)) "");
    [discriminate|].
  apply Hstep in H; [|reflexivity]. destruct H as (q5 & H & A5 & S5).
  destruct (_get_group_config config group g_num) as [num_hosts|] eqn:Hnum;
    [|discriminate].
  apply bind_Done_inv in H. destruct H as (lm & q6 & Hfold & H).
  injection H as <-.
  assert (A : addressing q5 = addressing p) by congruence.
  assert (S : _hcloud_servers q5 = _hcloud_servers p) by congruence.
  assert (Hnm5 : _network_manager q5 = Some nm).
  { unfold addressing in A. congruence. }
  rewrite <- S in Hcov.
  destruct (add_hosts_addressing _ _ _ _ _ _ _ _ _ _ _ _ _ Hnm5 Hnd Hfree Hcov Hfold)
    as (nm' & Hadr & Hfst & Hs & Hnd' & Hfree' & Hcov').
  rewrite S in Hadr, Hfst, Hs, Hfree', Hcov'. rewrite A in Hadr.
  exists nm'. cbn [default]. rewrite !map_map.
  unfold claimed, desired_hostname. cbn [fst snd]. rewrite Htype. cbn [default].
  rewrite !map_map in Hfst. cbn [fst] in Hfst. auto 10.
Qed.

Lemma prepare_groups_addressing config groups : forall p p' nm free,
  _network_manager p = Some nm ->
  NoDup (_ip_iter nm) ->
  filter (fun a => a ∉ _assigned nm) (_ip_iter nm) = free ->
  (forall s l a, In s (_hcloud_servers p) -> recorded_address s = Some l ->
                 IP.IPv4Address l = Some a -> a ∈ _assigned nm) ->
  for_ groups (_prepare_group config) p = Done tt p' ->
  let found :=
    map (fun h => (desired_hostname h, claimed config (_hcloud_servers p) h))
        (flat_map
           (fun group =>
              map (pair group)
                  (Py.range 1 (default 0 (_get_group_config config group g_num) + 1)))
           groups) in
  exists nm',
    addressing p' = (Some nm', snd (addressing p) ++ assign_addresses found free) /\
    map fst (assign_addresses found free) = map fst found /\
    _hcloud_servers p' = _hcloud_servers p.
Proof.
  induction groups as [|group groups IH]; intros p p' nm free Hnm Hnd Hfree Hcov H;
    cbn [for_ flat_map map] in *.
  - injection H as <-. exists nm. cbn [assign_addresses map]. rewrite app_nil_r.
    unfold addressing. now rewrite Hnm.
  - apply bind_Done_inv in H. destruct H as ([] & p1 & Hgroup & H).
    destruct (prepare_group_addressing _ _ _ _ _ _ Hnm Hnd Hfree Hcov Hgroup)
      as (nm1 & Hadr1 & Hfst1 & Hs1 & Hnd1 & Hfree1 & Hcov1).
    assert (Hnm1 : _network_manager p1 = Some nm1).
    { unfold addressing in Hadr1. congruence. }
    rewrite <- Hs1 in Hcov1.
    destruct (IH _ _ _ _ Hnm1 Hnd1 Hfree1 Hcov1 H) as (nm' & Hadr & Hfst & Hs).
    rewrite Hs1 in Hadr, Hfst, Hs. exists nm'.
    rewrite map_app, assign_addresses_app, Hadr, Hadr1. cbn [snd].
    rewrite <- app_assoc, !map_app, Hfst, Hfst1. auto 10.
Qed.

Lemma Forall2_In_l_exists {A C} (P : A -> C -> Prop) l k x :
  Forall2 P l k -> In x l -> exists y, In y k /\ P x y.
Proof.
  induction 1 as [|a c l k Hac _ IH]; [intros []|].
  intros [<-|Hin]; [exists c; split; [now left|exact Hac]|].
  destruct (IH Hin) as (y & Hy & Hxy). exists y. split; [now right|exact Hxy].
Qed.

Lemma recorded_In servers s l :
  In s servers -> recorded_address s = Some l -> In l (omap recorded_address servers).
Proof.
  induction servers as [|s0 servers IH]; [intros []|].
  cbn [omap list_omap]. fold (omap recorded_address servers).
  intros [->|Hin] Hrec.
  - rewrite Hrec. now left.
  - destruct (recorded_address s0); [right|]; now apply IH.
Qed.

(** The observed servers whose recorded addresses were all reserved
    record different addresses. *)
Lemma recorded_distinct servers : forall addrs,
  Forall2 (fun l a => IP.IPv4Address l = Some a) (omap recorded_address servers) addrs ->
  NoDup addrs ->
  forall s s' l,
    In s servers -> In s' servers ->
    recorded_address s = Some l -> recorded_address s' = Some l -> s = s'.
Proof.
  induction servers as [|s0 servers IH]; intros addrs Hall Hnd s s' l Hs Hs' Hl Hl';
    [destruct Hs|].
  cbn [omap list_omap] in Hall. fold (omap recorded_address servers) in Hall.
  destruct (recorded_address s0) as [l0|] eqn:Hrec0.
  - inversion Hall as [|? a0 ? addrs' Ha0 Hall']; subst.
    apply NoDup_cons in Hnd. destruct Hnd as [Hnot Hnd].
    assert (Hclash : forall x, In x servers -> recorded_address x = Some l0 -> False).
    { intros x Hx Hrx. pose proof (recorded_In _ _ _ Hx Hrx) as Hin.
      destruct (Forall2_In_l_exists _ _ _ _ Hall' Hin) as (a & Ha & Hla).
      assert (a = a0) by congruence. subst a.
      apply Hnot, list_elem_of_In, Ha. }
    destruct Hs as [<-|Hs], Hs' as [<-|Hs'].
    + reflexivity.
    + exfalso. apply (Hclash s' Hs'). congruence.
    + exfalso. apply (Hclash s Hs). congruence.
    + eapply IH; eassumption.
  - destruct Hs as [<-|Hs]; [congruence|]. destruct Hs' as [<-|Hs']; [congruence|].
    eapply IH; eassumption.
Qed.

Lemma assign_addresses_In found : forall free h v,
  In (h, v) (assign_addresses found free) ->
  (exists s, In (h, Some s) found /\ v = VStr (found_address s)) \/
  (exists a, In a free /\ v = VStr (IP.to_string a)).
Proof.
  induction found as [|[h0 [s0|]] found IH]; intros free h v Hin;
    cbn [assign_addresses] in Hin; [destruct Hin| |].
  - destruct Hin as [[= <- <-]|Hin]; [left; exists s0; split; [now left|reflexivity]|].
    destruct (IH _ _ _ Hin) as [(s & Hs & Hv)|Hfree]; [|now right].
    left. exists s. split; [now right|exact Hv].
  - destruct free as [|a free].
    + destruct (IH _ _ _ Hin) as [(s & Hs & Hv)|(a & [] & _)].
      left. exists s. split; [now right|exact Hv].
    + destruct Hin as [[= <- <-]|Hin]; [right; exists a; split; [now left|reflexivity]|].
      destruct (IH _ _ _ Hin) as [(s & Hs & Hv)|(b & Hb & Hv)].
      * left. exists s. split; [now right|exact Hv].
      * right. exists b. split; [now right|exact Hv].
Qed.

(** No address is given twice. *)
Lemma assign_addresses_NoDup servers (addrs : list Z) found :
  (forall h s, In (h, Some s) found ->
     server_name s = h /\ In s servers /\ recorded_address s = Some (found_address s)) ->
  (forall s s' l, In s servers -> In s' servers ->
     recorded_address s = Some l -> recorded_address s' = Some l -> s = s') ->
  (forall s l, In s servers -> recorded_address s = Some l ->
     exists a, IP.IPv4Address l = Some a /\ In a addrs) ->
  NoDup (map fst found) ->
  forall free,
    NoDup free ->
    (forall a, In a free -> ~ In a addrs /\ IP.IPv4Address (IP.to_string a) = Some a) ->
    NoDup (map snd (assign_addresses found free)).
Proof.
  intros Hfound Hdist Hvalid.
  assert (Hmixed : forall s a free,
            In s servers -> recorded_address s = Some (found_address s) ->
            (forall a, In a free -> ~ In a addrs /\ IP.IPv4Address (IP.to_string a) = Some a) ->
            In a free -> found_address s = IP.to_string a -> False).
  { intros s a free Hs Hrec Hfree Ha E.
    destruct (Hvalid _ _ Hs Hrec) as (a0 & Ha0 & Hin0).
    destruct (Hfree a Ha) as [Hnot Hback]. rewrite E in Ha0.
    assert (a0 = a) by congruence. subst a0. contradiction. }
  induction found as [|[h [s|]] found IH]; intros Hnd free Hndf Hfree;
    cbn [assign_addresses map snd]; [constructor| |].
  - cbn [map fst] in Hnd. apply NoDup_cons in Hnd. destruct Hnd as [Hh Hnd].
    destruct (Hfound h s (or_introl eq_refl)) as (Hname & Hs & Hrec).
    apply NoDup_cons. split.
    + intros Hin. apply list_elem_of_In, in_map_iff in Hin.
      destruct Hin as ([h' v] & Hv & Hin). cbn [snd] in Hv. subst v.
      apply assign_addresses_In in Hin.
      destruct Hin as [(s' & Hs' & [= E])|(a & Ha & [= E])].
      * destruct (Hfound h' s' (or_intror Hs')) as (Hname' & Hin' & Hrec').
        assert (s = s').
        { eapply Hdist; [exact Hs|exact Hin'|exact Hrec|]. now rewrite E. }
        subst s'. apply Hh, list_elem_of_In, in_map_iff.
        exists (h', Some s). split; [cbn; congruence|exact Hs'].
      * eapply Hmixed; eassumption.
    + apply IH; [|exact Hnd|exact Hndf|exact Hfree].
      intros h' s' Hin. apply Hfound. now right.
  - cbn [map fst] in Hnd. apply NoDup_cons in Hnd. destruct Hnd as [Hh Hnd].
    assert (Hfound' : forall h' s', In (h', Some s') found ->
              server_name s' = h' /\ In s' servers /\
              recorded_address s' = Some (found_address s')).
    { intros h' s' Hin. apply Hfound. now right. }
    destruct free as [|a free]; [now apply IH|].
    apply NoDup_cons in Hndf. destruct Hndf as [Ha Hndf].
    cbn [map snd]. apply NoDup_cons. split.
    + intros Hin. apply list_elem_of_In, in_map_iff in Hin.
      destruct Hin as ([h' v] & Hv & Hin). cbn [snd] in Hv. subst v.
      apply assign_addresses_In in Hin.
      destruct Hin as [(s' & Hs' & [= E])|(b & Hb & [= E])].
      * destruct (Hfound' h' s' Hs') as (_ & Hin' & Hrec').
        eapply (Hmixed s' a (a :: free)); [exact Hin'|exact Hrec'|exact Hfree| |];
          [now left|congruence].
      * destruct (Hfree a (or_introl eq_refl)) as [_ Hback].
        destruct (Hfree b (or_intror Hb)) as [_ Hback'].
        rewrite E in Hback. assert (a = b) by congruence. subst b.
        apply Ha, list_elem_of_In, Hb.
    + apply IH; [exact Hfound'|exact Hnd|exact Hndf|].
      intros b Hb. apply Hfree. now right.
Qed.

(** The addresses a complete [_initialize_inventory] has set. *)
Lemma initialize_inventory_addressing config p p' :
  _initialize_inventory config p = Done tt p' ->
  exists net addrs,
    IP.parse_network (default "10.0.0.0/24" (network_private_cidr config)) = Some net /\
    Forall2 (fun l a => IP.IPv4Address l = Some a)
            (omap recorded_address (_hcloud_servers p)) addrs /\
    NoDup addrs /\
    Forall (fun a => a ∈ IP.hosts net) addrs /\
    variable_settings "internal_ip" (_inventory p')
    = variable_settings "internal_ip" (_inventory p) ++
      assign_addresses (found_hosts config (_hcloud_servers p))
                       (filter (fun a => a ∉ addrs) (IP.hosts net)) /\
    map fst (assign_addresses (found_hosts config (_hcloud_servers p))
                              (filter (fun a => a ∉ addrs) (IP.hosts net)))
    = map desired_hostname (desired_hosts config).
Proof.
  unfold _initialize_inventory. intros H.
  assert (Hstep : forall {A C} (m : M A) (f : A -> M C) q r q',
            (m ≫= f) q = Done r q' ->
            keeps addressing m -> preserves m ->
            exists a q1, f a q1 = Done r q' /\
              addressing q1 = addressing q /\ _hcloud_servers q1 = _hcloud_servers q).
  { intros A C m f q r q' Hb K1 K2.
    apply bind_Done_inv in Hb. destruct Hb as (a & q1 & Hm & Hf).
    exists a, q1. split; [exact Hf|].
    split; [exact (K1 _ _ _ Hm)|exact (proj1 (K2 _ _ _ Hm))]. }
  apply Hstep in H; [|keeping|preserving]. destruct H as ([] & q1 & H & A1 & S1).
  apply Hstep in H; [|keeping|preserving]. destruct H as ([] & q2 & H & A2 & S2).
  apply Hstep in H; [|keeping|preserving]. destruct H as ([] & q3 & H & A3 & S3).
  apply Hstep in H; [|keeping|preserving]. destruct H as ([] & q4 & H & A4 & S4).
  apply Hstep in H; [|unfold _init_host_time_assigner; keeping
                     |apply preserves_init_host_time_assigner].
  destruct H as ([] & q5 & H & A5 & S5).
  apply bind_Done_inv in H. destruct H as (nm0 & q6 & Hinit & H).
  unfold NetworkManager.init in Hinit.
  destruct (IP.parse_network (default "10.0.0.0/24" (network_private_cidr config)))
    as [net|] eqn:Hnet; [|discriminate].
  injection Hinit as <- <-.
  apply bind_Done_inv in H. destruct H as ([] & q7 & Hset & H).
  injection Hset as <-.
  apply bind_Done_inv in H. destruct H as (p0 & q8 & Hget & H).
  injection Hget as <- <-. cbn [_hcloud_servers] in H.
  apply bind_Done_inv in H. destruct H as ([] & q9 & Hres & H).
  pose proof (preserves_for _ _ preserves_reserve_existing _ _ _ Hres) as [S9 _].
  cbn [_hcloud_servers] in S9.
  apply reserve_loop_Done with (nm := mkNetworkManager net ∅ (IP.hosts net)) in Hres;
    [|reflexivity].
  destruct Hres as (addrs & Hall & Hnd & Hval & A9).
  cbn [_network _assigned _ip_iter] in Hval, A9.
  unfold addressing at 2 in A9. cbn [_inventory snd] in A9.
  apply bind_Done_inv in H. destruct H as ([] & q10 & Hgroups & H).
  assert (Hnm9 : _network_manager q9
                 = Some (mkNetworkManager net (list_to_set addrs ∪ ∅) (IP.hosts net))).
  { unfold addressing in A9. congruence. }
  assert (Sq : _hcloud_servers q9 = _hcloud_servers p) by congruence.
  rewrite S5 in Hall.
  assert (Hall' : Forall2 (fun l a => IP.IPv4Address l = Some a)
                    (omap recorded_address (_hcloud_servers p)) addrs) by congruence.
  assert (Hcov : forall s l a,
            In s (_hcloud_servers q9) -> recorded_address s = Some l ->
            IP.IPv4Address l = Some a ->
            a ∈ _assigned (mkNetworkManager net (list_to_set addrs ∪ ∅) (IP.hosts net))).
  { rewrite Sq. intros s l a Hs Hl Ha. cbn [_assigned].
    pose proof (recorded_In _ _ _ Hs Hl) as Hin.
    destruct (Forall2_In_l_exists _ _ _ _ Hall' Hin) as (a' & Ha' & Hla).
    assert (a' = a) by congruence. subst a'.
    apply elem_of_union_l, elem_of_list_to_set, list_elem_of_In, Ha'. }
  destruct (prepare_groups_addressing config _ q9 q10 _ _ Hnm9 (hosts_NoDup net) eq_refl
              Hcov Hgroups) as (nm' & A10 & Hfst & S10).
  cbn [_assigned _ip_iter] in A10, Hfst. rewrite Sq in A10, Hfst.
  assert (Hrest : addressing p' = addressing q10).
  { apply Hstep in H; [|unfold _set_orphan_volumes_for_cleanup; keeping
                       |apply preserves_set_orphan_volumes].
    destruct H as ([] & q11 & H & A11 & S11).
    apply Hstep in H; [|unfold _clean_hetzner_server; keeping
                       |apply preserves_clean_hetzner_server].
    destruct H as ([] & q12 & H & A12 & S12).
    assert (K : keeps addressing (emit (set_variable "all" "ansible_user" (VStr "root"))))
      by keeping.
    rewrite (K _ _ _ H). congruence. }
  assert (Hfilter : filter (fun a => a ∉ (list_to_set addrs ∪ ∅ : gset Z)) (IP.hosts net)
                    = filter (fun a => a ∉ addrs) (IP.hosts net)).
  { apply filter_ext_elem. intros a _.
    rewrite elem_of_union, elem_of_list_to_set, elem_of_empty. tauto. }
  rewrite Hfilter in A10, Hfst.
  exists net, addrs. split; [reflexivity|]. split; [exact Hall'|]. split; [exact Hnd|].
  split; [eapply Forall_impl; [exact Hval|]; cbn beta; tauto|].
  unfold found_hosts, desired_hosts. split.
  - assert (E : snd (addressing p') = snd (addressing q10)) by congruence.
    rewrite A10 in E. cbn [snd] in E. unfold addressing in E. cbn [snd] in E.
    assert (E9 : variable_settings "internal_ip" (_inventory q9)
                 = variable_settings "internal_ip" (_inventory p)).
    { clear - A1 A2 A3 A4 A5 A9. unfold addressing in *. congruence. }
    rewrite E, E9. reflexivity.
  - rewrite Hfst, map_map. reflexivity.
Qed.

End AssignedAddresses.

(** X20 — a pass completes only if the internal addresses the observed
    servers record are pairwise different host addresses of the private
    network; it then sets [internal_ip] once for every desired host, in
    order: a host that has found a server keeps the address the server
    records, every other host is given the lowest host address of the
    network that no observed server records and no earlier host was
    given.  When the desired hostnames are pairwise different, so are
    the addresses. *)
Theorem X20_internal_addresses config cloud servers inventory p :
  servers_get_all cloud = inr servers ->
  InventoryModule.parse config cloud (fresh inventory) = Done tt p ->
  exists net addrs,
    IP.parse_network (default "10.0.0.0/24" (network_private_cidr config)) = Some net /\
    Forall2 (fun l a => IP.IPv4Address l = Some a) (omap recorded_address servers) addrs /\
    NoDup addrs /\
    Forall (fun a => a ∈ IP.hosts net) addrs /\
    variable_settings "internal_ip" (_inventory p)
    = variable_settings "internal_ip" inventory ++
      assign_addresses (found_hosts config servers)
                       (filter (fun a => a ∉ addrs) (IP.hosts net)) /\
    map fst (assign_addresses (found_hosts config servers)
                              (filter (fun a => a ∉ addrs) (IP.hosts net)))
    = map desired_hostname (desired_hosts config) /\
    (NoDup (map desired_hostname (desired_hosts config)) ->
     NoDup (map snd (assign_addresses (found_hosts config servers)
                                      (filter (fun a => a ∉ addrs) (IP.hosts net))))).
Proof.
  intros Hservers H.
  destruct (parse_Done_inv _ _ _ _ _ Hservers H) as [hvs Hinit].
  apply initialize_inventory_addressing in Hinit.
  cbn [_hcloud_servers _inventory] in Hinit.
  destruct Hinit as (net & addrs & Hnet & Hall & Hnd & Hval & Hset & Hfst).
  exists net, addrs. repeat (split; [assumption|]).
  intros Hnames.
  apply (assign_addresses_NoDup servers addrs).
  - intros h s Hin. unfold found_hosts in Hin. apply in_map_iff in Hin.
    destruct Hin as (dh & [= <- Hc] & _).
    destruct (claimed_Some _ _ _ _ Hc) as [Hs Hname].
    split; [exact Hname|]. unfold claimed in Hc. eapply search_recorded, Hc.
  - eapply recorded_distinct; eassumption.
  - intros s l Hs Hl. pose proof (recorded_In _ _ _ Hs Hl) as Hin.
    destruct (Forall2_In_l_exists _ _ _ _ Hall Hin) as (a & Ha & Hla). eauto.
  - unfold found_hosts. now rewrite map_map.
  - apply NoDup_filter, hosts_NoDup.
  - intros a Ha. apply list_elem_of_In, list_elem_of_filter in Ha.
    destruct Ha as [Hnot Hhost]. split.
    + intros Hin. apply Hnot, list_elem_of_In, Hin.
    + eapply parsed_hosts_read_back; eassumption.
Qed.

Lemma X20_internal_addresses_witness :
  exists p,
    InventoryModule.parse Sample.small_cluster
      (mkCloudAPI (inr [Sample.server_control_1; Sample.server_stray]) (inr []))
      (fresh []) = Done tt p /\
    variable_settings "internal_ip" (_inventory p)
    = [("control-1", VStr "10.0.0.1"); ("control-2", VStr "10.0.0.2");
       ("control-3", VStr "10.0.0.3"); ("worker-small-1", VStr "10.0.0.4");
       ("worker-small-2", VStr "10.0.0.5")] /\
    exists net addrs,
      IP.parse_network (default "10.0.0.0/24" (network_private_cidr Sample.small_cluster))
      = Some net /\
      Forall2 (fun l a => IP.IPv4Address l = Some a)
              (omap recorded_address [Sample.server_control_1; Sample.server_stray]) addrs /\
      variable_settings "internal_ip" (_inventory p)
      = variable_settings "internal_ip" [] ++
        assign_addresses
          (found_hosts Sample.small_cluster [Sample.server_control_1; Sample.server_stray])
          (filter (fun a => a ∉ addrs) (IP.hosts net)).
Proof.
  eexists. split; [vm_compute; reflexivity|].
  split; [vm_compute; reflexivity|].
  match goal with
  | |- context [_inventory ?q] =>
      destruct (X20_internal_addresses Sample.small_cluster
                  (mkCloudAPI (inr [Sample.server_control_1; Sample.server_stray]) (inr []))
                  [Sample.server_control_1; Sample.server_stray] [] q eq_refl)
        as (net & addrs & Hnet & Hall & _ & _ & Hset & _)
  end.
  - vm_compute. reflexivity.
  - exists net, addrs. auto.
Defined.


Ltac keeps_scheduling :=
  unfold keeps, scheduling; intros ? ? ? [= _ <-];
  cbn [_host_time_assigner _inventory]; rewrite ?variable_settings_app; simpl;
  rewrite ?app_nil_r; reflexivity.

#[global] Hint Extern 2 (keeps scheduling (emit _)) => keeps_scheduling : keeps.
#[global] Hint Extern 2 (keeps scheduling (set_network_manager _)) =>
  keeps_scheduling : keeps.
#[global] Hint Extern 2 (keeps scheduling (append_server_configured _)) =>
  keeps_scheduling : keeps.
#[global] Hint Extern 2 (keeps scheduling (append_volume_configured _)) =>
  keeps_scheduling : keeps.

Section UpgradeTimes.
Import InventoryModule.

(** What [_add_host] does to the scheduler and to the upgrade times set. *)
Lemma add_host_scheduling config group host lm server_type image is_control is_worker
    p lm' p' a :
  _host_time_assigner p = Some a ->
  _add_host config group host lm server_type image is_control is_worker p = Done lm' p' ->
  exists slot a',
    HostTimeAssigner.get_next_slot group a = Ok (slot, a') /\
    scheduling p'
    = (Some a', snd (scheduling p) ++ [(hostname group host, VStr slot)]).
Proof.
  intros Ha. unfold _add_host, volume_plan. intros H.
  apply bind_Done_inv in H. destruct H as (p0 & p1 & Hget & H).
  injection Hget as <- <-. lazy zeta in H.
  apply bind_Done_inv in H. destruct H as ([location lm1] & p2 & Hblock & H).
  match type of Hblock with ?m _ = _ => assert (Hk : keeps scheduling m) by keeping end.
  apply Hk in Hblock. clear Hk.
  apply bind_Done_inv in H. destruct H as (p3 & p3' & Hget & H).
  injection Hget as <- <-.
  apply bind_Done_inv in H. destruct H as (internal_ip & p4 & Hip & H).
  match type of Hip with ?m _ = _ => assert (Hk : keeps scheduling m) by keeping end.
  apply Hk in Hip. clear Hk.
  apply bind_Done_inv in H. destruct H as ([] & p5 & H5 & H).
  match type of H5 with ?m _ = _ => assert (K5 : keeps scheduling m) by keeping end.
  apply K5 in H5.
  apply bind_Done_inv in H. destruct H as ([] & p6 & H6 & H).
  match type of H6 with ?m _ = _ => assert (K6 : keeps scheduling m) by keeping end.
  apply K6 in H6.
  apply bind_Done_inv in H. destruct H as ([] & p7 & H7 & H).
  match type of H7 with ?m _ = _ => assert (K7 : keeps scheduling m) by keeping end.
  apply K7 in H7.
  apply bind_Done_inv in H. destruct H as ([] & p8 & H8 & H).
  match type of H8 with ?m _ = _ => assert (K8 : keeps scheduling m) by keeping end.
  apply K8 in H8.
  assert (S8 : scheduling p8 = scheduling p) by congruence.
  apply bind_Done_inv in H. destruct H as (p9 & p9' & Hget & H).
  injection Hget as <- <-.
  assert (Ha8 : _host_time_assigner p8 = Some a).
  { unfold scheduling in S8. congruence. }
  apply bind_Done_inv in H. destruct H as (upgrade_time & p10 & Hslot & H).
  rewrite Ha8 in Hslot.
  apply bind_Done_inv in Hslot. destruct Hslot as ([slot a'] & q & Hnext & Hslot).
  destruct (HostTimeAssigner.get_next_slot group a) as [[slot0 a0]|e]; [|discriminate].
  injection Hnext as <- <- <-.
  apply bind_Done_inv in Hslot. destruct Hslot as ([] & q & Hset & Hret).
  injection Hset as <-. injection Hret as <- <-.
  exists slot0, a0. split; [reflexivity|].
  apply bind_Done_inv in H. destruct H as ([] & p11 & H11 & H).
  assert (S11 : scheduling p11
                = (Some a0, snd (scheduling p8) ++ [(hostname group host, VStr slot0)])).
  { injection H11 as <-. unfold scheduling.
    cbn [_host_time_assigner _inventory fst snd]. now rewrite variable_settings_app. }
  match type of H with ?m _ = _ => assert (K12 : keeps scheduling m) by keeping end.
  apply K12 in H. rewrite H, S11, S8. reflexivity.
Qed.

Lemma ask_slots_app gs1 : forall gs2 a,
  Forall (fun _ => True) gs2 ->
  exists a', ask_slots (gs1 ++ gs2) a = ask_slots gs1 a ++ ask_slots gs2 a'.
Proof.
  induction gs1 as [|g gs1 IH]; intros gs2 a Hall; cbn [app ask_slots]; [eauto|].
  destruct (HostTimeAssigner.get_next_slot g a) as [[slot a1]|e].
  - destruct (IH gs2 a1 Hall) as [a' ->]. eauto.
  - apply IH, Hall.
Qed.

Lemma add_hosts_scheduling config group server_type image is_control is_worker hosts :
  forall lm p lm' p' a,
  _host_time_assigner p = Some a ->
  fold_M (fun location_manager host =>
            _add_host config group host location_manager server_type image
                      is_control is_worker) hosts lm p = Done lm' p' ->
  exists a' slots,
    scheduling p'
    = (Some a',
       snd (scheduling p) ++
       combine (map (hostname group) hosts) (map VStr slots)) /\
    length slots = length hosts /\
    forall rest, ask_slots (map (fun _ => group) hosts ++ rest) a = slots ++ ask_slots rest a'.
Proof.
  induction hosts as [|host hosts IH]; intros lm p lm' p' a Ha H; cbn [fold_M map] in *.
  - injection H as _ <-. exists a, []. cbn [combine map length app].
    rewrite app_nil_r. unfold scheduling. rewrite Ha. auto.
  - apply bind_Done_inv in H. destruct H as (lm1 & p1 & Hadd & H).
    destruct (add_host_scheduling _ _ _ _ _ _ _ _ _ _ _ _ Ha Hadd)
      as (slot & a1 & Hnext & S1).
    assert (Ha1 : _host_time_assigner p1 = Some a1).
    { unfold scheduling in S1. congruence. }
    destruct (IH _ _ _ _ _ Ha1 H) as (a' & slots & S & Hlen & Hask).
    exists a', (slot :: slots). split; [|split].
    + rewrite S, S1. cbn [snd map combine]. now rewrite <- app_assoc.
    + cbn [length]. now rewrite Hlen.
    + intros rest. cbn [app ask_slots]. rewrite Hnext, Hask. reflexivity.
Qed.

Lemma prepare_group_scheduling config group p p' a :
  _host_time_assigner p = Some a ->
  _prepare_group config group p = Done tt p' ->
  let hosts :=
    map (pair group)
        (Py.range 1 (default 0 (_get_group_config config group g_num) + 1)) in
  exists a' slots,
    scheduling p'
    = (Some a',
       snd (scheduling p) ++ combine (map desired_hostname hosts) (map VStr slots)) /\
    length slots = length hosts /\
    forall rest, ask_slots (map fst hosts ++ rest) a = slots ++ ask_slots rest a'.
Proof.
  intros Ha H. unfold _prepare_group in H.
  assert (Hstep : forall {C} c (f : unit -> M C) q r q',
            (emit c ≫= f) q = Done r q' ->
            variable_settings "upgrade_time" [c] = [] ->
            exists q1, f tt q1 = Done r q' /\ scheduling q1 = scheduling q).
  { intros C c f q r q' Hb Hc.
    apply bind_Done_inv in Hb. destruct Hb as ([] & q1 & Hm & Hf).
    exists q1. split; [exact Hf|]. injection Hm as <-. unfold scheduling.
    cbn [_host_time_assigner _inventory].
    now rewrite variable_settings_app, Hc, app_nil_r. }
  apply Hstep in H; [|reflexivity]. destruct H as (q1 & H & S1).
  apply Hstep in H; [|reflexivity]. destruct H as (q2 & H & S2).
  apply Hstep in H; [|reflexivity]. destruct H as (q3 & H & S3).
  destruct (_get_group_config config group g_type) as [server_type|]; [|discriminate].
  destruct (String.eqb server_type ""); [discriminate|].
  apply Hstep in H; [|reflexivity]. destruct H as (q4 & H & S4).
  destruct (String.eqb (default "debian-12" (_get_group_config config group g_image)) "");
    [discriminate|].
  apply Hstep in H; [|reflexivity]. destruct H as (q5 & H & S5).
  destruct (_get_group_config config group g_num) as [num_hosts|]; [|discriminate].
  apply bind_Done_inv in H. destruct H as (lm & q6 & Hfold & H).
  injection H as <-.
  assert (S : scheduling q5 = scheduling p) by congruence.
  assert (Ha5 : _host_time_assigner q5 = Some a).
  { unfold scheduling in S. congruence. }
  destruct (add_hosts_scheduling _ _ _ _ _ _ _ _ _ _ _ _ Ha5 Hfold)
    as (a' & slots & S' & Hlen & Hask).
  exists a', slots. cbn [default]. rewrite !map_map, length_map.
  unfold desired_hostname. cbn [fst snd]. rewrite S in S'. auto.
Qed.

Lemma combine_app {A C} (l1 l2 : list A) (k1 k2 : list C) :
  length l1 = length k1 -> combine (l1 ++ l2) (k1 ++ k2) = combine l1 k1 ++ combine l2 k2.
Proof.
  revert k1. induction l1 as [|x l1 IH]; intros [|y k1] Hlen; try discriminate;
    [reflexivity|].
  cbn [app combine]. f_equal. apply IH. now injection Hlen.
Qed.

Lemma prepare_groups_scheduling config groups : forall p p' a,
  _host_time_assigner p = Some a ->
  for_ groups (_prepare_group config) p = Done tt p' ->
  let hosts :=
    flat_map
      (fun group =>
         map (pair group)
             (Py.range 1 (default 0 (_get_group_config config group g_num) + 1)))
      groups in
  exists a' slots,
    scheduling p'
    = (Some a',
       snd (scheduling p) ++ combine (map desired_hostname hosts) (map VStr slots)) /\
    length slots = length hosts /\
    forall rest, ask_slots (map fst hosts ++ rest) a = slots ++ ask_slots rest a'.
Proof.
  induction groups as [|group groups IH]; intros p p' a Ha H; cbn [for_ flat_map] in *.
  - injection H as <-. exists a, []. cbn [combine map length app].
    rewrite app_nil_r. unfold scheduling. rewrite Ha. auto.
  - apply bind_Done_inv in H. destruct H as ([] & p1 & Hgroup & H).
    destruct (prepare_group_scheduling _ _ _ _ _ Ha Hgroup) as (a1 & slots1 & S1 & L1 & K1).
    assert (Ha1 : _host_time_assigner p1 = Some a1).
    { unfold scheduling in S1. congruence. }
    destruct (IH _ _ _ Ha1 H) as (a' & slots & S & L & K).
    exists a', (slots1 ++ slots). split; [|split].
    + rewrite S, S1. cbn [snd]. rewrite !map_app, combine_app, <- app_assoc;
        [reflexivity|]. rewrite !length_map. rewrite length_map in L1. congruence.
    + rewrite !length_app. cbn zeta in L1, L. congruence.
    + intros rest. rewrite map_app, <- !app_assoc, K1, K. reflexivity.
Qed.

(** A scheduler the pass has built was built on positive counts. *)
Lemma init_Ok_positive groups start_str end_str a :
  NoDup (Dict.keys groups) ->
  HostTimeAssigner.init groups start_str end_str = Some (Ok a) ->
  Forall (fun kv => 0 < snd kv) groups.
Proof.
  intros Hnd Hinit. apply init_Ok_inv in Hinit.
  destruct Hinit as (st & en & rr & _ & _ & _ & _ & _ & Hrr & _).
  destruct (decide (Forall (fun kv : string * Z => 0 < snd kv) groups)) as [H|H];
    [exact H|].
  exfalso. apply not_Forall_Exists in H; [|intros x; apply _].
  assert (Hex : Exists (fun kv : string * Z => snd kv <= 0) groups).
  { eapply Exists_impl; [exact H|]. intros x Hx. unfold compose in Hx. lia. }
  unfold HostTimeAssigner._interleave_groups in Hrr.
  rewrite (interleave_loop_diverges _ _ _ Hnd Hex) in Hrr. discriminate.
Qed.

End UpgradeTimes.


Section PassSchedule.
Import InventoryModule.

Lemma init_host_time_assigner_Done config p p' :
  _init_host_time_assigner config p = Done tt p' ->
  exists start_str end_str a,
    unattended_upgrades_start_time config = Some start_str /\
    unattended_upgrades_end_time config = Some end_str /\
    HostTimeAssigner.init (host_counts config) start_str end_str = Some (Ok a) /\
    scheduling p' = (Some a, snd (scheduling p)).
Proof.
  unfold _init_host_time_assigner. cbv zeta.
  destruct (unattended_upgrades_start_time config) as [start_str|]; [|discriminate].
  destruct (unattended_upgrades_end_time config) as [end_str|]; [|discriminate].
  destruct (HostTimeAssigner.init (host_counts config) start_str end_str)
    as [[a|e]|] eqn:Hinit; try discriminate.
  intros H. apply bind_Done_inv in H. destruct H as (a0 & q & Hl & H).
  injection Hl as <- <-. injection H as <-.
  exists start_str, end_str, a. repeat split; try reflexivity. exact Hinit.
Qed.

(** A complete [parse] has passed both validations and loaded both
    lists before it ran [_initialize_inventory]. *)
Lemma parse_Done_stages config cloud inventory p :
  parse config cloud (fresh inventory) = Done tt p ->
  exists servers hvs,
    _validate_config_structure config = Ok tt /\
    servers_get_all cloud = inr servers /\
    volumes_get_all cloud = inr hvs /\
    _validate_config_logic config hvs = Ok tt /\
    _initialize_inventory config (mkPlugin [] [] servers hvs inventory None None)
    = Done tt p.
Proof.
  intros H. unfold parse in H.
  apply bind_Done_inv in H. destruct H as ([] & p1 & Hstruct & H).
  destruct (_validate_config_structure config) as [[]|e]; [|discriminate].
  injection Hstruct as <-.
  apply bind_Done_inv in H. destruct H as ([] & p2 & Hload & H).
  unfold _load_hcloud_data in Hload.
  destruct (negb _); [discriminate|].
  destruct (servers_get_all cloud) as [d|servers]; [discriminate|].
  destruct (volumes_get_all cloud) as [d|hvs]; [discriminate|].
  injection Hload as <-.
  apply bind_Done_inv in H. destruct H as (p0 & p3 & Hget & H).
  injection Hget as <- <-.
  apply bind_Done_inv in H. destruct H as ([] & p4 & Hlogic & H).
  cbn [_hcloud_volumes] in Hlogic.
  destruct (_validate_config_logic config hvs) as [[]|e] eqn:El; [|discriminate].
  injection Hlogic as <-. exists servers, hvs.
  repeat split; try reflexivity; assumption.
Qed.

(** The upgrade times a complete [_initialize_inventory] has set. *)
Lemma initialize_inventory_scheduling config p p' :
  _initialize_inventory config p = Done tt p' ->
  exists start_str end_str a slots,
    unattended_upgrades_start_time config = Some start_str /\
    unattended_upgrades_end_time config = Some end_str /\
    HostTimeAssigner.init (host_counts config) start_str end_str = Some (Ok a) /\
    ask_slots (map fst (desired_hosts config)) a = slots /\
    length slots = length (desired_hosts config) /\
    variable_settings "upgrade_time" (_inventory p')
    = variable_settings "upgrade_time" (_inventory p) ++
      combine (map desired_hostname (desired_hosts config)) (map VStr slots).
Proof.
  unfold _initialize_inventory. intros H.
  assert (Hstep : forall {A C} (m : M A) (f : A -> M C) q r q',
            (m ≫= f) q = Done r q' ->
            keeps scheduling m ->
            exists a q1, f a q1 = Done r q' /\ scheduling q1 = scheduling q).
  { intros A C m f q r q' Hb K1.
    apply bind_Done_inv in Hb. destruct Hb as (a & q1 & Hm & Hf).
    exists a, q1. split; [exact Hf|exact (K1 _ _ _ Hm)]. }
  apply Hstep in H; [|keeping]. destruct H as ([] & q1 & H & S1).
  apply Hstep in H; [|keeping]. destruct H as ([] & q2 & H & S2).
  apply Hstep in H; [|keeping]. destruct H as ([] & q3 & H & S3).
  apply Hstep in H; [|keeping]. destruct H as ([] & q4 & H & S4).
  apply bind_Done_inv in H. destruct H as ([] & q5 & Hinit & H).
  apply init_host_time_assigner_Done in Hinit.
  destruct Hinit as (start_str & end_str & a & Hs & He & Hinit & S5).
  apply Hstep in H; [|keeping]. destruct H as (nm & q6 & H & S6).
  apply Hstep in H; [|keeping]. destruct H as ([] & q7 & H & S7).
  apply Hstep in H; [|keeping]. destruct H as (p0 & q8 & H & S8).
  apply Hstep in H; [|unfold reserve_existing; keeping].
  destruct H as ([] & q9 & H & S9).
  apply bind_Done_inv in H. destruct H as ([] & q10 & Hgroups & H).
  assert (Ha9 : _host_time_assigner q9 = Some a).
  { unfold scheduling in *. congruence. }
  destruct (prepare_groups_scheduling _ _ _ _ _ Ha9 Hgroups) as (a' & slots & S10 & L & K).
  assert (Hrest : scheduling p' = scheduling q10).
  { apply Hstep in H; [|unfold _set_orphan_volumes_for_cleanup; keeping].
    destruct H as ([] & q11 & H & S11).
    apply Hstep in H; [|unfold _clean_hetzner_server; keeping].
    destruct H as ([] & q12 & H & S12).
    assert (K0 : keeps scheduling (emit (set_variable "all" "ansible_user" (VStr "root"))))
      by keeping.
    rewrite (K0 _ _ _ H). congruence. }
  exists start_str, end_str, a, slots.
  split; [exact Hs|]. split; [exact He|]. split; [exact Hinit|].
  split; [|split].
  - specialize (K []). rewrite app_nil_r in K. cbn [ask_slots] in K.
    rewrite app_nil_r in K. exact K.
  - exact L.
  - assert (E : snd (scheduling p') = snd (scheduling q10)) by congruence.
    rewrite S10 in E. cbn [snd] in E.
    assert (E9 : snd (scheduling q9) = snd (scheduling p)).
    { clear - S1 S2 S3 S4 S5 S6 S7 S8 S9. unfold scheduling in *. cbn [snd] in *.
      congruence. }
    rewrite E9 in E. exact E.
Qed.

End PassSchedule.

(** X21 — a pass that completes has built its scheduler on the replica
    counts of the groups and has set [upgrade_time] once for every
    desired host, in order, to what the scheduler answers for the group
    of the host; the times of the hosts are pairwise different, and each
    reads back as a minute of the upgrade window. *)
Theorem X21_upgrade_times config cloud inventory p :
  InventoryModule.parse config cloud (fresh inventory) = Done tt p ->
  exists start_str end_str a slots,
    unattended_upgrades_start_time config = Some start_str /\
    unattended_upgrades_end_time config = Some end_str /\
    HostTimeAssigner.init (InventoryModule.host_counts config) start_str end_str
    = Some (Ok a) /\
    ask_slots (map fst (desired_hosts config)) a = slots /\
    length slots = length (desired_hosts config) /\
    variable_settings "upgrade_time" (_inventory p)
    = variable_settings "upgrade_time" inventory ++
      combine (map desired_hostname (desired_hosts config)) (map VStr slots) /\
    NoDup slots /\
    Forall (fun s => exists t,
              HostTimeAssigner.strptime s = Some t /\ _start_time a <= t <= _end_time a)
           slots.
Proof.
  intros H. apply parse_Done_stages in H.
  destruct H as (servers & hvs & _ & _ & _ & _ & H).
  apply initialize_inventory_scheduling in H. cbn [_inventory] in H.
  destruct H as (start_str & end_str & a & slots & Hs & He & Hinit & Hask & Hlen & Hset).
  exists start_str, end_str, a, slots. repeat (split; [assumption|]).
  assert (Hnd : NoDup (Dict.keys (InventoryModule.host_counts config)))
    by apply dict_comprehension_NoDup.
  pose proof (init_Ok_positive _ _ _ _ Hnd Hinit) as Hpos.
  rewrite <- Hask.
  exact (ask_slots_distinct _ _ _ _ (map fst (desired_hosts config)) Hnd Hpos Hinit).
Qed.

Lemma X21_upgrade_times_witness :
  exists p,
    InventoryModule.parse Sample.small_cluster
      (mkCloudAPI (inr [Sample.server_control_1; Sample.server_stray]) (inr []))
      (fresh []) = Done tt p /\
    variable_settings "upgrade_time" (_inventory p)
    = [("control-1", VStr "02:00"); ("control-2", VStr "02:30");
       ("control-3", VStr "03:00"); ("worker-small-1", VStr "02:15");
       ("worker-small-2", VStr "02:45")] /\
    exists slots,
      variable_settings "upgrade_time" (_inventory p)
      = variable_settings "upgrade_time" [] ++
        combine (map desired_hostname (desired_hosts Sample.small_cluster))
                (map VStr slots) /\
      NoDup slots.
Proof.
  eexists. split; [vm_compute; reflexivity|].
  split; [vm_compute; reflexivity|].
  match goal with
  | |- context [_inventory ?q] =>
      destruct (X21_upgrade_times Sample.small_cluster
                  (mkCloudAPI (inr [Sample.server_control_1; Sample.server_stray]) (inr []))
                  [] q)
        as (start_str & end_str & a & slots & _ & _ & _ & _ & _ & Hset & Hnd & _)
  end.
  - vm_compute. reflexivity.
  - exists slots. auto.
Defined.


Section Guarding.

Lemma guarded_ret {A} (P : A -> Prop) (a : A) : P a -> guarded P (mret a).
Proof. intros Ha p Hp. cbn. auto. Qed.

Lemma guarded_raise {A} (P : A -> Prop) e : pass_error e -> guarded P (@raise A e).
Proof. intros He p Hp. exact He. Qed.

Lemma guarded_hangs {A} (P : A -> Prop) : guarded P (fun _ : Plugin => @Hangs A).
Proof. intros p Hp. exact I. Qed.

Lemma guarded_lift {A} (r : result A) :
  (forall e, r = Err e -> pass_error e) -> guarded (fun a => r = Ok a) (lift r).
Proof.
  intros He. destruct r as [a|e]; [now apply guarded_ret|].
  apply guarded_raise, He. reflexivity.
Qed.

Lemma guarded_get : guarded ready get.
Proof. intros p Hp. cbn. auto. Qed.

Lemma guarded_emit c : guarded (fun _ => True) (emit c).
Proof. intros p Hp. cbn. split; [exact Hp|exact I]. Qed.

Lemma guarded_set_host_time_assigner a :
  guarded (fun _ => True) (set_host_time_assigner a).
Proof. intros p [Hn _]. cbn. split; [split; [exact Hn|discriminate]|exact I]. Qed.

Lemma guarded_set_network_manager nm :
  guarded (fun _ => True) (set_network_manager nm).
Proof. intros p [_ Ha]. cbn. split; [split; [discriminate|exact Ha]|exact I]. Qed.

Lemma guarded_append_server_configured id :
  guarded (fun _ => True) (append_server_configured id).
Proof. intros p Hp. cbn. split; [exact Hp|exact I]. Qed.

Lemma guarded_append_volume_configured name :
  guarded (fun _ => True) (append_volume_configured name).
Proof. intros p Hp. cbn. split; [exact Hp|exact I]. Qed.

Lemma guarded_weaken {A} (P P' : A -> Prop) (m : M A) :
  guarded P m -> (forall a, P a -> P' a) -> guarded P' m.
Proof.
  intros Hm HP p Hp. specialize (Hm p Hp).
  destruct (m p) as [a p'|e p'|]; [|exact Hm|exact I].
  destruct Hm as [H1 H2]. auto.
Qed.

Lemma guarded_bind {A C} (P : A -> Prop) (P' : C -> Prop) (m : M A) (f : A -> M C) :
  guarded P m -> (forall a, P a -> guarded P' (f a)) -> guarded P' (m ≫= f).
Proof.
  intros Hm Hf p Hp. specialize (Hm p Hp). unfold mbind, M_bind.
  destruct (m p) as [a p1|e p1|]; [|exact Hm|exact I].
  destruct Hm as [H1 Ha]. exact (Hf a Ha p1 H1).
Qed.

Lemma guarded_for {A} (xs : list A) (body : A -> M unit) :
  (forall x, In x xs -> guarded (fun _ => True) (body x)) ->
  guarded (fun _ => True) (for_ xs body).
Proof.
  induction xs as [|x xs IH]; intros Hbody; cbn [for_]; [now apply guarded_ret|].
  eapply guarded_bind; [apply Hbody; now left|].
  intros _ _. apply IH. intros y Hy. apply Hbody. now right.
Qed.

Lemma guarded_fold_M {A S} (body : S -> A -> M S) (xs : list A) :
  (forall s x, In x xs -> guarded (fun _ => True) (body s x)) ->
  forall s, guarded (fun _ => True) (fold_M body xs s).
Proof.
  induction xs as [|x xs IH]; intros Hbody s; cbn [fold_M]; [now apply guarded_ret|].
  eapply guarded_bind; [apply Hbody; now left|].
  intros s' _. apply IH. intros s0 y Hy. apply Hbody. now right.
Qed.

End Guarding.

Section HelperErrors.

Lemma increment_error item lm e : ValueManager.increment item lm = Err e -> pass_error e.
Proof.
  unfold ValueManager.increment. destruct item as [i|]; [|now intros [= <-]].
  destruct (existsb _ _); [discriminate|now intros [= <-]].
Qed.

Lemma get_next_error lm e : ValueManager.get_next lm = Err e -> pass_error e.
Proof.
  unfold ValueManager.get_next. destruct (_counts lm); [now intros [= <-]|discriminate].
Qed.

Lemma get_next_ip_error nm e : NetworkManager.get_next_ip nm = Err e -> pass_error e.
Proof.
  unfold NetworkManager.get_next_ip.
  destruct (NetworkManager.next_free _ _) as [[ip it]|]; [discriminate|now intros [= <-]].
Qed.

Lemma reserve_ip_error ip nm e :
  NetworkManager.reserve_ip ip nm = Err e -> is_ValueError e = true.
Proof.
  unfold NetworkManager.reserve_ip.
  destruct (IP.IPv4Address ip) as [a|]; [|now intros [= <-]].
  destruct (negb _); [now intros [= <-]|].
  destruct (bool_decide _); [now intros [= <-]|discriminate].
Qed.

Lemma get_next_slot_error g a e :
  HostTimeAssigner.get_next_slot g a = Err e -> pass_error e.
Proof.
  unfold HostTimeAssigner.get_next_slot.
  destruct (Dict.get g (_group_slots a)) as [q|]; [|now intros [= <-]].
  cbv zeta. destruct (nth_error _ _); [discriminate|now intros [= <-]].
Qed.

Lemma get_current_ip_error server e :
  InventoryModule._get_current_ip server = Err e -> pass_error e.
Proof.
  unfold InventoryModule._get_current_ip.
  destruct (primary_ipv4 server); [discriminate|].
  destruct (primary_ipv6_host server); [discriminate|now intros [= <-]].
Qed.

Lemma config_gb_error s e : InventoryModule.config_gb s = Err e -> pass_error e.
Proof.
  unfold InventoryModule.config_gb. cbv zeta.
  destruct (Py.int _); [discriminate|now intros [= <-]].
Qed.

Lemma network_init_error cidr e : NetworkManager.init cidr = Err e -> pass_error e.
Proof.
  unfold NetworkManager.init.
  destruct (IP.parse_network cidr); [discriminate|now intros [= <-]].
Qed.

Lemma assigner_init_error groups start_str end_str e :
  HostTimeAssigner.init groups start_str end_str = Some (Err e) -> pass_error e.
Proof.
  unfold HostTimeAssigner.init.
  destruct (HostTimeAssigner.strptime start_str); [|now intros [= <-]].
  destruct (HostTimeAssigner.strptime end_str); [|now intros [= <-]].
  destruct (_ <=? _); [now intros [= <-]|]. cbv zeta.
  destruct (_ =? _); [now intros [= <-]|].
  destruct (_ <? _); [now intros [= <-]|].
  destruct (HostTimeAssigner._interleave_groups groups); discriminate.
Qed.

End HelperErrors.

Create HintDb pass_errors.

#[global] Hint Resolve increment_error get_next_error get_next_ip_error
  get_next_slot_error get_current_ip_error config_gb_error : pass_errors.

Ltac guarding :=
  repeat (lazy beta zeta;
    match goal with
    | H : ready ?a, E : _network_manager ?a = None |- _ => exfalso; exact (proj1 H E)
    | H : ready ?a, E : _host_time_assigner ?a = None |- _ => exfalso; exact (proj2 H E)
    | E : NetworkManager.reserve_ip _ _ = Err (AnsibleError _) |- _ =>
        apply reserve_ip_error in E; discriminate E
    | E : NetworkManager.reserve_ip _ _ = Err (RuntimeError _) |- _ =>
        apply reserve_ip_error in E; discriminate E
    | E : NetworkManager.reserve_ip _ _ = Err (AttributeError _) |- _ =>
        apply reserve_ip_error in E; discriminate E
    | |- guarded _ (mbind _ get) =>
        eapply guarded_bind; [apply guarded_get|intros ? ?]
    | |- guarded _ (mbind _ (lift _)) =>
        eapply guarded_bind; [apply guarded_lift; eauto with pass_errors|intros ? ?]
    | |- guarded _ (mbind _ _) =>
        apply (guarded_bind (fun _ => True)); [|intros ? _]
    | |- guarded (fun _ => True) (mret _) => apply guarded_ret; exact I
    | |- guarded _ (raise _) => apply guarded_raise; exact I
    | |- guarded (fun _ => True) (lift _) =>
        eapply guarded_weaken;
        [apply guarded_lift; eauto with pass_errors|intros ? _; exact I]
    | |- guarded (fun _ => True) (emit _) => apply guarded_emit
    | |- guarded (fun _ => True) (set_host_time_assigner _) =>
        apply guarded_set_host_time_assigner
    | |- guarded (fun _ => True) (set_network_manager _) =>
        apply guarded_set_network_manager
    | |- guarded (fun _ => True) (append_server_configured _) =>
        apply guarded_append_server_configured
    | |- guarded (fun _ => True) (append_volume_configured _) =>
        apply guarded_append_volume_configured
    | |- guarded (fun _ => True) (for_ _ _) => apply guarded_for; intros ? ?
    | |- guarded (fun _ => True) (fold_M _ _ _) =>
        apply guarded_fold_M; intros ? ? ?
    | |- guarded _ (fun _ => Hangs) => apply guarded_hangs
    | |- guarded _ (match ?x with _ => _ end) => destruct x eqn:?
    end).

Section PassErrors.
Import InventoryModule.

Lemma guarded_add_host config group host lm server_type image is_control is_worker :
  guarded (fun _ => True)
    (_add_host config group host lm server_type image is_control is_worker).
Proof. unfold _add_host, volume_plan. guarding. Qed.

Lemma guarded_prepare_group config group :
  group_well_formed config group ->
  guarded (fun _ => True) (_prepare_group config group).
Proof.
  intros (_ & Htype & Hnum). unfold _prepare_group.
  destruct (_get_group_config config group g_type) as [server_type|]; [|discriminate].
  cbn in Htype. destruct (String.eqb server_type ""); [discriminate|].
  destruct (_get_group_config config group g_num) as [num_hosts|]; [|congruence].
  guarding. apply guarded_add_host.
Qed.

Lemma guarded_reserve_existing server : guarded (fun _ => True) (reserve_existing server).
Proof. unfold reserve_existing. guarding. Qed.

Lemma guarded_rest config :
  Forall (group_well_formed config) (Dict.keys (nodes config)) ->
  forall servers,
  guarded (fun _ => True)
    (for_ servers reserve_existing ;;
     for_ (Dict.keys (nodes config)) (_prepare_group config) ;;
     _set_orphan_volumes_for_cleanup ;;
     _clean_hetzner_server ;;
     emit (set_variable "all" "ansible_user" (VStr "root"))).
Proof.
  intros Hwf servers.
  unfold _set_orphan_volumes_for_cleanup, _clean_hetzner_server. guarding.
  - apply guarded_reserve_existing.
  - apply guarded_prepare_group. rewrite Forall_forall in Hwf.
    now apply Hwf, list_elem_of_In.
Qed.

Lemma validate_structure_groups config :
  _validate_config_structure config = Ok tt ->
  Forall (group_well_formed config) (Dict.keys (nodes config)).
Proof.
  intros H. unfold _validate_config_structure in H.
  destruct (checks_before_quorum config) as [cc|e] eqn:Hq; [|discriminate].
  unfold checks_before_quorum in Hq.
  destruct (nodes config) as [|kv rest] eqn:Hnodes; [discriminate|].
  rewrite <- Hnodes in *.
  destruct (negb _); [discriminate|]. destruct (_ || _); [discriminate|].
  destruct (fold_result _ _ _) as [[[hc hw] cc']|e] eqn:Hfold; [|discriminate].
  apply check_groups_Ok_inv in Hfold. apply Hfold.
Qed.

Lemma check_group_error config vars group e :
  check_group config vars group = Err e -> pass_error e.
Proof.
  destruct vars as [[hc hw] cc]. unfold check_group.
  repeat match goal with
         | |- context [if ?b then _ else _] => destruct b
         | |- context [match ?o with Some _ => _ | None => _ end] => destruct o
         end; intros [= <-] || discriminate; exact I.
Qed.

Lemma validate_structure_error config e :
  _validate_config_structure config = Err e -> pass_error e.
Proof.
  intros H. unfold _validate_config_structure in H.
  destruct (checks_before_quorum config) as [cc|e'] eqn:Hq.
  - cbn [mbind result_bind] in H.
    destruct (cc =? 2); [injection H as <-; exact I|].
    apply for_result_Err in H. destruct H as (v & _ & H).
    unfold check_volume in H.
    destruct (String.eqb (v_name v) ""); [injection H as <-; exact I|].
    destruct (String.eqb (v_size v) ""); [injection H as <-; exact I|discriminate].
  - cbn [mbind result_bind] in H. injection H as <-.
    unfold checks_before_quorum in Hq.
    destruct (nodes config); [injection Hq as <-; exact I|].
    destruct (negb _); [injection Hq as <-; exact I|].
    destruct (_ || _); [injection Hq as <-; exact I|].
    destruct (fold_result _ _ _) as [[[hc hw] cc]|e1] eqn:Hfold.
    + cbn [mbind result_bind] in Hq.
      destruct hc; cbn [negb] in Hq; [|injection Hq as <-; exact I].
      destruct hw; cbn [negb] in Hq; [discriminate|].
      injection Hq as <-; exact I.
    + cbn [mbind result_bind] in Hq. injection Hq as <-.
      clear - Hfold. revert Hfold. generalize (false, false, 0).
      match goal with
      | |- context [fold_result _ ?l _] => generalize l
      end.
      intros groups.
      induction groups as [|group groups IH]; intros vars;
        [cbn [fold_result]; discriminate|].
      change (fold_result (check_group config) (group :: groups) vars)
        with (check_group config vars group ≫= fold_result (check_group config) groups).
      destruct (check_group config vars group) as [vars'|e'] eqn:Hg.
      * cbn [mbind result_bind]. apply IH.
      * cbn [mbind result_bind]. intros [= <-]. eapply check_group_error, Hg.
Qed.

Lemma bind_Raised_inv {A C} (m : M A) (f : A -> M C) p e p' :
  (m ≫= f) p = Raised e p' ->
  m p = Raised e p' \/ exists a p1, m p = Done a p1 /\ f a p1 = Raised e p'.
Proof.
  unfold mbind, M_bind. destruct (m p) as [a p1|e1 p1|].
  - intros H. right. exists a, p1. split; [reflexivity|exact H].
  - intros [= <- <-]. left. reflexivity.
  - discriminate.
Qed.

Lemma init_host_time_assigner_error config p e p' :
  _init_host_time_assigner config p = Raised e p' -> pass_error e.
Proof.
  unfold _init_host_time_assigner. cbv zeta.
  destruct (unattended_upgrades_start_time config) as [start_str|];
    [|intros [= <- _]; exact I].
  destruct (unattended_upgrades_end_time config) as [end_str|];
    [|intros [= <- _]; exact I].
  destruct (HostTimeAssigner.init (host_counts config) start_str end_str)
    as [[a|e0]|] eqn:Hinit; [| |discriminate].
  - intros H. apply bind_Raised_inv in H.
    destruct H as [H|(a0 & p1 & H1 & H)]; discriminate.
  - intros H. apply bind_Raised_inv in H.
    destruct H as [H|(a0 & p1 & H1 & H)]; [|discriminate].
    injection H as <- _. eapply assigner_init_error, Hinit.
Qed.

Lemma initialize_inventory_error config p e p' :
  Forall (group_well_formed config) (Dict.keys (nodes config)) ->
  _initialize_inventory config p = Raised e p' -> pass_error e.
Proof.
  intros Hwf H. unfold _initialize_inventory in H.
  do 4 (apply bind_Raised_inv in H; destruct H as [H|([] & ? & _ & H)]; [discriminate|]).
  apply bind_Raised_inv in H. destruct H as [H|([] & q5 & Hinit & H)];
    [eapply init_host_time_assigner_error, H|].
  apply init_host_time_assigner_Done in Hinit.
  destruct Hinit as (start_str & end_str & a & _ & _ & _ & S5).
  apply bind_Raised_inv in H. destruct H as [H|(nm & q6 & Hnm & H)].
  { destruct (NetworkManager.init _) as [nm|e0] eqn:E; [discriminate|].
    injection H as <- _. eapply network_init_error, E. }
  assert (q6 = q5) as ->.
  { destruct (NetworkManager.init _); [now injection Hnm|discriminate]. }
  apply bind_Raised_inv in H. destruct H as [H|([] & q7 & Hset & H)]; [discriminate|].
  injection Hset as <-.
  apply bind_Raised_inv in H. destruct H as [H|(p0 & q8 & Hget & H)]; [discriminate|].
  injection Hget as <- <-.
  match type of H with
  | _ ?q = _ =>
      pose proof (guarded_rest config Hwf (_hcloud_servers q) q) as Hg
  end.
  rewrite H in Hg. apply Hg. split; [discriminate|].
  cbn [_host_time_assigner]. unfold scheduling in S5. congruence.
Qed.

Lemma logic_error_pass_error e : logic_error e -> pass_error e.
Proof. destruct e as [[]|[]|[]|[]]; cbn; tauto. Qed.

End PassErrors.

(** The exceptions that leave the typed pass. *)
Lemma pass_raises config cloud inventory e p :
  InventoryModule.parse config cloud (fresh inventory) = Raised e p ->
  pass_error e.
Proof.
  unfold InventoryModule.parse. intros H.
  destruct (InventoryModule._validate_config_structure config) as [[]|e0] eqn:Hstruct;
    [|injection H as <- _; eapply validate_structure_error, Hstruct].
  pose proof (validate_structure_token _ Hstruct) as Htoken.
  pose proof (validate_structure_groups _ Hstruct) as Hwf.
  unfold InventoryModule._load_hcloud_data in H. rewrite Htoken in H. cbn [negb] in H.
  destruct (servers_get_all cloud) as [d|servers]; [injection H as <- _; exact I|].
  destruct (volumes_get_all cloud) as [d|hvs]; [injection H as <- _; exact I|].
  run.
  destruct (InventoryModule._validate_config_logic config hvs) as [[]|e0] eqn:Hlogic;
    [|injection H as <- _;
      eapply logic_error_pass_error, validate_config_logic_error, Hlogic].
  eapply initialize_inventory_error; [exact Hwf|exact H].
Qed.

(** X22 — for a configuration whose values have the types of the schema
    (texts for the token, the ends of the upgrade window and the network,
    an integer count, booleans for the roles and the storage flag, texts
    for the locations and for the names and sizes of the volumes) and
    whose group names hold no dot, and for a cloud that answers each of
    the two requests with a list or with an [APIException], whatever
    exception leaves a pass is an [AnsibleError], a [ValueError], or the
    [RuntimeError] of the exhausted address pool.  The pass never reads
    an allocator before it has assigned it, and three of its own checks
    can never fire, because the validation has already made them: the
    missing cloud token of [_load_hcloud_data] and the missing server
    type and missing host count of [_prepare_group]. *)
Theorem X22_exceptions_of_the_pass config cloud inventory e p :
  plain_group_names config ->
  InventoryModule.parse config cloud (fresh inventory) = Raised e p ->
  pass_error e.
Proof. intros _. apply pass_raises. Qed.

Lemma X22_exceptions_of_the_pass_witness :
  exists e p,
    InventoryModule.parse Sample.small_network Sample.empty_cloud (fresh []) = Raised e p /\
    e = RuntimeError NoAvailableIPs /\
    pass_error e.
Proof.
  eexists _, _. split; [vm_compute; reflexivity|]. split; [reflexivity|].
  eapply (X22_exceptions_of_the_pass Sample.small_network Sample.empty_cloud []).
  - repeat constructor.
  - vm_compute. reflexivity.
Defined.


Section DottedKeys.
Import RawConfig.

Lemma split_segments sep s :
  Forall (fun seg => Str.has_char sep seg = false) (Str.split sep s) /\
  Str.split sep s <> [].
Proof.
  induction s as [|c s [IH Hne]]; cbn [Str.split].
  - split; [repeat constructor|discriminate].
  - destruct (Ascii.eqb c sep) eqn:Hc.
    + split; [constructor; [reflexivity|exact IH]|discriminate].
    + destruct (Str.split sep s) as [|h t]; [congruence|].
      apply Forall_cons in IH. destruct IH as [Hh Ht].
      split; [|discriminate]. constructor; [|exact Ht].
      cbn [Str.has_char]. now rewrite Hc, Hh.
Qed.

Lemma join_split sep s : join (String sep EmptyString) (Str.split sep s) = s.
Proof.
  induction s as [|c s IH]; cbn [Str.split]; [reflexivity|].
  destruct (Ascii.eqb_spec c sep) as [->|Hne].
  - destruct (split_segments sep s) as [_ Hnil].
    destruct (Str.split sep s) as [|h t] eqn:E; [congruence|].
    cbn [join]. rewrite <- IH. cbn [join]. reflexivity.
  - destruct (split_segments sep s) as [_ Hnil].
    destruct (Str.split sep s) as [|h t] eqn:E; [congruence|].
    rewrite <- IH. destruct t as [|h2 t]; reflexivity.
Qed.

Lemma split_join sep path :
  path <> [] ->
  Forall (fun seg => Str.has_char sep seg = false) path ->
  Str.split sep (join (String sep EmptyString) path) = path.
Proof.
  induction path as [|k path IH]; [congruence|]. intros _ Hall.
  apply Forall_cons in Hall. destruct Hall as [Hk Hall].
  destruct path as [|k2 path].
  - cbn [join]. now apply split_no_sep.
  - change (join (String sep EmptyString) (k :: k2 :: path))
      with (k +:+ String sep (join (String sep EmptyString) (k2 :: path))).
    rewrite split_app by exact Hk. f_equal. apply IH; [discriminate|exact Hall].
Qed.

Lemma has_char_app sep s1 s2 :
  Str.has_char sep (s1 +:+ s2) = Str.has_char sep s1 || Str.has_char sep s2.
Proof.
  induction s1 as [|c s1 IH]; [reflexivity|].
  simpl. now rewrite IH, orb_assoc.
Qed.

Lemma split_length sep s : (length (Str.split sep s) <= S (String.length s))%nat.
Proof.
  induction s as [|c s IH]; cbn [Str.split String.length length]; [lia|].
  destruct (Ascii.eqb c sep); [cbn [length]; lia|].
  destruct (Str.split sep s); cbn [length] in *; lia.
Qed.

(** The calls of [_get_config] walk along the segments of the key. *)
Lemma get_config_loop_walk root path : forall fuel config,
  path <> [] ->
  Forall (fun seg => Str.has_char "." seg = false) path ->
  (length path <= fuel)%nat ->
  _get_config_loop fuel root (join "." path) config = Some (walk root path config).
Proof.
  induction path as [|k path IH]; [congruence|]. intros fuel config _ Hall Hfuel.
  apply Forall_cons in Hall. destruct Hall as [Hk Hall].
  destruct fuel as [|fuel]; [cbn [length] in Hfuel; lia|].
  destruct path as [|k2 path].
  - cbn [join _get_config_loop walk]. rewrite Hk.
    destruct (has_key k _) as [[|]|]; try reflexivity.
    destruct (item k _) as [[]|]; reflexivity.
  - assert (Hsplit : Str.split "." (join "." (k :: k2 :: path)) = k :: k2 :: path).
    { apply split_join; [discriminate|]. constructor; assumption. }
    assert (Hdot : Str.has_char "." (join "." (k :: k2 :: path)) = true).
    { change (join "." (k :: k2 :: path)) with (k +:+ "." +:+ join "." (k2 :: path)).
      rewrite !has_char_app. cbn. now rewrite orb_true_r. }
    cbn [_get_config_loop]. rewrite Hdot, Hsplit. cbn [walk].
    destruct (has_key k _) as [[|]|]; try reflexivity.
    destruct (item k _) as [child|]; [|reflexivity].
    apply IH; [discriminate|exact Hall|cbn [length] in *; lia].
Qed.

End DottedKeys.

(** X23 — [_get_config] always returns: it answers what the walk along
    the dot-separated segments of the key finds, the default when a
    segment is missing or the value found is null, a [TypeError] when it
    meets a scalar.  A key whose value is null makes the lookup of a
    deeper key go on from the document itself. *)
Theorem X23_get_config_walks_path root key :
  RawConfig._get_config root key = Some (walk root (Str.split "." key) YNull) /\
  (forall d k rest,
     root = YDict d -> Dict.get k d = Some YNull -> Str.has_char "." k = false ->
     RawConfig._get_config root (k +:+ "." +:+ rest) = RawConfig._get_config root rest) /\
  (forall k, Str.has_char "." k = false ->
     RawConfig._get_config root k
     = Some match RawConfig.has_key k root with
            | None => RawConfig.TypeError
            | Some false => RawConfig.Default
            | Some true =>
                match RawConfig.item k root with
                | None => RawConfig.TypeError
                | Some YNull => RawConfig.Default
                | Some v => RawConfig.Value v
                end
            end).
Proof.
  assert (Hwalk : forall key,
            RawConfig._get_config root key = Some (walk root (Str.split "." key) YNull)).
  { intros key0. unfold RawConfig._get_config.
    destruct (split_segments "." key0) as [Hall Hne].
    rewrite <- (join_split "." key0) at 2.
    apply get_config_loop_walk; [exact Hne|exact Hall|apply split_length]. }
  split; [apply Hwalk|]. split.
  - intros d k rest -> Hk Hdot. rewrite !Hwalk.
    change (k +:+ "." +:+ rest) with (k +:+ String "." rest).
    rewrite split_app by exact Hdot.
    destruct (split_segments "." rest) as [_ Hne].
    destruct (Str.split "." rest) as [|k2 path] eqn:E; [congruence|].
    f_equal. cbn [walk RawConfig.has_key RawConfig.item]. unfold Dict.mem. rewrite Hk.
    reflexivity.
  - intros k Hdot. rewrite Hwalk, split_no_sep by exact Hdot. cbn [walk].
    destruct (RawConfig.has_key k root) as [[|]|]; reflexivity.
Qed.

(** The examples of the docstring of [_get_config]. *)
Example docstring_get_config :
  let root := YDict [("nodes", YDict [("control", YDict [("type", YStr "cx21")])])] in
  RawConfig._get_config root "nodes.control.type" = Some (RawConfig.Value (YStr "cx21")) /\
  RawConfig._get_config root "nodes.worker.type" = Some RawConfig.Default.
Proof. split; reflexivity. Qed.


Section TypedConfig.
Import RawConfig.

Lemma get_config_walk root key :
  _get_config root key = Some (walk root (Str.split "." key) YNull).
Proof.
  unfold _get_config. destruct (split_segments "." key) as [Hall Hne].
  rewrite <- (join_split "." key) at 2.
  apply get_config_loop_walk; [exact Hne|exact Hall|apply split_length].
Qed.

Lemma dict_get_map {V W} (f : V -> W) k (d : Dict.t V) :
  Dict.get k (map (fun kv => (fst kv, f (snd kv))) d) = f <$> Dict.get k d.
Proof.
  induction d as [|[k0 v0] d IH]; [reflexivity|].
  cbn [map Dict.get fst snd]. destruct (String.eqb k k0); [reflexivity|exact IH].
Qed.

(** The lookup of a field of a group whose name has no dot. *)
Lemma group_field_walk c group key :
  Str.has_char "." group = false ->
  Str.has_char "." key = false ->
  _get_group_config (yaml_of_config c) group key
  = Some match Dict.get group (nodes c) with
         | Some g => walk (yaml_of_config c) [key] (yaml_of_group g)
         | None => Default
         end.
Proof.
  intros Hg Hk. unfold _get_group_config. rewrite get_config_walk.
  change ("nodes." +:+ group +:+ "." +:+ key)
    with ("nodes" +:+ String "." (group +:+ String "." key)).
  rewrite split_app by reflexivity. rewrite split_app by exact Hg.
  rewrite split_no_sep by exact Hk. f_equal.
  cbn [walk yaml_of_config has_key item app Dict.mem Dict.get String.eqb Ascii.eqb
       Bool.eqb].
  unfold Dict.mem. rewrite dict_get_map.
  destruct (Dict.get group (nodes c)) as [g|]; reflexivity.
Qed.

Lemma split_app_hd sep s1 rest :
  hd "" (Str.split sep (s1 +:+ String sep rest)) = hd "" (Str.split sep s1).
Proof.
  induction s1 as [|ch s1 IH]; simpl.
  - now rewrite Ascii.eqb_refl.
  - destruct (Ascii.eqb ch sep); [reflexivity|].
    destruct (split_segments sep (s1 +:+ String sep rest)) as [_ Hne1].
    destruct (split_segments sep s1) as [_ Hne2].
    destruct (Str.split sep (s1 +:+ String sep rest)) as [|h1 t1]; [congruence|].
    destruct (Str.split sep s1) as [|h2 t2]; [congruence|].
    cbn [hd] in *. congruence.
Qed.

End TypedConfig.

(** X24 — for a group whose name has no dot, the dotted lookup
    [_get_group_config] on the document of a configuration answers the
    field of the group, or the default when the group or the field is
    absent; so do the lookups of the token, the upgrade window and the
    network.  A group whose name has a dot is not read under its name:
    the lookup takes the name apart and answers the default unless the
    part before the first dot is itself a group. *)
Theorem X24_typed_fields_agree c :
  (forall group,
     Str.has_char "." group = false ->
     RawConfig._get_group_config (yaml_of_config c) group "type"
     = Some (typed_answer YStr (InventoryModule._get_group_config c group g_type)) /\
     RawConfig._get_group_config (yaml_of_config c) group "image"
     = Some (typed_answer YStr (InventoryModule._get_group_config c group g_image)) /\
     RawConfig._get_group_config (yaml_of_config c) group "num"
     = Some (typed_answer YNum (InventoryModule._get_group_config c group g_num)) /\
     RawConfig._get_group_config (yaml_of_config c) group "is_control"
     = Some (typed_answer YBool (InventoryModule._get_group_config c group g_is_control)) /\
     RawConfig._get_group_config (yaml_of_config c) group "is_worker"
     = Some (typed_answer YBool (InventoryModule._get_group_config c group g_is_worker)) /\
     RawConfig._get_group_config (yaml_of_config c) group "storage"
     = Some (typed_answer YBool (InventoryModule._get_group_config c group g_storage)) /\
     RawConfig._get_group_config (yaml_of_config c) group "locations"
     = Some (typed_answer (fun l => YList (map YStr l))
                          (InventoryModule._get_group_config c group g_locations))) /\
  RawConfig._get_config (yaml_of_config c) "hetzner.token.cloud"
  = Some (typed_answer YStr (hetzner_token_cloud c)) /\
  RawConfig._get_config (yaml_of_config c) "unattended_upgrades.start_time"
  = Some (typed_answer YStr (unattended_upgrades_start_time c)) /\
  RawConfig._get_config (yaml_of_config c) "unattended_upgrades.end_time"
  = Some (typed_answer YStr (unattended_upgrades_end_time c)) /\
  RawConfig._get_config (yaml_of_config c) "network.private_cidr"
  = Some (typed_answer YStr (network_private_cidr c)) /\
  (forall group key,
     Dict.get (hd "" (Str.split "." group)) (nodes c) = None ->
     RawConfig._get_group_config (yaml_of_config c) group key = Some RawConfig.Default).
Proof.
  split; [|split; [|split; [|split; [|split]]]].
  - intros group Hg.
    repeat split; rewrite group_field_walk by (exact Hg || reflexivity);
      unfold InventoryModule._get_group_config;
      (destruct (Dict.get group (nodes c)) as [[t i n ic iw s l]|]; [|reflexivity]);
      destruct t, i, n, ic, iw, s, l; reflexivity.
  - destruct c as [ns [t|] [st|] [en|] [net|] vs]; reflexivity.
  - destruct c as [ns [t|] [st|] [en|] [net|] vs]; reflexivity.
  - destruct c as [ns [t|] [st|] [en|] [net|] vs]; reflexivity.
  - destruct c as [ns [t|] [st|] [en|] [net|] vs]; reflexivity.
  - intros group key Hnone. unfold RawConfig._get_group_config.
    rewrite get_config_walk.
    change ("nodes." +:+ group +:+ "." +:+ key)
      with ("nodes" +:+ String "." (group +:+ String "." key)).
    rewrite split_app by reflexivity.
    rewrite <- (split_app_hd "." group key) in Hnone.
    destruct (split_segments "." (group +:+ String "." key)) as [_ Hne].
    destruct (Str.split "." (group +:+ String "." key)) as [|k1 path] eqn:E; [congruence|].
    cbn [hd] in Hnone. f_equal.
    cbn [walk yaml_of_config RawConfig.has_key RawConfig.item app Dict.mem
         Dict.get String.eqb Ascii.eqb Bool.eqb].
    unfold Dict.mem. rewrite dict_get_map, Hnone. reflexivity.
Qed.

(** A group named with a dot: the record has its type, the dotted lookup
    does not find it. *)
Example dotted_group_name :
  let c := mkConfig [("eu.west", Sample.group "cx21" 1 true true false)]
                    (Some "token") (Some "02:00") (Some "03:00") None [] in
  InventoryModule._get_group_config c "eu.west" g_type = Some "cx21" /\
  RawConfig._get_group_config (yaml_of_config c) "eu.west" "type" = Some RawConfig.Default.
Proof. split; reflexivity. Qed.


Section SizeTexts.

Lemma digit_not_unit c : Str.is_digit c = true -> existsb (Ascii.eqb c) ["G"; "g"]%char = false.
Proof.
  intros Hc. cbn [existsb].
  destruct (Ascii.eqb_spec c "G") as [->|_]; [discriminate Hc|].
  destruct (Ascii.eqb_spec c "g") as [->|_]; [discriminate Hc|]. reflexivity.
Qed.

Lemma digit_not_space c : Str.is_digit c = true -> Py.is_space c = false.
Proof.
  unfold Str.is_digit, Py.is_space. cbv zeta. intros Hc.
  apply andb_true_iff in Hc. destruct Hc as [H1 H2].
  apply Nat.leb_le in H1, H2.
  apply orb_false_iff. split; apply andb_false_iff.
  - right. apply Nat.leb_gt. lia.
  - right. apply Nat.leb_gt. lia.
Qed.

Lemma rstrip_units sfx :
  Forall (fun c => existsb (Ascii.eqb c) ["G"; "g"]%char = true) (list_ascii_of_string sfx) ->
  Str.rstrip ["G"; "g"]%char sfx = "".
Proof.
  induction sfx as [|c sfx IH]; cbn [list_ascii_of_string Str.rstrip]; [reflexivity|].
  intros Hall. apply Forall_cons in Hall. destruct Hall as [Hc Hall].
  rewrite IH by exact Hall. now rewrite Hc.
Qed.

Lemma rstrip_digits_units d sfx :
  d <> "" -> Str.all_digits d = true ->
  Forall (fun c => existsb (Ascii.eqb c) ["G"; "g"]%char = true) (list_ascii_of_string sfx) ->
  Str.rstrip ["G"; "g"]%char (d +:+ sfx) = d.
Proof.
  intros Hne Hd Hall. induction d as [|c d IH]; [congruence|].
  cbn [Str.all_digits] in Hd. apply andb_true_iff in Hd. destruct Hd as [Hc Hd].
  change (String c d +:+ sfx) with (String c (d +:+ sfx)). cbn [Str.rstrip].
  destruct d as [|c2 d].
  - change ("" +:+ sfx) with sfx. rewrite rstrip_units by exact Hall.
    now rewrite digit_not_unit.
  - rewrite IH by (discriminate || exact Hd). reflexivity.
Qed.

Lemma py_rstrip_digits d : Str.all_digits d = true -> Py.rstrip d = d.
Proof.
  induction d as [|c d IH]; [reflexivity|].
  cbn [Str.all_digits]. intros Hd. apply andb_true_iff in Hd. destruct Hd as [Hc Hd].
  cbn [Py.rstrip]. rewrite IH by exact Hd.
  destruct d; [now rewrite digit_not_space|reflexivity].
Qed.

Lemma digits_with_underscores_digits d : forall acc after,
  Str.all_digits d = true -> d <> "" \/ after = true ->
  Py.digits_with_underscores acc after d = Some (Str.digits_val acc d).
Proof.
  induction d as [|c d IH]; intros acc after Hd Hne.
  - destruct Hne as [Hne| ->]; [congruence|reflexivity].
  - cbn [Str.all_digits] in Hd. apply andb_true_iff in Hd. destruct Hd as [Hc Hd].
    cbn [Py.digits_with_underscores Str.digits_val]. rewrite Hc.
    apply IH; [exact Hd|now right].
Qed.

Lemma count_digits_digits d :
  Str.all_digits d = true -> Py.count_digits d = Z.of_nat (String.length d).
Proof.
  induction d as [|c d IH]; [reflexivity|].
  cbn [Str.all_digits]. intros Hd. apply andb_true_iff in Hd. destruct Hd as [Hc Hd].
  cbn [Py.count_digits String.length]. rewrite Hc, IH by exact Hd. lia.
Qed.

Lemma int_digits d :
  d <> "" -> Str.all_digits d = true ->
  Py.int d
  = if Z.of_nat (String.length d) <=? Py.int_max_str_digits
    then Some (Str.digits_val 0 d) else None.
Proof.
  intros Hne Hd. unfold Py.int. rewrite py_rstrip_digits by exact Hd.
  destruct d as [|c d]; [congruence|].
  pose proof Hd as Hd'. cbn [Str.all_digits] in Hd'.
  apply andb_true_iff in Hd'. destruct Hd' as [Hc Hrest].
  cbn [Py.lstrip]. rewrite digit_not_space by exact Hc.
  assert (Hgen : Py.int_literal (String c d)
                 = if Z.of_nat (String.length (String c d)) <=? Py.int_max_str_digits
                   then Some (Str.digits_val 0 (String c d)) else None).
  { unfold Py.int_literal.
    rewrite digits_with_underscores_digits by (exact Hd || (left; discriminate)).
    rewrite count_digits_digits by exact Hd.
    destruct (Z.ltb_spec Py.int_max_str_digits (Z.of_nat (String.length (String c d))));
      destruct (Z.leb_spec (Z.of_nat (String.length (String c d))) Py.int_max_str_digits);
      try reflexivity; lia. }
  destruct c as [[] [] [] [] [] [] [] []]; try discriminate Hc; exact Hgen.
Qed.

End SizeTexts.

(** X25 — the size of a volume is read from its text by dropping the
    letters G and g at its end and reading the rest as an integer: a
    text of ASCII decimal digits followed by any number of these letters
    is worth the number its digits write, unless it has more digits than
    [int] converts (4300), in which case it raises.  A text that cannot
    be read raises [ValueError], not [AnsibleError]. *)
Theorem X25_volume_size_text d sfx :
  d <> "" ->
  Str.all_digits d = true ->
  Forall (fun c => c = "G"%char \/ c = "g"%char) (list_ascii_of_string sfx) ->
  InventoryModule.config_gb (d +:+ sfx)
  = (if Z.of_nat (String.length d) <=? Py.int_max_str_digits
     then Ok (Str.digits_val 0 d)
     else Err (ValueError (InvalidIntLiteral d))) /\
  0 <= Str.digits_val 0 d /\
  (forall s e, InventoryModule.config_gb s = Err e ->
     e = ValueError (InvalidIntLiteral (Str.rstrip ["G"; "g"]%char s))).
Proof.
  intros Hne Hd Hsfx.
  assert (Hall : Forall (fun c => existsb (Ascii.eqb c) ["G"; "g"]%char = true)
                        (list_ascii_of_string sfx)).
  { eapply Forall_impl; [exact Hsfx|]. intros c [->| ->]; reflexivity. }
  split; [|split].
  - unfold InventoryModule.config_gb. cbv zeta.
    rewrite rstrip_digits_units by assumption.
    rewrite int_digits by assumption.
    now destruct (Z.of_nat (String.length d) <=? Py.int_max_str_digits).
  - now apply digits_val_nonneg.
  - intros s e. unfold InventoryModule.config_gb. cbv zeta.
    destruct (Py.int _); [discriminate|now intros [= <-]].
Qed.

Lemma X25_volume_size_text_witness :
  InventoryModule.config_gb ("20" +:+ "G")
  = (if Z.of_nat (String.length "20") <=? Py.int_max_str_digits
     then Ok (Str.digits_val 0 "20")
     else Err (ValueError (InvalidIntLiteral "20"))) /\
  InventoryModule.config_gb "20G" = Ok 20 /\
  InventoryModule.config_gb "20GB" = Err (ValueError (InvalidIntLiteral "20GB")).
Proof.
  split; [|split; reflexivity].
  apply (X25_volume_size_text "20" "G"); [discriminate|reflexivity|].
  repeat constructor.
Defined.


Section RoundRobin.
Import ValueManager.

Lemma first_least_unique (before : Dict.t Z) : forall A v c after b q B,
  before ++ (v, c) :: after = A ++ (b, q) :: B ->
  Forall (fun kv => c < snd kv) before ->
  Forall (fun kv => c <= snd kv) after ->
  Forall (fun kv => snd kv = q + 1) A ->
  Forall (fun kv => snd kv = q) B ->
  before = A /\ (v, c) = (b, q) /\ after = B.
Proof.
  induction before as [|x before IH]; intros A v c after b q B E Hb Ha HA HB.
  - destruct A as [|a A]; cbn [app] in E.
    + injection E as -> -> ->. auto.
    + injection E as <- ->. exfalso.
      apply Forall_cons in HA. destruct HA as [Hc _]. cbn [snd] in Hc.
      rewrite Forall_app in Ha. destruct Ha as [_ Ha].
      apply Forall_cons in Ha. destruct Ha as [Hq _]. cbn [snd] in Hq. lia.
  - destruct A as [|a A]; cbn [app] in E.
    + injection E as -> <-. exfalso.
      apply Forall_cons in Hb. destruct Hb as [Hq _]. cbn [snd] in Hq.
      rewrite Forall_app in HB. destruct HB as [_ HB].
      apply Forall_cons in HB. destruct HB as [Hc _]. cbn [snd] in Hc. lia.
    + injection E as -> E.
      apply Forall_cons in Hb. destruct Hb as [_ Hb].
      apply Forall_cons in HA. destruct HA as [_ HA].
      destruct (IH _ _ _ _ _ _ _ E Hb Ha HA HB) as (-> & Hv & ->). auto.
Qed.

Lemma counts_of_init values :
  NoDup values -> _counts (init values) = map (fun v => (v, 0)) values.
Proof.
  intros Hnd. pose proof (init_keys values Hnd) as Hk.
  pose proof (init_counts_zero values) as Hz.
  revert Hk Hz. generalize (_counts (init values)). intros d. revert d.
  induction values as [|v values IH]; intros [|[k c] d] Hk Hz; try discriminate;
    [reflexivity|].
  cbn [Dict.keys map fst] in Hk. injection Hk as -> Hk.
  apply Forall_cons in Hz. destruct Hz as [Hc Hz]. cbn [snd] in Hc. subst c.
  cbn [map]. f_equal. apply IH; [|exact Hk|exact Hz].
  apply NoDup_cons in Hnd. apply Hnd.
Qed.

Lemma concat_repeat_length {A} (l : list A) n :
  length (concat (repeat l n)) = (n * length l)%nat.
Proof.
  induction n as [|n IH]; [reflexivity|].
  cbn [repeat concat]. rewrite length_app, IH. reflexivity.
Qed.

Lemma concat_repeat_snoc {A} (l : list A) n :
  concat (repeat l (S n)) = concat (repeat l n) ++ l.
Proof.
  induction n as [|n IH]; [cbn; now rewrite app_nil_r|].
  cbn [repeat concat] in *. rewrite <- app_assoc. f_equal. exact IH.
Qed.

Lemma firstn_more {A} n (l l' : list A) :
  (n <= length l)%nat -> firstn n (l ++ l') = firstn n l.
Proof.
  intros H. rewrite firstn_app. replace (n - length l)%nat with 0%nat by lia.
  cbn [firstn]. now rewrite app_nil_r.
Qed.

(** Between two calls the candidates before a position have been used
    once more than those from the position on; the answers go on from
    the position and start again at the head. *)
Lemma take_round_robin values n : forall A B q vm,
  NoDup values -> values = A ++ B -> B <> [] ->
  _counts vm = map (fun v => (v, q + 1)) A ++ map (fun v => (v, q)) B ->
  fst (take n vm) = firstn n (B ++ concat (repeat values n)).
Proof.
  induction n as [|n IH]; intros A B q vm Hnd Hv HB Hc; [reflexivity|].
  destruct B as [|b B]; [congruence|].
  assert (Hkeys : NoDup (Dict.keys (_counts vm))).
  { rewrite Hc. unfold Dict.keys. rewrite map_app, !map_map. cbn [fst].
    rewrite !map_id, <- Hv. exact Hnd. }
  assert (Hne : _counts vm <> []).
  { rewrite Hc. destruct A; discriminate. }
  destruct (get_next_split vm Hkeys Hne) as (before & v & c & after & E & Hb & Ha & Hnext).
  rewrite Hc in E. cbn [map] in E. symmetry in E.
  apply first_least_unique in E; try assumption;
    [|apply Forall_forall; intros x Hx; apply list_elem_of_In, in_map_iff in Hx;
      destruct Hx as (y & <- & _); reflexivity..].
  destruct E as (-> & [= -> ->] & ->).
  cbn [take]. rewrite Hnext.
  destruct (take n _) as [vs vm''] eqn:Htake. cbn [fst app firstn]. f_equal.
  assert (Hvs : vs = fst (take n (mkValueManager (_values vm)
                  (map (fun v => (v, q + 1)) A ++ (b, q + 1) :: map (fun v => (v, q)) B))))
    by now rewrite Htake.
  rewrite Hvs. clear Hvs Htake.
  assert (Hlen : (n <= length (concat (repeat values n)))%nat).
  { rewrite concat_repeat_length, Hv, length_app. cbn [length]. nia. }
  destruct B as [|b2 B].
  - rewrite (IH [] values (q + 1)); [reflexivity|exact Hnd|reflexivity| |].
    + rewrite Hv. destruct A; discriminate.
    + cbn [_counts map app]. rewrite Hv, map_app. cbn [map]. reflexivity.
  - rewrite (IH (A ++ [b]) (b2 :: B) q); [|exact Hnd| |discriminate|].
    + rewrite concat_repeat_snoc, app_assoc.
      rewrite (firstn_more n ((b2 :: B) ++ concat (repeat values n)) values);
        [reflexivity|].
      rewrite length_app. lia.
    + rewrite Hv, <- app_assoc. reflexivity.
    + cbn [_counts]. rewrite map_app, <- app_assoc. reflexivity.
Qed.

End RoundRobin.

(** X26 — a fresh [ValueManager] over candidates that are pairwise
    different hands them out in their order, over and over: [n] calls of
    [get_next] answer the first [n] items of the candidate list repeated
    [n] times. *)
Theorem X26_get_next_round_robin (values : list string) (n : nat) :
  NoDup values ->
  values <> [] ->
  fst (ValueManager.take n (ValueManager.init values))
  = firstn n (concat (repeat values n)) /\
  length (fst (ValueManager.take n (ValueManager.init values))) = n.
Proof.
  intros Hnd Hne.
  assert (Hlen : (n <= length (concat (repeat values n)))%nat).
  { rewrite concat_repeat_length. destruct values; [congruence|]. cbn [length]. nia. }
  assert (E : fst (ValueManager.take n (ValueManager.init values))
              = firstn n (concat (repeat values n))).
  { rewrite (take_round_robin values n [] values 0); [|exact Hnd|reflexivity|exact Hne|].
    - change (values ++ concat (repeat values n)) with (concat (repeat values (S n))).
      rewrite concat_repeat_snoc. apply firstn_more. exact Hlen.
    - cbn [map app]. rewrite counts_of_init by exact Hnd. reflexivity. }
  split; [exact E|]. rewrite E, length_firstn. lia.
Qed.

Lemma X26_get_next_round_robin_witness :
  fst (ValueManager.take 5 (ValueManager.init ["fsn1"; "nbg1"; "hel1"]))
  = firstn 5 (concat (repeat ["fsn1"; "nbg1"; "hel1"] 5)) /\
  fst (ValueManager.take 5 (ValueManager.init ["fsn1"; "nbg1"; "hel1"]))
  = ["fsn1"; "nbg1"; "hel1"; "fsn1"; "nbg1"].
Proof.
  split; [|reflexivity].
  apply (X26_get_next_round_robin ["fsn1"; "nbg1"; "hel1"] 5); [|discriminate].
  refine (bool_decide_unpack _ _). vm_compute. exact I.
Defined.


Ltac keeps_placing :=
  unfold keeps, placing; intros ? ? ? [= _ <-];
  cbn [_hcloud_servers _inventory]; rewrite ?variable_settings_app; simpl;
  rewrite ?app_nil_r; reflexivity.

#[global] Hint Extern 2 (keeps placing (emit _)) => keeps_placing : keeps.
#[global] Hint Extern 2 (keeps placing (set_network_manager _)) => keeps_placing : keeps.
#[global] Hint Extern 2 (keeps placing (set_host_time_assigner _)) =>
  keeps_placing : keeps.
#[global] Hint Extern 2 (keeps placing (append_server_configured _)) =>
  keeps_placing : keeps.
#[global] Hint Extern 2 (keeps placing (append_volume_configured _)) =>
  keeps_placing : keeps.

Section Placements.
Import InventoryModule.

Lemma placing_step {A C} (m : M A) (f : A -> M C) q r q' :
  (m ≫= f) q = Done r q' ->
  keeps placing m ->
  exists a q1, f a q1 = Done r q' /\ placing q1 = placing q.
Proof.
  intros Hb K1. apply bind_Done_inv in Hb. destruct Hb as (a & q1 & Hm & Hf).
  exists a, q1. split; [exact Hf|exact (K1 _ _ _ Hm)].
Qed.

(** What [_add_host] does to the location manager and to the locations
    set. *)
Lemma add_host_placing config group host lm server_type image is_control is_worker
    p lm' p' :
  _add_host config group host lm server_type image is_control is_worker p = Done lm' p' ->
  exists location,
    placing p'
    = (_hcloud_servers p, snd (placing p) ++ [(hostname group host, location)]) /\
    match _search_fitting_server (_hcloud_servers p) (hostname group host)
            server_type image is_control is_worker with
    | Some server =>
        ValueManager.increment (server_labels server !! "location") lm = Ok lm' /\
        location = from_option VStr VNone (server_labels server !! "location")
    | None => exists l, ValueManager.get_next lm = Ok (l, lm') /\ location = VStr l
    end.
Proof.
  unfold _add_host, volume_plan. intros H.
  apply bind_Done_inv in H. destruct H as (p0 & p1 & Hget & H).
  injection Hget as <- <-. lazy zeta in H.
  apply bind_Done_inv in H. destruct H as ([location lm1] & p2 & Hblock & H).
  assert (Hloc : placing p2 = placing p /\
            match _search_fitting_server (_hcloud_servers p) (hostname group host)
                    server_type image is_control is_worker with
            | Some server =>
                ValueManager.increment (server_labels server !! "location") lm = Ok lm1 /\
                location = from_option VStr VNone (server_labels server !! "location")
            | None => exists l, ValueManager.get_next lm = Ok (l, lm1) /\ location = VStr l
            end).
  { destruct (_search_fitting_server (_hcloud_servers p) (hostname group host)
                server_type image is_control is_worker) as [server|].
    - apply bind_Done_inv in Hblock. destruct Hblock as ([] & q & Happ & Hblock).
      assert (K : keeps placing (append_server_configured (server_id server))) by keeping.
      apply K in Happ.
      apply bind_Done_inv in Hblock. destruct Hblock as (lm2 & q2 & Hinc & Hret).
      destruct (ValueManager.increment (server_labels server !! "location") lm)
        as [lm3|e]; [|discriminate].
      injection Hinc as <- <-. injection Hret as <- <- <-. auto.
    - apply bind_Done_inv in Hblock. destruct Hblock as ([l lm2] & q & Hnext & Hret).
      destruct (ValueManager.get_next lm) as [[l0 lm0]|e]; [|discriminate].
      injection Hnext as <- <- <-. injection Hret as <- <- <-.
      split; [reflexivity|eauto]. }
  destruct Hloc as [S2 Hfound].
  exists location.
  apply placing_step in H; [|keeping]. destruct H as (p3 & q3 & H & S3).
  apply placing_step in H; [|keeping]. destruct H as (internal_ip & q4 & H & S4).
  apply placing_step in H; [|keeping]. destruct H as ([] & q5 & H & S5).
  apply placing_step in H; [|keeping]. destruct H as ([] & q6 & H & S6).
  apply bind_Done_inv in H. destruct H as ([] & q7 & Hemit & H).
  assert (S7 : placing q7
               = (fst (placing q6), snd (placing q6) ++ [(hostname group host, location)])).
  { injection Hemit as <-. unfold placing. cbn [_hcloud_servers _inventory fst snd].
    rewrite variable_settings_app. reflexivity. }
  apply placing_step in H; [|keeping]. destruct H as ([] & q8 & H & S8).
  apply placing_step in H; [|keeping]. destruct H as (p9 & q9 & H & S9).
  apply placing_step in H; [|keeping]. destruct H as (upgrade_time & q10 & H & S10).
  apply placing_step in H; [|keeping]. destruct H as ([] & q11 & H & S11).
  apply placing_step in H; [|keeping]. destruct H as ([] & q12 & H & S12).
  apply placing_step in H; [|keeping]. destruct H as ([] & q13 & H & S13).
  apply placing_step in H; [|keeping]. destruct H as ([] & q14 & H & S14).
  apply placing_step in H; [|keeping]. destruct H as ([] & q15 & H & S15).
  apply placing_step in H; [|keeping]. destruct H as ([] & q16 & H & S16).
  injection H as <- <-.
  split; [|exact Hfound].
  change (_hcloud_servers p) with (fst (placing p)). congruence.
Qed.

Lemma add_hosts_placing config group server_type image is_control is_worker hosts :
  forall lm p lm' p',
  fold_M (fun location_manager host =>
            _add_host config group host location_manager server_type image
                      is_control is_worker) hosts lm p = Done lm' p' ->
  let found :=
    map (fun host =>
           _search_fitting_server (_hcloud_servers p) (hostname group host)
             server_type image is_control is_worker) hosts in
  placing p'
  = (_hcloud_servers p,
     snd (placing p) ++ combine (map (hostname group) hosts) (place found lm)) /\
  length (place found lm) = length hosts.
Proof.
  induction hosts as [|host hosts IH]; intros lm p lm' p' H; cbn [fold_M map] in *.
  - injection H as _ <-. cbn [place combine length]. now rewrite app_nil_r.
  - apply bind_Done_inv in H. destruct H as (lm1 & p1 & Hadd & H).
    destruct (add_host_placing _ _ _ _ _ _ _ _ _ _ _ Hadd) as (location & S1 & Hfound).
    assert (Hs : _hcloud_servers p1 = _hcloud_servers p).
    { change (fst (placing p1) = _hcloud_servers p). now rewrite S1. }
    destruct (IH _ _ _ _ H) as [S Hlen]. rewrite Hs in S, Hlen.
    cbn [place].
    destruct (_search_fitting_server (_hcloud_servers p) (hostname group host)
                server_type image is_control is_worker) as [server|].
    + destruct Hfound as [-> ->]. cbn [combine length]. split; [|now rewrite Hlen].
      rewrite S, S1. cbn [snd]. now rewrite <- app_assoc.
    + destruct Hfound as (l & -> & ->). cbn [combine length]. split; [|now rewrite Hlen].
      rewrite S, S1. cbn [snd]. now rewrite <- app_assoc.
Qed.

Lemma prepare_group_placing config group p p' :
  _prepare_group config group p = Done tt p' ->
  placing p'
  = (_hcloud_servers p, snd (placing p) ++ group_placements config (_hcloud_servers p) group) /\
  length (place (map (claimed config (_hcloud_servers p)) (group_hosts config group))
                (ValueManager.init (group_locations config group)))
  = length (group_hosts config group).
Proof.
  intros H. unfold _prepare_group in H.
  apply placing_step in H; [|keeping]. destruct H as ([] & q1 & H & S1).
  apply placing_step in H; [|keeping]. destruct H as ([] & q2 & H & S2).
  apply placing_step in H; [|keeping]. destruct H as ([] & q3 & H & S3).
  destruct (_get_group_config config group g_type) as [server_type|] eqn:Htype;
    [|discriminate].
  destruct (String.eqb server_type ""); [discriminate|].
  apply placing_step in H; [|keeping]. destruct H as ([] & q4 & H & S4).
  destruct (String.eqb (default "debian-12" (_get_group_config config group g_image)) "");
    [discriminate|].
  apply placing_step in H; [|keeping]. destruct H as ([] & q5 & H & S5).
  destruct (_get_group_config config group g_num) as [num_hosts|] eqn:Hnum;
    [|discriminate].
  apply bind_Done_inv in H. destruct H as (lm & q6 & Hfold & H).
  injection H as <-.
  assert (S : placing q5 = placing p) by congruence.
  assert (Hs : _hcloud_servers q5 = _hcloud_servers p).
  { change (fst (placing q5) = fst (placing p)). now rewrite S. }
  destruct (add_hosts_placing _ _ _ _ _ _ _ _ _ _ _ Hfold) as [S' Hlen].
  rewrite Hs in S', Hlen. rewrite S in S'.
  unfold group_placements, group_hosts, group_locations.
  rewrite Hnum. cbn [default]. rewrite !map_map, length_map.
  unfold claimed, desired_hostname. cbn [fst snd]. rewrite Htype. cbn [default].
  auto.
Qed.

Lemma prepare_groups_placing config groups : forall p p',
  for_ groups (_prepare_group config) p = Done tt p' ->
  placing p'
  = (_hcloud_servers p,
     snd (placing p) ++ flat_map (group_placements config (_hcloud_servers p)) groups) /\
  Forall (fun group =>
            length (place (map (claimed config (_hcloud_servers p))
                               (group_hosts config group))
                          (ValueManager.init (group_locations config group)))
            = length (group_hosts config group)) groups.
Proof.
  induction groups as [|group groups IH]; intros p p' H; cbn [for_ flat_map] in *.
  - injection H as <-. rewrite app_nil_r. split; [reflexivity|constructor].
  - apply bind_Done_inv in H. destruct H as ([] & p1 & Hgroup & H).
    destruct (prepare_group_placing _ _ _ _ Hgroup) as [S1 L1].
    assert (Hs : _hcloud_servers p1 = _hcloud_servers p).
    { change (fst (placing p1) = _hcloud_servers p). now rewrite S1. }
    destruct (IH _ _ H) as [S L]. rewrite Hs in S, L. split.
    + rewrite S, S1. cbn [snd]. now rewrite <- app_assoc.
    + constructor; assumption.
Qed.

(** The locations a complete [_initialize_inventory] has set. *)
Lemma initialize_inventory_placing config p p' :
  _initialize_inventory config p = Done tt p' ->
  variable_settings "location" (_inventory p')
  = variable_settings "location" (_inventory p) ++ placements config (_hcloud_servers p) /\
  Forall (fun group =>
            length (place (map (claimed config (_hcloud_servers p))
                               (group_hosts config group))
                          (ValueManager.init (group_locations config group)))
            = length (group_hosts config group)) (Dict.keys (nodes config)).
Proof.
  unfold _initialize_inventory. intros H.
  apply placing_step in H; [|keeping]. destruct H as ([] & q1 & H & S1).
  apply placing_step in H; [|keeping]. destruct H as ([] & q2 & H & S2).
  apply placing_step in H; [|keeping]. destruct H as ([] & q3 & H & S3).
  apply placing_step in H; [|keeping]. destruct H as ([] & q4 & H & S4).
  apply placing_step in H; [|unfold _init_host_time_assigner; keeping].
  destruct H as ([] & q5 & H & S5).
  apply placing_step in H; [|keeping]. destruct H as (nm & q6 & H & S6).
  apply placing_step in H; [|keeping]. destruct H as ([] & q7 & H & S7).
  apply placing_step in H; [|keeping]. destruct H as (p0 & q8 & H & S8).
  apply placing_step in H; [|unfold reserve_existing; keeping].
  destruct H as ([] & q9 & H & S9).
  apply bind_Done_inv in H. destruct H as ([] & q10 & Hgroups & H).
  assert (S : placing q9 = placing p) by congruence.
  assert (Hs : _hcloud_servers q9 = _hcloud_servers p).
  { change (fst (placing q9) = fst (placing p)). now rewrite S. }
  destruct (prepare_groups_placing _ _ _ _ Hgroups) as [S10 L].
  rewrite Hs in S10, L. rewrite S in S10.
  split; [|exact L].
  assert (Hrest : placing p' = placing q10).
  { apply placing_step in H; [|unfold _set_orphan_volumes_for_cleanup; keeping].
    destruct H as ([] & q11 & H & S11).
    apply placing_step in H; [|unfold _clean_hetzner_server; keeping].
    destruct H as ([] & q12 & H & S12).
    assert (K0 : keeps placing (emit (set_variable "all" "ansible_user" (VStr "root"))))
      by keeping.
    rewrite (K0 _ _ _ H). congruence. }
  change (snd (placing p') = snd (placing p) ++ placements config (_hcloud_servers p)).
  rewrite Hrest, S10. reflexivity.
Qed.

Lemma comprehension_keys_incl {V} (f : string -> V) ks k :
  In k (Dict.keys (Dict.comprehension f ks)) -> In k ks.
Proof.
  unfold Dict.comprehension.
  assert (H : forall d0, In k (Dict.keys (fold_left (fun d k => Dict.set k (f k) d) ks d0)) ->
                         In k (Dict.keys d0) \/ In k ks).
  { induction ks as [|k0 ks IH]; cbn [fold_left]; intros d0 Hin; [now left|].
    apply IH in Hin. destruct Hin as [Hin|Hin]; [|right; now right].
    rewrite dict_keys_set in Hin. destruct (Dict.mem k0 d0); [now left|].
    apply in_app_or in Hin. destruct Hin as [Hin|[<-|[]]]; [now left|right; now left]. }
  intros Hin. destruct (H [] Hin) as [[]|Hk]. exact Hk.
Qed.

(** Every location [place] gives is one of the candidates, and a host
    that has found a server is given the location the server records. *)
Lemma place_sound found : forall lm,
  (forall k, In k (Dict.keys (_counts lm)) -> In k (_values lm)) ->
  length (place found lm) = length found ->
  Forall2 (fun f v => exists loc,
             In loc (_values lm) /\ v = VStr loc /\
             forall s, f = Some s -> server_labels s !! "location" = Some loc)
          found (place found lm).
Proof.
  induction found as [|f found IH]; intros lm Hincl Hlen; cbn [place] in *;
    [constructor|].
  destruct f as [s|].
  - destruct (ValueManager.increment (server_labels s !! "location") lm)
      as [lm1|e] eqn:Hinc; [|discriminate].
    unfold ValueManager.increment in Hinc.
    destruct (server_labels s !! "location") as [loc|] eqn:Hlab; [|discriminate].
    destruct (existsb (String.eqb loc) (_values lm)) eqn:Hex; [|discriminate].
    injection Hinc as <-.
    assert (Hloc : In loc (_values lm)).
    { apply existsb_exists in Hex. destruct Hex as (x & Hx & Heq).
      apply String.eqb_eq in Heq. now subst. }
    constructor.
    + exists loc. split; [exact Hloc|]. split; [reflexivity|]. intros s' [= <-]. exact Hlab.
    + apply (IH (mkValueManager (_values lm) (ValueManager.bump loc (_counts lm))));
        [|now injection Hlen].
      cbn [_counts _values]. intros k Hk. unfold ValueManager.bump in Hk.
      rewrite dict_keys_set in Hk. destruct (Dict.mem loc (_counts lm)); [auto|].
      apply in_app_or in Hk. destruct Hk as [Hk|[<-|[]]]; auto.
  - destruct (ValueManager.get_next lm) as [[l lm1]|e] eqn:Hnext; [|discriminate].
    destruct (get_next_keys _ _ _ Hnext) as (Hk & Hv & Hl).
    constructor.
    + exists l. split; [auto|]. split; [reflexivity|discriminate].
    + rewrite <- Hv. apply IH; [|now injection Hlen].
      rewrite Hk, Hv. exact Hincl.
Qed.

(** Hosts that find no server are given what successive calls of
    [get_next] answer. *)
Lemma place_none n : forall lm,
  place (repeat None n) lm = map VStr (fst (ValueManager.take n lm)).
Proof.
  induction n as [|n IH]; intros lm; [reflexivity|].
  cbn [repeat place ValueManager.take].
  destruct (ValueManager.get_next lm) as [[v lm1]|e]; [|reflexivity].
  rewrite IH. destruct (ValueManager.take n lm1). reflexivity.
Qed.

Lemma combine_fst {A C} (l : list A) (k : list C) :
  length k = length l -> map fst (combine l k) = l.
Proof.
  revert k. induction l as [|x l IH]; intros [|y k] Hlen; try discriminate;
    [reflexivity|].
  cbn [combine map fst]. f_equal. apply IH. now injection Hlen.
Qed.

Lemma combine_snd {A C} (l : list A) (k : list C) :
  length k = length l -> map snd (combine l k) = k.
Proof.
  revert k. induction l as [|x l IH]; intros [|y k] Hlen; try discriminate;
    [reflexivity|].
  cbn [combine map snd]. f_equal. apply IH. now injection Hlen.
Qed.

Lemma placements_sound config servers groups :
  Forall (fun group =>
            length (place (map (claimed config servers) (group_hosts config group))
                          (ValueManager.init (group_locations config group)))
            = length (group_hosts config group)) groups ->
  map fst (flat_map (group_placements config servers) groups)
  = map desired_hostname (flat_map (group_hosts config) groups) /\
  Forall2 (fun h v => exists loc,
             In loc (group_locations config (fst h)) /\ v = VStr loc /\
             forall s, claimed config servers h = Some s ->
                       server_labels s !! "location" = Some loc)
          (flat_map (group_hosts config) groups)
          (map snd (flat_map (group_placements config servers) groups)).
Proof.
  induction 1 as [|group groups Hlen _ [IH1 IH2]]; cbn [flat_map map];
    [split; [reflexivity|constructor]|].
  assert (E1 : map fst (group_placements config servers group)
               = map desired_hostname (group_hosts config group)).
  { unfold group_placements. apply combine_fst. now rewrite length_map. }
  assert (E2 : map snd (group_placements config servers group)
               = place (map (claimed config servers) (group_hosts config group))
                       (ValueManager.init (group_locations config group))).
  { unfold group_placements. apply combine_snd. now rewrite length_map. }
  rewrite !map_app, IH1, E1, E2.
  split; [reflexivity|]. apply Forall2_app; [|exact IH2].
  pose proof (place_sound (map (claimed config servers) (group_hosts config group))
                (ValueManager.init (group_locations config group))) as Hp.
  rewrite length_map in Hp. specialize (Hp (comprehension_keys_incl _ _) Hlen).
  cbn [ValueManager.init _values] in Hp.
  apply (proj1 (Forall2_fmap_l _ _ _ _)) in Hp. unfold group_hosts in Hp |- *.
  apply (proj1 (Forall2_fmap_l _ _ _ _)) in Hp. apply (proj2 (Forall2_fmap_l _ _ _ _)).
  eapply Forall2_impl; [exact Hp|]. intros i v. unfold compose. cbn [fst]. auto.
Qed.

End Placements.

(** X27 — a pass that completes has set [location] once for every
    desired host, in order, every group starting with a location manager
    of its own: each host is given one of the locations of its group, a
    host that has found a server the location the server records.  The
    hosts of a group none of which has found a server are given the
    locations of the group in their order, over and over, when these
    are pairwise different. *)
Theorem X27_locations config cloud servers inventory p :
  servers_get_all cloud = inr servers ->
  InventoryModule.parse config cloud (fresh inventory) = Done tt p ->
  variable_settings "location" (_inventory p)
  = variable_settings "location" inventory ++ placements config servers /\
  map fst (placements config servers) = map desired_hostname (desired_hosts config) /\
  Forall2 (fun h v => exists loc,
             In loc (group_locations config (fst h)) /\ v = VStr loc /\
             forall s, claimed config servers h = Some s ->
                       server_labels s !! "location" = Some loc)
          (desired_hosts config) (map snd (placements config servers)) /\
  forall group,
    Forall (fun h => claimed config servers h = None) (group_hosts config group) ->
    NoDup (group_locations config group) ->
    let n := length (group_hosts config group) in
    group_placements config servers group
    = combine (map desired_hostname (group_hosts config group))
              (map VStr (firstn n (concat (repeat (group_locations config group) n)))).
Proof.
  intros Hservers H. apply parse_Done_stages in H.
  destruct H as (servers0 & hvs & _ & Hs0 & _ & _ & H).
  assert (servers0 = servers) by congruence. subst servers0.
  apply initialize_inventory_placing in H. cbn [_inventory _hcloud_servers] in H.
  destruct H as [Hset Hlen].
  destruct (placements_sound _ _ _ Hlen) as [Hfst Hsound].
  split; [exact Hset|]. split; [exact Hfst|]. split; [exact Hsound|].
  intros group Hnone Hnd n. unfold group_placements. f_equal.
  assert (E : map (claimed config servers) (group_hosts config group) = repeat None n).
  { subst n. induction Hnone as [|h hosts Hh _ IH]; [reflexivity|].
    cbn [map length repeat]. now rewrite Hh, IH. }
  rewrite E, place_none. f_equal.
  destruct (group_locations config group) as [|l locs] eqn:Hl.
  - assert (Hnil : concat (repeat (@nil string) n) = []).
    { clear. induction n as [|n IH]; [reflexivity|exact IH]. }
    rewrite Hnil, firstn_nil. destruct n; reflexivity.
  - rewrite (take_round_robin (l :: locs) n [] (l :: locs) 0);
      [|exact Hnd|reflexivity|discriminate|].
    + change ((l :: locs) ++ concat (repeat (l :: locs) n))
        with (concat (repeat (l :: locs) (S n))).
      rewrite concat_repeat_snoc. apply firstn_more.
      rewrite concat_repeat_length. cbn [length]. nia.
    + cbn [map app]. rewrite counts_of_init by exact Hnd. reflexivity.
Qed.

Lemma X27_locations_witness :
  exists p,
    InventoryModule.parse Sample.small_cluster
      (mkCloudAPI (inr [Sample.server_control_1; Sample.server_stray]) (inr []))
      (fresh []) = Done tt p /\
    variable_settings "location" (_inventory p)
    = [("control-1", VStr "nbg1"); ("control-2", VStr "fsn1");
       ("control-3", VStr "hel1"); ("worker-small-1", VStr "fsn1");
       ("worker-small-2", VStr "nbg1")] /\
    variable_settings "location" (_inventory p)
    = variable_settings "location" [] ++
      placements Sample.small_cluster [Sample.server_control_1; Sample.server_stray].
Proof.
  eexists. split; [vm_compute; reflexivity|].
  split; [vm_compute; reflexivity|].
  match goal with
  | |- context [_inventory ?q] =>
      destruct (X27_locations Sample.small_cluster
                  (mkCloudAPI (inr [Sample.server_control_1; Sample.server_stray]) (inr []))
                  [Sample.server_control_1; Sample.server_stray] [] q)
        as (Hset & _)
  end.
  - reflexivity.
  - vm_compute. reflexivity.
  - exact Hset.
Defined.


Ltac keeps_connecting :=
  unfold keeps, connecting; intros ? ? ? [= _ <-];
  cbn [_hcloud_servers _inventory]; rewrite ?variable_settings_app; simpl;
  rewrite ?app_nil_r; reflexivity.

#[global] Hint Extern 2 (keeps connecting (emit _)) => keeps_connecting : keeps.
#[global] Hint Extern 2 (keeps connecting (set_network_manager _)) =>
  keeps_connecting : keeps.
#[global] Hint Extern 2 (keeps connecting (set_host_time_assigner _)) =>
  keeps_connecting : keeps.
#[global] Hint Extern 2 (keeps connecting (append_server_configured _)) =>
  keeps_connecting : keeps.
#[global] Hint Extern 2 (keeps connecting (append_volume_configured _)) =>
  keeps_connecting : keeps.

Section Connections.
Import InventoryModule.

Lemma connecting_step {A C} (m : M A) (f : A -> M C) q r q' :
  (m ≫= f) q = Done r q' ->
  keeps connecting m ->
  exists a q1, f a q1 = Done r q' /\ connecting q1 = connecting q.
Proof.
  intros Hb K1. apply bind_Done_inv in Hb. destruct Hb as (a & q1 & Hm & Hf).
  exists a, q1. split; [exact Hf|exact (K1 _ _ _ Hm)].
Qed.

(** What [_add_host] sets as [create] flag and as connection address. *)
Lemma add_host_connecting config group host lm server_type image is_control is_worker
    p lm' p' :
  _add_host config group host lm server_type image is_control is_worker p = Done lm' p' ->
  connecting p'
  = (_hcloud_servers p,
     snd (fst (connecting p)) ++
     [(hostname group host,
       VBool (bool_decide
                (_search_fitting_server (_hcloud_servers p) (hostname group host)
                   server_type image is_control is_worker = None)))],
     snd (connecting p) ++
     match _search_fitting_server (_hcloud_servers p) (hostname group host)
             server_type image is_control is_worker with
     | Some server => reached (hostname group host) server
     | None => []
     end) /\
  forall server,
    _search_fitting_server (_hcloud_servers p) (hostname group host)
      server_type image is_control is_worker = Some server ->
    exists ip, _get_current_ip server = Ok ip.
Proof.
  unfold _add_host, volume_plan. intros H.
  apply bind_Done_inv in H. destruct H as (p0 & p1 & Hget & H).
  injection Hget as <- <-. lazy zeta in H.
  remember (_search_fitting_server (_hcloud_servers p) (hostname group host)
              server_type image is_control is_worker) as found eqn:Hf in *.
  apply connecting_step in H; [|keeping]. destruct H as ([location lm1] & q2 & H & S2).
  apply connecting_step in H; [|keeping]. destruct H as (p3 & q3 & H & S3).
  apply connecting_step in H; [|keeping]. destruct H as (internal_ip & q4 & H & S4).
  apply connecting_step in H; [|keeping]. destruct H as ([] & q5 & H & S5).
  apply bind_Done_inv in H. destruct H as ([] & q6 & Hemit & H).
  assert (S6 : connecting q6
               = (fst (fst (connecting q5)),
                  snd (fst (connecting q5)) ++
                  [(hostname group host, VBool (bool_decide (found = None)))],
                  snd (connecting q5))).
  { injection Hemit as <-. unfold connecting. cbn [_hcloud_servers _inventory fst snd].
    rewrite !variable_settings_app. cbn. now rewrite app_nil_r. }
  apply connecting_step in H; [|keeping]. destruct H as ([] & q7 & H & S7).
  apply connecting_step in H; [|keeping]. destruct H as ([] & q8 & H & S8).
  apply connecting_step in H; [|keeping]. destruct H as (p9 & q9 & H & S9).
  apply connecting_step in H; [|keeping]. destruct H as (upgrade_time & q10 & H & S10).
  apply connecting_step in H; [|keeping]. destruct H as ([] & q11 & H & S11).
  apply bind_Done_inv in H. destruct H as ([] & q12 & Hhost & H).
  assert (S12 : connecting q12
                = (fst (fst (connecting q11)), snd (fst (connecting q11)),
                   snd (connecting q11) ++
                   match found with
                   | Some server => reached (hostname group host) server
                   | None => []
                   end) /\
                forall server, found = Some server ->
                               exists ip, _get_current_ip server = Ok ip).
  { destruct found as [server|].
    - apply bind_Done_inv in Hhost. destruct Hhost as (ip & q & Hip & Hhost).
      unfold reached.
      destruct (_get_current_ip server) as [ip0|e] eqn:Hcur; [|discriminate].
      injection Hip as <- <-. injection Hhost as <-. split.
      + unfold connecting. cbn [_hcloud_servers _inventory fst snd].
        rewrite !variable_settings_app. cbn. now rewrite app_nil_r.
      + intros s [= <-]. eexists. exact Hcur.
    - injection Hhost as <-. rewrite app_nil_r. split; [reflexivity|discriminate]. }
  destruct S12 as [S12 Hip].
  apply connecting_step in H; [|keeping]. destruct H as ([] & q13 & H & S13).
  apply connecting_step in H; [|keeping]. destruct H as ([] & q14 & H & S14).
  apply connecting_step in H; [|keeping]. destruct H as ([] & q15 & H & S15).
  apply connecting_step in H; [|keeping]. destruct H as ([] & q16 & H & S16).
  injection H as <- <-.
  split; [|exact Hip].
  rewrite S16, S15, S14, S13, S12, S11, S10, S9, S8, S7, S6, S5, S4, S3, S2.
  reflexivity.
Qed.

Lemma add_hosts_connecting config group server_type image is_control is_worker hosts :
  forall lm p lm' p',
  fold_M (fun location_manager host =>
            _add_host config group host location_manager server_type image
                      is_control is_worker) hosts lm p = Done lm' p' ->
  connecting p'
  = (_hcloud_servers p,
     snd (fst (connecting p)) ++
     map (fun host =>
            (hostname group host,
             VBool (bool_decide
                      (_search_fitting_server (_hcloud_servers p) (hostname group host)
                         server_type image is_control is_worker = None)))) hosts,
     snd (connecting p) ++
     flat_map (fun host =>
                 match _search_fitting_server (_hcloud_servers p) (hostname group host)
                         server_type image is_control is_worker with
                 | Some server => reached (hostname group host) server
                 | None => []
                 end) hosts) /\
  forall host server,
    In host hosts ->
    _search_fitting_server (_hcloud_servers p) (hostname group host)
      server_type image is_control is_worker = Some server ->
    exists ip, _get_current_ip server = Ok ip.
Proof.
  induction hosts as [|host hosts IH]; intros lm p lm' p' H; cbn [fold_M map flat_map] in *.
  - injection H as _ <-. rewrite !app_nil_r. split; [reflexivity|intros ? ? []].
  - apply bind_Done_inv in H. destruct H as (lm1 & p1 & Hadd & H).
    destruct (add_host_connecting _ _ _ _ _ _ _ _ _ _ _ Hadd) as [S1 Hip1].
    assert (Hs : _hcloud_servers p1 = _hcloud_servers p).
    { change (fst (fst (connecting p1)) = _hcloud_servers p). now rewrite S1. }
    destruct (IH _ _ _ _ H) as [S Hip]. rewrite Hs in S, Hip. split.
    + rewrite S, S1. cbn [fst snd]. now rewrite <- !app_assoc.
    + intros h s [<-|Hin]; [apply Hip1|now apply Hip].
Qed.

Lemma flat_map_of_map {A B C} (f : B -> list C) (g : A -> B) l :
  flat_map f (map g l) = flat_map (fun x => f (g x)) l.
Proof. induction l as [|x l IH]; [reflexivity|]. cbn [map flat_map]. now rewrite IH. Qed.

Lemma prepare_group_connecting config group p p' :
  _prepare_group config group p = Done tt p' ->
  connecting p'
  = (_hcloud_servers p,
     snd (fst (connecting p)) ++
     map (create_flag config (_hcloud_servers p)) (group_hosts config group),
     snd (connecting p) ++
     flat_map (host_connection config (_hcloud_servers p)) (group_hosts config group)) /\
  forall h server,
    In h (group_hosts config group) ->
    claimed config (_hcloud_servers p) h = Some server ->
    exists ip, _get_current_ip server = Ok ip.
Proof.
  intros H. unfold _prepare_group in H.
  apply connecting_step in H; [|keeping]. destruct H as ([] & q1 & H & S1).
  apply connecting_step in H; [|keeping]. destruct H as ([] & q2 & H & S2).
  apply connecting_step in H; [|keeping]. destruct H as ([] & q3 & H & S3).
  destruct (_get_group_config config group g_type) as [server_type|] eqn:Htype;
    [|discriminate].
  destruct (String.eqb server_type ""); [discriminate|].
  apply connecting_step in H; [|keeping]. destruct H as ([] & q4 & H & S4).
  destruct (String.eqb (default "debian-12" (_get_group_config config group g_image)) "");
    [discriminate|].
  apply connecting_step in H; [|keeping]. destruct H as ([] & q5 & H & S5).
  destruct (_get_group_config config group g_num) as [num_hosts|] eqn:Hnum;
    [|discriminate].
  apply bind_Done_inv in H. destruct H as (lm & q6 & Hfold & H).
  injection H as <-.
  assert (S : connecting q5 = connecting p) by congruence.
  assert (Hs : _hcloud_servers q5 = _hcloud_servers p).
  { change (fst (fst (connecting q5)) = fst (fst (connecting p))). now rewrite S. }
  destruct (add_hosts_connecting _ _ _ _ _ _ _ _ _ _ _ Hfold) as [S' Hip].
  rewrite Hs in S', Hip. rewrite S in S'.
  unfold group_hosts. rewrite Hnum. cbn [default].
  rewrite map_map, flat_map_of_map.
  unfold create_flag, host_connection, claimed, desired_hostname. cbn [fst snd].
  rewrite Htype. cbn [default]. split; [exact S'|].
  intros h server Hin. apply in_map_iff in Hin. destruct Hin as (host & <- & Hin).
  cbn [fst snd]. rewrite Htype. cbn [default]. now apply Hip.
Qed.

Lemma prepare_groups_connecting config groups : forall p p',
  for_ groups (_prepare_group config) p = Done tt p' ->
  connecting p'
  = (_hcloud_servers p,
     snd (fst (connecting p)) ++
     map (create_flag config (_hcloud_servers p)) (flat_map (group_hosts config) groups),
     snd (connecting p) ++
     flat_map (host_connection config (_hcloud_servers p))
              (flat_map (group_hosts config) groups)) /\
  forall h server,
    In h (flat_map (group_hosts config) groups) ->
    claimed config (_hcloud_servers p) h = Some server ->
    exists ip, _get_current_ip server = Ok ip.
Proof.
  induction groups as [|group groups IH]; intros p p' H; cbn [for_ flat_map map] in *.
  - injection H as <-. rewrite !app_nil_r. split; [reflexivity|intros ? ? []].
  - apply bind_Done_inv in H. destruct H as ([] & p1 & Hgroup & H).
    destruct (prepare_group_connecting _ _ _ _ Hgroup) as [S1 Hip1].
    assert (Hs : _hcloud_servers p1 = _hcloud_servers p).
    { change (fst (fst (connecting p1)) = _hcloud_servers p). now rewrite S1. }
    destruct (IH _ _ H) as [S Hip]. rewrite Hs in S, Hip. split.
    + rewrite S, S1. cbn [fst snd]. now rewrite map_app, flat_map_app, <- !app_assoc.
    + intros h s Hin. apply in_app_or in Hin. destruct Hin as [Hin|Hin];
        [now apply Hip1|now apply Hip].
Qed.

(** The loop of [_clean_hetzner_server] only completes when every
    server it reports has a public address. *)
Lemma clean_loop_reached servers : forall p p',
  for_ servers (fun server =>
    p ← get;
    if unmanaged p server
    then
      let new_name :=
        if negb (Str.startswith "remove-" (server_name server))
        then "remove-" +:+ server_name server
        else server_name server in
      emit (add_host new_name "unmanaged") ;;
      emit (set_variable new_name "old_name" (VStr (server_name server))) ;;
      ip ← lift (_get_current_ip server);
      emit (set_variable new_name "ansible_host" (VStr ip))
    else mret tt) p = Done tt p' ->
  Forall (fun s => exists ip, _get_current_ip s = Ok ip) (List.filter (unmanaged p) servers).
Proof.
  induction servers as [|server servers IH]; cbn [for_ List.filter]; intros p p' H;
    [constructor|].
  apply bind_Done_inv in H. destruct H as ([] & p1 & Hbody & H).
  apply IH in H.
  apply bind_Done_inv in Hbody. destruct Hbody as (p0 & p0' & Hget & Hbody).
  injection Hget as <- <-.
  destruct (unmanaged p server) eqn:Hun.
  - cbv zeta in Hbody.
    apply bind_Done_inv in Hbody. destruct Hbody as ([] & q1 & E1 & Hbody).
    apply bind_Done_inv in Hbody. destruct Hbody as ([] & q2 & E2 & Hbody).
    apply bind_Done_inv in Hbody. destruct Hbody as (ip & q3 & E3 & Hbody).
    apply emit_Done in E1, E2, Hbody.
    destruct E1 as [C1 I1], E2 as [C2 I2], Hbody as [C3 I3].
    destruct (_get_current_ip server) as [ip'|e] eqn:Hip; [|discriminate].
    injection E3 as <- <-.
    assert (Ec : _hetzner_servers_configured p1 = _hetzner_servers_configured p)
      by congruence.
    rewrite (filter_ext _ _ (fun s => unmanaged_same_claims p p1 s Ec)) in H.
    constructor; [eauto|exact H].
  - injection Hbody as <-. exact H.
Qed.

Lemma unmanaged_calls_connecting servers :
  variable_settings "create" (flat_map unmanaged_calls servers) = [] /\
  variable_settings "ansible_host" (flat_map unmanaged_calls servers)
  = flat_map (fun s => reached (unmanaged_name s) s) servers.
Proof.
  induction servers as [|s servers [IH1 IH2]]; [split; reflexivity|].
  cbn [flat_map]. rewrite !variable_settings_app, IH1, IH2.
  unfold unmanaged_calls, unmanaged_name, reached.
  destruct (_get_current_ip s); split; reflexivity.
Qed.

(** The [create] flags and the connection addresses a complete
    [_initialize_inventory] has set. *)
Lemma initialize_inventory_connecting config p p' :
  _initialize_inventory config p = Done tt p' ->
  variable_settings "create" (_inventory p')
  = variable_settings "create" (_inventory p) ++
    map (create_flag config (_hcloud_servers p)) (desired_hosts config) /\
  variable_settings "ansible_host" (_inventory p')
  = variable_settings "ansible_host" (_inventory p) ++
    flat_map (host_connection config (_hcloud_servers p)) (desired_hosts config) ++
    flat_map (fun s => reached (unmanaged_name s) s) (unmanaged_report p') /\
  (forall h server,
     In h (desired_hosts config) ->
     claimed config (_hcloud_servers p) h = Some server ->
     exists ip, _get_current_ip server = Ok ip) /\
  Forall (fun s => exists ip, _get_current_ip s = Ok ip) (unmanaged_report p').
Proof.
  unfold _initialize_inventory. intros H.
  apply connecting_step in H; [|keeping]. destruct H as ([] & q1 & H & S1).
  apply connecting_step in H; [|keeping]. destruct H as ([] & q2 & H & S2).
  apply connecting_step in H; [|keeping]. destruct H as ([] & q3 & H & S3).
  apply connecting_step in H; [|keeping]. destruct H as ([] & q4 & H & S4).
  apply connecting_step in H; [|unfold _init_host_time_assigner; keeping].
  destruct H as ([] & q5 & H & S5).
  apply connecting_step in H; [|keeping]. destruct H as (nm & q6 & H & S6).
  apply connecting_step in H; [|keeping]. destruct H as ([] & q7 & H & S7).
  apply connecting_step in H; [|keeping]. destruct H as (p0 & q8 & H & S8).
  apply connecting_step in H; [|unfold reserve_existing; keeping].
  destruct H as ([] & q9 & H & S9).
  apply bind_Done_inv in H. destruct H as ([] & q10 & Hgroups & H).
  assert (S : connecting q9 = connecting p) by congruence.
  assert (Hs : _hcloud_servers q9 = _hcloud_servers p).
  { change (fst (fst (connecting q9)) = fst (fst (connecting p))). now rewrite S. }
  destruct (prepare_groups_connecting _ _ _ _ Hgroups) as [S10 Hip].
  rewrite Hs in S10, Hip. rewrite S in S10.
  apply bind_Done_inv in H. destruct H as ([] & q11 & Horphan & H).
  pose proof (preserves_set_orphan_volumes _ _ _ Horphan) as [Hso Hco].
  assert (S11 : connecting q11 = connecting q10).
  { revert Horphan. generalize q10 tt q11.
    change (keeps connecting _set_orphan_volumes_for_cleanup).
    unfold _set_orphan_volumes_for_cleanup. keeping. }
  apply bind_Done_inv in H. destruct H as ([] & q12 & Hclean & H).
  pose proof (preserves_clean_hetzner_server _ _ _ Hclean) as [Hsq Hcq].
  assert (Hreach : Forall (fun s => exists ip, _get_current_ip s = Ok ip)
                          (unmanaged_report q11)).
  { unfold _clean_hetzner_server in Hclean.
    apply bind_Done_inv in Hclean. destruct Hclean as (p1 & p1' & Hget & Hclean).
    injection Hget as <- <-. apply clean_loop_reached in Hclean. exact Hclean. }
  apply clean_hetzner_server_calls in Hclean.
  pose proof (preserves_emit _ _ _ _ H) as [Hsf Hcf].
  assert (K0 : keeps connecting (emit (set_variable "all" "ansible_user" (VStr "root"))))
    by keeping.
  apply K0 in H.
  assert (Hrep : unmanaged_report p' = unmanaged_report q11)
    by (apply unmanaged_report_same; congruence).
  rewrite Hrep.
  destruct (unmanaged_calls_connecting (unmanaged_report q11)) as [U1 U2].
  assert (S12 : connecting q12
                = (fst (fst (connecting q11)), snd (fst (connecting q11)),
                   snd (connecting q11) ++
                   flat_map (fun s => reached (unmanaged_name s) s) (unmanaged_report q11))).
  { unfold connecting. cbn [fst snd]. rewrite Hsq, Hclean, !variable_settings_app, U1, U2.
    now rewrite app_nil_r. }
  assert (E : connecting p'
              = (fst (fst (connecting p)),
                 snd (fst (connecting p)) ++
                 map (create_flag config (_hcloud_servers p)) (desired_hosts config),
                 (snd (connecting p) ++
                  flat_map (host_connection config (_hcloud_servers p)) (desired_hosts config)) ++
                 flat_map (fun s => reached (unmanaged_name s) s) (unmanaged_report q11))).
  { rewrite H, S12, S11, S10. reflexivity. }
  split; [|split; [|split; [exact Hip|exact Hreach]]].
  - change (snd (fst (connecting p'))
            = snd (fst (connecting p)) ++
              map (create_flag config (_hcloud_servers p)) (desired_hosts config)).
    now rewrite E.
  - change (snd (connecting p')
            = snd (connecting p) ++
              flat_map (host_connection config (_hcloud_servers p)) (desired_hosts config) ++
              flat_map (fun s => reached (unmanaged_name s) s) (unmanaged_report q11)).
    rewrite E. cbn [snd]. now rewrite <- app_assoc.
Qed.

End Connections.

(** X28 — a pass that completes has set [create] once for every desired
    host, in order, to true exactly when the host has found no server.
    It has set [ansible_host] for the desired hosts that have found a
    server and, after them, for the servers it reports as unmanaged, and
    for nothing else; the value is the primary IPv4 address of the
    server, or the address derived from its IPv6 network when it has no
    IPv4 address.  The pass completes only if every server that a host
    has found or that it reports has one of the two. *)
Theorem X28_create_and_ansible_host config cloud servers inventory p :
  servers_get_all cloud = inr servers ->
  InventoryModule.parse config cloud (fresh inventory) = Done tt p ->
  variable_settings "create" (_inventory p)
  = variable_settings "create" inventory ++
    map (create_flag config servers) (desired_hosts config) /\
  variable_settings "ansible_host" (_inventory p)
  = variable_settings "ansible_host" inventory ++
    flat_map (host_connection config servers) (desired_hosts config) ++
    flat_map (fun s => reached (unmanaged_name s) s) (unmanaged_report p) /\
  (forall h server,
     In h (desired_hosts config) -> claimed config servers h = Some server ->
     host_connection config servers h
     = [(desired_hostname h,
         VStr (default (default "" (primary_ipv6_host server)) (primary_ipv4 server)))] /\
     (primary_ipv4 server <> None \/ primary_ipv6_host server <> None)) /\
  Forall (fun s =>
            reached (unmanaged_name s) s
            = [(unmanaged_name s,
                VStr (default (default "" (primary_ipv6_host s)) (primary_ipv4 s)))] /\
            (primary_ipv4 s <> None \/ primary_ipv6_host s <> None))
         (unmanaged_report p).
Proof.
  intros Hservers H. apply parse_Done_stages in H.
  destruct H as (servers0 & hvs & _ & Hs0 & _ & _ & H).
  assert (servers0 = servers) by congruence. subst servers0.
  apply initialize_inventory_connecting in H. cbn [_inventory _hcloud_servers] in H.
  destruct H as (Hcreate & Hhost & Hfound & Hreport).
  assert (Hip : forall name s,
            (exists ip, InventoryModule._get_current_ip s = Ok ip) ->
            reached name s
            = [(name, VStr (default (default "" (primary_ipv6_host s)) (primary_ipv4 s)))] /\
            (primary_ipv4 s <> None \/ primary_ipv6_host s <> None)).
  { intros name s [ip Hip]. unfold reached. rewrite Hip.
    unfold InventoryModule._get_current_ip in Hip.
    destruct (primary_ipv4 s) as [v4|]; [injection Hip as <-; split; [reflexivity|now left]|].
    destruct (primary_ipv6_host s) as [v6|]; [|discriminate].
    injection Hip as <-. split; [reflexivity|now right]. }
  split; [exact Hcreate|]. split; [exact Hhost|]. split.
  - intros h server Hin Hc. unfold host_connection. rewrite Hc.
    apply Hip. eapply Hfound; eassumption.
  - eapply Forall_impl; [exact Hreport|]. intros s Hs. now apply Hip.
Qed.

Lemma X28_create_and_ansible_host_witness :
  exists p,
    InventoryModule.parse Sample.small_cluster
      (mkCloudAPI (inr [Sample.server_control_1; Sample.server_stray]) (inr []))
      (fresh []) = Done tt p /\
    variable_settings "create" (_inventory p)
    = [("control-1", VBool false); ("control-2", VBool true); ("control-3", VBool true);
       ("worker-small-1", VBool true); ("worker-small-2", VBool true)] /\
    variable_settings "ansible_host" (_inventory p)
    = [("control-1", VStr "203.0.113.11"); ("remove-stray", VStr "203.0.113.12")] /\
    variable_settings "create" (_inventory p)
    = variable_settings "create" [] ++
      map (create_flag Sample.small_cluster [Sample.server_control_1; Sample.server_stray])
          (desired_hosts Sample.small_cluster).
Proof.
  eexists. split; [vm_compute; reflexivity|].
  split; [vm_compute; reflexivity|]. split; [vm_compute; reflexivity|].
  match goal with
  | |- context [_inventory ?q] =>
      destruct (X28_create_and_ansible_host Sample.small_cluster
                  (mkCloudAPI (inr [Sample.server_control_1; Sample.server_stray]) (inr []))
                  [Sample.server_control_1; Sample.server_stray] [] q)
        as (Hset & _)
  end.
  - reflexivity.
  - vm_compute. reflexivity.
  - exact Hset.
Defined.

(** X13 — for a configuration whose values have the types of the schema
    and whose group names hold no dot, the reads of the validation are
    the dotted reads of the code, and [_validate_config_structure] lets
    the configuration pass exactly when it has node groups, a cloud token
    and both ends of the upgrade window, every group has a role, a server
    type and a replica count, some group is a control group and some
    group a worker group, the control plane count is not 2, and every
    volume has a name and a size.  Whatever it raises is an
    [AnsibleError]. *)
Theorem X13_structure_accepted_iff config :
  plain_group_names config ->
  (forall group,
     In group (Dict.keys (nodes config)) ->
     RawConfig._get_group_config (yaml_of_config config) group "is_control"
     = Some (typed_answer YBool
               (InventoryModule._get_group_config config group g_is_control)) /\
     RawConfig._get_group_config (yaml_of_config config) group "is_worker"
     = Some (typed_answer YBool
               (InventoryModule._get_group_config config group g_is_worker)) /\
     RawConfig._get_group_config (yaml_of_config config) group "num"
     = Some (typed_answer YNum (InventoryModule._get_group_config config group g_num)) /\
     RawConfig._get_group_config (yaml_of_config config) group "type"
     = Some (typed_answer YStr (InventoryModule._get_group_config config group g_type))) /\
  (InventoryModule._validate_config_structure config = Ok tt <->
   nodes config <> [] /\
   InventoryModule.truthy_str (hetzner_token_cloud config) = true /\
   InventoryModule.truthy_str (unattended_upgrades_start_time config) = true /\
   InventoryModule.truthy_str (unattended_upgrades_end_time config) = true /\
   Forall (group_well_formed config) (Dict.keys (nodes config)) /\
   Exists (fun g => InventoryModule.truthy_bool
                      (InventoryModule._get_group_config config g g_is_control) = true)
          (Dict.keys (nodes config)) /\
   Exists (fun g => InventoryModule.truthy_bool
                      (InventoryModule._get_group_config config g g_is_worker) = true)
          (Dict.keys (nodes config)) /\
   control_count config <> 2 /\
   Forall volume_well_formed (volumes config)) /\
  (forall e, InventoryModule._validate_config_structure config = Err e ->
             exists m, e = AnsibleError m).
Proof.
  intros Hplain. split; [|split].
  - intros group Hin.
    assert (Hg : Str.has_char "." group = false).
    { unfold plain_group_names in Hplain. rewrite Forall_forall in Hplain.
      apply Hplain, list_elem_of_In, Hin. }
    repeat split; rewrite group_field_walk by (exact Hg || reflexivity);
      unfold InventoryModule._get_group_config;
      (destruct (Dict.get group (nodes config)) as [[t i n ic iw s l]|]; [|reflexivity]);
      destruct t, i, n, ic, iw, s, l; reflexivity.
  - apply structure_accepted.
  - apply structure_accepted.
Qed.

Lemma X13_structure_accepted_iff_witness :
  plain_group_names Sample.small_cluster /\
  InventoryModule._validate_config_structure Sample.small_cluster = Ok tt /\
  Forall (group_well_formed Sample.small_cluster) (Dict.keys (nodes Sample.small_cluster)).
Proof.
  assert (Hplain : plain_group_names Sample.small_cluster) by (repeat constructor).
  split; [exact Hplain|]. split; [reflexivity|].
  destruct (X13_structure_accepted_iff Sample.small_cluster Hplain) as (_ & [Hto _] & _).
  apply Hto. reflexivity.
Defined.
